(* ===== verification/_CoqProject ===== *)
-Q . S2P
Prelude.v
DList.v
HList.v
ListHead.v
Threads.v
ThreadMachine.v
ThreadInv.v
ThreadSafety.v
ThreadReach.v
ThreadTheorems.v
Bytes.v
Text.v
Bitmap.v
StateMonad.v
Disk.v
Super.v
Inode.v
InodeHash.v
ReadWrite.v
FileBlocks.v
ReadWriteSpec.v
World.v
Dir.v
DirSpec.v
DirOps.v
DirCreate.v
DirTheorems.v
FsCmd.v
FsTheorems.v
WebCache.v
WordCount.v
Factorial.v
CopyTree.v
WebCacheSpec.v
WebCacheTheorems.v
Rio.v
WebRequest.v
WebClient.v
WebServer.v
WebRequestSpec.v
WebServerSpec.v
WebTheorems.v
FileSet.v
WebWorkers.v
WebWorkersSpec.v
WebWorkersTheorems.v
WebPool.v
WebPoolSpec.v
WebPoolTheorems.v
WebSystem.v
WebSystemTheorems.v
