(* ===== verification/Prelude.v ===== *)
(** * Verification of a user-level thread package, a web server and a file system

    The repository holds three C systems that do not call each other, and some
    exercises:

    - src/threads: a user-level thread package (thread.c) with a timer that
      preempts its threads (interrupt.c);
    - src/fs: testfs, a small Unix-like file system on a file that stands for a
      disk, its shell (testfs.c) and its formatter (mktestfs.c);
    - src/webserver: a web server with a bounded queue of connections, a pool of
      worker threads and a file cache (server_thread.c), HTTP requests and
      responses (request.c), buffered input and output (common.c), and a client
      that checks what it receives (client.c);
    - src/warmup: exercises, of which the word counter wc.c, the recursive copy
      cpr.c and the factorial fact.c are modelled.

    ** How C is modelled

    A C function is a Rocq function with the same name and the same branches.
    Its outcome is [res] (this file): [Ret] of its result, or [Fail] of a fault:
    a failed assert, a call of exit, a step that C leaves undefined (a NULL or
    freed object read, an index out of range, a division by zero, a signed
    overflow where the code can reach one, a string that does not fit in its
    buffer), or [Diverge]
    when the fuel of a loop is used up.  Integers are [Z], wrapped to their
    width where the code can leave it ([u32], [s32], [u64], [s64]).  Shared
    state is passed explicitly, in the file system and the web server through
    the state monad of StateMonad.v.  malloc is a parameter (an oracle) where the
    code handles its failure and never fails where the code exits on it.

    ** Files

    Shared: this file (outcomes, integers, lists), Bytes.v (buffers, memcpy,
    little-endian integers), Text.v (numbers, words and substrings of C strings),
    StateMonad.v, DList.v (the doubly linked list that thread.c and
    server_thread.c both have: nodes and pointers, and the sequence it
    stands for; Modules [ReadyQueue] and [CacheLru]), HList.v and ListHead.v
    (fs/list.h: lists with one pointer as head and circular lists, on memories
    of pointers).

    The thread package: Threads.v ([st] is the state of thread.c and every
    operation works on it), ThreadMachine.v (the machine: client calls,
    preemption by interrupt_handler, and the resumption of saved contexts; a
    thread saved by getcontext is an activation in its TCB), ThreadInv.v and
    ThreadSafety.v (the invariant and its preservation by every operation),
    ThreadReach.v (reachable configurations), ThreadTheorems.v.

    The file system, from the bottom: Bitmap.v (bitmap.c), Disk.v (block.c: the
    device), Super.v (super.c: the super block and the free maps; mkfs of
    mktestfs.c), Inode.v (inode.c: inodes, the inode hash table), InodeHash.v
    (the same table with its pointers), ReadWrite.v
    (read_write.c: data blocks), FileBlocks.v and ReadWriteSpec.v (files as
    sequences of blocks), World.v (the invariant of a mounted file system
    and the abstract file of every inode), Dir.v (dir.c), DirSpec.v to
    DirTheorems.v (directories as lists of entries), FsCmd.v (file.c, common.c,
    testfs.c, mktestfs.c: the shell), FsTheorems.v.

    The web server: WebCache.v, WebCacheSpec.v and WebCacheTheorems.v (the file
    cache and the abstract least-recently-used cache it implements), Rio.v
    (common.c), WebRequest.v (request.c), WebClient.v (client.c), WebServer.v
    (do_server_request), WebRequestSpec.v, WebServerSpec.v, WebTheorems.v,
    WebWorkers.v, WebWorkersSpec.v and WebWorkersTheorems.v (several workers
    inside do_server_request: its pieces between the critical sections of
    cache_access and inflight_access, in any order);
    WebPool.v, WebPoolSpec.v and WebPoolTheorems.v (server_request, the workers
    and server_exit as a machine whose steps are the critical sections of the
    mutex mp); WebSystem.v and WebSystemTheorems.v (the pool whose workers go
    through do_server_request step by step).

    FileSet.v has the generator of the files that are requested (fileset.c) and
    the list of them that the client reads (init_fileset of client.c).

    WordCount.v (warmup/wc.c), CopyTree.v (warmup/cpr.c, over a class of system
    calls with their laws) and Factorial.v (warmup/fact.c) stand alone.

    ** What the theorems show

    - Threads, for clients that keep to the contract of thread.h ([client_ok]
      of ThreadReach.v: destroyed objects have no users left; thread_kill of
      -7..-1 and thread_wait past the table are excluded, as they read out of
      bounds, kill_wait_bad_ids): no reachable configuration has failed or
      taken an undefined step, except that the last thread frees the stack it
      runs on unless it is thread 0 (reachable_safe, thread_exit_spec,
      last_exit_frees_own_stack); one thread runs, the queues agree with the
      states; no thread is lost without thread_kill (no_thread_lost), and two
      schedules with it on which one is; destroying a queue with sleepers loses
      them (destroy_loses_sleepers); a lock is only changed by its holder
      (lock_exclusion, acquire_returns_held); stacks are live (stacks_live); the
      operations on every branch (thread_yield_spec, yield_resumes); the linked
      list refines a sequence (ready_queue_runs_refine).
    - File system: what each operation does to files, maps and the device
      (write_data_spec, read_data_spec, remove_inode_spec, create_spec, rm_spec,
      dir_lookup_spec), round trips (write_read_roundtrip, inode_persists,
      create_rm_roundtrip, alloc_free_roundtrip), mounting the device at any
      moment gives the super block and the maps in memory
      (mount_written_through), a formatted device is ready
      (root_dir_spec), a session of the shell (session_runs), and the inputs on
      which the code fails (write_offset_wraps, read_size_wraps,
      ls_of_file_aborts).
    - Lists: the operations of fs/list.h refine the operations on sequences
      (list_refines, hlist_refines), and the inode hash table with its pointers
      answers what the table of sequences answers (inode_hash_refined).
    - Web server: with room in the cache every connection is answered with its
      file in any order of all the threads' steps, and the steps come to an end
      (server_answers_all); the queue is bounded, first in first out, and every
      connection is handled once (pool_safe); no wakeup is lost (pool_drains);
      the cache refines an abstract cache (cache_insert_spec, cache_lookup_spec,
      destroy_cache_spec); what a client receives does not depend on the cache
      or on how bytes are cut into pieces (serve_all_spec, fetch_roundtrip),
      nor on how the workers interleave when the cache has room for their files
      (workers_safe, phases_are_do_server_request);
      which files are never read (readfile_safe); error responses
      (refused_answered); and the failures (race_use_after_free, refused_cached_crashes,
      headers_hang, readline_bounds, small_cache_crashes, exit_can_hang,
      exit_joins_wrong).
    - File sets: the generator comes to its end, and the client reads from its
      index what the files are (fileset_roundtrip); it accepts those that fit in
      its buffer, and writes past it for the others (fileset_client).
    - Exercises: the word counter counts the words of a text (wc_init_counts);
      the copy of a file is exact or a beginning of it (copyOverFile_spec), and
      that of a directory writes past a buffer at its first entry that is not a
      regular file (dealWithDirectory_spec); the factorial program does not
      overflow (fact_main_spec).

    ** Fuel and bounds

    A loop that is not structural has fuel, computed from the state where the
    definition is used, and its theorems prove that the run returns: the loop of
    lock_acquire is unrolled at most LOCK_FUEL times and lock_acquire_fuel_enough
    shows that more changes nothing; a directory is walked with one step for
    each of its bytes, and an entry takes more than eight; insert_to_cache calls itself once at most
    (INSERT_FUEL is 2), and each eviction shortens the LRU list; the loops on
    lines have one step for each pending byte.  The file system is parametric
    in the geometry of the disk (class [Geometry] of Disk.v: block size and the
    numbers of blocks); the instance [testfs] has the sizes of testfs.h, and the
    witnesses run on small instances.  Caches are smaller than 2^30 bytes, so
    that the sum of two sizes fits in an int.

    ** What is simplified

    - The chains of the hash tables, the wait queues, the queue of connections
      and the queue of files in flight are sequences; for the inode hash table
      InodeHash.v shows that nothing is lost by that.
    - One super block is mounted at a time: the test in->sb == sb of
      inode_hash_find is always true and left out ([has_nr] of InodeHash.v).
    - A file that the web server reads has the same size and contents, and opens
      or does not open, at every request; its name decides.
    - hash_value wraps when its signed sum overflows, as the compiled code does.
    - The kernel, the disk of the server and the peers of its connections are
      environments: what each read and write answers, in sequence.
    - WebPool.v takes do_server_request as one step, WebSystem.v its pieces.
      In WebWorkers.v a worker
      that would have to evict a file in flight diverges instead of waiting for
      the worker that sends it.

    ** Not modelled

    Signal and timer set-up, the demonstration and test programs of
    src/threads; the starter copy under src/cpy (stubs); sockets and random
    numbers of webserver/common.c (doubles); the main programs of the web server
    and of its client, and the options of fileset.c (popt, poll, system calls);
    client_simple.c; request_processfile,
    which only spends time; the other warm-up exercises; testers and
    scripts. *)

From stdpp Require Export prelude gmap list strings.
From Stdlib Require Export ZArith Lia.

#[global] Open Scope Z_scope.

(** ** C outcomes

    A C function that runs to completion returns [Ret]; the other outcomes
    are a failed [assert], a call to [exit], and a step the C standard leaves
    undefined (a NULL or dangling pointer dereferenced, an array index out of
    range, ...).  [FreedStack] is a step that is undefined because the code
    frees the stack it is running on and goes on.  [Diverge] is what a loop
    returns when the fuel that bounds it in the model is used up. *)
Inductive fault : Type :=
| Assert
| Exit (code : Z)
| Undef
| FreedStack
| Diverge.

Inductive res (A : Type) : Type :=
| Ret (a : A)
| Fail (e : fault).
Arguments Ret {A} a.
Arguments Fail {A} e.

#[global] Instance fault_eq_dec : EqDecision fault.
Proof. solve_decision. Defined.

#[global] Instance res_ret : MRet res := fun A a => Ret a.
#[global] Instance res_bind : MBind res :=
  fun A B f m => match m with Ret a => f a | Fail e => Fail e end.
#[global] Instance res_fmap : FMap res :=
  fun A B f m => match m with Ret a => Ret (f a) | Fail e => Fail e end.

(** [assert(b)] *)
Definition c_assert (b : bool) : res unit := if b then Ret tt else Fail Assert.

(** A partial read whose failure is undefined behaviour. *)
Definition deref {A} (o : option A) : res A :=
  match o with Some a => Ret a | None => Fail Undef end.

Lemma bind_ret {A B} (a : A) (f : A -> res B) : (Ret a ≫= f) = f a.
Proof. reflexivity. Qed.

Lemma bind_ret_inv {A B} (m : res A) (f : A -> res B) b :
  (m ≫= f) = Ret b -> exists a, m = Ret a /\ f a = Ret b.
Proof. destruct m; simpl; [eauto | discriminate]. Qed.

Lemma deref_Some {A} (o : option A) a : o = Some a -> deref o = Ret a.
Proof. by intros ->. Qed.

Lemma deref_inv {A} (o : option A) a : deref o = Ret a -> o = Some a.
Proof. by destruct o; intros; simplify_eq/=. Qed.

Lemma c_assert_true b : b = true -> c_assert b = Ret tt.
Proof. by intros ->. Qed.

Lemma c_assert_inv b u : c_assert b = Ret u -> b = true.
Proof. by destruct b. Qed.

(** ** Machine integers

    A C integer is a [Z] kept in range by the wrap functions of its width. *)
Definition u8 (z : Z) : Z := z mod 2 ^ 8.
Definition u32 (z : Z) : Z := z mod 2 ^ 32.
Definition u64 (z : Z) : Z := z mod 2 ^ 64.
Definition s32 (z : Z) : Z := (z + 2 ^ 31) mod 2 ^ 32 - 2 ^ 31.
Definition s64 (z : Z) : Z := (z + 2 ^ 63) mod 2 ^ 64 - 2 ^ 63.

Definition in_s32 (z : Z) : Prop := - 2 ^ 31 <= z < 2 ^ 31.
Definition in_u32 (z : Z) : Prop := 0 <= z < 2 ^ 32.
Definition in_s64 (z : Z) : Prop := - 2 ^ 63 <= z < 2 ^ 63.
Definition in_u64 (z : Z) : Prop := 0 <= z < 2 ^ 64.

Lemma u32_small z : in_u32 z -> u32 z = z.
Proof. apply Z.mod_small. Qed.
Lemma u64_small z : in_u64 z -> u64 z = z.
Proof. apply Z.mod_small. Qed.
Lemma s32_small z : in_s32 z -> s32 z = z.
Proof. unfold in_s32, s32. intros H. rewrite Z.mod_small; lia. Qed.
Lemma s64_small z : in_s64 z -> s64 z = z.
Proof. unfold in_s64, s64. intros H. rewrite Z.mod_small; lia. Qed.

Lemma u32_range z : in_u32 (u32 z).
Proof. apply Z.mod_pos_bound; lia. Qed.
Lemma s32_range z : in_s32 (s32 z).
Proof. unfold in_s32, s32. pose proof (Z.mod_pos_bound (z + 2 ^ 31) (2 ^ 32)); lia. Qed.
Lemma s64_range z : in_s64 (s64 z).
Proof. unfold in_s64, s64. pose proof (Z.mod_pos_bound (z + 2 ^ 63) (2 ^ 64)); lia. Qed.

(** The product of two ints; a result that is not an int is undefined. *)
Definition mul_s32 (a b : Z) : res Z := let r := a * b in if s32 r =? r then Ret r else Fail Undef.
Lemma mul_s32_run a b : in_s32 (a * b) -> mul_s32 a b = Ret (a * b).
Proof. intros H. unfold mul_s32. by rewrite s32_small, Z.eqb_refl. Qed.

(** ** The development's automation *)
Create HintDb c_db.
#[export] Hint Resolve deref_Some c_assert_true u32_range s32_range s64_range : c_db.

(** [simpl_res] runs the binds whose first computation is known to return. *)
Ltac simpl_res :=
  repeat match goal with
  | |- context [Ret _ ≫= _] => rewrite bind_ret
  | H : context [Ret _ ≫= _] |- _ => rewrite bind_ret in H
  end; cbn beta iota.

(** [inv_res H] turns [H : (m ≫= f) = Ret b] into the run of [m] and of [f]. *)
Ltac inv_res H :=
  let a := fresh "a" in let H1 := fresh H in
  apply bind_ret_inv in H as (a & H1 & H).

(** ** Lists *)
Section lists.
Context {A : Type}.
Implicit Types (xs ys : list A) (f : A -> bool).

(** The list without its first element that satisfies [f], and that element. *)
Fixpoint rm_first f xs : option (A * list A) :=
  match xs with
  | [] => None
  | x :: xs' => if f x then Some (x, xs')
                else '(y, ys) ← rm_first f xs'; Some (y, x :: ys)
  end.

Lemma rm_first_Some f xs y ys :
  rm_first f xs = Some (y, ys) ->
  exists l r, xs = l ++ y :: r /\ ys = l ++ r /\ f y = true /\ Forall (fun x => f x = false) l.
Proof.
  revert ys. induction xs as [|x xs IH]; intros ys H; simpl in H; [discriminate|].
  destruct (f x) eqn:Hf; simplify_eq.
  - by exists [], ys.
  - destruct (rm_first f xs) as [[z zs]|] eqn:E; simplify_eq/=.
    destruct (IH zs eq_refl) as (l & r & -> & -> & ? & ?).
    exists (x :: l), r. split_and!; auto.
Qed.

Lemma rm_first_None f xs : rm_first f xs = None <-> Forall (fun x => f x = false) xs.
Proof.
  induction xs as [|x xs IH]; simpl; [by split|].
  rewrite Forall_cons. destruct (f x) eqn:Hf; [naive_solver|].
  destruct (rm_first f xs) as [[]|]; naive_solver.
Qed.

Lemma rm_first_app f l x r :
  Forall (fun y => f y = false) l -> f x = true ->
  rm_first f (l ++ x :: r) = Some (x, l ++ r).
Proof.
  induction 1 as [|y l Hy Hl IH]; intros Hx; simpl; [by rewrite Hx|].
  by rewrite Hy, (IH Hx).
Qed.

Lemma rm_first_Permutation f xs y ys :
  rm_first f xs = Some (y, ys) -> xs ≡ₚ y :: ys.
Proof.
  intros (l & r & -> & -> & _)%rm_first_Some. by rewrite Permutation_middle.
Qed.

(** What a removal that looks at the ends first takes from a list. *)
Definition remove_ends f xs : option (A * list A) :=
  match xs with
  | [] => None
  | x :: xs' =>
      if f x then Some (x, xs')
      else match last xs with
           | Some y => if f y then Some (y, removelast xs) else rm_first f xs
           | None => None
           end
  end.


Lemma last_removelast xs x : last xs = Some x -> xs = removelast xs ++ [x].
Proof. intros [l' ->]%last_Some. by rewrite removelast_last. Qed.

Lemma remove_ends_Permutation f xs y ys :
  remove_ends f xs = Some (y, ys) -> f y = true /\ xs ≡ₚ y :: ys.
Proof.
  destruct xs as [|x xs]; [done|]. unfold remove_ends.
  destruct (f x) eqn:Hx; [intros [= <- <-]; done|].
  destruct (last (x :: xs)) as [z|] eqn:Hl; [|done].
  destruct (f z) eqn:Hz.
  - apply last_removelast in Hl. intros H. injection H as <- Hys. split; [done|].
    rewrite Hl. rewrite <- Hys. by rewrite Permutation_app_comm.
  - intros H. split; [|by eapply rm_first_Permutation].
    by apply rm_first_Some in H as (? & ? & _ & _ & ? & _).
Qed.

Lemma remove_ends_None f xs : remove_ends f xs = None <-> Forall (fun x => f x = false) xs.
Proof.
  destruct xs as [|x xs]; [done|]. unfold remove_ends. split.
  - destruct (f x) eqn:Hx; [done|].
    destruct (last (x :: xs)) as [z|] eqn:Hl; [|by apply last_None in Hl].
    destruct (f z); [done|]. apply rm_first_None.
  - intros H. pose proof H as [-> _]%Forall_cons.
    destruct (last (x :: xs)) as [z|] eqn:Hl; [|done].
    apply last_Some in Hl as [l' Hl]. pose proof H as H'. rewrite Hl in H'.
    apply Forall_app in H' as [_ [-> _]%Forall_cons]. by apply rm_first_None.
Qed.

End lists.

(** A key that is unique in a list identifies its element. *)
Lemma NoDup_fmap_eq {A B} (g : A -> B) (xs : list A) x y :
  NoDup (g <$> xs) -> x ∈ xs -> y ∈ xs -> g x = g y -> x = y.
Proof.
  induction xs as [|z xs IH]; csimpl; [set_solver|].
  intros [Hz Hnd]%NoDup_cons Hx%elem_of_cons Hy%elem_of_cons Heq.
  destruct Hx as [->|Hx], Hy as [->|Hy]; [done|..|by apply IH].
  - exfalso. apply Hz. rewrite Heq. by apply list_elem_of_fmap_2.
  - exfalso. apply Hz. rewrite <- Heq. by apply list_elem_of_fmap_2.
Qed.

Lemma rm_first_fmap {A B} (g : A -> B) (f : B -> bool) (xs : list A) :
  rm_first f (g <$> xs) = prod_map g (fmap (M := list) g) <$> rm_first (fun x => f (g x)) xs.
Proof.
  induction xs as [|x xs IH]; [done|]. csimpl. destruct (f (g x)); [done|].
  rewrite IH. by destruct (rm_first _ xs) as [[]|].
Qed.

Lemma removelast_fmap {A B} (g : A -> B) (xs : list A) :
  removelast (g <$> xs) = g <$> removelast xs.
Proof.
  destruct xs as [|x xs _] using rev_ind; [done|].
  rewrite fmap_app. change (g <$> [x]) with [g x]. by rewrite !removelast_last.
Qed.

Lemma remove_ends_fmap {A B} (g : A -> B) (f : B -> bool) (xs : list A) :
  remove_ends f (g <$> xs) = prod_map g (fmap (M := list) g) <$> remove_ends (fun x => f (g x)) xs.
Proof.
  destruct xs as [|x xs]; [done|]. unfold remove_ends.
  change (g <$> x :: xs) with (g x :: (g <$> xs)). cbv iota.
  destruct (f (g x)) eqn:Hx; [done|]. change (g x :: (g <$> xs)) with (g <$> x :: xs).
  rewrite fmap_last. destruct (last (x :: xs)) as [y|]; [|done].
  simpl (g <$> Some y). cbv iota. destruct (f (g y)); [by rewrite removelast_fmap|].
  apply rm_first_fmap.
Qed.

Lemma elem_of_concat {A} (m : list (list A)) x : x ∈ concat m <-> exists ix xs, m !! ix = Some xs /\ x ∈ xs.
Proof.
  rewrite list_elem_of_In, in_concat. split.
  - intros (xs & Hl%list_elem_of_In & Hp%list_elem_of_In). apply list_elem_of_lookup in Hl as [ix E]. by exists ix, xs.
  - intros (ix & xs & E & Hp). exists xs. split; apply list_elem_of_In; [by eapply list_elem_of_lookup_2|done].
Qed.

(** [y] becomes [f] wherever it is, in a list and in a table of disjoint lists. *)
Definition subst_node {A} `{EqDecision A} (y : A) (f xs : list A) : list A := xs ≫= fun x => if decide (x = y) then f else [x].

Lemma subst_node_notin {A} `{EqDecision A} (y : A) f xs : y ∉ xs -> subst_node y f xs = xs.
Proof.
  unfold subst_node. induction xs as [|x xs IH]; intros Hy; [done|]. apply not_elem_of_cons in Hy as [Hne Hy]. csimpl.
  rewrite decide_False by congruence. cbn. by rewrite IH.
Qed.

Lemma subst_node_in {A} `{EqDecision A} (y : A) f l1 l2 : NoDup (l1 ++ y :: l2) -> subst_node y f (l1 ++ y :: l2) = l1 ++ f ++ l2.
Proof.
  intros (_ & Hd & H2)%NoDup_app. apply NoDup_cons in H2 as [H2 _]. unfold subst_node. rewrite bind_app. f_equal.
  - apply subst_node_notin. intros Hy. apply (Hd y Hy). by left.
  - csimpl. rewrite decide_True by done. f_equal. by apply subst_node_notin.
Qed.

Lemma subst_table {K A} `{Countable K} `{EqDecision A} (T : gmap K (list A)) h y f l1 l2 :
  T !! h = Some (l1 ++ y :: l2) -> NoDup (l1 ++ y :: l2) -> (forall k ys, T !! k = Some ys -> y ∈ ys -> k = h) ->
  subst_node y f <$> T = <[h := l1 ++ f ++ l2]> T.
Proof.
  intros Eh Hnd Hu. apply map_eq. intros k. rewrite lookup_fmap, lookup_insert. case_decide as Hk.
  - subst k. rewrite Eh. cbn. f_equal. by apply subst_node_in.
  - destruct (T !! k) as [ys|] eqn:Ek; [|done]. cbn. f_equal. apply subst_node_notin. intros Hy. by apply Hk, symmetry, (Hu k ys).
Qed.

(** Replacing one element, under a function to lists or to integers. *)
Lemma concat_fmap_insert {A B} (f : A -> list B) (xs : list A) i x y :
  xs !! i = Some x -> concat (f <$> <[i := y]> xs) ++ f x ≡ₚ concat (f <$> xs) ++ f y.
Proof.
  revert i. induction xs as [|z xs IH]; intros [|i] E; simplify_eq/=; csimpl.
  - rewrite <- !app_assoc. rewrite (Permutation_app_comm _ (f x)). symmetry. rewrite (Permutation_app_comm _ (f y)).
    rewrite !app_assoc. by rewrite (Permutation_app_comm (f x)).
  - rewrite <- !app_assoc. by rewrite (IH i E).
Qed.

Definition sum_over {A} (f : A -> Z) (xs : list A) : Z := foldr (fun x n => f x + n) 0 xs.

Lemma sum_over_insert {A} (f : A -> Z) (xs : list A) i x y :
  xs !! i = Some x -> sum_over f (<[i := y]> xs) = sum_over f xs - f x + f y.
Proof.
  unfold sum_over. revert i. induction xs as [|z xs IH]; intros [|i] E; simplify_eq/=; [lia|]. rewrite (IH i E). lia.
Qed.

Lemma sum_over_nonneg {A} (f : A -> Z) (xs : list A) : (forall x, x ∈ xs -> 0 <= f x) -> 0 <= sum_over f xs.
Proof.
  induction xs as [|x xs IH]; intros H; [done|]. cbn. assert (0 <= f x) by (apply H; by left).
  assert (0 <= sum_over f xs) by (apply IH; intros y Hy; apply H; by right). unfold sum_over in *. lia.
Qed.

Lemma sum_over_elem {A} (f : A -> Z) (xs : list A) i x :
  (forall y, y ∈ xs -> 0 <= f y) -> xs !! i = Some x -> f x <= sum_over f xs.
Proof.
  intros Hn. revert i. induction xs as [|z xs IH]; intros [|i] E; simplify_eq/=.
  - assert (0 <= sum_over f xs) by (apply sum_over_nonneg; intros y Hy; apply Hn; by right). unfold sum_over in *. lia.
  - assert (f x <= sum_over f xs) by (apply (IH ltac:(intros y Hy; apply Hn; by right) i E)).
    assert (0 <= f z) by (apply Hn; by left). unfold sum_over in *. lia.
Qed.
