(* ===== verification/DList.v ===== *)
(** * Pointer-level doubly linked lists

    Two components keep a doubly linked list with a head and a tail pointer:
    the ready queue of threads/thread.c ([struct ready_queue]) and the LRU
    list of webserver/server_thread.c ([struct cache_lru]).  Their C code is
    the same up to the payload of a node and the test that selects a node, so
    the section [dlist] has the code once, over a heap of nodes, generic in
    the payload; the modules [ReadyQueue] and [CacheLru] instantiate it.

    [malloc] picks an address that is not in use and is assumed to succeed
    ([Malloc] of the web server exits otherwise, thread.c does not check);
    [free] removes the node, so that a later access to it is [Undef].

    The refinement lemmas relate a run on the heap to the list functions
    [x :: xs], [xs ++ [x]] and [remove_ends], which the components that use
    the queues are built on. *)
From S2P Require Import Prelude.

Definition loc : Type := positive.

Section dlist.
Context {A : Type}.

(** [struct ready_elem] *)
Record ready_elem := Elem { info : A; next : option loc; prev : option loc }.
(** [struct ready_queue], [struct cache_lru] *)
Record dl := Dl { head : option loc; tail : option loc }.

Implicit Types (h : gmap loc ready_elem) (LL : dl) (p n c : option loc) (x : A).

Definition load h p : res ready_elem := l ← deref p; deref (h !! l).
Definition set_next h p n : res (gmap loc ready_elem) :=
  l ← deref p; e ← deref (h !! l); Ret (<[l := Elem (info e) n (prev e)]> h).
Definition set_prev h p n : res (gmap loc ready_elem) :=
  l ← deref p; e ← deref (h !! l); Ret (<[l := Elem (info e) (next e) n]> h).
Definition alloc h x : loc * gmap loc ready_elem :=
  let l := fresh (dom h) in (l, <[l := Elem x None None]> h).

(** addToHead *)
Definition dl_push_head h LL x : res (gmap loc ready_elem * dl) :=
  let (new, h) := alloc h x in
  match head LL with
  | None => Ret (h, Dl (Some new) (Some new))
  | Some _ =>
      h ← set_next h (Some new) (head LL);
      h ← set_prev h (head LL) (Some new);
      Ret (h, Dl (Some new) (tail LL))
  end.

(** addToTail, pushBack *)
Definition dl_push_tail h LL x : res (gmap loc ready_elem * dl) :=
  let (new, h) := alloc h x in
  match tail LL with
  | None => Ret (h, Dl (Some new) (Some new))
  | Some _ =>
      h ← set_next h (tail LL) (Some new);
      h ← set_prev h (Some new) (tail LL);
      Ret (h, Dl (head LL) (Some new))
  end.

(** removeNextReadyThread, removeLRUFile *)
Definition dl_pop_head h LL : res (option A * gmap loc ready_elem * dl) :=
  match head LL with
  | None => Ret (None, h, LL)
  | Some l =>
      e ← deref (h !! l);
      match prev e, next e with
      | None, None => Ret (Some (info e), delete l h, Dl None None)
      | _, _ =>
          h ← set_prev h (next e) None;
          Ret (Some (info e), delete l h, Dl (next e) (tail LL))
      end
  end.

(** The loop of removeFromReadyQueue and removeFileToBeMovedToBack over the
    middle of the list. *)
Fixpoint dl_remove_loop (fuel : nat) (f : A -> bool) h c
    : res (option A * gmap loc ready_elem) :=
  match fuel with
  | O => Fail Diverge
  | S fuel =>
      match c with
      | None => Ret (None, h)
      | Some l =>
          e ← deref (h !! l);
          if f (info e) then
            h ← set_next h (prev e) (next e);
            e ← deref (h !! l);
            h ← set_prev h (next e) (prev e);
            Ret (Some (info e), delete l h)
          else dl_remove_loop fuel f h (next e)
      end
  end.

(** removeFromReadyQueue, removeFileToBeMovedToBack: the head, then the tail,
    then the middle. *)
Definition dl_remove (f : A -> bool) h LL : res (option A * gmap loc ready_elem * dl) :=
  match head LL with
  | None => Ret (None, h, LL)
  | Some hl =>
      he ← deref (h !! hl);
      if f (info he) then
        match prev he, next he with
        | None, None => Ret (Some (info he), delete hl h, Dl None None)
        | _, _ =>
            h ← set_prev h (next he) None;
            Ret (Some (info he), delete hl h, Dl (next he) (tail LL))
        end
      else
        tl ← deref (tail LL);
        te ← deref (h !! tl);
        if f (info te) then
          match prev te, next te with
          | None, None => Ret (Some (info te), delete tl h, Dl None None)
          | _, _ =>
              h ← set_next h (prev te) None;
              Ret (Some (info te), delete tl h, Dl (head LL) (prev te))
          end
        else
          '(r, h) ← dl_remove_loop (S (size h)) f h (Some hl);
          Ret (r, h, LL)
  end.

(** The walk of getCachedFile, isInFlight-style searches. *)
Fixpoint dl_find (fuel : nat) (f : A -> bool) h c : res (option A) :=
  match fuel with
  | O => Fail Diverge
  | S fuel =>
      match c with
      | None => Ret None
      | Some l =>
          e ← deref (h !! l);
          if f (info e) then Ret (Some (info e)) else dl_find fuel f h (next e)
      end
  end.

(** ** The list a heap represents *)

Definition hd_or n (lx : list (loc * A)) : option loc :=
  match lx with [] => n | (l, _) :: _ => Some l end.
Definition last_or p (lx : list (loc * A)) : option loc :=
  match last lx with None => p | Some (l, _) => Some l end.

(** A segment of nodes between the node [p] and the node [n]. *)
Fixpoint dseg h p (lx : list (loc * A)) n : Prop :=
  match lx with
  | [] => True
  | (l, x) :: lx' => h !! l = Some (Elem x (hd_or n lx') p) /\ dseg h (Some l) lx' n
  end.

(** [LL] is a list in [h] whose nodes and payloads are [lx]. *)
Definition dl_rep h LL (lx : list (loc * A)) : Prop :=
  NoDup lx.*1 /\ dseg h None lx None /\ LL = Dl (hd_or None lx) (last_or None lx).

(** ** Segments *)

Lemma hd_or_app n lx ly : hd_or n (lx ++ ly) = hd_or (hd_or n ly) lx.
Proof. by destruct lx as [|[]]. Qed.

Lemma last_or_snoc p lx l x : last_or p (lx ++ [(l, x)]) = Some l.
Proof. unfold last_or. by rewrite last_snoc. Qed.

Lemma last_or_cons p lx l x : last_or p ((l, x) :: lx) = last_or (Some l) lx.
Proof.
  unfold last_or. rewrite last_cons. by destruct (last lx) as [[]|].
Qed.

Lemma last_or_app p lx ly : last_or p (lx ++ ly) = last_or (last_or p lx) ly.
Proof.
  unfold last_or. rewrite last_app. by destruct (last ly) as [[]|].
Qed.

Lemma dseg_app h p lx ly n :
  dseg h p (lx ++ ly) n <-> dseg h p lx (hd_or n ly) /\ dseg h (last_or p lx) ly n.
Proof.
  revert p. induction lx as [|[l x] lx IH]; intros p; simpl; [naive_solver|].
  rewrite IH, hd_or_app, last_or_cons. naive_solver.
Qed.

(** A segment depends on its own nodes only. *)
Lemma dseg_frame h h' p lx n :
  (forall l, l ∈ lx.*1 -> h' !! l = h !! l) -> dseg h p lx n -> dseg h' p lx n.
Proof.
  revert p. induction lx as [|[l x] lx IH]; intros p Hf; simpl; [done|].
  intros [Hl Hs]. split.
  - rewrite Hf; [done | simpl; set_solver].
  - apply IH; [|done]. intros l' Hl'. apply Hf. simpl. set_solver.
Qed.

Lemma dseg_insert h p lx n l e :
  l ∉ lx.*1 -> dseg h p lx n -> dseg (<[l := e]> h) p lx n.
Proof.
  intros Hl. apply dseg_frame. intros l' Hl'. rewrite lookup_insert_ne; set_solver.
Qed.

Lemma dseg_delete h p lx n l :
  l ∉ lx.*1 -> dseg h p lx n -> dseg (delete l h) p lx n.
Proof.
  intros Hl. apply dseg_frame. intros l' Hl'. rewrite lookup_delete_ne; set_solver.
Qed.

Lemma dseg_lookup_dom h p lx n l :
  dseg h p lx n -> l ∈ lx.*1 -> l ∈ dom h.
Proof.
  revert p. induction lx as [|[l' x] lx IH]; intros p; simpl; [set_solver|].
  intros [Hl Hs] [->|Hin]%elem_of_cons; [|by eapply IH].
  apply elem_of_dom. eauto.
Qed.

(** Redirecting the pointer that leaves a segment at its right end. *)
Lemma dseg_set_next h p lx l x n n' :
  NoDup (lx ++ [(l, x)]).*1 ->
  dseg h p (lx ++ [(l, x)]) n ->
  exists h', set_next h (Some l) n' = Ret h' /\ dseg h' p (lx ++ [(l, x)]) n' /\
             (forall l', l' <> l -> h' !! l' = h !! l') /\ dom h' = dom h.
Proof.
  intros Hnd (Hs & Hl & _)%dseg_app. simpl in *.
  unfold set_next. simpl. rewrite Hl. simpl.
  eexists. split; [done|]. split_and!.
  - apply dseg_app. simpl. split; [|by rewrite lookup_insert_eq].
    apply dseg_insert; [|done]. rewrite fmap_app in Hnd. simpl in Hnd.
    apply NoDup_app in Hnd as (_ & Hd & _). set_solver.
  - intros l' Hne. by rewrite lookup_insert_ne.
  - rewrite dom_insert_L. apply elem_of_dom_2 in Hl. set_solver.
Qed.

(** Redirecting the pointer that leaves a segment at its left end. *)
Lemma dseg_set_prev h p lx l x n p' :
  NoDup ((l, x) :: lx).*1 ->
  dseg h p ((l, x) :: lx) n ->
  exists h', set_prev h (Some l) p' = Ret h' /\ dseg h' p' ((l, x) :: lx) n /\
             (forall l', l' <> l -> h' !! l' = h !! l') /\ dom h' = dom h.
Proof.
  intros Hnd (Hl & Hs). simpl in *. apply NoDup_cons in Hnd as [Hni Hnd].
  unfold set_prev. simpl. rewrite Hl. simpl.
  eexists. split; [done|]. split_and!.
  - by rewrite lookup_insert_eq.
  - by apply dseg_insert.
  - intros l' Hne. by rewrite lookup_insert_ne.
  - rewrite dom_insert_L. apply elem_of_dom_2 in Hl. set_solver.
Qed.

(** ** What an operation does to the heap

    [dl_step h lx h' LL' ly]: the list with the nodes [lx] in [h] is the list
    [LL'] with the nodes [ly] in [h']; every other node of the heap is as it
    was, a node that left the list was freed, and no other was allocated. *)
Definition dl_step h (lx : list (loc * A)) h' LL' ly : Prop :=
  dl_rep h' LL' ly /\
  (forall l, l ∈ ly.*1 -> l ∈ lx.*1 \/ (l ∉ dom h)) /\
  (forall l, l ∈ dom h -> l ∉ lx.*1 -> h' !! l = h !! l) /\
  (forall l, l ∈ dom h' <-> (l ∈ dom h /\ (l ∉ lx.*1)) \/ l ∈ ly.*1).

Lemma dl_step_intro h (lx : list (loc * A)) h' LL' ly :
  dl_rep h' LL' ly ->
  (forall l, l ∈ ly.*1 -> l ∈ lx.*1 \/ (l ∉ dom h)) ->
  (forall l, l ∉ lx.*1 -> l ∉ ly.*1 -> h' !! l = h !! l) ->
  (forall l, l ∈ dom h' <-> (l ∈ dom h /\ (l ∉ lx.*1)) \/ l ∈ ly.*1) ->
  dl_step h lx h' LL' ly.
Proof.
  intros Hrep Hn Hf Hd. split_and!; [done..| |done].
  intros l Hl Hlx. apply Hf; [done|]. intros Hly. by destruct (Hn l Hly).
Qed.

Lemma dl_rep_dom h LL lx l : dl_rep h LL lx -> l ∈ lx.*1 -> l ∈ dom h.
Proof. intros (_ & Hs & _). by eapply dseg_lookup_dom. Qed.

Lemma alloc_spec h x l h1 :
  alloc h x = (l, h1) -> (l ∉ dom h) /\ h1 = <[l := Elem x None None]> h.
Proof. unfold alloc. intros [= <- <-]. split; [apply is_fresh | done]. Qed.

Lemma dl_rep_alloc h LL lx x l h1 :
  dl_rep h LL lx -> alloc h x = (l, h1) ->
  (l ∉ lx.*1) /\ dseg h1 None lx None /\ h1 !! l = Some (Elem x None None) /\
  (forall l', l' <> l -> h1 !! l' = h !! l') /\ dom h1 = {[l]} ∪ dom h.
Proof.
  intros Hrep [Hf ->]%alloc_spec.
  assert (l ∉ lx.*1) by (intros ?%(dl_rep_dom _ _ _ _ Hrep); done).
  destruct Hrep as (_ & Hs & _). split_and!; [done | by apply dseg_insert | | | ].
  - by rewrite lookup_insert_eq.
  - intros l' Hne. by rewrite lookup_insert_ne.
  - apply dom_insert_L.
Qed.

Lemma dl_push_tail_ok h LL lx x :
  dl_rep h LL lx ->
  exists l h' LL', dl_push_tail h LL x = Ret (h', LL') /\ (l ∉ dom h) /\
                   dl_step h lx h' LL' (lx ++ [(l, x)]).
Proof.
  intros Hrep. unfold dl_push_tail. destruct (alloc h x) as [l h1] eqn:Ea.
  destruct (dl_rep_alloc _ _ _ _ _ _ Hrep Ea) as (Hni & Hs1 & Hl1 & Hf1 & Hd1).
  pose proof (alloc_spec _ _ _ _ Ea) as [Hfresh _].
  assert (Hdom : forall l', l' ∈ dom h1 <-> (l' ∈ dom h /\ l' ∉ lx.*1) \/ l' ∈ (lx ++ [(l, x)]).*1).
  { intros l'. rewrite Hd1, fmap_app. simpl.
    destruct (decide (l' ∈ lx.*1)) as [Hin|]; [|set_solver].
    pose proof (dl_rep_dom _ _ _ _ Hrep Hin). set_solver. }
  destruct Hrep as (Hnd & Hs & ->). simpl.
  assert (Hnd' : NoDup (lx ++ [(l, x)]).*1).
  { rewrite fmap_app. apply NoDup_app. split_and!; [done|set_solver|apply NoDup_singleton]. }
  destruct lx as [|[l0 x0] lx' _] using rev_ind; simpl.
  - exists l, h1, (Dl (Some l) (Some l)). split_and!; [done..|].
    apply dl_step_intro; [by split_and!|set_solver| |done].
    intros l' _ Hl'. apply Hf1. simpl in Hl'. set_solver.
  - rewrite last_or_snoc.
    destruct (dseg_set_next h1 None lx' l0 x0 None (Some l) Hnd Hs1)
      as (h2 & -> & Hs2 & Hf2 & Hd2).
    assert (l <> l0) as Hne by (rewrite fmap_app in Hni; simpl in Hni; set_solver).
    simpl. unfold set_prev. simpl. rewrite Hf2, Hl1 by done. simpl.
    eexists l, _, _. split_and!; [done..|]. apply dl_step_intro.
    + split_and!; [done | | ].
      * apply dseg_app. simpl. split; [by apply dseg_insert|].
        by rewrite last_or_snoc, lookup_insert_eq.
      * by rewrite !hd_or_app, !last_or_snoc.
    + intros l'. rewrite (fmap_app _ _ [_]). simpl. set_solver.
    + intros l' Hl' Hl''. rewrite !fmap_app in *. simpl in *.
      rewrite lookup_insert_ne by set_solver. rewrite Hf2, Hf1 by set_solver. done.
    + intros l'. rewrite <- Hdom, dom_insert_L, Hd2, Hd1. set_solver.
Qed.

Lemma dl_push_head_ok h LL lx x :
  dl_rep h LL lx ->
  exists l h' LL', dl_push_head h LL x = Ret (h', LL') /\ (l ∉ dom h) /\
                   dl_step h lx h' LL' ((l, x) :: lx).
Proof.
  intros Hrep. unfold dl_push_head. destruct (alloc h x) as [l h1] eqn:Ea.
  destruct (dl_rep_alloc _ _ _ _ _ _ Hrep Ea) as (Hni & Hs1 & Hl1 & Hf1 & Hd1).
  pose proof (alloc_spec _ _ _ _ Ea) as [Hfresh _].
  assert (Hdom : forall l', l' ∈ dom h1 <-> (l' ∈ dom h /\ l' ∉ lx.*1) \/ l' ∈ ((l, x) :: lx).*1).
  { intros l'. rewrite Hd1. simpl.
    destruct (decide (l' ∈ lx.*1)) as [Hin|]; [|set_solver].
    pose proof (dl_rep_dom _ _ _ _ Hrep Hin). set_solver. }
  destruct Hrep as (Hnd & Hs & ->). simpl.
  assert (Hnd' : NoDup ((l, x) :: lx).*1) by (simpl; apply NoDup_cons; done).
  destruct lx as [|[l0 x0] lx']; simpl.
  - exists l, h1, (Dl (Some l) (Some l)). split_and!; [done..|].
    apply dl_step_intro; [by split_and!|set_solver| |done].
    intros l' _ Hl'. apply Hf1. simpl in Hl'. set_solver.
  - simpl in Hni. assert (l <> l0) as Hne by set_solver.
    unfold set_next. simpl. rewrite Hl1. simpl.
    destruct (dseg_set_prev (<[l := Elem x (Some l0) None]> h1) None lx' l0 x0 None (Some l) Hnd)
      as (h2 & -> & Hs2 & Hf2 & Hd2); [by apply dseg_insert|].
    simpl. eexists l, _, _. split_and!; [done..|]. apply dl_step_intro.
    + split_and!; [done | split | ].
      * rewrite Hf2 by done. by rewrite lookup_insert_eq.
      * done.
      * by rewrite !last_or_cons.
    + simpl. set_solver.
    + intros l' Hl' Hl''. simpl in *. rewrite Hf2 by set_solver.
      rewrite lookup_insert_ne, Hf1 by set_solver. done.
    + intros l'. rewrite <- Hdom, Hd2, dom_insert_L, Hd1. set_solver.
Qed.

(** Taking a node out of a list, once its neighbours are linked. *)
Lemma dl_unlink h LL lx l x ly h' :
  dl_rep h LL (lx ++ (l, x) :: ly) ->
  dseg h' None lx (hd_or None ly) -> dseg h' (last_or None lx) ly None ->
  (forall l', l' ∉ (lx ++ ly).*1 -> h' !! l' = h !! l') -> dom h' = dom h ->
  dl_step h (lx ++ (l, x) :: ly) (delete l h')
    (Dl (hd_or None (lx ++ ly)) (last_or None (lx ++ ly))) (lx ++ ly).
Proof.
  intros Hrep Hx Hy Hf Hd. pose proof Hrep as (Hnd & _ & _).
  pose proof (fun l' => dl_rep_dom _ _ _ l' Hrep) as Hin.
  assert (Hsplit : (lx ++ (l, x) :: ly).*1 ≡ₚ l :: (lx ++ ly).*1).
  { rewrite !fmap_app. simpl. by rewrite Permutation_middle. }
  rewrite Hsplit in Hnd. apply NoDup_cons in Hnd as [Hl Hnd].
  apply dl_step_intro; [split_and!|..].
  - done.
  - rewrite dseg_app. rewrite fmap_app in Hl.
    split; (apply dseg_delete; [set_solver | done]).
  - done.
  - intros l' Hl'. left. rewrite Hsplit. set_solver.
  - intros l'. rewrite Hsplit. intros Hl' _.
    rewrite lookup_delete_ne by set_solver. apply Hf. set_solver.
  - intros l'. rewrite dom_delete_L, Hd. specialize (Hin l').
    rewrite Hsplit, elem_of_cons in *. rewrite elem_of_difference, elem_of_singleton.
    destruct (decide (l' = l)) as [->|]; [tauto|].
    destruct (decide (l' ∈ (lx ++ ly).*1)); tauto.
Qed.

Lemma dl_rep_mid h LL lx l x ly :
  dl_rep h LL (lx ++ (l, x) :: ly) ->
  h !! l = Some (Elem x (hd_or None ly) (last_or None lx)) /\
  dseg h None lx (Some l) /\ dseg h (Some l) ly None /\
  NoDup lx.*1 /\ NoDup ly.*1 /\ (l ∉ (lx ++ ly).*1) /\ lx.*1 ## ly.*1.
Proof.
  intros (Hnd & Hs & _). apply dseg_app in Hs as [Hx [Hl Hy]].
  rewrite fmap_app in Hnd. simpl in Hnd. apply NoDup_app in Hnd as (Hndx & Hd & Hndy).
  apply NoDup_cons in Hndy as [Hni Hndy].
  split_and!; try done.
  - rewrite fmap_app. set_solver.
  - intros l' ? ?. apply (Hd l'); set_solver.
Qed.

(** Linking the two neighbours of a node in the middle. *)
Lemma dl_link_left h LL lx l0 x0 l x ly :
  dl_rep h LL ((lx ++ [(l0, x0)]) ++ (l, x) :: ly) ->
  exists h', set_next h (Some l0) (hd_or None ly) = Ret h' /\
    dseg h' None (lx ++ [(l0, x0)]) (hd_or None ly) /\ dseg h' (Some l) ly None /\
    (forall l', l' <> l0 -> h' !! l' = h !! l') /\ dom h' = dom h.
Proof.
  intros Hrep. destruct (dl_rep_mid _ _ _ _ _ _ Hrep) as (Hl & Hx & Hy & Hndx & Hndy & Hni & Hdj).
  destruct (dseg_set_next _ _ _ _ _ _ (hd_or None ly) Hndx Hx) as (h' & ? & ? & Hf & ?).
  exists h'. split_and!; try done. eapply dseg_frame; [|done].
  intros l' Hl'. apply Hf. intros ->. apply (Hdj l0); [|done].
  rewrite fmap_app. simpl. set_solver.
Qed.

Lemma dl_link_right h LL lx l1 x1 l x ly p h1 :
  dl_rep h LL (lx ++ (l, x) :: (l1, x1) :: ly) ->
  dseg h1 None lx (Some l1) -> dseg h1 p ((l1, x1) :: ly) None ->
  exists h', set_prev h1 (Some l1) (last_or None lx) = Ret h' /\
    dseg h' None lx (Some l1) /\ dseg h' (last_or None lx) ((l1, x1) :: ly) None /\
    (forall l', l' <> l1 -> h' !! l' = h1 !! l') /\ dom h' = dom h1.
Proof.
  intros Hrep Hx Hy.
  destruct (dl_rep_mid _ _ _ _ _ _ Hrep) as (_ & _ & _ & Hndx & Hndy & Hni & Hdj).
  destruct (dseg_set_prev _ _ _ _ _ _ (last_or None lx) Hndy Hy) as (h' & ? & ? & Hf & ?).
  exists h'. split_and!; try done. eapply dseg_frame; [|done].
  intros l' Hl'. apply Hf. intros ->. apply (Hdj l1); [done|]. simpl. set_solver.
Qed.

Lemma dl_pop_head_nil h LL : dl_rep h LL [] -> dl_pop_head h LL = Ret (None, h, LL).
Proof. by intros (_ & _ & ->). Qed.

Lemma dl_pop_head_cons h LL l x lx :
  dl_rep h LL ((l, x) :: lx) ->
  exists h' LL', dl_pop_head h LL = Ret (Some x, h', LL') /\
                 dl_step h ((l, x) :: lx) h' LL' lx.
Proof.
  intros Hrep. pose proof (dl_rep_mid _ _ [] _ _ _ Hrep) as (Hl & _ & Hy & _).
  pose proof Hrep as (_ & _ & ->). unfold dl_pop_head. simpl. rewrite Hl. simpl.
  destruct lx as [|[l1 x1] lx]; simpl.
  - eexists _, _. split; [done|].
    apply (dl_unlink h (Dl (Some l) (Some l)) [] l x [] h); done.
  - destruct (dl_link_right h _ [] l1 x1 l x lx (Some l) h Hrep) as (h' & E & _ & Hy' & Hf & Hd); try done.
    change (last_or None []) with (@None loc) in *. rewrite E.
    simpl. eexists _, _. split; [done|]. rewrite !last_or_cons, <- (last_or_cons None lx l1 x1).
    apply (dl_unlink h _ [] l x ((l1, x1) :: lx) h' Hrep); try done.
    intros l' Hl'. apply Hf. simpl in Hl'. set_solver.
Qed.

(** The loops walk over the nodes that do not satisfy the test. *)
Lemma dl_remove_loop_walk (f : A -> bool) h p lx n fuel :
  dseg h p lx n -> Forall (fun a => f a.2 = false) lx ->
  dl_remove_loop (length lx + fuel) f h (hd_or n lx) = dl_remove_loop fuel f h n.
Proof.
  revert p. induction lx as [|[l x] lx IH]; intros p; simpl; [done|].
  intros [Hl Hs] [Hf Hfs]%Forall_cons. rewrite Hl. simpl in *. rewrite Hf. eauto.
Qed.

(** A list has no more nodes than the heap, so the loops have enough fuel. *)
Lemma dl_rep_size h LL lx : dl_rep h LL lx -> (length lx <= size h)%nat.
Proof.
  intros Hrep. pose proof Hrep as (Hnd & _ & _).
  rewrite <- (length_fmap fst lx), <- (size_list_to_set (C := gset loc) lx.*1) by done.
  rewrite <- (size_dom h). apply subseteq_size. intros l. rewrite elem_of_list_to_set.
  by apply (dl_rep_dom _ LL).
Qed.

Lemma dl_remove_loop_hit (f : A -> bool) h LL lx l0 x0 l x l1 x1 ly fuel :
  dl_rep h LL ((lx ++ [(l0, x0)]) ++ (l, x) :: (l1, x1) :: ly) -> f x = true ->
  exists h', dl_remove_loop (S fuel) f h (Some l) = Ret (Some x, h') /\
    dl_step h ((lx ++ [(l0, x0)]) ++ (l, x) :: (l1, x1) :: ly) h' LL
      ((lx ++ [(l0, x0)]) ++ (l1, x1) :: ly).
Proof.
  intros Hrep Hf. destruct (dl_rep_mid _ _ _ _ _ _ Hrep) as (Hl & _ & _ & _ & _ & Hni & _).
  rewrite !fmap_app in Hni. simpl in Hni.
  simpl. rewrite Hl. simpl. rewrite Hf, last_or_snoc.
  destruct (dl_link_left _ _ _ _ _ _ _ _ Hrep) as (h1 & E1 & Hx & Hy & Hf1 & Hd1).
  simpl in E1. rewrite E1. simpl. rewrite Hf1, Hl by set_solver. simpl. rewrite last_or_snoc.
  destruct (dl_link_right _ _ _ _ _ _ _ _ _ _ Hrep Hx Hy) as (h2 & E2 & Hx2 & Hy2 & Hf2 & Hd2).
  rewrite last_or_snoc in E2. rewrite E2. simpl.
  eexists. split; [done|].
  replace LL with (Dl (hd_or None ((lx ++ [(l0, x0)]) ++ (l1, x1) :: ly))
                      (last_or None ((lx ++ [(l0, x0)]) ++ (l1, x1) :: ly))).
  - eapply dl_unlink; try done; [|congruence].
    intros l'. rewrite !fmap_app. simpl. intros Hl'. rewrite Hf2, Hf1 by set_solver. done.
  - destruct Hrep as (_ & _ & ->).
    rewrite !hd_or_app, !last_or_app, !last_or_cons. done.
Qed.

Lemma dl_remove_loop_ok (f : A -> bool) h LL l x lx :
  dl_rep h LL ((l, x) :: lx) -> f x = false ->
  (forall a, last ((l, x) :: lx) = Some a -> f a.2 = false) ->
  match rm_first (fun a => f a.2) ((l, x) :: lx) with
  | None => dl_remove_loop (S (size h)) f h (Some l) = Ret (None, h)
  | Some (a, ly) => exists h', dl_remove_loop (S (size h)) f h (Some l) = Ret (Some a.2, h') /\
                               dl_step h ((l, x) :: lx) h' LL ly
  end.
Proof.
  intros Hrep Hx Hlast. pose proof (dl_rep_size _ _ _ Hrep) as Hsz. simpl in Hsz.
  destruct (rm_first _ _) as [[[la xa] ly]|] eqn:E.
  - apply rm_first_Some in E as (u & v & E & -> & Ha & Hu). simpl in Ha.
    destruct u as [|[l' x'] u _] using rev_ind; [simplify_eq/=; congruence|].
    destruct v as [|[l1 x1] v].
    { rewrite E, last_snoc in Hlast. specialize (Hlast _ eq_refl). simpl in Hlast. congruence. }
    rewrite E in Hrep |- *. cbn [snd]. replace (Some l) with (hd_or (Some la) (u ++ [(l', x')])).
    2:{ by destruct u as [|[]]; simplify_eq/=. }
    assert (length (u ++ [(l', x')]) < S (size h))%nat as Hlen.
    { apply (f_equal length) in E. rewrite length_app in E. simpl in E. lia. }
    replace (S (size h)) with (length (u ++ [(l', x')]) + S (size h - length (u ++ [(l', x')])))%nat by lia.
    destruct (dl_rep_mid _ _ _ _ _ _ Hrep) as (_ & Hs & _).
    rewrite (dl_remove_loop_walk _ _ _ _ _ _ Hs Hu).
    by apply dl_remove_loop_hit.
  - apply rm_first_None in E. destruct Hrep as (_ & Hs & _).
    change (Some l) with (hd_or None ((l, x) :: lx)).
    replace (S (size h)) with (length ((l, x) :: lx) + S (size h - length ((l, x) :: lx)))%nat
      by (simpl; lia).
    by rewrite (dl_remove_loop_walk _ _ _ _ _ _ Hs E).
Qed.

(** The tail branch of a removal. *)
Lemma dl_unlink_tail h LL lz l0 x0 lt xt :
  dl_rep h LL ((lz ++ [(l0, x0)]) ++ [(lt, xt)]) ->
  exists h', set_next h (Some l0) None = Ret h' /\
    dl_step h ((lz ++ [(l0, x0)]) ++ [(lt, xt)]) (delete lt h') (Dl (head LL) (Some l0))
      (lz ++ [(l0, x0)]).
Proof.
  intros Hrep. destruct (dl_link_left _ _ _ _ _ _ _ [] Hrep) as (h1 & E1 & Hx & Hy & Hf1 & Hd1).
  exists h1. split; [done|].
  rewrite <- (app_nil_r (lz ++ [(l0, x0)])) at 2.
  replace (Dl (head LL) (Some l0)) with
    (Dl (hd_or None ((lz ++ [(l0, x0)]) ++ [])) (last_or None ((lz ++ [(l0, x0)]) ++ []))).
  - apply (dl_unlink h LL _ lt xt [] h1); try done.
    intros l'. rewrite app_nil_r, fmap_app. simpl. intros ?. apply Hf1. set_solver.
  - destruct Hrep as (_ & _ & ->). rewrite app_nil_r, last_or_snoc, !hd_or_app. done.
Qed.

Lemma dl_remove_ok (f : A -> bool) h LL lx :
  dl_rep h LL lx ->
  match remove_ends (fun a => f a.2) lx with
  | None => dl_remove f h LL = Ret (None, h, LL)
  | Some (a, ly) => exists h' LL', dl_remove f h LL = Ret (Some a.2, h', LL') /\
                                   dl_step h lx h' LL' ly
  end.
Proof.
  intros Hrep. destruct lx as [|[l x] lx].
  { destruct Hrep as (_ & _ & ->). done. }
  destruct (dl_rep_mid _ _ [] _ _ _ Hrep) as (Hl & _).
  assert (HLL : LL = Dl (Some l) (last_or None ((l, x) :: lx))) by apply Hrep.
  unfold remove_ends. cbn [snd]. destruct (f x) eqn:Hf.
  { destruct (dl_pop_head_cons _ _ _ _ _ Hrep) as (h' & LL' & Hp & Hst).
    exists h', LL'. split; [|done]. cbn [snd]. rewrite <- Hp. unfold dl_remove, dl_pop_head.
    rewrite HLL. simpl. rewrite Hl. simpl. by rewrite Hf. }
  destruct (last ((l, x) :: lx)) as [[lt xt]|] eqn:Hlast; [|by apply last_None in Hlast].
  destruct (last_Some ((l, x) :: lx) (lt, xt)) as [Hsp _].
  destruct (Hsp Hlast) as [lz Hlz]. clear Hsp.
  pose proof Hrep as Hrep'. rewrite Hlz in Hrep'.
  destruct (dl_rep_mid _ _ _ _ _ [] Hrep') as (Hlt & _). simpl in Hlt.
  assert (Hrun : dl_remove f h LL =
    if f xt then
      match last_or None lz with
      | None => Ret (Some xt, delete lt h, Dl None None)
      | _ => h ← set_next h (last_or None lz) None;
             Ret (Some xt, delete lt h, Dl (Some l) (last_or None lz))
      end
    else '(r, h) ← dl_remove_loop (S (size h)) f h (Some l); Ret (r, h, LL)).
  { unfold dl_remove. rewrite HLL. simpl. rewrite Hl. simpl. rewrite Hf.
    rewrite Hlz, last_or_snoc. simpl. rewrite Hlt. simpl. by destruct (f xt). }
  rewrite Hrun. cbn [snd]. destruct (f xt) eqn:Hft.
  - destruct lz as [|[l0 x0] lz _] using rev_ind; [simplify_eq/=; congruence|].
    rewrite last_or_snoc.
    destruct (dl_unlink_tail _ _ _ _ _ _ _ Hrep') as (h1 & -> & Hst). rewrite bind_ret.
    eexists _, _. split; [done|]. rewrite Hlz, removelast_last. by rewrite HLL in Hst.
  - pose proof (dl_remove_loop_ok f h LL l x lx Hrep Hf) as Hloop.
    rewrite Hlast in Hloop. specialize (Hloop ltac:(intros a Ha; by simplify_eq)). 
    destruct (rm_first _ _) as [[a ly]|].
    + destruct Hloop as (h' & -> & Hst). simpl. eauto.
    + by rewrite Hloop.
Qed.

Lemma dl_find_seg (f : A -> bool) h p lx fuel :
  dseg h p lx None -> (length lx < fuel)%nat ->
  dl_find fuel f h (hd_or None lx) = Ret (List.find f lx.*2).
Proof.
  revert p fuel. induction lx as [|[l x] lx IH]; intros p [|fuel]; simpl; try lia; [done|].
  intros [Hl Hs] Hlen. rewrite Hl. simpl. destruct (f x); [done|].
  eapply IH; [done|lia].
Qed.

Lemma dl_find_ok (f : A -> bool) h LL lx :
  dl_rep h LL lx -> dl_find (S (size h)) f h (head LL) = Ret (List.find f lx.*2).
Proof.
  intros Hrep. pose proof (dl_rep_size _ _ _ Hrep). destruct Hrep as (_ & Hs & ->).
  simpl head. eapply dl_find_seg; [done|lia].
Qed.

(** ** Sequences of operations *)

Inductive dl_op : Type :=
| PushHead (x : A)
| PushTail (x : A)
| PopHead
| Remove (f : A -> bool).

Definition dl_exec (op : dl_op) h LL : res (option A * gmap loc ready_elem * dl) :=
  match op with
  | PushHead x => '(h, LL) ← dl_push_head h LL x; Ret (None, h, LL)
  | PushTail x => '(h, LL) ← dl_push_tail h LL x; Ret (None, h, LL)
  | PopHead => dl_pop_head h LL
  | Remove f => dl_remove f h LL
  end.

Fixpoint dl_runs (ops : list dl_op) h LL : res (list (option A) * gmap loc ready_elem * dl) :=
  match ops with
  | [] => Ret ([], h, LL)
  | op :: ops =>
      '(r, h, LL) ← dl_exec op h LL;
      '(rs, h, LL) ← dl_runs ops h LL;
      Ret (r :: rs, h, LL)
  end.

(** The same operations on the list of payloads. *)
Definition spec_exec (op : dl_op) (xs : list A) : option A * list A :=
  match op with
  | PushHead x => (None, x :: xs)
  | PushTail x => (None, xs ++ [x])
  | PopHead => match xs with [] => (None, []) | x :: xs => (Some x, xs) end
  | Remove f => match remove_ends f xs with
                | None => (None, xs)
                | Some (x, ys) => (Some x, ys)
                end
  end.

Fixpoint spec_runs (ops : list dl_op) (xs : list A) : list (option A) * list A :=
  match ops with
  | [] => ([], xs)
  | op :: ops => let (r, xs) := spec_exec op xs in
                 let (rs, xs) := spec_runs ops xs in (r :: rs, xs)
  end.

Lemma dl_step_refl h LL lx : dl_rep h LL lx -> dl_step h lx h LL lx.
Proof.
  intros Hrep. apply dl_step_intro; [done|tauto|done|]. intros l.
  destruct (decide (l ∈ lx.*1)) as [Hl|]; [|tauto].
  pose proof (dl_rep_dom _ _ _ _ Hrep Hl). tauto.
Qed.

Lemma dl_step_trans h lx h1 LL1 ly h2 LL2 lz :
  dl_step h lx h1 LL1 ly -> dl_step h1 ly h2 LL2 lz -> dl_step h lx h2 LL2 lz.
Proof.
  intros (_ & Hn1 & Hf1 & Hd1) (Hrep & Hn2 & Hf2 & Hd2). split_and!; [done|..].
  - intros l Hl. destruct (decide (l ∈ lx.*1)); [by left|right].
    intros Hin. destruct (Hn2 l Hl) as [H|H]; [naive_solver|].
    apply H. rewrite Hd1. tauto.
  - intros l Hin Hlx. assert (l ∉ ly.*1) by naive_solver.
    rewrite Hf2, Hf1; try done. rewrite Hd1. tauto.
  - intros l. rewrite Hd2, Hd1. destruct (decide (l ∈ ly.*1)) as [Hy|Hy].
    + destruct (Hn1 l Hy); tauto.
    + tauto.
Qed.

Lemma dl_exec_ok op h LL lx :
  dl_rep h LL lx ->
  exists r h' LL' ly, dl_exec op h LL = Ret (r, h', LL') /\ dl_step h lx h' LL' ly /\
                      spec_exec op lx.*2 = (r, ly.*2).
Proof.
  intros Hrep. destruct op as [x|x| |f]; simpl.
  - destruct (dl_push_head_ok h LL lx x Hrep) as (l & h' & LL' & -> & Hl & Hst).
    simpl. eexists _, _, _, _. by split_and!.
  - destruct (dl_push_tail_ok h LL lx x Hrep) as (l & h' & LL' & -> & Hl & Hst).
    simpl. eexists _, _, _, _. split_and!; [done..|]. by rewrite fmap_app.
  - destruct lx as [|[l x] lx].
    + rewrite dl_pop_head_nil by done. eexists _, _, _, []. split_and!; [done| |done].
      by apply dl_step_refl.
    + destruct (dl_pop_head_cons _ _ _ _ _ Hrep) as (h' & LL' & -> & Hst).
      eexists _, _, _, _. by split_and!.
  - pose proof (dl_remove_ok f _ _ _ Hrep) as H. rewrite remove_ends_fmap.
    destruct (remove_ends _ lx) as [[a ly]|] eqn:E; simpl.
    + destruct H as (h' & LL' & -> & Hst). eexists _, _, _, _. by split_and!.
    + rewrite H. eexists _, _, _, lx. split_and!; [done| |done]. by apply dl_step_refl.
Qed.

Lemma dl_runs_ok ops h LL lx :
  dl_rep h LL lx ->
  exists rs h' LL' ly, dl_runs ops h LL = Ret (rs, h', LL') /\ dl_step h lx h' LL' ly /\
                       spec_runs ops lx.*2 = (rs, ly.*2).
Proof.
  revert h LL lx. induction ops as [|op ops IH]; intros h LL lx Hrep; simpl.
  - eexists _, _, _, _. split_and!; [done| |done]. by apply dl_step_refl.
  - destruct (dl_exec_ok op _ _ _ Hrep) as (r & h1 & LL1 & ly & -> & Hst1 & ->). simpl.
    destruct (IH h1 LL1 ly ltac:(apply Hst1)) as (rs & h2 & LL2 & lz & -> & Hst2 & ->). simpl.
    eexists _, _, _, _. split_and!; [done| |done]. by eapply dl_step_trans.
Qed.

End dlist.

Arguments ready_elem : clear implicits.
Arguments dl_op : clear implicits.

(** ** The ready queue of the thread package (threads/thread.c) *)
Module ReadyQueue.

(** [typedef int Tid] (threads/thread.h) *)
Abbreviation Tid := Z (only parsing).

Definition addToHead (h : gmap loc (ready_elem Tid)) (LL : dl) (id : Tid) := dl_push_head h LL id.
Definition addToTail (h : gmap loc (ready_elem Tid)) (LL : dl) (id : Tid) := dl_push_tail h LL id.
Definition getHead (LL : dl) : option loc := head LL.

Definition removeNextReadyThread (h : gmap loc (ready_elem Tid)) (LL : dl)
    : res (Tid * gmap loc (ready_elem Tid) * dl) :=
  '(r, h, LL) ← dl_pop_head h LL; Ret (default (-1) r, h, LL).

Definition removeFromReadyQueue (h : gmap loc (ready_elem Tid)) (LL : dl) (id : Tid)
    : res (Tid * gmap loc (ready_elem Tid) * dl) :=
  '(r, h, LL) ← dl_remove (fun x => x =? id) h LL; Ret (default (-1) r, h, LL).

(** What the queue operations do to the sequence of thread ids. *)
Definition rq_next (q : list Tid) : Tid * list Tid :=
  match q with [] => (-1, []) | id :: q => (id, q) end.
Definition rq_remove (q : list Tid) (id : Tid) : Tid * list Tid :=
  match remove_ends (fun x => x =? id) q with None => (-1, q) | Some (x, q') => (x, q') end.

Inductive rq_op : Type :=
| AddToHead (id : Tid)
| AddToTail (id : Tid)
| RemoveNext
| RemoveFrom (id : Tid).

Definition rq_exec (op : rq_op) (h : gmap loc (ready_elem Tid)) (LL : dl)
    : res (Tid * gmap loc (ready_elem Tid) * dl) :=
  match op with
  | AddToHead id => '(h, LL) ← addToHead h LL id; Ret (id, h, LL)
  | AddToTail id => '(h, LL) ← addToTail h LL id; Ret (id, h, LL)
  | RemoveNext => removeNextReadyThread h LL
  | RemoveFrom id => removeFromReadyQueue h LL id
  end.

Fixpoint rq_runs (ops : list rq_op) (h : gmap loc (ready_elem Tid)) (LL : dl)
    : res (list Tid * gmap loc (ready_elem Tid) * dl) :=
  match ops with
  | [] => Ret ([], h, LL)
  | op :: ops =>
      '(r, h, LL) ← rq_exec op h LL;
      '(rs, h, LL) ← rq_runs ops h LL;
      Ret (r :: rs, h, LL)
  end.

Definition rq_spec (op : rq_op) (q : list Tid) : Tid * list Tid :=
  match op with
  | AddToHead id => (id, id :: q)
  | AddToTail id => (id, q ++ [id])
  | RemoveNext => rq_next q
  | RemoveFrom id => rq_remove q id
  end.

Fixpoint rq_specs (ops : list rq_op) (q : list Tid) : list Tid * list Tid :=
  match ops with
  | [] => ([], q)
  | op :: ops => let (r, q) := rq_spec op q in let (rs, q) := rq_specs ops q in (r :: rs, q)
  end.

Lemma rq_exec_ok op h LL lx :
  dl_rep h LL lx ->
  exists r h' LL' ly, rq_exec op h LL = Ret (r, h', LL') /\ dl_step h lx h' LL' ly /\
                      rq_spec op lx.*2 = (r, ly.*2).
Proof.
  intros Hrep.
  destruct (dl_exec_ok (match op with
    | AddToHead id => PushHead id | AddToTail id => PushTail id
    | RemoveNext => PopHead | RemoveFrom id => Remove (fun x => x =? id) end) _ _ _ Hrep)
    as (r & h' & LL' & ly & He & Hst & Hs).
  destruct op as [id|id| |id]; simpl in *.
  - unfold addToHead. inv_res He. destruct a as [h1 LL1]. simplify_eq. rewrite He0. simpl.
    eexists _, _, _, _. split_and!; [done..|congruence].
  - unfold addToTail. inv_res He. destruct a as [h1 LL1]. simplify_eq. rewrite He0. simpl.
    eexists _, _, _, _. split_and!; [done..|congruence].
  - unfold removeNextReadyThread. rewrite He. simpl. eexists _, _, _, _. split_and!; [done..|].
    unfold rq_next. revert Hs. destruct lx.*2; intros [= <- <-]; done.
  - unfold removeFromReadyQueue. rewrite He. simpl. eexists _, _, _, _. split_and!; [done..|].
    unfold rq_remove. revert Hs. destruct (remove_ends _ _) as [[]|]; intros [= <- <-]; done.
Qed.

(** C17: Any sequence of ready-queue operations, run on the heap from a
    well-formed queue (the empty one after [thread_init], or any other), never
    dereferences a NULL or freed node, returns what the same operations on the
    sequence of thread ids return, leaves a well-formed queue that holds that
    sequence, frees exactly the nodes it takes out and touches no other node. *)
Theorem ready_queue_runs_refine ops h LL lx (Hrep : dl_rep h LL lx) :
  exists rs h' LL' ly,
    rq_runs ops h LL = Ret (rs, h', LL') /\
    rq_specs ops lx.*2 = (rs, ly.*2) /\
    dl_step h lx h' LL' ly.
Proof.
  revert h LL lx Hrep. induction ops as [|op ops IH]; intros h LL lx Hrep; simpl.
  - eexists _, _, _, _. split_and!; [done..|]. by apply dl_step_refl.
  - destruct (rq_exec_ok op _ _ _ Hrep) as (r & h1 & LL1 & ly & -> & Hst1 & ->). simpl.
    destruct (IH h1 LL1 ly ltac:(apply Hst1)) as (rs & h2 & LL2 & lz & -> & -> & Hst2). simpl.
    eexists _, _, _, _. split_and!; [done..|]. by eapply dl_step_trans.
Qed.

(** A run over a queue of the ids 1, 2, 3, removing each end and the middle. *)
Lemma ready_queue_runs_witness :
  exists rs h' LL' ly,
    rq_runs [AddToTail 1; AddToTail 2; AddToTail 3; RemoveFrom 2; RemoveFrom 9; RemoveFrom 3; RemoveNext; RemoveNext]
      ∅ (Dl None None) = Ret (rs, h', LL') /\
    rq_specs [AddToTail 1; AddToTail 2; AddToTail 3; RemoveFrom 2; RemoveFrom 9; RemoveFrom 3; RemoveNext; RemoveNext]
      [] = (rs, ly.*2) /\
    dl_step ∅ [] h' LL' ly.
Proof. apply (ready_queue_runs_refine _ ∅ (Dl None None) []). split_and!; [constructor|done|done]. Defined.

End ReadyQueue.

(** ** The LRU list of the file cache (webserver/server_thread.c)

    A node carries a [struct file_data *]; the code only reads its name. *)
Module CacheLru.
Section cache_lru.
Context {F : Type} (file_name : F -> string).

Definition same_name (data : F) (x : F) : bool := bool_decide (file_name x = file_name data).

Definition pushBack (h : gmap loc (ready_elem F)) (LL : dl) (data : F) := dl_push_tail h LL data.
Definition getCachedFile (h : gmap loc (ready_elem F)) (LL : dl) (data : F) : res (option F) :=
  dl_find (S (size h)) (same_name data) h (head LL).
Definition removeLRUFile (h : gmap loc (ready_elem F)) (LL : dl) := dl_pop_head h LL.
Definition removeFileToBeMovedToBack (h : gmap loc (ready_elem F)) (LL : dl) (data : F) :=
  dl_remove (same_name data) h LL.

Lemma find_unique data xs x :
  NoDup (file_name <$> xs) -> x ∈ xs -> file_name x = file_name data ->
  List.find (same_name data) xs = Some x.
Proof.
  intros Hnd Hx Hn. destruct (List.find _ _) as [y|] eqn:Ef.
  - apply find_some in Ef as [Hy%list_elem_of_In Hs%bool_decide_eq_true].
    f_equal. eapply NoDup_fmap_eq; [done..|congruence].
  - exfalso. apply list_elem_of_In in Hx. pose proof (find_none _ _ Ef _ Hx) as Hs.
    by apply bool_decide_eq_false in Hs.
Qed.

(** [cache_lookup]'s two steps on the LRU list: [removeFileToBeMovedToBack]
    followed by [pushBack] of what it returned runs without a fault; on the
    list it moves the file with the looked-up name to the back when there is
    one, and then [getCachedFile] finds it; otherwise nothing changes. *)
Theorem lru_touch_refines h LL lx data (Hrep : dl_rep h LL lx)
    (Hnd : NoDup (file_name <$> lx.*2)) :
  exists r h1 LL1,
    removeFileToBeMovedToBack h LL data = Ret (r, h1, LL1) /\
    match r with
    | None => h1 = h /\ LL1 = LL /\ Forall (fun x => file_name x <> file_name data) lx.*2
    | Some x => exists h2 LL2 ly,
        pushBack h1 LL1 x = Ret (h2, LL2) /\ dl_step h lx h2 LL2 ly /\
        file_name x = file_name data /\
        ly.*2 ≡ₚ lx.*2 /\ last ly.*2 = Some x /\
        getCachedFile h2 LL2 data = Ret (Some x)
    end.
Proof.
  pose proof (dl_remove_ok (same_name data) _ _ _ Hrep) as Hrm.
  unfold removeFileToBeMovedToBack. destruct (remove_ends _ lx) as [[[l x] ly]|] eqn:E.
  - destruct Hrm as (h1 & LL1 & Hrm & Hst). eexists _, _, _. split; [exact Hrm|]. simpl.
    destruct (dl_push_tail_ok h1 LL1 ly x ltac:(apply Hst)) as (l' & h2 & LL2 & Hp & _ & Hst2).
    apply remove_ends_Permutation in E as [Hn E]. apply bool_decide_eq_true in Hn. simpl in Hn.
    assert (Hperm : (ly ++ [(l', x)]).*2 ≡ₚ lx.*2).
    { rewrite E, fmap_app. simpl. by rewrite Permutation_app_comm. }
    exists h2, LL2, (ly ++ [(l', x)]). split_and!; [done| |done|done| |].
    + by eapply dl_step_trans.
    + rewrite fmap_app. apply last_snoc.
    + unfold getCachedFile. rewrite (dl_find_ok _ h2 LL2 (ly ++ [(l', x)])) by apply Hst2.
      f_equal. apply find_unique; [by rewrite Hperm|..].
      * rewrite fmap_app. set_solver.
      * done.
  - eexists _, _, _. split; [exact Hrm|]. split_and!; [done..|].
    apply remove_ends_None in E. rewrite Forall_fmap. eapply Forall_impl; [exact E|].
    intros x. apply bool_decide_eq_false.
Qed.

End cache_lru.

(** A lookup of the first of two cached files. *)
Lemma lru_touch_witness :
  let h := <[1%positive := Elem "a"%string (Some 2%positive) None]>
            {[2%positive := Elem "b"%string None (Some 1%positive)]} in
  let LL := Dl (Some 1%positive) (Some 2%positive) in
  exists r h1 LL1,
    removeFileToBeMovedToBack (fun s => s) h LL "a"%string = Ret (r, h1, LL1) /\
    match r with
    | None => h1 = h /\ LL1 = LL /\ Forall (fun x => x <> "a"%string) ["a"; "b"]%string
    | Some x => exists h2 LL2 ly,
        pushBack h1 LL1 x = Ret (h2, LL2) /\
        dl_step h [(1%positive, "a"); (2%positive, "b")]%string h2 LL2 ly /\
        x = "a"%string /\ ly.*2 ≡ₚ ["a"; "b"]%string /\ last ly.*2 = Some x /\
        getCachedFile (fun s => s) h2 LL2 "a"%string = Ret (Some x)
    end.
Proof.
  apply (lru_touch_refines (fun s => s) _ _ [(1%positive, "a"); (2%positive, "b")]%string).
  - split_and!; [apply (bool_decide_unpack _); vm_compute; exact I|repeat split|done].
  - apply (bool_decide_unpack _). vm_compute. exact I.
Defined.

End CacheLru.
