(* ===== verification/HList.v ===== *)
(** * Lists with a single pointer as head (fs/list.h)

    A [struct hlist_head] has a pointer to its first node; a node has a pointer
    to the next one and pprev, the address of the pointer to itself: the head's
    or its predecessor's.  The memory has a cell for each of these pointers, so
    that pprev is the address of a cell.

    The operations are the pointer assignments of the header in its order.
    [hlist_refines] shows that they do to the sequences that the heads stand
    for what their names say, for any number of heads at once. *)
From S2P Require Import Prelude.

(** The cells of type struct hlist_node *: &h->first and &n->next. *)
Inductive slot := SFirst (h : Z) | SNext (n : Z).
#[global] Instance slot_eq_dec : EqDecision slot.
Proof. solve_decision. Defined.
#[global] Instance slot_countable : Countable slot.
Proof.
  apply (inj_countable' (fun s => match s with SFirst h => inl h | SNext n => inr n end)
    (fun x => match x with inl h => SFirst h | inr n => SNext n end)). by intros [].
Defined.

(** [struct hlist_head] and [struct hlist_node]; NULL is [None]. *)
Record hmem := HMem { cells : gmap slot (option Z); pprevs : gmap Z (option slot) }.

Implicit Types (m : hmem) (sl : slot) (n h : Z).

Definition load m sl : res (option Z) := deref (cells m !! sl).
Definition store sl v m : res hmem := _ ← load m sl; Ret (HMem (<[sl := v]> (cells m)) (pprevs m)).
Definition load_pprev m n : res (option slot) := deref (pprevs m !! n).
Definition store_pprev n v m : res hmem := _ ← load_pprev m n; Ret (HMem (cells m) (<[n := v]> (pprevs m))).
(** if (n) n->pprev = v *)
Definition store_pprev_if (n : option Z) v m : res hmem := match n with Some n => store_pprev n v m | None => Ret m end.

Definition INIT_HLIST_HEAD h m : res hmem := store (SFirst h) None m.
Definition INIT_HLIST_NODE n m : res hmem := m ← store (SNext n) None m; store_pprev n None m.
Definition hlist_empty h m : res bool := first ← load m (SFirst h); Ret (bool_decide (first = None)).

Definition hlist_add_head n h m : res hmem :=
  first ← load m (SFirst h);
  m ← store (SNext n) first m;
  m ← store_pprev_if first (Some (SNext n)) m;
  m ← store (SFirst h) (Some n) m;
  store_pprev n (Some (SFirst h)) m.

Definition hlist_add_before n next m : res hmem :=
  pprev ← load_pprev m next;
  m ← store_pprev n pprev m;
  m ← store (SNext n) (Some next) m;
  m ← store_pprev next (Some (SNext n)) m;
  pprev ← load_pprev m n;
  sl ← deref pprev;
  store sl (Some n) m.

Definition hlist_add_after n next m : res hmem :=
  x ← load m (SNext n);
  m ← store (SNext next) x m;
  m ← store (SNext n) (Some next) m;
  m ← store_pprev next (Some (SNext n)) m;
  x ← load m (SNext next);
  store_pprev_if x (Some (SNext next)) m.

Definition hlist_del n m : res hmem :=
  next ← load m (SNext n);
  pprev ← load_pprev m n;
  sl ← deref pprev;
  m ← store sl next m;
  m ← store_pprev_if next pprev m;
  INIT_HLIST_NODE n m.

Definition hlist_replace old new m : res hmem :=
  next ← load m (SNext old);
  pprev ← load_pprev m old;
  (* *new = *old *)
  m ← store (SNext new) next m;
  m ← store_pprev new pprev m;
  sl ← deref pprev;
  m ← store sl (Some new) m;
  store_pprev_if next (Some (SNext new)) m.

(** hlist_for_each_entry with a return from its body. *)
Fixpoint hlist_walk (fuel : nat) (f : Z -> res bool) (pos : option Z) m : res (option Z) :=
  match fuel with
  | O => Fail Diverge
  | S fuel =>
      match pos with
      | None => Ret None
      | Some p => b ← f p; if b : bool then Ret (Some p) else pos ← load m (SNext p); hlist_walk fuel f pos m
      end
  end.
Definition hlist_find (fuel : nat) (f : Z -> res bool) h m : res (option Z) := first ← load m (SFirst h); hlist_walk fuel f first m.

(** ** The sequences that a memory stands for *)

(** From a cell on, through the nodes of a list, to a pointer. *)
Fixpoint seg m sl (xs : list Z) (r : option Z) : Prop :=
  match xs with
  | [] => cells m !! sl = Some r
  | x :: xs => cells m !! sl = Some (Some x) /\ pprevs m !! x = Some (Some sl) /\ seg m (SNext x) xs r
  end.
Fixpoint end_slot sl (xs : list Z) : slot := match xs with [] => sl | x :: xs => end_slot (SNext x) xs end.
Definition first_or (r : option Z) (xs : list Z) : option Z := match xs with [] => r | x :: _ => Some x end.

Abbreviation table := (gmap Z (list Z)).

Record reps m (T : table) : Prop := Reps {
  rp_seg h xs : T !! h = Some xs -> seg m (SFirst h) xs None;
  rp_nodup h xs : T !! h = Some xs -> NoDup xs;
  rp_disj h h' xs xs' x : T !! h = Some xs -> T !! h' = Some xs' -> x ∈ xs -> x ∈ xs' -> h = h';
  rp_nodes x : is_Some (cells m !! SNext x) <-> is_Some (pprevs m !! x)
}.

Definition unused (T : table) n : Prop := map_Forall (fun _ xs => n ∉ xs) T.

(** The operations on sequences. *)
Inductive hop :=
| AddHead (n h : Z)
| AddBefore (n next : Z)
| AddAfter (n next : Z)
| Del (n : Z)
| Replace (old new : Z)
| InitHead (h : Z).

Definition run_hop (o : hop) : hmem -> res hmem :=
  match o with
  | AddHead n h => hlist_add_head n h
  | AddBefore n next => hlist_add_before n next
  | AddAfter n next => hlist_add_after n next
  | Del n => hlist_del n
  | Replace old new => hlist_replace old new
  | InitHead h => INIT_HLIST_HEAD h
  end.
Fixpoint run_hops (os : list hop) m : res hmem := match os with [] => Ret m | o :: os => m ← run_hop o m; run_hops os m end.

Definition abs_hop (o : hop) (T : table) : table :=
  match o with
  | AddHead n h => alter (cons n) h T
  | AddBefore n next => subst_node next [n; next] <$> T
  | AddAfter n next => subst_node n [n; next] <$> T
  | Del n => subst_node n [] <$> T
  | Replace old new => subst_node old [new] <$> T
  | InitHead h => <[h := []]> T
  end.
Definition abs_hops (os : list hop) (T : table) : table := fold_left (fun T o => abs_hop o T) os T.

Definition used (T : table) n : Prop := map_Exists (fun _ xs => n ∈ xs) T.

(** When an operation may be used, on the nodes [N]. *)
Definition hop_ok (N : gset Z) (o : hop) (T : table) : Prop :=
  match o with
  | AddHead n h => n ∈ N /\ unused T n /\ is_Some (T !! h)
  | AddBefore n y | AddAfter y n | Replace y n => n ∈ N /\ unused T n /\ used T y
  | Del n => used T n
  | InitHead h => is_Some (T !! h)
  end.
Fixpoint hops_ok (N : gset Z) (os : list hop) (T : table) : Prop :=
  match os with [] => True | o :: os => hop_ok N o T /\ hops_ok N os (abs_hop o T) end.

#[global] Instance unused_dec T n : Decision (unused T n).
Proof. unfold unused. apply _. Defined.
#[global] Instance used_dec T n : Decision (used T n).
Proof. unfold used. apply _. Defined.
#[global] Instance hop_ok_dec N o T : Decision (hop_ok N o T).
Proof. destruct o; cbn; apply _. Defined.
#[global] Instance hops_ok_dec N os T : Decision (hops_ok N os T).
Proof. revert T. induction os as [|o os IH]; intros T; cbn; apply _. Defined.

(** ** Segments *)

Lemma load_Some m sl v : cells m !! sl = Some v -> load m sl = Ret v.
Proof. intros E. unfold load. by rewrite E. Qed.
Lemma store_run m sl v : is_Some (cells m !! sl) -> store sl v m = Ret (HMem (<[sl := v]> (cells m)) (pprevs m)).
Proof. intros [x E]. unfold store. by rewrite (load_Some _ _ _ E). Qed.
Lemma load_pprev_Some m n v : pprevs m !! n = Some v -> load_pprev m n = Ret v.
Proof. intros E. unfold load_pprev. by rewrite E. Qed.
Lemma store_pprev_run m n v : is_Some (pprevs m !! n) -> store_pprev n v m = Ret (HMem (cells m) (<[n := v]> (pprevs m))).
Proof. intros [x E]. unfold store_pprev. by rewrite (load_pprev_Some _ _ _ E). Qed.
Lemma store_pprev_if_run m o v : (forall n, o = Some n -> is_Some (pprevs m !! n)) ->
  store_pprev_if o v m = Ret (HMem (cells m) (from_option (fun n => <[n := v]>) id o (pprevs m))).
Proof. intros H. destruct o as [n|]; cbn; [by rewrite store_pprev_run by auto|by destruct m]. Qed.

Lemma seg_app m sl l1 l2 r : seg m sl (l1 ++ l2) r <-> seg m sl l1 (first_or r l2) /\ seg m (end_slot sl l1) l2 r.
Proof.
  revert sl. induction l1 as [|x l1 IH]; intros sl; cbn [app seg end_slot].
  - destruct l2; cbn; tauto.
  - rewrite IH. tauto.
Qed.

Lemma end_slot_cases sl xs : end_slot sl xs = sl \/ exists x, x ∈ xs /\ end_slot sl xs = SNext x.
Proof.
  revert sl. induction xs as [|x xs IH]; intros sl; [by left|]. right. cbn. destruct (IH (SNext x)) as [->|(y & Hy & ->)].
  - exists x. split; [by left|done].
  - exists y. split; [by right|done].
Qed.

Lemma seg_end_slot m sl xs r : seg m sl xs r -> cells m !! end_slot sl xs = Some r.
Proof. revert sl. induction xs as [|x xs IH]; intros sl; [done|]. intros (_ & _ & H). by apply IH. Qed.

Lemma seg_first m sl xs r : seg m sl xs r -> cells m !! sl = Some (first_or r xs).
Proof. destruct xs; [done|]. by intros (E & _). Qed.

Lemma seg_node m sl xs r x : seg m sl xs r -> x ∈ xs -> is_Some (cells m !! SNext x) /\ is_Some (pprevs m !! x).
Proof.
  revert sl. induction xs as [|y xs IH]; intros sl; [by intros _ ?%elem_of_nil|]. intros (_ & Ep & H) [->|Hx]%elem_of_cons; [|by eapply IH].
  split; [|by eexists]. apply seg_first in H. by eexists.
Qed.

(** Another memory in which the cells and nodes of a segment are the same but
    for the last cell and the pprev of the first node. *)
Lemma seg_frame m m' sl sl' xs r r' :
  seg m sl xs r -> NoDup xs -> (forall x, x ∈ xs -> sl' <> SNext x) ->
  cells m' !! sl' = Some (first_or r' xs) -> cells m' !! end_slot sl' xs = Some r' ->
  (forall x, x ∈ xs -> SNext x <> end_slot sl' xs -> cells m' !! SNext x = cells m !! SNext x) ->
  (forall x, head xs = Some x -> pprevs m' !! x = Some (Some sl')) ->
  (forall x, x ∈ tail xs -> pprevs m' !! x = pprevs m !! x) ->
  seg m' sl' xs r'.
Proof.
  revert sl sl'. induction xs as [|x xs IH]; intros sl sl'; cbn [seg end_slot first_or head tail]; [done|].
  intros (E & Ep & H) (Hx & Hnd)%NoDup_cons Hsl Ef Ee Hc Hp1 Hp. split_and!; [done|by apply Hp1|].
  apply (IH (SNext x)); try done.
  - intros y Hy. intros [= ->]. done.
  - destruct xs as [|y xs]; [done|]. cbn [first_or]. rewrite Hc; [by destruct H as (-> & _)|by left|].
    cbn [end_slot]. destruct (end_slot_cases (SNext y) xs) as [->|(z & Hz & ->)]; intros [= ->]; apply Hx; [by left|by right].
  - intros y Hy. apply Hc. by right.
  - intros y Hy. destruct xs as [|z xs]; [done|]. injection Hy as ->. rewrite Hp by (by left). by destruct H as (_ & -> & _).
  - intros y Hy. apply Hp. destruct xs; [done|by right].
Qed.

Lemma seg_same m m' sl xs r :
  seg m sl xs r -> cells m' !! sl = cells m !! sl ->
  (forall x, x ∈ xs -> cells m' !! SNext x = cells m !! SNext x /\ pprevs m' !! x = pprevs m !! x) -> seg m' sl xs r.
Proof.
  revert sl. induction xs as [|x xs IH]; intros sl; cbn [seg]; intros H Es Hx; [congruence|]. destruct H as (E & Ep & H).
  destruct (Hx x) as [Ec Epp]; [by left|]. split_and!; [congruence|congruence|]. apply IH; [done|done|]. intros y Hy. apply Hx. by right.
Qed.

(** ** Changing one list *)

Lemma reps_update m m' T h xs xs' :
  reps m T -> T !! h = Some xs -> (forall h', h' <> h -> cells m' !! SFirst h' = cells m !! SFirst h') ->
  (forall x, x ∉ xs -> x ∉ xs' -> cells m' !! SNext x = cells m !! SNext x /\ pprevs m' !! x = pprevs m !! x) ->
  (forall x, x ∈ xs' -> x ∈ xs \/ unused T x) -> NoDup xs' -> seg m' (SFirst h) xs' None ->
  (forall x, is_Some (cells m' !! SNext x) <-> is_Some (pprevs m' !! x)) ->
  reps m' (<[h := xs']> T).
Proof.
  intros [Hseg Hnd Hdisj Hnodes] Eh Hf Hframe Hnew Hnd' Hseg' Hn. split.
  - intros k ys Ek. destruct (decide (k = h)) as [->|Hk].
    + rewrite lookup_insert_eq in Ek. by injection Ek as <-.
    + rewrite lookup_insert_ne in Ek by done. pose proof (Hseg _ _ Ek) as Hs.
      assert (Hout : forall x, x ∈ ys -> (x ∉ xs) /\ (x ∉ xs')).
      { intros x Hx. assert (Hxs : x ∉ xs) by (intros Hx'; apply Hk; by eapply Hdisj). split; [done|].
        intros Hx'. destruct (Hnew x Hx') as [|Hu]; [done|]. by apply (Hu k ys). }
      apply (seg_same m); [done|by apply Hf|]. intros x Hx. destruct (Hout x Hx). by apply Hframe.
  - intros k ys Ek. destruct (decide (k = h)) as [->|Hk]; [rewrite lookup_insert_eq in Ek; by injection Ek as <-|].
    rewrite lookup_insert_ne in Ek by done. by eapply Hnd.
  - assert (Hcross : forall k ys x, k <> h -> T !! k = Some ys -> x ∈ xs' -> x ∈ ys -> False).
    { intros k ys x Hk Ek Hx Hy. destruct (Hnew x Hx) as [Hx'|Hu]; [by apply Hk; eapply Hdisj|by apply (Hu k ys)]. }
    intros k k' ys ys' x. rewrite !lookup_insert. repeat case_decide; subst; try done; intros Ek Ek' Hx Hx'; simplify_eq.
    + exfalso. by eapply (Hcross k').
    + exfalso. by eapply (Hcross k).
    + by eapply Hdisj.
  - done.
Qed.

(** The one list with the node changes. *)
Lemma subst_reps m T h y f l1 l2 : reps m T -> T !! h = Some (l1 ++ y :: l2) -> subst_node y f <$> T = <[h := l1 ++ f ++ l2]> T.
Proof.
  intros Hr Eh. apply subst_table; [done|by apply (rp_nodup _ _ Hr h)|]. intros k ys Ek Hy. apply (rp_disj _ _ Hr k h ys _ y Ek Eh Hy).
  apply elem_of_app. right. by left.
Qed.

(** ** The part before a change and the part after it *)

Lemma end_slot_ne h l x : x ∉ l -> end_slot (SFirst h) l <> SNext x.
Proof. intros Hx. destruct (end_slot_cases (SFirst h) l) as [->|(y & Hy & ->)]; [done|]. intros [= ->]. done. Qed.

Lemma end_slot_first h h' l : h' <> h -> end_slot (SFirst h) l <> SFirst h'.
Proof. intros Hh. destruct (end_slot_cases (SFirst h) l) as [->|(y & Hy & ->)]; congruence. Qed.

Lemma seg_left m m' h l r r' :
  seg m (SFirst h) l r -> NoDup l -> cells m' !! end_slot (SFirst h) l = Some r' ->
  (forall sl, sl = SFirst h \/ (exists x, x ∈ l /\ sl = SNext x) -> sl <> end_slot (SFirst h) l -> cells m' !! sl = cells m !! sl) ->
  (forall x, x ∈ l -> pprevs m' !! x = pprevs m !! x) -> seg m' (SFirst h) l r'.
Proof.
  intros H Hnd He Hc Hp. apply (seg_frame m m' (SFirst h) (SFirst h) l r r'); try done.
  - destruct l as [|x l]; [done|]. rewrite Hc; [by destruct H as (-> & _)|by left|]. cbn. destruct (end_slot_cases (SNext x) l) as [->|(? & _ & ->)]; done.
  - intros x Hx Hne. apply Hc; [right; by exists x|done].
  - intros x Hx. destruct l as [|y l]; [done|]. injection Hx as ->. rewrite Hp by (by left). by destruct H as (_ & -> & _).
  - intros x Hx. apply Hp. destruct l; [done|by right].
Qed.

Lemma seg_right m m' sl sl' l r :
  seg m sl l r -> NoDup l -> (forall x, x ∈ l -> sl' <> SNext x) -> cells m' !! sl' = Some (first_or r l) ->
  (forall x, x ∈ l -> cells m' !! SNext x = cells m !! SNext x) ->
  (forall x, x ∈ l -> pprevs m' !! x = if decide (head l = Some x) then Some (Some sl') else pprevs m !! x) -> seg m' sl' l r.
Proof.
  intros H Hnd Hsl Hf Hc Hp. apply (seg_frame m m' sl sl' l r r); try done.
  - destruct l as [|x l]; [done|]. cbn. destruct H as (_ & _ & H). pose proof (seg_end_slot _ _ _ _ H) as He.
    rewrite <- He. destruct (end_slot_cases (SNext x) l) as [->|(y & Hy & ->)]; apply Hc; [by left|by right].
  - intros x Hx _. by apply Hc.
  - intros x Hx. rewrite Hp; [by case_decide|]. destruct l; [done|]. injection Hx as ->. by left.
  - intros x Hx. destruct l as [|y l]; [by apply not_elem_of_nil in Hx|]. cbn in Hx. apply NoDup_cons in Hnd as [Hy _]. rewrite Hp by (by right). rewrite decide_False; [done|].
    intros [= ->]. done.
Qed.

(** Splitting a list of a table at a node. *)
Lemma reps_split m T h l1 y l2 (e := end_slot (SFirst h) l1) : reps m T -> T !! h = Some (l1 ++ y :: l2) ->
  seg m (SFirst h) l1 (Some y) /\ cells m !! e = Some (Some y) /\ pprevs m !! y = Some (Some e) /\ seg m (SNext y) l2 None /\
  NoDup l1 /\ NoDup l2 /\ (y ∉ l1) /\ (y ∉ l2) /\ (forall x, x ∈ l1 -> x ∉ l2).
Proof.
  intros Hr Eh. pose proof (rp_seg _ _ Hr _ _ Eh) as Hs. pose proof (rp_nodup _ _ Hr _ _ Eh) as Hnd.
  apply seg_app in Hs as (H1 & H2 & H3 & H4). apply NoDup_app in Hnd as (N1 & Nd & N2). apply NoDup_cons in N2 as [Ny N2].
  split_and!; try done.
  - intros Hy. apply (Nd y Hy). by left.
  - intros x Hx Hx'. apply (Nd x Hx). by right.
Qed.

(** The cells and nodes that a step leaves alone. *)
Ltac look := repeat first
  [ rewrite lookup_insert_eq
  | rewrite lookup_insert_ne by (first [done | congruence]) ].

Lemma pprevs_if o (p : gmap Z (option slot)) v x :
  from_option (fun n => <[n := v]>) id o p !! x = if decide (o = Some x) then Some v else p !! x.
Proof.
  destruct o as [n|]; cbn; [|by rewrite decide_False]. destruct (decide (n = x)) as [->|Hne].
  - by rewrite lookup_insert_eq, decide_True.
  - rewrite lookup_insert_ne, decide_False by congruence. done.
Qed.

(** A store keeps what is allocated. *)
Lemma insert_dom {K A} `{Countable K} (p : gmap K A) k v j : is_Some (p !! k) -> is_Some (<[k := v]> p !! j) <-> is_Some (p !! j).
Proof. intros Hk. destruct (decide (k = j)) as [->|Hne]; [rewrite lookup_insert_eq; split; [done|by eexists]|by rewrite lookup_insert_ne]. Qed.

Lemma insert_if_dom (p : gmap Z (option slot)) o v j : (forall n, o = Some n -> is_Some (p !! n)) ->
  is_Some (from_option (fun n => <[n := v]>) id o p !! j) <-> is_Some (p !! j).
Proof. destruct o as [n|]; [|done]. intros Hn. by apply insert_dom, Hn. Qed.

Lemma first_or_head l : first_or None l = head l.
Proof. by destruct l. Qed.

Section step.
Context (m : hmem) (T : table) (Hr : reps m T).

Lemma used_split y : used T y -> exists h l1 l2, T !! h = Some (l1 ++ y :: l2).
Proof. intros (h & xs & Eh & (l1 & l2 & ->)%list_elem_of_split). by exists h, l1, l2. Qed.

Lemma unused_cell n : is_Some (pprevs m !! n) -> is_Some (cells m !! SNext n).
Proof. apply (rp_nodes _ _ Hr). Qed.

Lemma del_run n : used T n -> exists m', hlist_del n m = Ret m' /\ reps m' (abs_hop (Del n) T) /\ dom (pprevs m') = dom (pprevs m) /\
  pprevs m' !! n = Some None /\ cells m' !! SNext n = Some None.
Proof.
  intros (h & l1 & l2 & Eh)%used_split. destruct (reps_split m T h l1 n l2 Hr Eh) as (H1 & He & Hp & H2 & N1 & N2 & Hn1 & Hn2 & Hd).
  set (e := end_slot (SFirst h) l1) in *. pose proof (seg_first _ _ _ _ H2) as Hn. rewrite first_or_head in Hn.
  assert (Hen : e <> SNext n) by by apply end_slot_ne.
  unfold hlist_del, INIT_HLIST_NODE. rewrite (load_Some _ _ _ Hn), bind_ret, (load_pprev_Some _ _ _ Hp), bind_ret. cbn [deref].
  assert (Hhd : forall x, head l2 = Some x -> is_Some (pprevs m !! x)).
  { intros x Hx. destruct l2 as [|y l2]; [done|]. injection Hx as ->. by apply (seg_node _ _ _ _ _ H2); left. }
  rewrite bind_ret, store_run, bind_ret by (by eexists). rewrite store_pprev_if_run by done.
  rewrite bind_ret, store_run, bind_ret by (cbn; rewrite lookup_insert_ne by done; by eexists). cbn [cells pprevs].
  assert (Hnn : head l2 <> Some n) by (destruct l2; [done|]; intros [= ->]; apply Hn2; by left).
  rewrite store_pprev_run by (cbn; rewrite pprevs_if, decide_False by done; by eexists). cbn [cells pprevs].
  eexists. split; [done|]. cbn [cells pprevs abs_hop]. rewrite (subst_reps m T h n [] l1 l2 Hr Eh). cbn [app].
  assert (Hdom : forall x, is_Some (<[n:=None]> (from_option (fun n0 => <[n0:=Some e]>) id (head l2) (pprevs m)) !! x) <-> is_Some (pprevs m !! x)).
  { intros x. rewrite insert_dom; [by apply insert_if_dom|]. apply insert_if_dom; [done|by eexists]. }
  split; [|split_and!; [apply set_eq; intros x; rewrite !elem_of_dom; apply Hdom|by look|by look]].
  apply (reps_update m _ T h (l1 ++ n :: l2)); try done; cbn [cells pprevs].
  - intros h' Hh'. rewrite lookup_insert_ne by done. by apply lookup_insert_ne, end_slot_first.
  - intros x Hx _. rewrite lookup_insert_ne by set_solver. rewrite lookup_insert_ne by (apply end_slot_ne; set_solver).
    rewrite lookup_insert_ne by set_solver. rewrite pprevs_if, decide_False; [done|]. destruct l2; [done|]. set_solver.
  - set_solver.
  - apply NoDup_app. split_and!; [done|set_solver|done].
  - apply seg_app. fold e. rewrite first_or_head. split.
    + apply (seg_left m _ h l1 (Some n)); try done; cbn [cells pprevs]; fold e.
      * look. done.
      * intros sl Hsl Hne. rewrite !lookup_insert_ne; [done|done|]. destruct Hsl as [->|(x & Hx & ->)]; [done|]. intros [= <-]. done.
      * intros x Hx. rewrite lookup_insert_ne by set_solver. rewrite pprevs_if, decide_False; [done|]. destruct l2; [done|]. set_solver.
    + apply (seg_right m _ (SNext n) e l2); try done; cbn [cells pprevs].
      * intros x Hx. apply end_slot_ne. set_solver.
      * look. by rewrite first_or_head.
      * intros x Hx. rewrite lookup_insert_ne by set_solver. apply lookup_insert_ne, end_slot_ne. set_solver.
      * intros x Hx. rewrite lookup_insert_ne by set_solver. by rewrite pprevs_if.
  - intros x. rewrite Hdom, <- (rp_nodes _ _ Hr x). rewrite insert_dom; [apply insert_dom; by eexists|]. apply insert_dom; by eexists.
Qed.

(** A new node in the place of [mid], which is empty or the replaced node. *)
Record put_node (h : Z) (l1 l2 : list Z) (n : Z) (m' : hmem) : Prop := PutNode {
  pn_end : cells m' !! end_slot (SFirst h) l1 = Some (Some n);
  pn_next : cells m' !! SNext n = Some (head l2);
  pn_cells sl : sl <> end_slot (SFirst h) l1 -> sl <> SNext n -> cells m' !! sl = cells m !! sl;
  pn_pprev x : pprevs m' !! x = if decide (x = n) then Some (Some (end_slot (SFirst h) l1)) else
                                if decide (head l2 = Some x) then Some (Some (SNext n)) else pprevs m !! x
}.

Lemma put_node_reps h l1 mid l2 n m' :
  T !! h = Some (l1 ++ mid ++ l2) -> is_Some (pprevs m !! n) -> unused T n -> put_node h l1 l2 n m' ->
  reps m' (<[h := l1 ++ n :: l2]> T) /\ dom (pprevs m') = dom (pprevs m).
Proof.
  intros Eh Hpn Hun [He Hn Hc Hp]. pose proof (Hun _ _ Eh) as Hnot. rewrite !not_elem_of_app in Hnot. destruct Hnot as (Hn1 & _ & Hn2).
  pose proof (rp_seg _ _ Hr _ _ Eh) as Hs. apply seg_app in Hs as [Hs1 [_ Hs2]%seg_app].
  pose proof (rp_nodup _ _ Hr _ _ Eh) as (N1 & Nd & (_ & _ & N2)%NoDup_app)%NoDup_app.
  assert (Hd : forall x, x ∈ l1 -> x ∉ l2) by (intros x Hx Hx'; apply (Nd x Hx), elem_of_app; by right).
  assert (Hhd : forall x, head l2 = Some x -> x ∈ l2) by (intros x; destruct l2; [done|intros [= ->]; by left]).
  assert (Hdom : forall x, is_Some (pprevs m' !! x) <-> is_Some (pprevs m !! x)).
  { intros x. rewrite Hp. repeat case_decide; subst; [split; [done|by eexists]| |done]. split; [|by eexists]. intros _.
    apply (seg_node _ _ _ _ _ Hs2). by apply Hhd. }
  split; [|apply set_eq; intros x; by rewrite !elem_of_dom].
  apply (reps_update m m' T h (l1 ++ mid ++ l2)); try done.
  - intros h' Hh'. apply Hc; [|done]. intros E. exact (end_slot_first h h' l1 Hh' (eq_sym E)).
  - intros x Hx Hx'. rewrite !not_elem_of_app in Hx. rewrite not_elem_of_app, not_elem_of_cons in Hx'. split.
    + apply Hc; [|intros [= ->]; tauto]. intros E. apply (end_slot_ne h l1 x); [tauto|done].
    + rewrite Hp, !decide_False; [done| |tauto]. intros E. apply Hx. by apply Hhd.
  - intros x [Hx|[->|Hx]%elem_of_cons]%elem_of_app; [left; set_solver|by right|left; set_solver].
  - apply NoDup_app. split_and!; [done|set_solver|]. by apply NoDup_cons.
  - apply seg_app. cbn [first_or seg]. split_and!.
    + apply (seg_left m m' h l1 (first_or None (mid ++ l2))); try done.
      * intros sl Hsl Hne. apply Hc; [done|]. destruct Hsl as [->|(x & Hx & ->)]; [done|]. intros [= ->]. done.
      * intros x Hx. rewrite Hp, !decide_False; [done| |by intros ->]. intros E. apply (Hd x Hx). by apply Hhd.
    + done.
    + by rewrite Hp, decide_True.
    + apply (seg_right m m' (end_slot (end_slot (SFirst h) l1) mid) (SNext n)); try done.
      * intros x Hx [= ->]. done.
      * intros x Hx. apply Hc; [|intros [= ->]; done]. intros E. apply (end_slot_ne h l1 x); [|done]. intros Hx'. by apply (Hd x).
      * intros x Hx. rewrite Hp, decide_False by (by intros ->). done.
  - intros x. rewrite Hdom, <- (rp_nodes _ _ Hr x). destruct (decide (x = n)) as [->|Hx].
    + rewrite Hn. split; [by intros _; apply unused_cell|by eexists].
    + destruct (decide (SNext x = end_slot (SFirst h) l1)) as [E|E]; [|rewrite Hc; [done|done|by intros [= ->]]].
      rewrite E, He. split; [|by eexists]. intros _. rewrite (seg_end_slot _ _ _ _ Hs1). by eexists.
Qed.


(** The first node of the rest of a list has a pprev. *)
Lemma head_pprev sl l : seg m sl l None -> forall x, head l = Some x -> is_Some (pprevs m !! x).
Proof. intros Hs x Hx. destruct l as [|y l]; [done|]. injection Hx as ->. by apply (seg_node _ _ _ _ _ Hs); left. Qed.

(** After the pointers are set. *)
Lemma put_node_intro h l1 l2 n (e := end_slot (SFirst h) l1) c p :
  (forall sl, c !! sl = if decide (sl = e) then Some (Some n) else if decide (sl = SNext n) then Some (head l2) else cells m !! sl) ->
  (forall x, p !! x = if decide (x = n) then Some (Some e) else if decide (head l2 = Some x) then Some (Some (SNext n)) else pprevs m !! x) ->
  e <> SNext n -> put_node h l1 l2 n (HMem c p).
Proof.
  intros Hc Hp Hne. split; cbn [cells pprevs].
  - by rewrite Hc, decide_True.
  - rewrite Hc, decide_False, decide_True; [done|done|congruence].
  - intros sl H1 H2. by rewrite Hc, !decide_False.
  - exact Hp.
Qed.

(** Decides every key of the updated cells. *)
Ltac keys := repeat (rewrite lookup_insert || rewrite pprevs_if); repeat case_decide; subst; simplify_eq; try done.

Lemma add_head_run n h : is_Some (pprevs m !! n) -> unused T n -> is_Some (T !! h) ->
  exists m', hlist_add_head n h m = Ret m' /\ reps m' (abs_hop (AddHead n h) T) /\ dom (pprevs m') = dom (pprevs m).
Proof.
  intros Hpn Hun [xs Eh]. pose proof (rp_seg _ _ Hr _ _ Eh) as Hs. pose proof (seg_first _ _ _ _ Hs) as Ef. rewrite first_or_head in Ef.
  pose proof (unused_cell n Hpn) as Hcn. assert (Hnx : head xs <> Some n) by (intros E; apply (Hun _ _ Eh); destruct xs; [done|injection E as ->; by left]).
  unfold hlist_add_head. rewrite (load_Some _ _ _ Ef), bind_ret, store_run, bind_ret by done. rewrite store_pprev_if_run, bind_ret by (by eapply head_pprev).
  rewrite store_run, bind_ret by (cbn; rewrite lookup_insert_ne by done; by eexists). cbn [cells pprevs].
  rewrite store_pprev_run by (cbn; rewrite pprevs_if; by case_decide). cbn [cells pprevs]. eexists. split; [done|].
  assert (Ea : abs_hop (AddHead n h) T = <[h := [] ++ n :: xs]> T).
  { cbn. apply map_eq. intros k. rewrite lookup_insert. case_decide; subst; [by rewrite lookup_alter_eq, Eh|by rewrite lookup_alter_ne]. }
  rewrite Ea. apply (put_node_reps h [] [] xs); try done. apply put_node_intro; [|intros x; keys|done]. intros sl; cbn. keys.
Qed.

Lemma add_before_run n y : is_Some (pprevs m !! n) -> unused T n -> used T y ->
  exists m', hlist_add_before n y m = Ret m' /\ reps m' (abs_hop (AddBefore n y) T) /\ dom (pprevs m') = dom (pprevs m).
Proof.
  intros Hpn Hun (h & l1 & l2 & Eh)%used_split. destruct (reps_split m T h l1 y l2 Hr Eh) as (H1 & He & Hp & H2 & _).
  pose proof (Hun _ _ Eh) as Hnot. rewrite not_elem_of_app, not_elem_of_cons in Hnot. destruct Hnot as (Hn1 & Hny & Hn2).
  set (e := end_slot (SFirst h) l1) in *. assert (Hen : e <> SNext n) by by apply end_slot_ne.
  unfold hlist_add_before. rewrite (load_pprev_Some _ _ _ Hp), bind_ret, store_pprev_run, bind_ret by done.
  rewrite store_run, bind_ret by by apply unused_cell. cbn [cells pprevs].
  rewrite store_pprev_run, bind_ret by (cbn; rewrite lookup_insert_ne by done; by eexists). cbn [cells pprevs].
  rewrite (load_pprev_Some _ n (Some e)), bind_ret by (cbn; rewrite lookup_insert_ne by done; apply lookup_insert_eq). cbn [deref]. rewrite bind_ret.
  rewrite store_run by (cbn; rewrite lookup_insert_ne by done; by eexists). cbn [cells pprevs]. eexists. split; [done|].
  cbn [abs_hop]. rewrite (subst_reps m T h y _ l1 l2 Hr Eh). apply (put_node_reps h l1 [] (y :: l2)); try done.
  apply put_node_intro; [intros sl|intros x|done]; fold e; cbn [head]; keys.
Qed.

Lemma add_after_run y n : is_Some (pprevs m !! n) -> unused T n -> used T y ->
  exists m', hlist_add_after y n m = Ret m' /\ reps m' (abs_hop (AddAfter y n) T) /\ dom (pprevs m') = dom (pprevs m).
Proof.
  intros Hpn Hun (h & l1 & l2 & Eh)%used_split. destruct (reps_split m T h l1 y l2 Hr Eh) as (H1 & He & Hp & H2 & _).
  pose proof (Hun _ _ Eh) as Hnot. rewrite not_elem_of_app, not_elem_of_cons in Hnot. destruct Hnot as (Hn1 & Hny & Hn2).
  assert (Hh2 : head l2 <> Some n) by (intros E; apply Hn2; destruct l2; [done|injection E as ->; by left]).
  pose proof (seg_first _ _ _ _ H2) as Ef. rewrite first_or_head in Ef.
  unfold hlist_add_after. rewrite (load_Some _ _ _ Ef), bind_ret, store_run, bind_ret by by apply unused_cell. cbn [cells pprevs].
  rewrite store_run, bind_ret by (cbn; rewrite lookup_insert_ne by congruence; by eexists). cbn [cells pprevs].
  rewrite store_pprev_run, bind_ret by done. cbn [cells pprevs].
  rewrite (load_Some _ (SNext n) (head l2)), bind_ret by (cbn; rewrite lookup_insert_ne by congruence; apply lookup_insert_eq).
  rewrite store_pprev_if_run.
  2:{ cbn. intros x Hx. apply insert_dom; [done|]. by apply (head_pprev _ _ H2). }
  cbn [cells pprevs]. eexists. split; [done|]. cbn [abs_hop]. rewrite (subst_reps m T h y _ l1 l2 Hr Eh).
  change (l1 ++ [y; n] ++ l2) with (l1 ++ [y] ++ n :: l2). rewrite app_assoc.
  assert (Ee : end_slot (SFirst h) (l1 ++ [y]) = SNext y).
  { clear. generalize (SFirst h). induction l1; intros s; [done|]. cbn. apply IHl1. }
  apply (put_node_reps h (l1 ++ [y]) [] l2); [by rewrite <- app_assoc|done|done|].
  apply put_node_intro; rewrite Ee; [intros sl|intros x|congruence]; keys.
Qed.

Lemma replace_run y n : is_Some (pprevs m !! n) -> unused T n -> used T y ->
  exists m', hlist_replace y n m = Ret m' /\ reps m' (abs_hop (Replace y n) T) /\ dom (pprevs m') = dom (pprevs m).
Proof.
  intros Hpn Hun (h & l1 & l2 & Eh)%used_split. destruct (reps_split m T h l1 y l2 Hr Eh) as (H1 & He & Hp & H2 & _).
  pose proof (Hun _ _ Eh) as Hnot. rewrite not_elem_of_app, not_elem_of_cons in Hnot. destruct Hnot as (Hn1 & Hny & Hn2).
  assert (Hh2 : head l2 <> Some n) by (intros E; apply Hn2; destruct l2; [done|injection E as ->; by left]).
  set (e := end_slot (SFirst h) l1) in *. assert (Hen : e <> SNext n) by by apply end_slot_ne.
  pose proof (seg_first _ _ _ _ H2) as Ef. rewrite first_or_head in Ef.
  unfold hlist_replace. rewrite (load_Some _ _ _ Ef), bind_ret, (load_pprev_Some _ _ _ Hp), bind_ret.
  rewrite store_run, bind_ret by by apply unused_cell. rewrite store_pprev_run, bind_ret by done. cbn [cells pprevs deref]. rewrite bind_ret.
  rewrite store_run, bind_ret by (cbn; rewrite lookup_insert_ne by done; by eexists). cbn [cells pprevs].
  rewrite store_pprev_if_run.
  2:{ cbn. intros x Hx. apply insert_dom; [done|]. by apply (head_pprev _ _ H2). }
  cbn [cells pprevs]. eexists. split; [done|]. cbn [abs_hop]. rewrite (subst_reps m T h y _ l1 l2 Hr Eh).
  apply (put_node_reps h l1 [y] l2); try done. apply put_node_intro; [intros sl|intros x|done]; fold e; keys.
Qed.

Lemma init_node_run n : is_Some (pprevs m !! n) -> unused T n ->
  exists m', INIT_HLIST_NODE n m = Ret m' /\ reps m' T /\ dom (pprevs m') = dom (pprevs m).
Proof.
  intros Hpn Hun. pose proof (unused_cell n Hpn) as Hcn. unfold INIT_HLIST_NODE.
  rewrite store_run, bind_ret, store_pprev_run by done. cbn [cells pprevs]. eexists. split; [done|]. split.
  - split; [|exact (rp_nodup _ _ Hr)|exact (rp_disj _ _ Hr)|].
    + intros h xs Eh. apply (seg_same m); [by apply (rp_seg _ _ Hr)|by apply lookup_insert_ne|]. intros x Hx. cbn [cells pprevs].
      rewrite !lookup_insert_ne; [done| |intros [= ->]]; [intros ->|]; by apply (Hun h xs).
    + intros x. cbn [cells pprevs]. rewrite !insert_dom by done. apply (rp_nodes _ _ Hr).
  - apply set_eq. intros x. rewrite !elem_of_dom. by apply insert_dom.
Qed.

(** The first use of a head, whatever it holds. *)
Lemma new_head_run h : is_Some (cells m !! SFirst h) -> T !! h = None ->
  exists m', INIT_HLIST_HEAD h m = Ret m' /\ reps m' (<[h := []]> T) /\ pprevs m' = pprevs m /\
    (forall k, is_Some (cells m' !! SFirst k) <-> is_Some (cells m !! SFirst k)).
Proof.
  intros Hc Eh. unfold INIT_HLIST_HEAD. rewrite store_run by done. eexists. split; [done|]. split; [|split; [done|intros k; by apply insert_dom]].
  split; cbn [cells pprevs].
  - intros k xs. rewrite lookup_insert. case_decide as Hk; [intros [= <-]; subst; apply lookup_insert_eq|]. intros Ek.
    apply (seg_same m); [by apply (rp_seg _ _ Hr)|apply lookup_insert_ne; congruence|]. intros x _. split; [by apply lookup_insert_ne|done].
  - intros k xs. rewrite lookup_insert. case_decide; [intros [= <-]; constructor|apply (rp_nodup _ _ Hr)].
  - intros k k' xs xs' x. rewrite !lookup_insert. repeat case_decide; subst; try done; intros Ek Ek' Hx Hx'; simplify_eq.
    + by apply elem_of_nil in Hx.
    + by apply elem_of_nil in Hx'.
    + by eapply (rp_disj _ _ Hr).
  - intros x. rewrite lookup_insert_ne by done. apply (rp_nodes _ _ Hr).
Qed.

Lemma init_head_run h : is_Some (T !! h) ->
  exists m', INIT_HLIST_HEAD h m = Ret m' /\ reps m' (abs_hop (InitHead h) T) /\ dom (pprevs m') = dom (pprevs m).
Proof.
  intros [xs Eh]. pose proof (seg_first _ _ _ _ (rp_seg _ _ Hr _ _ Eh)) as Ef. unfold INIT_HLIST_HEAD. rewrite store_run by (by eexists).
  eexists. split; [done|]. split; [|done]. apply (reps_update m _ T h xs []); try done; cbn [cells pprevs].
  - intros h' Hh. apply lookup_insert_ne. congruence.
  - intros x _ _. by rewrite lookup_insert_ne.
  - by intros x ?%elem_of_nil.
  - constructor.
  - apply lookup_insert_eq.
  - intros x. rewrite lookup_insert_ne by done. apply (rp_nodes _ _ Hr).
Qed.

Lemma hop_run o : hop_ok (dom (pprevs m)) o T ->
  exists m', run_hop o m = Ret m' /\ reps m' (abs_hop o T) /\ dom (pprevs m') = dom (pprevs m).
Proof.
  destruct o as [n h|n y|y n|n|y n|h]; cbn [hop_ok run_hop]; rewrite ?elem_of_dom.
  - intros (? & ? & ?). by apply add_head_run.
  - intros (? & ? & ?). by apply add_before_run.
  - intros (? & ? & ?). by apply add_after_run.
  - intros Hu. destruct (del_run n Hu) as (m' & ? & ? & ? & _). by exists m'.
  - intros (? & ? & ?). by apply replace_run.
  - apply init_head_run.
Qed.

End step.

(** The operations of fs/list.h on lists with one pointer as head refine the
    operations on the sequences of nodes: in any sequence of them on any number
    of lists, if nodes are only inserted while they are in no list, and the
    others are used on nodes of lists, no pointer is missing and the memory
    stands for the resulting sequences. *)
Theorem hlist_refines os m T :
  reps m T -> hops_ok (dom (pprevs m)) os T -> exists m', run_hops os m = Ret m' /\ reps m' (abs_hops os T).
Proof.
  revert m T. induction os as [|o os IH]; intros m T Hr Hok; [by exists m|]. destruct Hok as [Ho Hok].
  destruct (hop_run m T Hr o Ho) as (m1 & E1 & Hr1 & Hd). rewrite <- Hd in Hok. destruct (IH m1 _ Hr1 Hok) as (m2 & E2 & Hr2).
  exists m2. cbn [run_hops]. by rewrite E1, bind_ret.
Qed.

(** Two empty lists, and nodes 1 to 4. *)
Definition demo_hmem : hmem :=
  HMem {[SFirst 100 := None; SFirst 200 := None; SNext 1 := None; SNext 2 := None; SNext 3 := None; SNext 4 := None]}
       {[1 := None; 2 := None; 3 := None; 4 := None]}.
Definition demo_table : table := {[100 := []; 200 := []]}.
Definition demo_hops : list hop := [AddHead 1 100; AddAfter 1 2; AddBefore 3 2; Del 1; AddHead 1 200; Replace 2 4].

Lemma demo_reps : reps demo_hmem demo_table.
Proof.
  assert (Hk : forall h xs, demo_table !! h = Some xs -> (h = 100 \/ h = 200) /\ xs = []).
  { unfold demo_table. intros h xs [[<- <-]|[_ [<- <-]%lookup_singleton_Some]]%lookup_insert_Some; tauto. }
  split.
  - by intros h xs [[-> | ->] ->]%Hk.
  - intros h xs [_ ->]%Hk. constructor.
  - intros h h' xs xs' x [_ ->]%Hk _ Hx. by apply elem_of_nil in Hx.
  - intros x. unfold demo_hmem. cbn [cells pprevs]. rewrite !lookup_insert, !lookup_singleton. repeat case_decide; simplify_eq; split; done.
Qed.

Lemma hlist_refines_witness : exists m', run_hops demo_hops demo_hmem = Ret m' /\ reps m' {[100 := [3; 4]; 200 := [1]]}.
Proof.
  replace {[100 := [3; 4]; 200 := [1]]} with (abs_hops demo_hops demo_table) by (vm_compute; reflexivity).
  apply (hlist_refines demo_hops demo_hmem demo_table); [exact demo_reps|]. apply (bool_decide_unpack _). vm_compute. exact I.
Defined.
