(* ===== verification/ListHead.v ===== *)
(** * Circular lists (fs/list.h)

    A [struct list_head] is the head of a list or one of its entries; its two
    pointers lead around a circle.  The memory has both pointers of every
    struct; the operations are the assignments of the header in its order.
    [list_refines] shows that they do to the sequences that the heads stand
    for what their names say. *)
From S2P Require Import Prelude.

(** [struct list_head]; NULL is [None]. *)
Record lmem := LMem { nexts : gmap Z (option Z); prevs : gmap Z (option Z) }.

Implicit Types (m : lmem) (h n x y : Z).

Definition get_next m x : res (option Z) := deref (nexts m !! x).
Definition get_prev m x : res (option Z) := deref (prevs m !! x).
(** A pointer that is followed: p->next where p is x->next, and so on. *)
Definition next_of m x : res Z := p ← get_next m x; deref p.
Definition prev_of m x : res Z := p ← get_prev m x; deref p.
Definition put_next x v m : res lmem := _ ← get_next m x; Ret (LMem (<[x := v]> (nexts m)) (prevs m)).
Definition put_prev x v m : res lmem := _ ← get_prev m x; Ret (LMem (nexts m) (<[x := v]> (prevs m))).

Definition INIT_LIST_HEAD list m : res lmem := m ← put_next list (Some list) m; put_prev list (Some list) m.

Definition __list_add new prev next m : res lmem :=
  m ← put_prev next (Some new) m;
  m ← put_next new (Some next) m;
  m ← put_prev new (Some prev) m;
  put_next prev (Some new) m.
Definition list_add new head m : res lmem := next ← next_of m head; __list_add new head next m.
Definition list_add_tail new head m : res lmem := prev ← prev_of m head; __list_add new prev head m.

Definition __list_del prev next m : res lmem := m ← put_prev next (Some prev) m; put_next prev (Some next) m.
Definition list_del entry m : res lmem :=
  prev ← get_prev m entry;
  _ ← c_assert (bool_decide (prev <> None));
  next ← get_next m entry;
  _ ← c_assert (bool_decide (next <> None));
  prev ← deref prev;
  next ← deref next;
  m ← __list_del prev next m;
  m ← put_prev entry None m;
  put_next entry None m.

Definition list_replace old new m : res lmem :=
  next ← get_next m old;
  m ← put_next new next m;
  next ← deref next;
  m ← put_prev next (Some new) m;
  prev ← get_prev m old;
  m ← put_prev new prev m;
  prev ← deref prev;
  put_next prev (Some new) m.

Definition list_is_last list head m : res bool := next ← get_next m list; Ret (bool_decide (next = Some head)).
Definition list_empty head m : res bool := next ← get_next m head; Ret (bool_decide (next = Some head)).
Definition list_is_singular head m : res bool :=
  b ← list_empty head m;
  if b : bool then Ret false else next ← get_next m head; prev ← get_prev m head; Ret (bool_decide (next = prev)).

Definition __list_cut_position list head entry m : res lmem :=
  new_first ← next_of m entry;
  first ← next_of m head;
  m ← put_next list (Some first) m;
  m ← put_prev first (Some list) m;
  m ← put_prev list (Some entry) m;
  m ← put_next entry (Some list) m;
  m ← put_next head (Some new_first) m;
  put_prev new_first (Some head) m.
Definition list_cut_position list head entry m : res lmem :=
  b ← list_empty head m;
  if b : bool then Ret m
  else
    b ← list_is_singular head m;
    next ← get_next m head;
    if (b : bool) && bool_decide (next <> Some entry) && bool_decide (head <> entry) then Ret m
    else if bool_decide (entry = head) then INIT_LIST_HEAD list m
    else __list_cut_position list head entry m.

Definition __list_splice list prev next m : res lmem :=
  first ← next_of m list;
  last ← prev_of m list;
  m ← put_prev first (Some prev) m;
  m ← put_next prev (Some first) m;
  m ← put_next last (Some next) m;
  put_prev next (Some last) m.
Definition list_splice list head m : res lmem :=
  b ← list_empty list m;
  if b : bool then Ret m else next ← next_of m head; __list_splice list head next m.
Definition list_splice_tail list head m : res lmem :=
  b ← list_empty list m;
  if b : bool then Ret m else prev ← prev_of m head; __list_splice list prev head m.

(** list_for_each_entry, as the sequence of the entries that it visits. *)
Fixpoint list_walk (fuel : nat) pos head m : res (list Z) :=
  match fuel with
  | O => Fail Diverge
  | S fuel =>
      if bool_decide (pos = head) then Ret []
      else next ← next_of m pos; l ← list_walk fuel next head m; Ret (pos :: l)
  end.
Definition list_entries (fuel : nat) head m : res (list Z) := pos ← next_of m head; list_walk fuel pos head m.

(** ** The sequences that a memory stands for *)

(** From [x] through the entries [xs] to [y], forth and back. *)
Fixpoint path m x (xs : list Z) y : Prop :=
  match xs with
  | [] => nexts m !! x = Some (Some y) /\ prevs m !! y = Some (Some x)
  | z :: xs => (nexts m !! x = Some (Some z) /\ prevs m !! z = Some (Some x)) /\ path m z xs y
  end.

Definition hd_to (xs : list Z) y : Z := match xs with [] => y | x :: _ => x end.
Fixpoint last_from x (xs : list Z) : Z := match xs with [] => x | z :: xs => last_from z xs end.

Abbreviation table := (gmap Z (list Z)).

Record lists m (T : table) : Prop := Lists {
  ls_path h xs : T !! h = Some xs -> path m h xs h;
  ls_nodup h xs : T !! h = Some xs -> NoDup (h :: xs);
  ls_disj h h' xs xs' x : T !! h = Some xs -> T !! h' = Some xs' -> x ∈ h :: xs -> x ∈ h' :: xs' -> h = h';
  ls_structs x : is_Some (nexts m !! x) <-> is_Some (prevs m !! x)
}.

(** No head and in no list. *)
Definition outside (T : table) x : Prop := map_Forall (fun h xs => x ∉ h :: xs) T.
Definition inside (T : table) x : Prop := map_Exists (fun _ xs => x ∈ xs) T.

Inductive lop :=
| LInit (h : Z)
| LAdd (n h : Z)
| LAddTail (n h : Z)
| LDel (x : Z)
| LReplace (x n : Z)
| LSplice (l h : Z)
| LSpliceTail (l h : Z)
| LCut (l h x : Z).

Definition run_lop (o : lop) : lmem -> res lmem :=
  match o with
  | LInit h => INIT_LIST_HEAD h
  | LAdd n h => list_add n h
  | LAddTail n h => list_add_tail n h
  | LDel x => list_del x
  | LReplace x n => list_replace x n
  | LSplice l h => list_splice l h
  | LSpliceTail l h => list_splice_tail l h
  | LCut l h x => list_cut_position l h x
  end.
Fixpoint run_lops (os : list lop) m : res lmem := match os with [] => Ret m | o :: os => m ← run_lop o m; run_lops os m end.

(** The entries up to and including [x], and the others. *)
Fixpoint split_after x (xs : list Z) : list Z * list Z :=
  match xs with
  | [] => ([], [])
  | z :: xs => if decide (z = x) then ([z], xs) else let (l, r) := split_after x xs in (z :: l, r)
  end.

Definition abs_lop (o : lop) (T : table) : table :=
  match o with
  | LInit h => <[h := []]> T
  | LAdd n h => alter (cons n) h T
  | LAddTail n h => alter (fun xs => xs ++ [n]) h T
  | LDel x => subst_node x [] <$> T
  | LReplace x n => subst_node x [n] <$> T
  | LSplice l h =>
      match T !! l with
      | Some (x :: xs) => alter (fun ys => (x :: xs) ++ ys) h (delete l T)
      | _ => T
      end
  | LSpliceTail l h =>
      match T !! l with
      | Some (x :: xs) => alter (fun ys => ys ++ x :: xs) h (delete l T)
      | _ => T
      end
  | LCut l h x =>
      match T !! h with
      | Some (z :: xs) =>
          if decide (x = h) then <[l := []]> T
          else <[l := (split_after x (z :: xs)).1]> (<[h := (split_after x (z :: xs)).2]> T)
      | _ => T
      end
  end.
Definition abs_lops (os : list lop) (T : table) : table := fold_left (fun T o => abs_lop o T) os T.

(** When an operation may be used, on the structs [N].  The list that is
    spliced is left alone afterwards until it is initialised again, and what
    the list that receives a cut part held is lost. *)
Definition lop_ok (N : gset Z) (o : lop) (T : table) : Prop :=
  match o with
  | LInit h => h ∈ N /\ outside (delete h T) h
  | LAdd n h | LAddTail n h => n ∈ N /\ outside T n /\ is_Some (T !! h)
  | LDel x => inside T x
  | LReplace x n => n ∈ N /\ outside T n /\ inside T x
  | LSplice l h | LSpliceTail l h => l <> h /\ is_Some (T !! l) /\ is_Some (T !! h)
  | LCut l h x => l ∈ N /\ l <> h /\ outside (delete l T) l /\ match T !! h with Some xs => x ∈ h :: xs | None => False end
  end.
Fixpoint lops_ok (N : gset Z) (os : list lop) (T : table) : Prop :=
  match os with [] => True | o :: os => lop_ok N o T /\ lops_ok N os (abs_lop o T) end.

#[global] Instance outside_dec T n : Decision (outside T n).
Proof. unfold outside. apply _. Defined.
#[global] Instance inside_dec T n : Decision (inside T n).
Proof. unfold inside. apply _. Defined.
#[global] Instance lop_ok_dec N o T : Decision (lop_ok N o T).
Proof. destruct o as [| | | | | | |l h x]; cbn; try apply _. destruct (T !! h); apply _. Defined.
#[global] Instance lops_ok_dec N os T : Decision (lops_ok N os T).
Proof. revert T. induction os as [|o os IH]; intros T; cbn; apply _. Defined.

(** ** Paths *)

Definition link m x y : Prop := nexts m !! x = Some (Some y) /\ prevs m !! y = Some (Some x).

Lemma path_app m x l1 l2 y : path m x (l1 ++ l2) y <-> path m x l1 (hd_to l2 y) /\ path m (last_from x l1) l2 y.
Proof.
  revert x. induction l1 as [|z l1 IH]; intros x; cbn [app path last_from].
  - destruct l2; cbn; tauto.
  - rewrite IH. tauto.
Qed.

Lemma path_first m x xs y : path m x xs y -> link m x (hd_to xs y).
Proof. destruct xs; [done|]. by intros []. Qed.
Lemma path_last m x xs y : path m x xs y -> link m (last_from x xs) y.
Proof. revert x. induction xs as [|z xs IH]; intros x; [done|]. intros [_ H]. by apply IH. Qed.

Lemma last_from_in x xs : last_from x xs ∈ x :: xs.
Proof. revert x. induction xs as [|z xs IH]; intros x; [by left|]. right. apply IH. Qed.
Lemma hd_to_in xs y : hd_to xs y ∈ y :: xs.
Proof. destruct xs; [by left|right; by left]. Qed.

Lemma path_struct m x xs y z : path m x xs y -> (z ∈ x :: xs -> is_Some (nexts m !! z)) /\ (z ∈ xs \/ z = y -> is_Some (prevs m !! z)).
Proof.
  revert x. induction xs as [|w xs IH]; intros x; cbn [path].
  - intros [E1 E2]. split; [intros ->%list_elem_of_singleton; by eexists|]. intros [?%elem_of_nil| ->]; [done|by eexists].
  - intros [[E1 E2] H]. destruct (IH _ H) as [H1 H2]. split.
    + intros [->|Hz]%elem_of_cons; [by eexists|by apply H1].
    + intros [[->|Hz]%elem_of_cons|Hz]; [by eexists|apply H2; by left|apply H2; by right].
Qed.

(** The same entries between other ends. *)
Lemma path_ends m m' x xs y x' y' :
  path m x xs y -> NoDup xs -> link m' x' (hd_to xs y') -> link m' (last_from x' xs) y' ->
  (forall z, z ∈ xs -> z <> last_from x' xs -> nexts m' !! z = nexts m !! z) ->
  (forall z, z ∈ xs -> z <> hd_to xs y' -> prevs m' !! z = prevs m !! z) -> path m' x' xs y'.
Proof.
  revert x x'. induction xs as [|z xs IH]; intros x x'; cbn [path hd_to last_from]; [done|].
  intros [_ H] (Hz & Hnd)%NoDup_cons Hf Hl Hn Hp. split; [done|]. apply (IH z); try done.
  - destruct xs as [|w xs]; [done|]. cbn [hd_to path] in *. destruct H as [[E1 E2] _]. split.
    + rewrite Hn; [done|by left|]. pose proof (last_from_in w xs) as Hin. cbn [last_from]. intros E. apply Hz. by rewrite E.
    + rewrite Hp; [done|right; by left|]. intros ->. apply Hz. by left.
  - intros w Hw Hne. apply Hn; [by right|done].
  - intros w Hw Hne. apply Hp; [by right|]. intros ->. done.
Qed.

(** Another successor of the last entry. *)
Lemma path_last_change m m' x xs y y' :
  path m x xs y -> NoDup (x :: xs) -> link m' (last_from x xs) y' ->
  (forall z, z ∈ x :: xs -> z <> last_from x xs -> nexts m' !! z = nexts m !! z) -> (forall z, z ∈ xs -> prevs m' !! z = prevs m !! z) ->
  path m' x xs y'.
Proof.
  intros H (Hx & Hnd)%NoDup_cons Hl Hn Hp. apply (path_ends m m' x xs y); try done.
  - destruct xs as [|z xs]; [done|]. destruct H as [[E1 E2] _]. cbn [hd_to]. split.
    + rewrite Hn; [done|by left|]. intros E. apply Hx. rewrite E. apply (last_from_in z xs).
    + rewrite Hp; [done|by left].
  - intros z Hz. apply Hn. by right.
  - intros z Hz _. by apply Hp.
Qed.

(** Another predecessor of the first entry. *)
Lemma path_first_change m m' x xs y x' :
  path m x xs y -> NoDup xs -> (y ∉ xs) -> link m' x' (hd_to xs y) ->
  (forall z, z ∈ xs -> nexts m' !! z = nexts m !! z) -> (forall z, z ∈ y :: xs -> z <> hd_to xs y -> prevs m' !! z = prevs m !! z) ->
  path m' x' xs y.
Proof.
  intros H Hnd Hy Hf Hn Hp. apply (path_ends m m' x xs y); try done.
  - destruct xs as [|z xs]; [done|]. pose proof (path_last _ _ _ _ H) as [E1 E2]. cbn [last_from] in *. split.
    + rewrite Hn; [done|]. apply (last_from_in z xs).
    + rewrite Hp; [done|by left|]. cbn. intros ->. apply Hy. by left.
  - intros z Hz _. by apply Hn.
  - intros z Hz. apply Hp. by right.
Qed.

(** ** Changing some of the lists *)

(** [D] has the structs that change; every list is outside it, as before, or in it, as new. *)
Lemma lists_update m m' T T' (D : list Z) :
  lists m T -> (forall z, z ∉ D -> nexts m' !! z = nexts m !! z /\ prevs m' !! z = prevs m !! z) ->
  (forall k xs, T' !! k = Some xs -> (T !! k = Some xs /\ forall z, z ∈ k :: xs -> z ∉ D) \/
     (path m' k xs k /\ NoDup (k :: xs) /\ forall z, z ∈ k :: xs -> z ∈ D)) ->
  (forall k k' xs xs' z, T' !! k = Some xs -> T' !! k' = Some xs' -> z ∈ D -> z ∈ k :: xs -> z ∈ k' :: xs' -> k = k') ->
  (forall x, is_Some (nexts m' !! x) <-> is_Some (prevs m' !! x)) -> lists m' T'.
Proof.
  intros [Hp Hnd Hd Hs] Hsame Hcase Hdisj Hs'. split; [| | |done].
  - intros k xs Ek. destruct (Hcase k xs Ek) as [[E Hout]|(Hpath & _)]; [|done]. pose proof (Hp _ _ E) as Hpk. pose proof (Hnd _ _ E) as Hndk.
    assert (Hin : k ∈ k :: xs) by (by left). apply (path_last_change m m' k xs k k); [done|done| | |].
    + destruct (path_last _ _ _ _ Hpk) as [E1 E2]. split; [rewrite (proj1 (Hsame _ (Hout _ (last_from_in k xs))))|rewrite (proj2 (Hsame _ (Hout _ Hin)))]; done.
    + intros z Hz _. by apply Hsame, Hout.
    + intros z Hz. apply Hsame, Hout. by right.
  - intros k xs Ek. destruct (Hcase k xs Ek) as [[E _]|(_ & ? & _)]; [by apply Hnd|done].
  - intros k k' xs xs' z Ek Ek' Hz Hz'. destruct (decide (z ∈ D)) as [HD|HD]; [by eapply Hdisj|].
    destruct (Hcase k xs Ek) as [[E _]|(_ & _ & Hin)]; [|by destruct (HD (Hin z Hz))]. destruct (Hcase k' xs' Ek') as [[E' _]|(_ & _ & Hin)]; [|by destruct (HD (Hin z Hz'))].
    by apply (Hd k k' xs xs' z).
Qed.

(** Only the list at [h] changes. *)
Lemma lists_one m m' T h xs xs' :
  lists m T -> T !! h = Some xs -> (forall z, z ∉ h :: xs -> z ∉ xs' -> nexts m' !! z = nexts m !! z /\ prevs m' !! z = prevs m !! z) ->
  (forall z, z ∈ xs' -> z ∈ xs \/ outside T z) -> NoDup (h :: xs') -> path m' h xs' h ->
  (forall x, is_Some (nexts m' !! x) <-> is_Some (prevs m' !! x)) -> lists m' (<[h := xs']> T).
Proof.
  intros Hl Eh Hsame Hnew Hnd Hpath Hs.
  assert (Hother : forall k ys z, k <> h -> T !! k = Some ys -> z ∈ k :: ys -> z ∉ (h :: xs) ++ xs').
  { intros k ys z Hk Ek Hz Hin. apply Hk. apply elem_of_app in Hin as [Hin|Hin]; [by apply (ls_disj _ _ Hl k h ys xs z)|].
    destruct (Hnew z Hin) as [Hx|Ho]; [apply (ls_disj _ _ Hl k h ys xs z); [done|done|done|by right]|]. exfalso. by apply (Ho k ys). }
  apply (lists_update m m' T _ ((h :: xs) ++ xs')); try done.
  - intros z [H1 H2]%not_elem_of_app. by apply Hsame.
  - intros k ys. rewrite lookup_insert. case_decide as Hk.
    + subst k. intros [= <-]. right. split_and!; [done|done|]. intros z Hz. rewrite elem_of_app, elem_of_cons. apply elem_of_cons in Hz. tauto.
    + intros Ek. left. split; [done|]. intros z. apply (Hother k ys z); [congruence|done].
  - intros k k' ys ys' z. rewrite !lookup_insert. repeat case_decide; subst; try done.
    + intros _ Ek' HD _ Hz. exfalso. apply (Hother k' ys' z); [congruence|done..].
    + intros Ek _ HD Hz _. exfalso. apply (Hother k ys z); [congruence|done..].
    + intros Ek Ek' HD Hz. exfalso. apply (Hother k ys z); [congruence|done..].
Qed.

(** ** Reading and writing *)

Lemma get_next_Some m x v : nexts m !! x = Some v -> get_next m x = Ret v.
Proof. intros E. unfold get_next. by rewrite E. Qed.
Lemma get_prev_Some m x v : prevs m !! x = Some v -> get_prev m x = Ret v.
Proof. intros E. unfold get_prev. by rewrite E. Qed.
Lemma next_of_Some m x v : nexts m !! x = Some (Some v) -> next_of m x = Ret v.
Proof. intros E. unfold next_of. by rewrite (get_next_Some _ _ _ E). Qed.
Lemma prev_of_Some m x v : prevs m !! x = Some (Some v) -> prev_of m x = Ret v.
Proof. intros E. unfold prev_of. by rewrite (get_prev_Some _ _ _ E). Qed.
Lemma put_next_run m x v : is_Some (nexts m !! x) -> put_next x v m = Ret (LMem (<[x := v]> (nexts m)) (prevs m)).
Proof. intros [w E]. unfold put_next. by rewrite (get_next_Some _ _ _ E). Qed.
Lemma put_prev_run m x v : is_Some (prevs m !! x) -> put_prev x v m = Ret (LMem (nexts m) (<[x := v]> (prevs m))).
Proof. intros [w E]. unfold put_prev. by rewrite (get_prev_Some _ _ _ E). Qed.

(** A store keeps what is allocated. *)
Lemma is_Some_insert (p : gmap Z (option Z)) k v j : is_Some (p !! k) -> is_Some (<[k := v]> p !! j) <-> is_Some (p !! j).
Proof. intros Hk. destruct (decide (k = j)) as [->|Hne]; [rewrite lookup_insert_eq; split; [done|by eexists]|by rewrite lookup_insert_ne]. Qed.

(** Solves that a struct is allocated, through stores. *)
Ltac alloc := cbn [nexts prevs]; repeat (rewrite is_Some_insert; [|alloc]); first [done | by eexists | eauto].

(** The structs of the memory stay the same. *)
Definition same_structs m m' : Prop :=
  (forall x, is_Some (nexts m' !! x) <-> is_Some (nexts m !! x)) /\ (forall x, is_Some (prevs m' !! x) <-> is_Some (prevs m !! x)).

Lemma same_structs_ok m m' T : lists m T -> same_structs m m' -> (forall x, is_Some (nexts m' !! x) <-> is_Some (prevs m' !! x)).
Proof. intros Hl [H1 H2] x. rewrite H1, H2. apply (ls_structs _ _ Hl). Qed.

Lemma add_run m new prev next :
  is_Some (prevs m !! next) -> is_Some (nexts m !! prev) -> is_Some (nexts m !! new) -> is_Some (prevs m !! new) ->
  __list_add new prev next m =
    Ret (LMem (<[prev := Some new]> (<[new := Some next]> (nexts m))) (<[new := Some prev]> (<[next := Some new]> (prevs m)))).
Proof.
  intros. unfold __list_add. rewrite put_prev_run, bind_ret by alloc. rewrite put_next_run, bind_ret by alloc.
  rewrite put_prev_run, bind_ret by alloc. by rewrite put_next_run by alloc.
Qed.

Lemma del_links_run m prev next :
  is_Some (prevs m !! next) -> is_Some (nexts m !! prev) ->
  __list_del prev next m = Ret (LMem (<[prev := Some next]> (nexts m)) (<[next := Some prev]> (prevs m))).
Proof. intros. unfold __list_del. rewrite put_prev_run, bind_ret by alloc. by rewrite put_next_run by alloc. Qed.

(** A list between two entries. *)
Lemma lists_split m T h l1 l2 : lists m T -> T !! h = Some (l1 ++ l2) ->
  path m h l1 (hd_to l2 h) /\ path m (last_from h l1) l2 h /\ NoDup (h :: l1) /\ NoDup l2 /\ (h ∉ l2) /\ (forall z, z ∈ l1 -> z ∉ l2).
Proof.
  intros Hl Eh. pose proof (ls_path _ _ Hl _ _ Eh) as [H1 H2]%path_app. pose proof (ls_nodup _ _ Hl _ _ Eh) as [Hh (N1 & Hd & N2)%NoDup_app]%NoDup_cons.
  rewrite not_elem_of_app in Hh. destruct Hh as [Hh1 Hh2]. split_and!; try done. by apply NoDup_cons.
Qed.

Lemma outside_list T h xs n : outside T n -> T !! h = Some xs -> n <> h /\ n ∉ xs.
Proof. intros Ho Eh. pose proof (Ho h xs Eh) as Hn. by apply not_elem_of_cons in Hn. Qed.

Section step.
Context (m : lmem) (T : table) (Hl : lists m T).

Lemma struct_prev x : is_Some (nexts m !! x) -> is_Some (prevs m !! x).
Proof. apply (ls_structs _ _ Hl). Qed.

(** A new entry in the place of [mid], which is empty or the replaced entry. *)
Lemma put_between h l1 mid l2 n (p := last_from h l1) (q := hd_to l2 h)
    (m' := LMem (<[p:=Some n]> (<[n:=Some q]> (nexts m))) (<[n:=Some p]> (<[q:=Some n]> (prevs m)))) :
  T !! h = Some (l1 ++ mid ++ l2) -> outside T n -> is_Some (nexts m !! n) ->
  is_Some (nexts m !! p) /\ is_Some (prevs m !! q) /\ p <> n /\ q <> n /\ lists m' (<[h := l1 ++ n :: l2]> T) /\ same_structs m m'.
Proof.
  intros Eh Ho Hn. destruct (lists_split m T h l1 (mid ++ l2) Hl Eh) as (H1 & [_ H2]%path_app & N1 & (_ & _ & N2)%NoDup_app & [_ Hh]%not_elem_of_app & Hd).
  destruct (outside_list _ _ _ _ Ho Eh) as [Hnh [Hn1 [_ Hn2]%not_elem_of_app]%not_elem_of_app].
  assert (Hd2 : forall z, z ∈ l1 -> z ∉ l2) by (intros z Hz Hz'; apply (Hd z Hz), elem_of_app; by right).
  assert (Hp : p ∈ h :: l1) by apply last_from_in. assert (Hq : q ∈ h :: l2) by apply hd_to_in.
  assert (F1 : forall z, z ∈ h :: l1 -> z <> n) by (intros z [->|Hz]%elem_of_cons; congruence).
  assert (F2 : forall z, z ∈ h :: l2 -> z <> n) by (intros z [->|Hz]%elem_of_cons; congruence).
  pose proof N1 as [Hh1 N1']%NoDup_cons. pose proof (F1 p Hp) as Hpn. pose proof (F2 q Hq) as Hqn.
  assert (F3 : forall z, z ∈ l1 -> z <> q) by (intros z Hz ->; apply elem_of_cons in Hq as [Hq|Hq]; [congruence|by apply (Hd2 q)]).
  assert (F4 : forall z, z ∈ l2 -> z <> p) by (intros z Hz ->; apply elem_of_cons in Hp as [Hp|Hp]; [congruence|by apply (Hd2 p)]).
  assert (Sp : is_Some (nexts m !! p)) by (by apply (path_struct _ _ _ _ p H1)).
  assert (Sq : is_Some (prevs m !! q)).
  { apply (path_struct _ _ _ _ q H2). apply elem_of_cons in Hq. tauto. }
  pose proof (struct_prev n Hn) as Hn'. assert (Hss : same_structs m m').
  { split; intros z; cbn [m' nexts prevs]; (rewrite is_Some_insert; [by apply is_Some_insert|by apply is_Some_insert]). }
  split_and!; try done; try by destruct Hss. apply (lists_one m m' T h (l1 ++ mid ++ l2)); try done.
  - intros z. rewrite elem_of_cons, !elem_of_app, elem_of_cons. intros Hz Hz'. rewrite elem_of_cons in Hp, Hq. cbn [m' nexts prevs].
    rewrite !lookup_insert_ne by (intros E; subst z; tauto). done.
  - intros z. rewrite !elem_of_app, elem_of_cons. intros [?|[->|?]]; tauto.
  - apply NoDup_cons. rewrite not_elem_of_app, not_elem_of_cons. split; [by split_and!|]. apply NoDup_app. split_and!; [done| |by apply NoDup_cons].
    intros z Hz [->|Hz2]%elem_of_cons; [done|by apply (Hd2 z)].
  - assert (Lpn : link m' p n) by (split; apply lookup_insert_eq).
    apply path_app. refine (conj _ (conj Lpn _)); cbn [hd_to].
    + apply (path_last_change m m' h l1 (hd_to (mid ++ l2) h)); try done; cbn [m' nexts prevs]; fold p; intros z Hz.
      * intros Hzp. rewrite !lookup_insert_ne; [done|by apply not_eq_sym, F1|done].
      * rewrite !lookup_insert_ne; [done|by apply not_eq_sym, F3|]. apply not_eq_sym, F1. by right.
    + apply (path_first_change m m' (last_from p mid) l2 h n); try done; cbn [m' nexts prevs]; fold q; try (intros z Hz).
      * split; cbn [m' nexts prevs]; [by rewrite lookup_insert_ne, lookup_insert_eq|]. by rewrite lookup_insert_ne, lookup_insert_eq.
      * rewrite !lookup_insert_ne; [done| |by apply not_eq_sym, F4]. apply not_eq_sym, F2. by right.
      * intros Hzq. rewrite !lookup_insert_ne; [done|done|by apply not_eq_sym, F2].
  - exact (same_structs_ok m m' T Hl Hss).
Qed.

Lemma add_lists h l1 l2 n : T !! h = Some (l1 ++ l2) -> outside T n -> is_Some (nexts m !! n) ->
  exists m', __list_add n (last_from h l1) (hd_to l2 h) m = Ret m' /\ lists m' (<[h := l1 ++ n :: l2]> T) /\ same_structs m m'.
Proof.
  intros Eh Ho Hn. destruct (put_between h l1 [] l2 n Eh Ho Hn) as (Sp & Sq & _ & _ & Hl' & Hss).
  rewrite add_run by (done || by apply struct_prev). by eexists.
Qed.

(** An entry of a list and its neighbours. *)
Lemma entry_links h l1 x l2 (p := last_from h l1) (q := hd_to l2 h) : T !! h = Some (l1 ++ x :: l2) -> link m p x /\ link m x q /\ p <> x /\ q <> x.
Proof.
  intros Eh. destruct (lists_split m T h l1 (x :: l2) Hl Eh) as (H1 & [Lp H2] & N1 & [Hx N2]%NoDup_cons & [Hh1 Hh]%not_elem_of_cons & Hd).
  assert (Hp : p ∈ h :: l1) by apply last_from_in. assert (Hq : q ∈ h :: l2) by apply hd_to_in.
  split; [done|]. split; [by apply path_first|]. split.
  - intros E. rewrite E in Hp. apply elem_of_cons in Hp as [Hp|Hp]; [congruence|]. apply (Hd x Hp). by left.
  - intros E. rewrite E in Hq. apply elem_of_cons in Hq as [Hq|Hq]; [congruence|done].
Qed.

Lemma del_lists h l1 x l2 : T !! h = Some (l1 ++ x :: l2) ->
  exists m', list_del x m = Ret m' /\ lists m' (<[h := l1 ++ l2]> T) /\ same_structs m m'.
Proof.
  intros Eh. set (p := last_from h l1). set (q := hd_to l2 h). destruct (entry_links h l1 x l2 Eh) as ([Ep1 Ep2] & [Eq1 Eq2] & Hpx & Hqx).
  fold p in Ep1, Ep2, Hpx. fold q in Eq1, Eq2, Hqx.
  destruct (lists_split m T h l1 (x :: l2) Hl Eh) as (H1 & [_ H2] & N1 & [Hx2 N2]%NoDup_cons & [Hhx Hh]%not_elem_of_cons & Hd).
  assert (Hd2 : forall z, z ∈ l1 -> (z ∉ l2) /\ z <> x) by (intros z Hz; specialize (Hd z Hz); by apply not_elem_of_cons in Hd as [? ?]).
  assert (Hp : p ∈ h :: l1) by apply last_from_in. assert (Hq : q ∈ h :: l2) by apply hd_to_in.
  unfold list_del. rewrite (get_prev_Some _ _ _ Ep2), bind_ret, bool_decide_true, c_assert_true, bind_ret by done.
  rewrite (get_next_Some _ _ _ Eq1), bind_ret, bool_decide_true, c_assert_true, bind_ret by done. cbn [deref]. rewrite !bind_ret.
  rewrite del_links_run, bind_ret by (by eexists). rewrite put_prev_run, bind_ret by alloc. rewrite put_next_run by alloc.
  eexists. split; [done|]. cbn [nexts prevs]. set (m' := LMem _ _).
  assert (Hss : same_structs m m').
  { split; intros z; cbn [m' nexts prevs]; (rewrite is_Some_insert; [apply is_Some_insert; by eexists|apply is_Some_insert; by eexists]). }
  split; [|done]. pose proof N1 as [Hh1 N1']%NoDup_cons.
  assert (F1 : forall z, z ∈ h :: l1 -> z <> x) by (intros z [->|Hz]%elem_of_cons; [done|by apply Hd2]).
  assert (F2 : forall z, z ∈ h :: l2 -> z <> x) by (intros z [->|Hz]%elem_of_cons; congruence).
  assert (F3 : forall z, z ∈ l1 -> z <> q) by (intros z Hz ->; apply elem_of_cons in Hq as [Hq|Hq]; [congruence|by destruct (Hd2 q Hz)]).
  assert (F4 : forall z, z ∈ l2 -> z <> p) by (intros z Hz ->; apply elem_of_cons in Hp as [Hp|Hp]; [congruence|by destruct (Hd2 p Hp)]).
  apply (lists_one m m' T h (l1 ++ x :: l2)); try done.
  - intros z. rewrite elem_of_cons, elem_of_app, elem_of_cons. intros Hz _. rewrite elem_of_cons in Hp, Hq. cbn [m' nexts prevs].
    rewrite !lookup_insert_ne by (intros E; subst z; tauto). done.
  - intros z. rewrite !elem_of_app, elem_of_cons. tauto.
  - apply NoDup_cons. rewrite not_elem_of_app. split; [done|]. apply NoDup_app. split_and!; [done| |done]. intros z Hz. by apply Hd2.
  - assert (Lpq : link m' p q) by (split; cbn [m' nexts prevs]; by rewrite lookup_insert_ne, lookup_insert_eq).
    apply path_app. split.
    + apply (path_last_change m m' h l1 x); try done; cbn [m' nexts prevs]; fold p; intros z Hz.
      * intros Hzp. rewrite !lookup_insert_ne; [done|done|by apply not_eq_sym, F1].
      * rewrite !lookup_insert_ne; [done|by apply not_eq_sym, F3|]. apply not_eq_sym, F1. by right.
    + apply (path_first_change m m' x l2 h p); try done; cbn [m' nexts prevs]; fold q; intros z Hz.
      * rewrite !lookup_insert_ne; [done|by apply not_eq_sym, F4|]. apply not_eq_sym, F2. by right.
      * intros Hzq. rewrite !lookup_insert_ne; [done|done|by apply not_eq_sym, F2].
  - exact (same_structs_ok m m' T Hl Hss).
Qed.

Lemma replace_lists h l1 x l2 n : T !! h = Some (l1 ++ x :: l2) -> outside T n -> is_Some (nexts m !! n) ->
  exists m', list_replace x n m = Ret m' /\ lists m' (<[h := l1 ++ n :: l2]> T) /\ same_structs m m'.
Proof.
  intros Eh Ho Hn. pose proof (struct_prev n Hn) as Hn'. destruct (put_between h l1 [x] l2 n Eh Ho Hn) as (Sp & Sq & Hpn & Hqn & Hl' & Hss).
  destruct (entry_links h l1 x l2 Eh) as ([Ep1 Ep2] & [Eq1 Eq2] & Hpx & Hqx). set (p := last_from h l1) in *. set (q := hd_to l2 h) in *.
  unfold list_replace. rewrite (get_next_Some _ _ _ Eq1), bind_ret, put_next_run, bind_ret by alloc. cbn [deref]. rewrite bind_ret.
  rewrite put_prev_run, bind_ret by alloc. cbn [nexts prevs].
  rewrite (get_prev_Some _ x (Some p)), bind_ret by (cbn [prevs]; by rewrite lookup_insert_ne). rewrite put_prev_run, bind_ret by alloc. cbn [deref]. rewrite bind_ret.
  rewrite put_next_run by alloc. cbn [nexts prevs]. by eexists.
Qed.

Lemma init_lists l : is_Some (nexts m !! l) -> outside (delete l T) l ->
  exists m', INIT_LIST_HEAD l m = Ret m' /\ lists m' (<[l := []]> T) /\ same_structs m m'.
Proof.
  intros Hn Ho. pose proof (struct_prev l Hn) as Hp. unfold INIT_LIST_HEAD. rewrite put_next_run, bind_ret by alloc. rewrite put_prev_run by alloc.
  cbn [nexts prevs]. eexists. split; [done|]. set (m' := LMem _ _).
  assert (Hss : same_structs m m') by (split; intros z; by apply is_Some_insert). split; [|done].
  apply (lists_update m m' T _ [l]); try done.
  - intros z Hz%not_elem_of_cons. cbn [m' nexts prevs]. by rewrite !lookup_insert_ne by (intros ->; tauto).
  - intros k xs. rewrite lookup_insert. case_decide as Hk.
    + intros [= <-]. subst k. right. split; [split; apply lookup_insert_eq|]. split; [apply NoDup_singleton|done].
    + intros Ek. left. split; [done|]. intros z Hz ->%list_elem_of_singleton. apply (Ho k xs); [by rewrite lookup_delete_ne|done].
  - intros k k' xs xs' z Ek Ek' ->%list_elem_of_singleton Hz Hz'.
    assert (H : forall k xs, <[l:=[]]> T !! k = Some xs -> l ∈ k :: xs -> k = l); [|by rewrite (H k xs Ek Hz), (H k' xs' Ek' Hz')].
    intros j ys. rewrite lookup_insert. case_decide; [done|]. intros Ej Hj. exfalso. apply (Ho j ys); [by rewrite lookup_delete_ne|done].
  - exact (same_structs_ok m m' T Hl Hss).
Qed.

(** The list at [l] goes between [l1] and [l2] of the list at [h]. *)
Lemma splice_lists l h xs l1 l2 (p := last_from h l1) (q := hd_to l2 h) :
  l <> h -> T !! l = Some xs -> xs <> [] -> T !! h = Some (l1 ++ l2) ->
  exists m', __list_splice l p q m = Ret m' /\ lists m' (<[h := l1 ++ xs ++ l2]> (delete l T)) /\ same_structs m m'.
Proof.
  intros Hlh El Hxs Eh. destruct (lists_split m T h l1 l2 Hl Eh) as (H1 & H2 & N1 & N2 & Hh2 & Hd). pose proof N1 as [Hh1 N1']%NoDup_cons.
  pose proof (ls_path _ _ Hl _ _ El) as H3. pose proof (ls_nodup _ _ Hl _ _ El) as [Hlx N3]%NoDup_cons.
  set (f := hd_to xs l). set (e := last_from l xs).
  assert (Hf : f ∈ xs) by (destruct xs; [done|by left]). assert (He : e ∈ xs) by (destruct xs as [|x xs]; [done|apply (last_from_in x xs)]).
  assert (Hfq : hd_to (xs ++ l2) h = f) by (by destruct xs). assert (Hee : last_from p xs = e) by (by destruct xs).
  assert (Hap : forall z, z ∈ xs -> z ∉ h :: l1 ++ l2) by (intros z Hz Hz'; apply Hlh, (ls_disj _ _ Hl l h xs _ z El Eh); [by right|done]).
  assert (Hp : p ∈ h :: l1) by apply last_from_in. assert (Hq : q ∈ h :: l2) by apply hd_to_in.
  assert (Hp' : p ∈ h :: l1 ++ l2) by (rewrite elem_of_cons, elem_of_app; rewrite elem_of_cons in Hp; tauto).
  assert (Hq' : q ∈ h :: l1 ++ l2) by (rewrite elem_of_cons, elem_of_app; rewrite elem_of_cons in Hq; tauto).
  assert (F1 : forall z, z ∈ xs -> z <> p) by (intros z Hz ->; by apply (Hap p)).
  assert (F2 : forall z, z ∈ xs -> z <> q) by (intros z Hz ->; by apply (Hap q)).
  assert (F3 : forall z, z ∈ l1 -> z <> q) by (intros z Hz ->; apply elem_of_cons in Hq as [Hq|Hq]; [congruence|by apply (Hd q)]).
  assert (F4 : forall z, z ∈ l2 -> z <> p) by (intros z Hz ->; apply elem_of_cons in Hp as [Hp|Hp]; [congruence|by apply (Hd p)]).
  assert (F5 : forall z, z ∈ h :: l1 ++ l2 -> z <> f /\ z <> e) by (intros z Hz; split; intros ->; [by apply (Hap f)|by apply (Hap e)]).
  destruct (path_first _ _ _ _ H3) as [Ef1 Ef2]. destruct (path_last _ _ _ _ H3) as [Ee1 Ee2]. fold f in Ef1, Ef2. fold e in Ee1, Ee2.
  destruct (path_last _ _ _ _ H1) as [Ep1 Ep2]. fold p q in Ep1, Ep2.
  unfold __list_splice. rewrite (next_of_Some _ _ _ Ef1), bind_ret, (prev_of_Some _ _ _ Ee2), bind_ret.
  rewrite put_prev_run, bind_ret by alloc. rewrite put_next_run, bind_ret by alloc. rewrite put_next_run, bind_ret by alloc. rewrite put_prev_run by alloc.
  cbn [nexts prevs]. eexists. split; [done|]. set (m' := LMem _ _).
  assert (Hss : same_structs m m') by (split; intros z; cbn [m' nexts prevs]; alloc). split; [|done].
  assert (Lf : link m' p f).
  { split; cbn [m' nexts prevs]; [rewrite lookup_insert_ne by (by apply F1)|rewrite lookup_insert_ne by (by apply not_eq_sym, F2)]; apply lookup_insert_eq. }
  assert (Le : link m' e q) by (split; cbn [m' nexts prevs]; apply lookup_insert_eq).
  assert (Hpath : path m' h (l1 ++ xs ++ l2) h).
  { apply path_app. rewrite Hfq. fold p. split; [|apply path_app; fold q; rewrite Hee; split].
    - apply (path_last_change m m' h l1 q); try done; fold p; cbn [m' nexts prevs]; intros z Hz.
      + intros Hzp. rewrite !lookup_insert_ne; [done|done|]. apply not_eq_sym, F5. rewrite elem_of_cons, elem_of_app. rewrite elem_of_cons in Hz. tauto.
      + rewrite !lookup_insert_ne; [done| |by apply not_eq_sym, F3]. apply not_eq_sym, F5. rewrite elem_of_cons, elem_of_app. tauto.
    - apply (path_ends m m' l xs l); rewrite ?Hee; replace (hd_to xs q) with f by (by destruct xs); try done; cbn [m' nexts prevs]; intros z Hz Hne.
      + by rewrite !lookup_insert_ne by (congruence || by apply not_eq_sym, F1).
      + by rewrite !lookup_insert_ne by (congruence || by apply not_eq_sym, F2).
    - apply (path_first_change m m' p l2 h e); try done; fold q; cbn [m' nexts prevs]; intros z Hz.
      + rewrite !lookup_insert_ne; [done|by apply not_eq_sym, F4|]. apply not_eq_sym, F5. rewrite elem_of_cons, elem_of_app. tauto.
      + intros Hzq. rewrite !lookup_insert_ne; [done| |done]. apply not_eq_sym, F5. rewrite elem_of_cons, elem_of_app. rewrite elem_of_cons in Hz. tauto. }
  assert (HT : forall k ys, <[h := l1 ++ xs ++ l2]> (delete l T) !! k = Some ys -> (k = h /\ ys = l1 ++ xs ++ l2) \/
    (T !! k = Some ys /\ forall z, z ∈ k :: ys -> z ∉ (l :: xs) ++ (h :: l1 ++ l2))).
  { intros k ys. rewrite lookup_insert, lookup_delete. case_decide as Hk; [intros [= <-]; by left|]. case_decide as Hk'; [done|]. intros Ek.
    right. split; [done|]. intros z Hz [Hz'|Hz']%elem_of_app; [by apply Hk', (ls_disj _ _ Hl l k xs ys z)|by apply Hk, (ls_disj _ _ Hl h k _ ys z Eh)]. }
  apply (lists_update m m' T _ ((l :: xs) ++ (h :: l1 ++ l2))).
  - done.
  - intros z [Hz1 Hz2]%not_elem_of_app. cbn [m' nexts prevs].
    rewrite !lookup_insert_ne; [done|intros <-; apply Hz1; by right|by intros <-|by intros <-|intros <-; apply Hz1; by right].
  - intros k ys [[-> ->]|H]%HT; [right|by left]. split; [done|]. split.
    + apply NoDup_cons. rewrite !not_elem_of_app. split; [split_and!; [done|intros Hhx; apply (Hap h Hhx); by left|done]|].
      apply NoDup_app. split_and!; [done| |apply NoDup_app; split_and!; [done| |done]].
      * intros z Hz [Hz'|Hz']%elem_of_app; [|by apply (Hd z)]. apply (Hap z Hz'). right. apply elem_of_app. by left.
      * intros z Hz Hz'. apply (Hap z Hz). right. apply elem_of_app. by right.
    + intros z. rewrite elem_of_app, !elem_of_cons, !elem_of_app. tauto.
  - intros k k' ys ys' z [[-> ->]|[_ Hk]]%HT [[-> ->]|[_ Hk']]%HT HD Hz Hz'; [done|by destruct (Hk' z Hz' HD)|by destruct (Hk z Hz HD)..].
  - exact (same_structs_ok m m' T Hl Hss).
Qed.

(** The list at [l] takes the entries up to [x] from the list at [h]. *)
Lemma cut_lists l h a b (x := last_from h a) (f := hd_to a h) (q := hd_to b h) :
  is_Some (nexts m !! l) -> l <> h -> outside (delete l T) l -> T !! h = Some (a ++ b) -> a <> [] ->
  exists m', __list_cut_position l h x m = Ret m' /\ lists m' (<[l := a]> (<[h := b]> T)) /\ same_structs m m'.
Proof.
  intros Hn Hlh Ho Eh Ha. pose proof (struct_prev l Hn) as Hn'. destruct (lists_split m T h a b Hl Eh) as (H1 & H2 & N1 & N2 & Hhb & Hd).
  pose proof N1 as [Hha N1']%NoDup_cons.
  destruct (outside_list (delete l T) h (a ++ b) l Ho ltac:(by rewrite lookup_delete_ne)) as [_ [Hla Hlb]%not_elem_of_app].
  assert (Hf : f ∈ a) by (destruct a; [done|by left]). assert (Hx : x ∈ a) by (destruct a as [|z a]; [done|apply (last_from_in z a)]).
  assert (Hq : q ∈ h :: b) by apply hd_to_in.
  destruct (path_last _ _ _ _ H1) as [Ex Eq]. fold x q in Ex, Eq.
  assert (Efirst : hd_to a q = f) by (by destruct a). assert (Elast : last_from l a = x) by (by destruct a).
  destruct (path_first _ _ _ _ H1) as [Eh1 Ef]. fold q in Eh1, Ef. rewrite Efirst in Eh1, Ef.
  assert (F1 : forall z, z ∈ a -> z <> h /\ z <> l /\ z <> q).
  { intros z Hz. split_and!; [congruence|congruence|]. intros ->. apply elem_of_cons in Hq as [Hq|Hq]; [congruence|by apply (Hd q)]. }
  assert (F2 : forall z, z ∈ h :: b -> z <> x /\ z <> l /\ z <> f).
  { intros z [->|Hz]%elem_of_cons; split_and!; try congruence; intros ->; [by apply (Hd x)|by apply (Hd f)]. }
  destruct (F1 x Hx) as (Hxh & Hxl & Hxq), (F1 f Hf) as (Hfh & Hfl & Hfq), (F2 q Hq) as (_ & Hql & _).
  unfold __list_cut_position. rewrite (next_of_Some _ _ _ Ex), bind_ret, (next_of_Some _ _ _ Eh1), bind_ret.
  rewrite put_next_run, bind_ret by alloc. rewrite put_prev_run, bind_ret by alloc. rewrite put_prev_run, bind_ret by alloc.
  rewrite put_next_run, bind_ret by alloc. rewrite put_next_run, bind_ret by alloc. rewrite put_prev_run by alloc.
  cbn [nexts prevs]. eexists. split; [done|]. set (m' := LMem _ _).
  assert (Hss : same_structs m m') by (split; intros z; cbn [m' nexts prevs]; alloc). split; [|done].
  assert (Pa : path m' l a l).
  { apply (path_ends m m' h a q); rewrite ?Elast; replace (hd_to a l) with f by (by destruct a); try done; cbn [m' nexts prevs].
    - split; cbn [m' nexts prevs]; [by rewrite !lookup_insert_ne, lookup_insert_eq by congruence|by rewrite !lookup_insert_ne, lookup_insert_eq by congruence].
    - split; cbn [m' nexts prevs]; [by rewrite lookup_insert_ne, lookup_insert_eq by congruence|by rewrite lookup_insert_ne, lookup_insert_eq by congruence].
    - intros z Hz Hne. destruct (F1 z Hz) as (? & ? & ?). by rewrite !lookup_insert_ne by congruence.
    - intros z Hz Hne. destruct (F1 z Hz) as (? & ? & ?). by rewrite !lookup_insert_ne by congruence. }
  assert (Pb : path m' h b h).
  { apply (path_first_change m m' x b h h); try done; fold q; cbn [m' nexts prevs].
    - split; apply lookup_insert_eq.
    - intros z Hz. destruct (F2 z ltac:(by right)) as (? & ? & ?). by rewrite !lookup_insert_ne by congruence.
    - intros z Hz Hne. destruct (F2 z Hz) as (? & ? & ?). by rewrite !lookup_insert_ne by congruence. }
  assert (HT : forall k ys, <[l := a]> (<[h := b]> T) !! k = Some ys -> (k = l /\ ys = a) \/ (k = h /\ ys = b) \/
    (T !! k = Some ys /\ forall z, z ∈ k :: ys -> z ∉ l :: h :: a ++ b)).
  { intros k ys. rewrite !lookup_insert. case_decide as Hk; [intros [= <-]; by left|]. case_decide as Hk'; [intros [= <-]; right; by left|].
    intros Ek. right. right. split; [done|]. intros z Hz [->|Hz']%elem_of_cons.
    - apply (Ho k ys); [by rewrite lookup_delete_ne|done].
    - by apply Hk', (ls_disj _ _ Hl h k _ ys z Eh). }
  apply (lists_update m m' T _ (l :: h :: a ++ b)).
  - done.
  - intros z. rewrite !not_elem_of_cons, not_elem_of_app. intros (? & ? & ? & ?). rewrite elem_of_cons in Hq. cbn [m' nexts prevs].
    assert (z <> x /\ z <> f /\ z <> q) as (? & ? & ?) by (split_and!; intros E; subst z; tauto). by rewrite !lookup_insert_ne by congruence.
  - intros k ys [[-> ->]|[[-> ->]|H]]%HT; [right|right|by left]; (split; [done|]); (split; [by apply NoDup_cons|]); intros z;
      rewrite !elem_of_cons, elem_of_app; tauto.
  - intros k k' ys ys' z Hk Hk' HD Hz Hz'. apply HT in Hk as [[-> ->]|[[-> ->]|[_ Hk]]], Hk' as [[-> ->]|[[-> ->]|[_ Hk']]];
      try done; try (by destruct (Hk z Hz HD)); try (by destruct (Hk' z Hz' HD)).
    + apply elem_of_cons in Hz as [->|Hz]; [destruct (F2 l Hz') as (_ & ? & _)|destruct (F2 z Hz') as (? & ? & ?); destruct (F1 z Hz)]; try done.
      apply elem_of_cons in Hz' as [->|Hz']; [done|by destruct (Hd z Hz)].
    + apply elem_of_cons in Hz' as [->|Hz']; [destruct (F2 l Hz) as (_ & ? & _)|destruct (F2 z Hz) as (? & ? & ?); destruct (F1 z Hz')]; try done.
      apply elem_of_cons in Hz as [->|Hz]; [done|by destruct (Hd z Hz')].
  - exact (same_structs_ok m m' T Hl Hss).
Qed.

Lemma empty_run h xs : T !! h = Some xs -> list_empty h m = Ret (bool_decide (xs = [])).
Proof.
  intros Eh. destruct (path_first _ _ _ _ (ls_path _ _ Hl _ _ Eh)) as [E _]. pose proof (ls_nodup _ _ Hl _ _ Eh) as [Hh _]%NoDup_cons.
  unfold list_empty. rewrite (get_next_Some _ _ _ E), bind_ret. f_equal. apply bool_decide_ext. destruct xs as [|x xs]; [done|]. cbn.
  split; [|done]. intros [= ->]. exfalso. apply Hh. by left.
Qed.

Lemma singular_run h xs : T !! h = Some xs -> list_is_singular h m = Ret (match xs with [_] => true | _ => false end).
Proof.
  intros Eh. unfold list_is_singular. rewrite (empty_run h xs Eh), bind_ret. pose proof (ls_path _ _ Hl _ _ Eh) as H.
  destruct (path_first _ _ _ _ H) as [E1 _]. destruct (path_last _ _ _ _ H) as [_ E2]. pose proof (ls_nodup _ _ Hl _ _ Eh) as [_ Hnd]%NoDup_cons.
  destruct xs as [|x xs]; [done|]. rewrite (bool_decide_false (x :: xs = [])) by done.
  rewrite (get_next_Some _ _ _ E1), bind_ret, (get_prev_Some _ _ _ E2), bind_ret. destruct xs as [|y xs]; [by rewrite bool_decide_true|].
  cbn [hd_to last_from]. rewrite bool_decide_false; [done|]. intros [= E]. apply NoDup_cons in Hnd as [Hx _]. apply Hx. rewrite E. apply last_from_in.
Qed.

Lemma split_after_spec x xs : x ∈ xs -> exists a, split_after x xs = (a ++ [x], drop (length a + 1) xs) /\ xs = (a ++ [x]) ++ drop (length a + 1) xs.
Proof.
  induction xs as [|z xs IH]; [by intros ?%elem_of_nil|]. intros Hx. cbn [split_after]. destruct (decide (z = x)) as [->|Hne].
  - by exists [].
  - destruct IH as (a & E & Exs); [by apply elem_of_cons in Hx as [Hx|Hx]; [congruence|]|]. exists (z :: a). rewrite E. cbn. split; [done|]. by f_equal.
Qed.

End step.

Lemma subst_lists m T h y f l1 l2 : lists m T -> T !! h = Some (l1 ++ y :: l2) -> subst_node y f <$> T = <[h := l1 ++ f ++ l2]> T.
Proof.
  intros Hl Eh. apply subst_table; [done| |].
  - by pose proof (ls_nodup _ _ Hl _ _ Eh) as [_ ?]%NoDup_cons.
  - intros k ys Ek Hy. apply (ls_disj _ _ Hl k h ys _ y Ek Eh); [by right|]. right. apply elem_of_app. right. by left.
Qed.

Lemma inside_split T x : inside T x -> exists h l1 l2, T !! h = Some (l1 ++ x :: l2).
Proof. intros (h & xs & Eh & (l1 & l2 & ->)%list_elem_of_split). by exists h, l1, l2. Qed.

Lemma alter_insert_eq (T : table) f h xs : T !! h = Some xs -> alter f h T = <[h := f xs]> T.
Proof. intros E. apply map_eq. intros k. rewrite lookup_insert. case_decide; subst; [by rewrite lookup_alter_eq, E|by rewrite lookup_alter_ne]. Qed.

Lemma cut_run m T l h x xs : lists m T -> is_Some (nexts m !! l) -> l <> h -> outside (delete l T) l -> T !! h = Some xs -> x ∈ h :: xs ->
  exists m', list_cut_position l h x m = Ret m' /\ lists m' (abs_lop (LCut l h x) T) /\ same_structs m m'.
Proof.
  intros Hl Hn Hlh Ho Eh Hx. unfold list_cut_position. cbn [abs_lop]. rewrite Eh, (empty_run m T Hl h xs Eh), bind_ret.
  destruct xs as [|z xs]; [exists m; by split_and!|]. rewrite bool_decide_false by done.
  rewrite (singular_run m T Hl h _ Eh), bind_ret. destruct (path_first _ _ _ _ (ls_path _ _ Hl _ _ Eh)) as [E1 _].
  rewrite (get_next_Some _ _ _ E1), bind_ret. cbn [hd_to]. pose proof (ls_nodup _ _ Hl _ _ Eh) as [Hh _]%NoDup_cons.
  replace (_ && _ && _) with false.
  2:{ symmetry. apply elem_of_cons in Hx as [->|Hx]; [by rewrite (bool_decide_false (h <> h)), andb_false_r by tauto|].
      destruct xs as [|y xs]; [|done]. apply list_elem_of_singleton in Hx as ->. by rewrite (bool_decide_false (Some z <> Some z)) by tauto. }
  destruct (decide (x = h)) as [->|Hxh].
  - rewrite bool_decide_true by done. by apply init_lists.
  - rewrite bool_decide_false by done. apply elem_of_cons in Hx as [->|Hx]; [done|]. destruct (split_after_spec x (z :: xs) Hx) as (a & E & Exs).
    rewrite E. cbn [fst snd]. rewrite Exs in Eh. destruct (cut_lists m T Hl l h (a ++ [x]) _ Hn Hlh Ho Eh) as (m' & E' & H); [by destruct a|].
    assert (Ela : last_from h (a ++ [x]) = x) by (clear; generalize h; induction a as [|y a IH]; intros k; [done|apply IH]).
    rewrite Ela in E'. by exists m'.
Qed.

Lemma lop_run m T o : lists m T -> lop_ok (dom (nexts m)) o T ->
  exists m', run_lop o m = Ret m' /\ lists m' (abs_lop o T) /\ same_structs m m'.
Proof.
  intros Hl. assert (Hsame : same_structs m m) by (by split). destruct o as [h|n h|n h|x|x n|l h|l h|l h x]; cbn [lop_ok run_lop]; rewrite ?elem_of_dom.
  - intros [? ?]. by apply init_lists.
  - intros (Hn & Ho & [xs Eh]). cbn [abs_lop]. rewrite (alter_insert_eq T _ h xs Eh). unfold list_add.
    destruct (path_first _ _ _ _ (ls_path _ _ Hl _ _ Eh)) as [E _]. rewrite (next_of_Some _ _ _ E), bind_ret. by apply (add_lists m T Hl h [] xs).
  - intros (Hn & Ho & [xs Eh]). cbn [abs_lop]. rewrite (alter_insert_eq T _ h xs Eh). unfold list_add_tail.
    destruct (path_last _ _ _ _ (ls_path _ _ Hl _ _ Eh)) as [_ E]. rewrite (prev_of_Some _ _ _ E), bind_ret.
    apply (add_lists m T Hl h xs []); [by rewrite app_nil_r|done|done].
  - intros (h & l1 & l2 & Eh)%inside_split. cbn [abs_lop]. rewrite (subst_lists m T h x [] l1 l2 Hl Eh). by apply (del_lists m T Hl h l1 x l2).
  - intros (Hn & Ho & (h & l1 & l2 & Eh)%inside_split). cbn [abs_lop]. rewrite (subst_lists m T h x [n] l1 l2 Hl Eh). by apply (replace_lists m T Hl h l1 x l2).
  - intros (Hlh & [xs El] & [ys Eh]). cbn [abs_lop]. rewrite El. unfold list_splice. rewrite (empty_run m T Hl l xs El), bind_ret.
    destruct xs as [|x xs]; [by exists m|]. rewrite bool_decide_false by done. destruct (path_first _ _ _ _ (ls_path _ _ Hl _ _ Eh)) as [E _].
    rewrite (next_of_Some _ _ _ E), bind_ret. rewrite (alter_insert_eq _ _ h ys) by (by rewrite lookup_delete_ne).
    by apply (splice_lists m T Hl l h (x :: xs) [] ys).
  - intros (Hlh & [xs El] & [ys Eh]). cbn [abs_lop]. rewrite El. unfold list_splice_tail. rewrite (empty_run m T Hl l xs El), bind_ret.
    destruct xs as [|x xs]; [by exists m|]. rewrite bool_decide_false by done. destruct (path_last _ _ _ _ (ls_path _ _ Hl _ _ Eh)) as [_ E].
    rewrite (prev_of_Some _ _ _ E), bind_ret. rewrite (alter_insert_eq _ _ h ys) by (by rewrite lookup_delete_ne).
    destruct (splice_lists m T Hl l h (x :: xs) ys [] Hlh El ltac:(done)) as (m' & E' & H); [by rewrite app_nil_r|]. rewrite app_nil_r in H. by exists m'.
  - intros (Hn & Hlh & Ho & Hx). destruct (T !! h) as [xs|] eqn:Eh; [|done]. by apply (cut_run m T l h x xs).
Qed.

(** The walk of list_for_each_entry visits the entries. *)
Lemma list_walk_run m h xs x fuel : path m x xs h -> (h ∉ xs) -> (length xs < fuel)%nat -> list_walk fuel (hd_to xs h) h m = Ret xs.
Proof.
  revert x fuel. induction xs as [|z xs IH]; intros x [|fuel] H Hh Hf; cbn [length] in Hf; try lia; cbn [list_walk hd_to].
  - by rewrite bool_decide_true.
  - apply not_elem_of_cons in Hh as [Hz Hh]. rewrite bool_decide_false by congruence. destruct H as [_ H]. destruct (path_first _ _ _ _ H) as [E _].
    rewrite (next_of_Some _ _ _ E), bind_ret, (IH z) by (done || lia). done.
Qed.

(** C23: The operations of fs/list.h on circular lists refine the operations on the
    sequences of entries: in any sequence of them on any number of lists, if
    entries are only inserted while they are in no list, no pointer that is
    followed is missing, no assertion fails, and afterwards list_for_each_entry
    visits the entries of the resulting sequences in order. *)
Theorem list_refines os m T :
  lists m T -> lops_ok (dom (nexts m)) os T ->
  exists m', run_lops os m = Ret m' /\ lists m' (abs_lops os T) /\
    forall h xs fuel, abs_lops os T !! h = Some xs -> (length xs < fuel)%nat -> list_entries fuel h m' = Ret xs.
Proof.
  revert m T. induction os as [|o os IH]; intros m T Hl Hok.
  - exists m. split_and!; [done|done|]. intros h xs fuel Eh Hf. pose proof (ls_path _ _ Hl _ _ Eh) as H. unfold list_entries.
    destruct (path_first _ _ _ _ H) as [E _]. rewrite (next_of_Some _ _ _ E), bind_ret. apply (list_walk_run m h xs h); [done| |done].
    by pose proof (ls_nodup _ _ Hl _ _ Eh) as [? _]%NoDup_cons.
  - destruct Hok as [Ho Hok]. destruct (lop_run m T o Hl Ho) as (m1 & E1 & Hl1 & Hs & _).
    assert (Hd : dom (nexts m1) = dom (nexts m)) by (apply set_eq; intros x; by rewrite !elem_of_dom). rewrite <- Hd in Hok.
    destruct (IH m1 _ Hl1 Hok) as (m2 & E2 & H). exists m2. cbn [run_lops]. by rewrite E1, bind_ret.
Qed.

(** Six structs that are not initialised. *)
Definition demo_lmem : lmem :=
  let f := list_to_map ((fun i => (i, None)) <$> seqZ 1 6) in LMem f f.
Definition demo_lops : list lop := [LInit 1; LInit 2; LAdd 3 1; LAddTail 4 1; LAddTail 5 1; LCut 2 1 4; LReplace 3 6; LSpliceTail 2 1; LDel 4].

Lemma list_refines_witness :
  exists m', run_lops demo_lops demo_lmem = Ret m' /\ lists m' {[1 := [5; 6]]} /\
    forall h xs fuel, ({[1 := [5; 6]]} : table) !! h = Some xs -> (length xs < fuel)%nat -> list_entries fuel h m' = Ret xs.
Proof.
  replace ({[1 := [5; 6]]} : table) with (abs_lops demo_lops empty) by (vm_compute; reflexivity).
  apply (list_refines demo_lops demo_lmem empty).
  - split; try (by intros *; rewrite lookup_empty). done.
  - apply (bool_decide_unpack _). vm_compute. exact I.
Defined.
