(* ===== verification/Threads.v ===== *)
(** * The thread package: data and operations (threads/thread.c, thread.h)

    The package's global variables are one record, [st]: the thread control
    blocks [TCBs], [current_thread_id], the ready queue and the list of
    available ids (sequences of ids; DList.v and SList.v show that the linked
    lists of the code behave as these sequences do), and the objects the code
    allocates and refers to by address: wait queues, locks, condition
    variables and thread stacks.  [intr] says whether SIGALRM is unblocked.

    ** Control

    A function that calls [setcontext] does not return to its caller: the
    caller's activation stays on the thread's stack until the thread is
    resumed by another [setcontext], after [getcontext] inside [thread_yield].
    The activations a suspended thread has are the [frame]s of its saved
    context; each keeps the local variables that are live at the call it
    waits for.  An operation of the package is a function of the frames of
    its callers, the code the thread runs below them, and the state; its
    [outcome] says whether it returns, has switched to the context of the new
    current thread, ends the process, or is undefined.  [return_to] resumes
    the frames of a thread.  The machine that schedules threads on top of
    these operations is in ThreadMachine.v. *)
From S2P Require Import Prelude DList.
Export ReadyQueue.

(** ** Constants (thread.h) *)
Definition THREAD_MAX_THREADS : Z := 1024.
Definition THREAD_MIN_STACK : Z := 32768.
Definition THREAD_ANY : Z := -1.
Definition THREAD_SELF : Z := -2.
Definition THREAD_INVALID : Z := -3.
Definition THREAD_NONE : Z := -4.
Definition THREAD_NOMORE : Z := -5.
Definition THREAD_NOMEMORY : Z := -6.
Definition THREAD_FAILED : Z := -7.

Definition thread_ret_ok (ret : Tid) : Z := if ret >=? 0 then 1 else 0.

(** ** Data *)
Inductive ThreadState : Type := NOT_ASSIGNED | READY | RUNNING.
#[global] Instance ThreadState_eq_dec : EqDecision ThreadState.
Proof. solve_decision. Defined.

(** Addresses of wait queues, locks and condition variables. *)
Abbreviation addr := positive (only parsing).

(** The activations of a suspended thread, innermost first. *)
Inductive frame : Type :=
| InYield (enabled : bool) (nextTidToRun oldThreadId : Tid)
| InSleep (enabled : bool)
| InWait (enabled : bool) (tid : Tid)
| InLockAcquire (enabled : bool) (lk : addr)
| InCvWaitSleep (enabled : bool) (lk : addr)
| InCvWaitLock (enabled : bool)
| InHandler.

(** The code below the package's frames: [main] and what it calls, or a
    thread function [fn(parg)]; the first two constructors are the points of
    [thread_stub] at which interrupts are on and [fn] has not been called. *)
Inductive code : Type :=
| StubEntry (fn parg : Z)
| StubChecked (fn parg : Z)
| Body (fn parg : Z)
| Main.

(** What a [ucontext_t] resumes at. *)
Inductive pc : Type :=
| PZero
| PCreate
| PStub (fn parg : Z)
| PSaved (fs : list frame) (b : code).

Record ucontext := Ctx {
  uc_pc : pc;
  uc_blocked : bool;      (* SIGALRM is in uc_sigmask *)
  ss_sp : option Z;
  ss_size : Z;
  reg_rsp : Z
}.

Definition zero_ctx : ucontext := Ctx PZero false None 0 0.

(** [struct thread] *)
Record thread := Thread {
  t_state : ThreadState;
  id : Tid;
  mycontext : ucontext;
  stack_to_free : option Z;
  setcontext_called : Z;
  killOnNextRun : Z;
  waitQueue : option addr;
  t_wait : option addr
}.

(** [struct lock] *)
Record lock := Lock {
  wait_on_lock : addr;
  isAcquired : bool;
  acquiredBy : Tid
}.

Record st := St {
  TCBs : gmap Z thread;
  current_thread_id : Tid;
  readyQueue : list Tid;
  availableThreadIds : list Tid;
  wqs : gmap addr (list Tid);    (* struct wait_queue, by the address of its head *)
  locks : gmap addr lock;
  cvs : gmap addr addr;          (* struct cv: its wait_on_cv *)
  stacks : gset Z;               (* live stacks *)
  intr : bool;
  next_addr : addr               (* the next address malloc gives to an object *)
}.

(** Field updates. *)
Definition set_TCBs m (s : st) : st :=
  St m (current_thread_id s) (readyQueue s) (availableThreadIds s) (wqs s) (locks s) (cvs s) (stacks s) (intr s) (next_addr s).
Definition set_current t (s : st) : st :=
  St (TCBs s) t (readyQueue s) (availableThreadIds s) (wqs s) (locks s) (cvs s) (stacks s) (intr s) (next_addr s).
Definition set_ready q (s : st) : st :=
  St (TCBs s) (current_thread_id s) q (availableThreadIds s) (wqs s) (locks s) (cvs s) (stacks s) (intr s) (next_addr s).
Definition set_avail q (s : st) : st :=
  St (TCBs s) (current_thread_id s) (readyQueue s) q (wqs s) (locks s) (cvs s) (stacks s) (intr s) (next_addr s).
Definition set_wqs m (s : st) : st :=
  St (TCBs s) (current_thread_id s) (readyQueue s) (availableThreadIds s) m (locks s) (cvs s) (stacks s) (intr s) (next_addr s).
Definition set_locks m (s : st) : st :=
  St (TCBs s) (current_thread_id s) (readyQueue s) (availableThreadIds s) (wqs s) m (cvs s) (stacks s) (intr s) (next_addr s).
Definition set_cvs m (s : st) : st :=
  St (TCBs s) (current_thread_id s) (readyQueue s) (availableThreadIds s) (wqs s) (locks s) m (stacks s) (intr s) (next_addr s).
Definition set_stacks x (s : st) : st :=
  St (TCBs s) (current_thread_id s) (readyQueue s) (availableThreadIds s) (wqs s) (locks s) (cvs s) x (intr s) (next_addr s).
Definition set_intr b (s : st) : st :=
  St (TCBs s) (current_thread_id s) (readyQueue s) (availableThreadIds s) (wqs s) (locks s) (cvs s) (stacks s) b (next_addr s).
Definition set_next_addr n (s : st) : st :=
  St (TCBs s) (current_thread_id s) (readyQueue s) (availableThreadIds s) (wqs s) (locks s) (cvs s) (stacks s) (intr s) n.

(** [malloc] of an object: its address, which no object has. *)
Definition alloc_addr (s : st) : addr * st := (next_addr s, set_next_addr (Pos.succ (next_addr s)) s).

Definition w_state v (t : thread) : thread :=
  Thread v (id t) (mycontext t) (stack_to_free t) (setcontext_called t) (killOnNextRun t) (waitQueue t) (t_wait t).
Definition w_ctx v (t : thread) : thread :=
  Thread (t_state t) (id t) v (stack_to_free t) (setcontext_called t) (killOnNextRun t) (waitQueue t) (t_wait t).
Definition w_stack v (t : thread) : thread :=
  Thread (t_state t) (id t) (mycontext t) v (setcontext_called t) (killOnNextRun t) (waitQueue t) (t_wait t).
Definition w_sc v (t : thread) : thread :=
  Thread (t_state t) (id t) (mycontext t) (stack_to_free t) v (killOnNextRun t) (waitQueue t) (t_wait t).
Definition w_kill v (t : thread) : thread :=
  Thread (t_state t) (id t) (mycontext t) (stack_to_free t) (setcontext_called t) v (waitQueue t) (t_wait t).
Definition w_wq v (t : thread) : thread :=
  Thread (t_state t) (id t) (mycontext t) (stack_to_free t) (setcontext_called t) (killOnNextRun t) v (t_wait t).
Definition w_twait v (t : thread) : thread :=
  Thread (t_state t) (id t) (mycontext t) (stack_to_free t) (setcontext_called t) (killOnNextRun t) (waitQueue t) v.

(** [TCBs[t]] and assignments to its fields; an index outside the array is
    undefined. *)
Definition tcb (t : Z) (s : st) : res thread := deref (TCBs s !! t).
Definition upd (t : Z) (f : thread -> thread) (s : st) : res st :=
  x ← tcb t s; Ret (set_TCBs (<[t := f x]> (TCBs s)) s).

(** ** Interrupts (threads/interrupt.c)

    [interrupts_set] blocks or unblocks SIGALRM and returns whether it was
    unblocked before. *)
Definition interrupts_set (enabled : bool) (s : st) : bool * st := (intr s, set_intr enabled s).
Definition interrupts_on (s : st) : bool * st := interrupts_set true s.
Definition interrupts_off (s : st) : bool * st := interrupts_set false s.
Definition interrupts_enabled (s : st) : bool := intr s.

(** ** Outcomes of an operation *)
Inductive outcome : Type :=
| Return (v : Z) (s : st)
| Switch (s : st)               (* setcontext(&TCBs[current_thread_id].mycontext) *)
| Stop (code : Z) (s : st)      (* exit(code) *)
| Crash (e : fault).

Definition obind {A} (m : res A) (k : A -> outcome) : outcome :=
  match m with Ret a => k a | Fail e => Crash e end.
(** Continue in the caller when the callee returns. *)
Definition then_ (o : outcome) (k : Z -> st -> outcome) : outcome :=
  match o with Return v s => k v s | o => o end.

Declare Scope thread_scope.
Notation "x '<~' m ';;' k" := (obind m (fun x => k))
  (at level 100, m at next level, right associativity) : thread_scope.
Notation "'do' ( v , s ) '<~' m ';;' k" := (then_ m (fun v s => k))
  (at level 100, v name, s name, m at next level, right associativity) : thread_scope.
#[global] Open Scope thread_scope.

(** ** Wait queues *)
Definition getHeadWait (queue : addr) (s : st) : res (option Tid) :=
  q ← deref (wqs s !! queue); Ret (hd_error q).

Definition pushThreadToWait (queue : addr) (tid : Tid) (s : st) : res st :=
  q ← deref (wqs s !! queue); Ret (set_wqs (<[queue := q ++ [tid]]> (wqs s)) s).

Definition popHeadThreadWait (queue : addr) (s : st) : res (Tid * st) :=
  q ← deref (wqs s !! queue);
  match q with
  | [] => Ret (-1, s)
  | tid :: q => Ret (tid, set_wqs (<[queue := q]> (wqs s)) s)
  end.

Definition wait_queue_create (s : st) : addr * st :=
  let (wq, s) := alloc_addr s in (wq, set_wqs (<[wq := []]> (wqs s)) s).

(** Pops the queue until [popHeadThreadWait] returns -1, then frees it. *)
Fixpoint wq_drain (q : list Tid) : list Tid :=
  match q with [] => [] | tid :: q => if tid =? -1 then q else wq_drain q end.
Definition wait_queue_destroy (wq : addr) (s : st) : res st :=
  q ← deref (wqs s !! wq);
  Ret (set_wqs (delete wq (<[wq := wq_drain q]> (wqs s))) s).

(** ** Available ids *)
Definition addToHeadId (i : Tid) (s : st) : st := set_avail (i :: availableThreadIds s) s.
Definition removeFromHead (s : st) : Tid * st :=
  match availableThreadIds s with
  | [] => (-1, s)
  | i :: l => (i, set_avail l s)
  end.

(** ** thread_init *)
Definition init_tcb (i : Z) (state : ThreadState) (s : st) : st :=
  let (wq, s) := wait_queue_create s in
  set_TCBs (<[i := Thread state i zero_ctx None 0 0 None (Some wq)]> (TCBs s)) s.

(** The loop [for (i = 1023; i >= 1; i--)], [n] iterations of it left. *)
Fixpoint init_loop (n : nat) (s : st) : st :=
  match n with
  | O => s
  | S n' => init_loop n' (init_tcb (Z.of_nat n) NOT_ASSIGNED (addToHeadId (Z.of_nat n) s))
  end.

(** [s] is the state before the call: what the globals hold then is overwritten. *)
Definition thread_init (s : st) : st :=
  let s := set_avail [] (set_ready [] s) in
  let s := init_loop 1023 s in
  let s := init_tcb 0 RUNNING s in
  set_current 0 s.

(** The program's globals before [thread_init]. *)
Definition boot : st := St ∅ (-1) [] [] ∅ ∅ ∅ ∅ true 1.

(** ** Stacks *)

(** The stack the code runs on: that of the current thread.  Thread 0 has none
    in the table while it runs on the stack of the process. *)
Definition running_on (s : st) : option Z := TCBs s !! current_thread_id s ≫= stack_to_free.

(** free(a): the memory is gone, and the code cannot go on if it runs on it. *)
Definition free_stack (a : Z) (s : st) : res st :=
  if bool_decide (a ∈ stacks s) then
    if bool_decide (running_on s = Some a) then Fail FreedStack
    else Ret (set_stacks (stacks s ∖ {[a]}) s)
  else Fail Undef.

(** One iteration of the loop of freeTCBStacks. *)
Definition freeTCBStack (i : Z) (s : st) : res st :=
  x ← tcb i s;
  match stack_to_free x with
  | Some a =>
      if decide (t_state x = NOT_ASSIGNED) then
        s ← free_stack a s; upd i (w_stack None) s
      else Ret s
  | None => Ret s
  end.

Fixpoint freeTCBStacks_from (ids : list Z) (s : st) : res st :=
  match ids with
  | [] => Ret s
  | i :: ids => s ← freeTCBStack i s; freeTCBStacks_from ids s
  end.
Definition freeTCBStacks (s : st) : res st := freeTCBStacks_from (seqZ 1 (THREAD_MAX_THREADS - 1)) s.

(** The loop over the wait queues of the TCBs, from the last to the first:
    it frees the head node of each. *)
Definition dealloc_wait_queue (i : Z) (s : st) : res st :=
  x ← tcb i s;
  match t_wait x with
  | Some q => _ ← deref (wqs s !! q);
              upd i (w_twait None) (set_wqs (delete q (wqs s)) s)
  | None => Ret s
  end.
Fixpoint dealloc_from (ids : list Z) (s : st) : res st :=
  match ids with
  | [] => Ret s
  | i :: ids => s ← dealloc_wait_queue i s; dealloc_from ids s
  end.
Definition dealloc_thread_specific_wait_queue (s : st) : res st :=
  dealloc_from (reverse (seqZ 0 THREAD_MAX_THREADS)) s.

(** ** thread_wakeup *)
Fixpoint wakeup_loop (q rq : list Tid) (woke_up : Z) : list Tid * list Tid * Z :=
  match q with
  | [] => ([], rq, woke_up)
  | tid :: q => if tid =? -1 then (q, rq, woke_up)
                else wakeup_loop q (rq ++ [tid]) (woke_up + 1)
  end.

Definition thread_wakeup (queue : option addr) (all : Z) (s : st) : res (Z * st) :=
  let (enabled, s) := interrupts_set false s in
  match queue with
  | None => Ret (0, set_intr enabled s)
  | Some queue =>
      h ← getHeadWait queue s;
      match h with
      | None => Ret (0, set_intr enabled s)
      | Some _ =>
          '(tid_popped, s) ← popHeadThreadWait queue s;
          let s := set_ready (readyQueue s ++ [tid_popped]) s in
          if (all =? 1) && negb (tid_popped =? -1) then
            q ← deref (wqs s !! queue);
            let '(q, rq, woke_up) := wakeup_loop q (readyQueue s) 1 in
            Ret (woke_up, set_intr enabled (set_ready rq (set_wqs (<[queue := q]> (wqs s)) s)))
          else Ret (1, set_intr enabled s)
      end
  end.

(** ** thread_exit *)
Definition thread_exit (s : st) : outcome :=
  let (enabled, s) := interrupts_set false s in
  let cur := current_thread_id s in
  s <~ upd cur (w_ctx zero_ctx) s;;
  s <~ upd cur (w_state NOT_ASSIGNED) s;;
  s <~ upd cur (w_kill 0) s;;
  s <~ upd cur (w_wq None) s;;
  x <~ tcb cur s;;
  r <~ thread_wakeup (t_wait x) 1 s;;
  let s := addToHeadId cur r.2 in
  let (nextTidToRun, q) := rq_next (readyQueue s) in
  let s := set_ready q s in
  if nextTidToRun =? -1 then
    s <~ freeTCBStacks s;;
    s <~ dealloc_thread_specific_wait_queue s;;
    Stop 0 (set_intr enabled s)
  else
    let s := set_current nextTidToRun s in
    s <~ upd nextTidToRun (w_state RUNNING) s;;
    Switch s.

(** ** threadResponsibilities

    Two parts: interrupts are back to the caller's state between them. *)
Definition responsibilities_free (s : st) : res st :=
  let (enabled, s) := interrupts_off s in
  s ← freeTCBStacks s; Ret (set_intr enabled s).
Definition responsibilities_check (s : st) : outcome :=
  x <~ tcb (current_thread_id s) s;;
  if killOnNextRun x =? 1 then thread_exit s else Return 0 s.
Definition threadResponsibilities (s : st) : outcome :=
  s <~ responsibilities_free s;; responsibilities_check s.

Definition thread_id (s : st) : outcome :=
  let (enabled, s) := interrupts_set false s in
  if current_thread_id s >=? 0
  then Return (current_thread_id s) (set_intr enabled s)
  else Return THREAD_INVALID (set_intr enabled s).

(** ** thread_create

    [m] is what [malloc(THREAD_MIN_STACK)] returns. *)
Definition stack_top (base : Z) : Z :=
  let sp := u64 (base + THREAD_MIN_STACK) in
  let sp := u64 (sp - sp mod 16) in
  u64 (sp - 8).

Definition thread_create (m : option Z) (fn parg : Z) (s : st) : outcome :=
  let (enabled, s) := interrupts_set false s in
  let cur := current_thread_id s in
  s <~ upd cur (w_ctx (Ctx PCreate true None 0 0)) s;;
  let (i, s) := removeFromHead s in
  if i =? -1 then Return THREAD_NOMORE (set_intr enabled s)
  else
    x <~ tcb i s;;
    s <~ match stack_to_free x with
         | Some a => s ← free_stack a s; upd i (w_stack None) s
         | None => Ret s
         end;;
    s <~ upd i (w_stack m) s;;
    match m with
    | None => Return THREAD_NOMEMORY (set_intr enabled s)
    | Some a =>
        let s := set_stacks (stacks s ∪ {[a]}) s in
        c <~ tcb cur s;;
        let ctx := mycontext c in
        let ctx := Ctx (PStub fn parg) (uc_blocked ctx) (Some a) THREAD_MIN_STACK (stack_top a) in
        s <~ upd i (w_ctx ctx) s;;
        s <~ upd i (w_state READY) s;;
        let s := set_ready (readyQueue s ++ [i]) s in
        Return i (set_intr enabled s)
    end.

(** ** thread_yield

    [fs] are the callers' activations, [b] the code below them.  Both branches
    of the function share the block that follows the choice of the next
    thread.  [yield_tail] is that block from the return of [getcontext] on: it
    runs once when the thread yields and again when its context is resumed. *)
Definition yield_tail (enabled : bool) (nextTidToRun oldThreadId : Tid) (s : st) : outcome :=
  do (_, s) <~ threadResponsibilities s;;
  x <~ tcb (current_thread_id s) s;;
  if setcontext_called x =? 0 then
    s <~ upd (current_thread_id s) (w_state READY) s;;
    s <~ match waitQueue x with
         | Some q => s ← pushThreadToWait q (current_thread_id s) s;
                     upd (current_thread_id s) (w_wq None) s
         | None => Ret (set_ready (readyQueue s ++ [current_thread_id s]) s)
         end;;
    let s := set_current nextTidToRun s in
    s <~ upd nextTidToRun (w_state RUNNING) s;;
    s <~ upd oldThreadId (w_sc 1) s;;
    Switch s
  else
    s <~ upd (current_thread_id s) (w_sc 0) s;;
    Return nextTidToRun (set_intr enabled s).

Definition yield_to (enabled : bool) (nextTidToRun : Tid) (fs : list frame) (b : code) (s : st) : outcome :=
  let oldThreadId := current_thread_id s in
  let pc := PSaved (InYield enabled nextTidToRun oldThreadId :: fs) b in
  s <~ upd oldThreadId (w_ctx (Ctx pc (negb (intr s)) None 0 0)) s;;
  yield_tail enabled nextTidToRun oldThreadId s.

Definition thread_yield (want_tid : Tid) (fs : list frame) (b : code) (s : st) : outcome :=
  let (enabled, s) := interrupts_set false s in
  if (want_tid >=? THREAD_MAX_THREADS) || (want_tid <? -7) then
    Return THREAD_INVALID (set_intr enabled s)
  else if want_tid =? THREAD_SELF then Return (current_thread_id s) (set_intr enabled s)
  else if want_tid =? current_thread_id s then Return (current_thread_id s) (set_intr enabled s)
  else
    unassigned <~ (if want_tid >=? 0
                   then x ← tcb want_tid s; Ret (bool_decide (t_state x = NOT_ASSIGNED))
                   else Ret false);;
    if (unassigned : bool) then Return THREAD_INVALID (set_intr enabled s)
    else
      let (nextTidToRun, q) :=
        if want_tid =? THREAD_ANY then rq_next (readyQueue s) else rq_remove (readyQueue s) want_tid in
      let s := set_ready q s in
      if nextTidToRun =? -1 then Return THREAD_NONE (set_intr enabled s)
      else yield_to enabled nextTidToRun fs b s.

(** ** thread_kill *)
Definition thread_kill (tid : Tid) (s : st) : outcome :=
  let (enabled, s) := interrupts_set false s in
  if (tid >=? 1024) || (tid <? -7) then Return THREAD_INVALID (set_intr enabled s)
  else if tid =? current_thread_id s then Return THREAD_INVALID (set_intr enabled s)
  else
    x <~ tcb tid s;;
    if decide (t_state x = NOT_ASSIGNED) then Return THREAD_INVALID (set_intr enabled s)
    else
      s <~ upd tid (w_kill 1) s;;
      Return tid (set_intr enabled s).

(** ** thread_sleep and thread_wait *)
Definition thread_sleep (queue : option addr) (fs : list frame) (b : code) (s : st) : outcome :=
  let (enabled, s) := interrupts_set false s in
  match queue with
  | None => Return THREAD_INVALID (set_intr enabled s)
  | Some queue =>
      match hd_error (readyQueue s) with
      | None => Return THREAD_NONE (set_intr enabled s)
      | Some nextReadyThread =>
          s <~ upd (current_thread_id s) (w_wq (Some queue)) s;;
          do (suspendedTid, s) <~ thread_yield nextReadyThread (InSleep enabled :: fs) b s;;
          Return suspendedTid (set_intr enabled s)
      end
  end.

Definition thread_wait (tid : Tid) (fs : list frame) (b : code) (s : st) : outcome :=
  let (enabled, s) := interrupts_set false s in
  if (tid <? 0) || (tid =? current_thread_id s) then Return THREAD_INVALID (set_intr enabled s)
  else
    x <~ tcb tid s;;
    if decide (t_state x = NOT_ASSIGNED) then Return THREAD_INVALID (set_intr enabled s)
    else
      do (_, s) <~ thread_sleep (t_wait x) (InWait enabled tid :: fs) b s;;
      Return tid (set_intr enabled s).

(** ** Locks *)
Definition lock_create (s : st) : addr * st :=
  let (q, s) := wait_queue_create s in
  let (lk, s) := alloc_addr s in
  (lk, set_locks (<[lk := Lock q false (-1)]> (locks s)) s).

(** [assert(p != NULL)] *)
Definition nonnull (p : option addr) : res addr :=
  match p with Some a => Ret a | None => Fail Assert end.

Definition lock_destroy (lk : option addr) (s : st) : res st :=
  lk ← nonnull lk;
  l ← deref (locks s !! lk);
  _ ← c_assert (negb (isAcquired l));
  s ← wait_queue_destroy (wait_on_lock l) s;
  Ret (set_locks (delete lk (locks s)) s).

(** The loop of lock_acquire.  A thread that finds no other thread to run
    keeps looping with interrupts off: nothing can release the lock, and the
    loop does not end ([Diverge] after [fuel] rounds, whatever [fuel] is). *)
Fixpoint lock_acquire_loop (fuel : nat) (enabled : bool) (lk : addr) (fs : list frame) (b : code) (s : st) : outcome :=
  match fuel with
  | O => Crash Diverge
  | S fuel =>
      l <~ deref (locks s !! lk);;
      if negb (isAcquired l) then
        let s := set_locks (<[lk := Lock (wait_on_lock l) true (current_thread_id s)]> (locks s)) s in
        Return 0 (set_intr enabled s)
      else
        do (_, s) <~ thread_sleep (Some (wait_on_lock l)) (InLockAcquire enabled lk :: fs) b s;;
        lock_acquire_loop fuel enabled lk fs b s
  end.

Definition LOCK_FUEL : nat := 4.
Definition lock_acquire (lk : option addr) (fs : list frame) (b : code) (s : st) : outcome :=
  let (enabled, s) := interrupts_set false s in
  lk <~ nonnull lk;;
  lock_acquire_loop LOCK_FUEL enabled lk fs b s.

Definition lock_release (lk : option addr) (s : st) : res st :=
  let (enabled, s) := interrupts_set false s in
  lk ← nonnull lk;
  l ← deref (locks s !! lk);
  if isAcquired l && (acquiredBy l =? current_thread_id s) then
    '(_, s) ← thread_wakeup (Some (wait_on_lock l)) 1 s;
    Ret (set_intr enabled (set_locks (<[lk := Lock (wait_on_lock l) false (-1)]> (locks s)) s))
  else Ret (set_intr enabled s).

(** ** Condition variables *)
Definition cv_create (s : st) : addr * st :=
  let (q, s) := wait_queue_create s in
  let (cv, s) := alloc_addr s in
  (cv, set_cvs (<[cv := q]> (cvs s)) s).

Definition cv_destroy (cv : option addr) (s : st) : res st :=
  cv ← nonnull cv;
  q ← deref (cvs s !! cv);
  s ← wait_queue_destroy q s;
  Ret (set_cvs (delete cv (cvs s)) s).

Definition cv_wait (cv lk : option addr) (fs : list frame) (b : code) (s : st) : outcome :=
  let (enabled, s) := interrupts_set false s in
  cv <~ nonnull cv;;
  lk <~ nonnull lk;;
  l <~ deref (locks s !! lk);;
  if isAcquired l && (acquiredBy l =? current_thread_id s) then
    s <~ lock_release (Some lk) s;;
    q <~ deref (cvs s !! cv);;
    do (_, s) <~ thread_sleep (Some q) (InCvWaitSleep enabled lk :: fs) b s;;
    do (_, s) <~ lock_acquire (Some lk) (InCvWaitLock enabled :: fs) b s;;
    Return 0 (set_intr enabled s)
  else Return 0 (set_intr enabled s).

(** cv_signal and cv_broadcast differ in the argument of thread_wakeup only. *)
Definition cv_wakeup (cv lk : option addr) (all : Z) (s : st) : res st :=
  let (enabled, s) := interrupts_set false s in
  cv ← nonnull cv;
  lk ← nonnull lk;
  l ← deref (locks s !! lk);
  if isAcquired l && (acquiredBy l =? current_thread_id s) then
    q ← deref (cvs s !! cv);
    '(_, s) ← thread_wakeup (Some q) all s;
    Ret (set_intr enabled s)
  else Ret (set_intr enabled s).
Definition cv_signal (cv lk : option addr) (s : st) : res st := cv_wakeup cv lk 0 s.
Definition cv_broadcast (cv lk : option addr) (s : st) : res st := cv_wakeup cv lk 1 s.

(** ** Resuming the activations of a thread

    [v] is what the innermost frame's callee returned. *)
Fixpoint return_to (fs : list frame) (b : code) (v : Z) (s : st) : outcome :=
  match fs with
  | [] => Return v s
  | InYield enabled nextTidToRun oldThreadId :: fs =>
      do (v, s) <~ yield_tail enabled nextTidToRun oldThreadId s;;
      return_to fs b v s
  | InSleep enabled :: fs => return_to fs b v (set_intr enabled s)
  | InWait enabled tid :: fs => return_to fs b tid (set_intr enabled s)
  | InLockAcquire enabled lk :: fs =>
      do (v, s) <~ lock_acquire_loop LOCK_FUEL enabled lk fs b s;;
      return_to fs b v s
  | InCvWaitSleep enabled lk :: fs =>
      do (_, s) <~ lock_acquire (Some lk) (InCvWaitLock enabled :: fs) b s;;
      return_to fs b 0 (set_intr enabled s)
  | InCvWaitLock enabled :: fs => return_to fs b 0 (set_intr enabled s)
  | InHandler :: fs => return_to fs b v (set_intr true s)
  end.
