(* ===== verification/ThreadMachine.v ===== *)
(** * The thread package as a machine

    A configuration is the code of the current thread and the package's
    state, or a pending [setcontext].  One step of the machine is a call of
    the package by the current thread (any call, with any arguments: the
    machine has every client program), a timer interrupt when interrupts are
    on (interrupt_handler of threads/interrupt.c), a stage of thread_stub, the
    return of a thread function, or the transfer of control to the context
    chosen by [setcontext]. *)
From S2P Require Import Prelude DList Threads.

(** ** Calls *)
Inductive call : Type :=
| ThreadId
| ThreadCreate (m : option Z) (fn parg : Z)
| ThreadYield (tid : Tid)
| ThreadExit
| ThreadKill (tid : Tid)
| ThreadSleep (q : option addr)
| ThreadWakeup (q : option addr) (all : Z)
| ThreadWait (tid : Tid)
| WqCreate
| WqDestroy (q : addr)
| LockCreate
| LockDestroy (lk : option addr)
| LockAcquire (lk : option addr)
| LockRelease (lk : option addr)
| CvCreate
| CvDestroy (cv : option addr)
| CvWait (cv lk : option addr)
| CvSignal (cv lk : option addr)
| CvBroadcast (cv lk : option addr)
| InterruptsSet (enabled : bool).

(** A call from the code [b], with no frame of the package below it.  A
    created object's address is returned as a number. *)
Definition do_call (c : call) (b : code) (s : st) : outcome :=
  match c with
  | ThreadId => thread_id s
  | ThreadCreate m fn parg => thread_create m fn parg s
  | ThreadYield tid => thread_yield tid [] b s
  | ThreadExit => thread_exit s
  | ThreadKill tid => thread_kill tid s
  | ThreadSleep q => thread_sleep q [] b s
  | ThreadWakeup q all => r <~ thread_wakeup q all s;; Return r.1 r.2
  | ThreadWait tid => thread_wait tid [] b s
  | WqCreate => let (q, s) := wait_queue_create s in Return (Zpos q) s
  | WqDestroy q => s <~ wait_queue_destroy q s;; Return 0 s
  | LockCreate => let (l, s) := lock_create s in Return (Zpos l) s
  | LockDestroy lk => s <~ lock_destroy lk s;; Return 0 s
  | LockAcquire lk => lock_acquire lk [] b s
  | LockRelease lk => s <~ lock_release lk s;; Return 0 s
  | CvCreate => let (c, s) := cv_create s in Return (Zpos c) s
  | CvDestroy cv => s <~ cv_destroy cv s;; Return 0 s
  | CvWait cv lk => cv_wait cv lk [] b s
  | CvSignal cv lk => s <~ cv_signal cv lk s;; Return 0 s
  | CvBroadcast cv lk => s <~ cv_broadcast cv lk s;; Return 0 s
  | InterruptsSet e => let (v, s) := interrupts_set e s in Return (if v then 1 else 0) s
  end.

(** The kernel delivers SIGALRM with the signal blocked; returning from the
    handler unblocks it again. *)
Definition interrupt_handler (b : code) (s : st) : outcome :=
  let s := set_intr false s in
  s <~ (if interrupts_enabled s then Fail Assert else Ret s);;
  do (_, s) <~ thread_yield THREAD_ANY [InHandler] b s;;
  Return 0 (set_intr true s).

(** ** Configurations *)
Inductive config : Type :=
| Running (b : code) (v : Z) (s : st)   (* [v]: what the last call returned *)
| Dispatching (s : st)
| Halted (code : Z) (s : st)
| Faulted (e : fault).

Definition finish (b : code) (o : outcome) : config :=
  match o with
  | Return v s => Running b v s
  | Switch s => Dispatching s
  | Stop code s => Halted code s
  | Crash e => Faulted e
  end.

(** [setcontext]: the signal mask of the context, then its code. *)
Definition dispatch (s : st) : config :=
  match TCBs s !! current_thread_id s with
  | None => Faulted Undef
  | Some x =>
      let s := set_intr (negb (uc_blocked (mycontext x))) s in
      match uc_pc (mycontext x) with
      | PStub fn parg =>
          (* thread_stub: if (!interrupts_enabled()) interrupts_set(1) *)
          Running (StubEntry fn parg) 0 (if interrupts_enabled s then s else (interrupts_set true s).2)
      | PSaved fs b => finish b (return_to fs b 0 s)
      | PZero | PCreate => Faulted Undef
      end
  end.

Inductive label : Type :=
| LCall (c : call)
| LPreempt
| LStub
| LBodyReturn
| LDispatch.

(** The code of a thread that may call the package. *)
Definition is_client (b : code) : bool :=
  match b with Body _ _ | Main => true | _ => false end.

(** The stack thread_create frees before it allocates the new one. *)
Definition freed_by_create (s : st) : gset Z :=
  match availableThreadIds s with
  | i :: _ => match TCBs s !! i ≫= stack_to_free with Some a => {[a]} | None => ∅ end
  | [] => ∅
  end.

(** [malloc] returns NULL or the address of a block that is not in use. *)
Definition malloc_ok (c : call) (s : st) : bool :=
  match c with
  | ThreadCreate (Some a) _ _ => bool_decide (a ∉ stacks s ∖ freed_by_create s)
  | _ => true
  end.

Definition step (l : label) (c : config) : option config :=
  match c, l with
  | Running b _ s, LCall call =>
      if is_client b && malloc_ok call s then Some (finish b (do_call call b s)) else None
  | Running b _ s, LPreempt =>
      if intr s then Some (finish b (interrupt_handler b s)) else None
  | Running (StubEntry fn parg) _ s, LStub =>
      Some (match responsibilities_free s with
            | Ret s => Running (StubChecked fn parg) 0 s
            | Fail e => Faulted e
            end)
  | Running (StubChecked fn parg) _ s, LStub =>
      Some (finish (Body fn parg) (responsibilities_check s))
  | Running (Body fn parg) _ s, LBodyReturn => Some (finish (Body fn parg) (thread_exit s))
  | Dispatching s, LDispatch => Some (dispatch s)
  | _, _ => None
  end.

Fixpoint steps (ls : list label) (c : config) : option config :=
  match ls with
  | [] => Some c
  | l :: ls => c ← step l c; steps ls c
  end.

(** The program after [thread_init]. *)
Definition start : config := Running Main 0 (thread_init boot).
