(* ===== verification/ThreadInv.v ===== *)
(** * Invariants of the thread package

    [wf] is the invariant of the package's state; ThreadSafety.v shows that
    every operation preserves it.  It is stated with four parameters so that
    it also describes the states inside an operation:

    - [strict]: in strict mode no thread may be lost (every id is running,
      ready, waiting or available) and no kill is pending.  It is what holds
      of programs that never call thread_kill; the other mode is for all
      programs;
    - [run]: the current thread is running (it is not while an operation
      moves it to a queue);
    - [ex]: threads whose saved context is not settled yet;
    - [fl]: threads that are in no queue at the moment. *)
From S2P Require Import Prelude DList Threads.

Definition in_range (t : Z) : Prop := 0 <= t < THREAD_MAX_THREADS.

Definition state_of (s : st) (t : Z) : option ThreadState := t_state <$> TCBs s !! t.

(** A frame that can be resumed under the saved [InYield] frame. *)
Definition frame_ok (ls : gmap addr lock) (f : frame) : Prop :=
  match f with
  | InYield _ _ _ => False
  | InLockAcquire _ lk | InCvWaitSleep _ lk => is_Some (ls !! lk)
  | _ => True
  end.

(** The context of a thread that is ready or waiting. *)
Definition good (ls : gmap addr lock) (t : Z) (x : thread) : Prop :=
  uc_blocked (mycontext x) = true /\
  match uc_pc (mycontext x) with
  | PStub _ _ => True
  | PSaved (InYield _ n o :: fs) _ =>
      o = t /\ setcontext_called x = 1 /\ Forall (frame_ok ls) fs
  | _ => False
  end.

Definition is_stub (x : thread) : Prop :=
  match uc_pc (mycontext x) with PStub _ _ => True | _ => False end.

Definition thread_ok (strict : bool) (ls : gmap addr lock) (t : Z) (x : thread) : Prop :=
  (t_state x = READY -> good ls t x) /\
  (strict = true -> killOnNextRun x = 0 /\
     (t_state x <> READY \/ is_stub x -> setcontext_called x = 0)).

(** The wait queues inside other objects: that of a lock, of a condition
    variable, and the one on which the threads that wait for a thread sleep. *)
Inductive owner : Type := OLock (lk : addr) | OCv (cv : addr) | OExit (t : Z).
Definition owns (s : st) (o : owner) (q : addr) : Prop :=
  match o with
  | OLock lk => wait_on_lock <$> locks s !! lk = Some q
  | OCv cv => cvs s !! cv = Some q
  | OExit t => TCBs s !! t ≫= t_wait = Some q
  end.

(** [t] waits in some queue. *)
Definition waiting (s : st) (t : Z) : Prop :=
  exists q l, wqs s !! q = Some l /\ t ∈ l.

Record wf (strict run : bool) (ex fl : list Z) (s : st) : Prop := Wf {
  wf_dom : forall t, is_Some (TCBs s !! t) <-> in_range t;
  wf_cur : run = true -> state_of s (current_thread_id s) = Some RUNNING;
  wf_one : forall t, state_of s t = Some RUNNING -> run = true /\ t = current_thread_id s;
  wf_ready : forall t, t ∈ readyQueue s -> state_of s t = Some READY;
  wf_avail : forall t, t ∈ availableThreadIds s -> state_of s t = Some NOT_ASSIGNED;
  wf_wait : forall t, waiting s t -> state_of s t = Some READY /\ t ∉ readyQueue s;
  wf_nd_ready : NoDup (readyQueue s);
  wf_nd_avail : NoDup (availableThreadIds s);
  wf_nd_wait : forall q l, wqs s !! q = Some l -> NoDup l;
  wf_disj : forall q1 q2 l1 l2 t, wqs s !! q1 = Some l1 -> wqs s !! q2 = Some l2 ->
              t ∈ l1 -> t ∈ l2 -> q1 = q2;
  wf_fl : forall t, t ∈ fl -> (t ∉ readyQueue s) /\ (t ∉ availableThreadIds s) /\ ~ waiting s t;
  wf_thr : forall t x, TCBs s !! t = Some x -> t ∉ ex -> thread_ok strict (locks s) t x;
  wf_wq : forall t x q, TCBs s !! t = Some x -> waitQueue x = Some q -> is_Some (wqs s !! q);
  wf_twait : forall t x, TCBs s !! t = Some x ->
               exists q, t_wait x = Some q /\ is_Some (wqs s !! q);
  wf_lock : forall lk l, locks s !! lk = Some l -> is_Some (wqs s !! wait_on_lock l);
  wf_cv : forall c q, cvs s !! c = Some q -> is_Some (wqs s !! q);
  wf_next_wq : forall q, is_Some (wqs s !! q) -> (q < next_addr s)%positive;
  wf_next_lk : forall q, is_Some (locks s !! q) -> (q < next_addr s)%positive;
  wf_next_cv : forall q, is_Some (cvs s !! q) -> (q < next_addr s)%positive;
  wf_live : forall t x a, TCBs s !! t = Some x -> stack_to_free x = Some a -> a ∈ stacks s;
  wf_has : forall t x, TCBs s !! t = Some x -> 0 < t -> t_state x <> NOT_ASSIGNED ->
             is_Some (stack_to_free x);
  wf_inj : forall t1 t2 x1 x2 a, TCBs s !! t1 = Some x1 -> TCBs s !! t2 = Some x2 ->
             stack_to_free x1 = Some a -> stack_to_free x2 = Some a -> t1 = t2;
  wf_owner : forall o1 o2 q, owns s o1 q -> owns s o2 q -> o1 = o2;
  wf_all : strict = true -> forall t, in_range t ->
             (run = true /\ t = current_thread_id s) \/ t ∈ readyQueue s \/
             t ∈ availableThreadIds s \/ waiting s t \/ t ∈ fl
}.

(** ** Updates of one thread *)

Lemma state_of_upd s t f x t' :
  TCBs s !! t = Some x ->
  state_of (set_TCBs (<[t := f x]> (TCBs s)) s) t' =
  if decide (t = t') then Some (t_state (f x)) else state_of s t'.
Proof.
  intros Hx. unfold state_of. simpl. rewrite lookup_insert. by case_decide.
Qed.

Lemma upd_ok t f s x : TCBs s !! t = Some x -> upd t f s = Ret (set_TCBs (<[t := f x]> (TCBs s)) s).
Proof. intros Hx. unfold upd, tcb. by rewrite Hx. Qed.

Lemma state_of_Some s t a : state_of s t = Some a -> exists x, TCBs s !! t = Some x /\ t_state x = a.
Proof. unfold state_of. destruct (TCBs s !! t) as [x|]; intros [= <-]. eauto. Qed.

Lemma state_of_lookup s t x : TCBs s !! t = Some x -> state_of s t = Some (t_state x).
Proof. unfold state_of. by intros ->. Qed.

(** Lookups in a table with one thread updated. *)
Ltac upd_cases H :=
  simpl in H; rewrite lookup_insert in H; case_decide; simplify_eq/=.

(** No queue changes its owner when the TCB of [t] is written. *)
Lemma owns_tcb s s' t x y o q :
  owns s' o q -> TCBs s' = <[t := y]> (TCBs s) -> locks s' = locks s -> cvs s' = cvs s ->
  TCBs s !! t = Some x -> t_wait y = t_wait x -> owns s o q.
Proof.
  intros Ho HT Hl Hc Hx Hy. revert Ho. destruct o as [lk|cv|t']; simpl; rewrite ?Hl, ?Hc, ?HT; try done.
  rewrite lookup_insert. case_decide; [subst; rewrite Hx; simpl; congruence|done].
Qed.

(** An owned queue is there. *)
Lemma owns_live strict run ex fl s o q : wf strict run ex fl s -> owns s o q -> is_Some (wqs s !! q).
Proof.
  intros Hwf. destruct o as [lk|cv|t]; simpl.
  - intros (l & Hl & ->)%fmap_Some_1. by eapply wf_lock.
  - by eapply wf_cv.
  - intros (x & Hx & Hq)%bind_Some. destruct (wf_twait _ _ _ _ _ Hwf t x Hx) as (q' & ? & ?). by simplify_eq.
Qed.

Lemma wf_twait_inj strict run ex fl s t1 t2 x1 x2 q :
  wf strict run ex fl s -> TCBs s !! t1 = Some x1 -> TCBs s !! t2 = Some x2 ->
  t_wait x1 = Some q -> t_wait x2 = Some q -> t1 = t2.
Proof.
  intros Hwf H1 H2 Hq1 Hq2.
  pose proof (wf_owner _ _ _ _ _ Hwf (OExit t1) (OExit t2) q) as H. simpl in H. rewrite H1, H2 in H. by injection (H Hq1 Hq2).
Qed.

(** A change that leaves a thread's state, stack and exit queue alone. *)
Lemma wf_upd strict run ex fl s t x f :
  wf strict run ex fl s -> TCBs s !! t = Some x ->
  t_state (f x) = t_state x -> stack_to_free (f x) = stack_to_free x -> t_wait (f x) = t_wait x ->
  (forall q, waitQueue (f x) = Some q -> is_Some (wqs s !! q)) ->
  (t ∈ ex \/ thread_ok strict (locks s) t (f x)) ->
  wf strict run ex fl (set_TCBs (<[t := f x]> (TCBs s)) s).
Proof.
  intros Hwf Hx Hst Hsk Htw Hwq Hok.
  assert (Heq : forall t', state_of (set_TCBs (<[t := f x]> (TCBs s)) s) t' = state_of s t').
  { intros t'. rewrite state_of_upd by done. case_decide; [|done]. subst.
    by rewrite Hst, (state_of_lookup _ _ _ Hx). }
  destruct Hwf. constructor; try done; try (setoid_rewrite Heq; assumption).
  - intros t'. simpl. rewrite lookup_insert_is_Some, <- wf_dom0.
    split; [intros [->|[_ ?]]; eauto|]. intros ?. destruct (decide (t = t')); eauto.
  - intros t' y H Hex. upd_cases H; [|eauto]. by destruct Hok.
  - intros t' y q H Hq. upd_cases H; eauto.
  - intros t' y H. upd_cases H; [rewrite Htw|]; eauto.
  - intros t' y a H Ha. upd_cases H; [rewrite Hsk in Ha|]; eauto.
  - intros t' y H H0 Hn. upd_cases H; [rewrite Hsk; rewrite Hst in Hn|]; eauto.
  - intros t1 t2 x1 x2 a H1 H2 Ha1 Ha2. upd_cases H1; upd_cases H2;
      rewrite ?Hsk in *; eauto.
  - intros o1 o2 q H1 H2. apply (wf_owner0 o1 o2 q); (eapply owns_tcb; [eassumption|reflexivity..|eassumption|done]).
Qed.


Lemma wf_intr strict run ex fl b s : wf strict run ex fl s -> wf strict run ex fl (set_intr b s).
Proof. intros Hwf. by destruct Hwf; constructor. Qed.

Lemma wf_unex strict run ex fl s t :
  wf strict run (t :: ex) fl s ->
  (forall x, TCBs s !! t = Some x -> thread_ok strict (locks s) t x) ->
  wf strict run ex fl s.
Proof.
  intros Hwf Hok. destruct Hwf; constructor; eauto.
  intros t' x Hx Hni. destruct (decide (t' = t)) as [->|]; [eauto|].
  apply wf_thr0; [done|]. set_solver.
Qed.

Lemma wf_ex strict run ex ex' fl s :
  wf strict run ex fl s -> ex ⊆ ex' -> wf strict run ex' fl s.
Proof. intros Hwf Hsub. destruct Hwf; constructor; eauto. Qed.

(** Outside strict mode a thread may be lost. *)
Lemma wf_lose run ex fl fl' s : wf false run ex fl s -> fl' ⊆ fl -> wf false run ex fl' s.
Proof. intros Hwf Hsub. destruct Hwf; constructor; eauto; done. Qed.

(** ** The current thread stops or a thread starts *)

(** The current thread leaves the state RUNNING: it is in no queue. *)
Lemma wf_stop strict ex fl s x a :
  wf strict true ex fl s -> TCBs s !! current_thread_id s = Some x -> a <> RUNNING ->
  wf strict false (current_thread_id s :: ex) (current_thread_id s :: fl)
    (set_TCBs (<[current_thread_id s := w_state a x]> (TCBs s)) s).
Proof.
  intros Hwf Hx Ha. set (cur := current_thread_id s) in *.
  assert (Hrun : t_state x = RUNNING).
  { pose proof (wf_cur _ _ _ _ _ Hwf eq_refl) as H. fold cur in H.
    rewrite (state_of_lookup _ _ _ Hx) in H. congruence. }
  assert (Hcs : state_of s cur = Some RUNNING) by (by rewrite (state_of_lookup _ _ _ Hx), Hrun).
  assert (Heq : forall t', state_of (set_TCBs (<[cur := w_state a x]> (TCBs s)) s) t' =
                if decide (cur = t') then Some a else state_of s t').
  { intros t'. by rewrite (state_of_upd s cur (w_state a)). }
  assert (Hne : forall t' b, state_of s t' = Some b -> b <> RUNNING -> cur <> t')
    by (intros t' b H1 H2 ->; congruence).
  destruct Hwf. constructor; try done.
  - intros t'. simpl. rewrite lookup_insert_is_Some, <- wf_dom0.
    split; [intros [<-|[_ ?]]; eauto|]. intros ?. destruct (decide (cur = t')); eauto.
  - intros t'. rewrite Heq. case_decide; [congruence|]. intros H1%wf_one0. naive_solver.
  - intros t' H. rewrite Heq. rewrite decide_False; eauto.
  - intros t' H. rewrite Heq. rewrite decide_False; eauto.
  - intros t' H. rewrite Heq. apply wf_wait0 in H as [H H']. rewrite decide_False; eauto.
  - intros t' [->|Ht']%elem_of_cons; [|eauto]. split_and!.
    + intros H%wf_ready0. congruence.
    + intros H%wf_avail0. congruence.
    + intros H%wf_wait0. naive_solver congruence.
  - intros t' y H Hex. upd_cases H; [set_solver|]. apply wf_thr0; [done|set_solver].
  - intros t' y q H Hq. upd_cases H; eauto.
  - intros t' y H. upd_cases H; eauto.
  - intros t' y b H Hb. upd_cases H; eauto.
  - intros t' y H H0 Hn. upd_cases H; [|eauto]. eapply wf_has0; [done..|congruence].
  - intros t1 t2 x1 x2 b H1 H2 Hb1 Hb2. upd_cases H1; upd_cases H2; eauto.
  - intros o1 o2 q H1 H2. apply (wf_owner0 o1 o2 q); (eapply owns_tcb; [eassumption|reflexivity..|eassumption|done]).
  - intros Hs t' Ht'. destruct (wf_all0 Hs t' Ht') as [[_ ->]|[?|[?|[?|?]]]];
      [|tauto..|]; right; right; right; right; set_solver.
Qed.

(** A thread in no queue becomes the running one. *)
Lemma wf_start strict ex fl s t x :
  wf strict false ex (t :: fl) s -> TCBs s !! t = Some x -> t_state x = READY ->
  (t ∉ fl) ->
  wf strict true (t :: ex) fl
    (set_TCBs (<[t := w_state RUNNING x]> (TCBs s)) (set_current t s)).
Proof.
  intros Hwf Hx Hr Htf. set (s' := set_TCBs _ _).
  assert (Heq : forall t', state_of s' t' = if decide (t = t') then Some RUNNING else state_of s t').
  { intros t'. subst s'. unfold state_of. simpl. rewrite lookup_insert. by case_decide. }
  assert (Hts : state_of s t = Some READY) by (by rewrite (state_of_lookup _ _ _ Hx), Hr).
  destruct (wf_fl _ _ _ _ _ Hwf t ltac:(set_solver)) as (Hn1 & Hn2 & Hn3).
  destruct Hwf. constructor; try done.
  - intros t'. simpl. rewrite lookup_insert_is_Some, <- wf_dom0.
    split; [intros [<-|[_ ?]]; eauto|]. intros ?. destruct (decide (t = t')); eauto.
  - intros _. rewrite Heq. by rewrite decide_True.
  - intros t'. rewrite Heq. case_decide; [naive_solver|]. intros H1%wf_one0. naive_solver.
  - intros t' H. rewrite Heq. rewrite decide_False; [eauto|]. intros ->. done.
  - intros t' H. rewrite Heq. rewrite decide_False; [eauto|]. intros ->. done.
  - intros t' H. rewrite Heq. rewrite decide_False; [by apply wf_wait0|]. intros ->. done.
  - intros t' Ht'. apply wf_fl0. set_solver.
  - intros t' y H Hex. upd_cases H; [set_solver|]. apply wf_thr0; [done|set_solver].
  - intros t' y q H Hq. upd_cases H; eauto.
  - intros t' y H. upd_cases H; eauto.
  - intros t' y b H Hb. upd_cases H; eauto.
  - intros t' y H H0 Hn. upd_cases H; [|eauto]. eapply wf_has0; [done..|congruence].
  - intros t1 t2 x1 x2 b H1 H2 Hb1 Hb2. upd_cases H1; upd_cases H2; eauto.
  - intros o1 o2 q H1 H2. apply (wf_owner0 o1 o2 q); (eapply owns_tcb; [eassumption|reflexivity..|eassumption|done]).
  - intros Hs t' Ht'. destruct (wf_all0 Hs t' Ht') as [[? _]|[?|[?|[?|Hin]]]];
      [done|tauto..|]. apply elem_of_cons in Hin as [->|?]; [by left|tauto].
Qed.

(** ** Threads move between the queues *)

Lemma wf_pop_ready strict run ex fl s t q :
  wf strict run ex fl s -> readyQueue s ≡ₚ t :: q ->
  wf strict run ex (t :: fl) (set_ready q s) /\ state_of s t = Some READY /\ (t ∉ fl).
Proof.
  intros Hwf Hp.
  assert (Hin : forall t', t' ∈ readyQueue s <-> t' = t \/ t' ∈ q)
    by (intros t'; by rewrite Hp, elem_of_cons).
  pose proof (wf_nd_ready _ _ _ _ _ Hwf) as Hnd. rewrite Hp in Hnd.
  apply NoDup_cons in Hnd as [Hni Hnd].
  split_and!.
  2:{ apply (wf_ready _ _ _ _ _ Hwf). rewrite Hin. by left. }
  2:{ intros H. apply (wf_fl _ _ _ _ _ Hwf) in H as (H & _). apply H. rewrite Hin. by left. }
  destruct Hwf. constructor; try done.
  - intros t' Ht'. apply wf_ready0. rewrite Hin. by right.
  - intros t' Ht'. destruct (wf_wait0 t' Ht') as [? Hn]. split; [done|].
    intros ?. apply Hn. rewrite Hin. by right.
  - intros t' [->|Ht']%elem_of_cons.
    + split_and!; [done|..].
      * intros H%wf_avail0. pose proof (wf_ready0 t ltac:(rewrite Hin; by left)). congruence.
      * intros H%wf_wait0. destruct H as [_ H]. apply H. rewrite Hin. by left.
    + apply wf_fl0 in Ht' as (Hn & ? & ?). split_and!; [|done..].
      intros ?. apply Hn. rewrite Hin. by right.
  - intros Hs t' Ht'. destruct (wf_all0 Hs t' Ht') as [?|[Hr|[?|[?|?]]]]; [tauto| |tauto..|].
    + simpl. apply Hin in Hr as [->|?]; [|tauto]. do 4 right. set_solver.
    + do 4 right. set_solver.
Qed.

Lemma wf_push_ready strict run ex fl s t :
  wf strict run ex (t :: fl) s -> state_of s t = Some READY ->
  wf strict run ex (filter (fun t' => t' <> t) fl) (set_ready (readyQueue s ++ [t]) s).
Proof.
  intros Hwf Ht. destruct (wf_fl _ _ _ _ _ Hwf t ltac:(set_solver)) as (Hn1 & Hn2 & Hn3).
  destruct Hwf. constructor; try done; simpl.
  - intros t' [?| ->%list_elem_of_singleton]%elem_of_app; eauto.
  - intros t' Ht'. destruct (wf_wait0 t' Ht') as [? Hn]. split; [done|].
    rewrite elem_of_app, list_elem_of_singleton. intros [?| ->]; done.
  - apply NoDup_app. split_and!; [done| |apply NoDup_singleton].
    intros t' ? ->%list_elem_of_singleton. done.
  - intros t' [Hne Ht']%list_elem_of_filter.
    destruct (wf_fl0 t' ltac:(set_solver)) as (? & ? & ?). split_and!; [|done..].
    rewrite elem_of_app, list_elem_of_singleton. tauto.
  - intros Hs t' Ht'. rewrite elem_of_app, list_elem_of_singleton, list_elem_of_filter.
    destruct (decide (t' = t)) as [->|Hne]; [tauto|].
    destruct (wf_all0 Hs t' Ht') as [?|[?|[?|[?|Hfl]]]]; try tauto.
    apply elem_of_cons in Hfl. tauto.
Qed.

Lemma wf_push_avail strict run ex fl s t :
  wf strict run ex (t :: fl) s -> state_of s t = Some NOT_ASSIGNED ->
  wf strict run ex (filter (fun t' => t' <> t) fl) (addToHeadId t s).
Proof.
  intros Hwf Ht. destruct (wf_fl _ _ _ _ _ Hwf t ltac:(set_solver)) as (Hn1 & Hn2 & Hn3).
  destruct Hwf. constructor; try done; simpl.
  - intros t' [->|?]%elem_of_cons; [done|]. by apply wf_avail0.
  - by apply NoDup_cons.
  - intros t' [Hne Ht']%list_elem_of_filter.
    destruct (wf_fl0 t' ltac:(set_solver)) as (? & ? & ?). split_and!; [done| |done].
    rewrite elem_of_cons. tauto.
  - intros Hs t' Ht'. rewrite elem_of_cons, list_elem_of_filter.
    destruct (decide (t' = t)) as [->|Hne]; [tauto|].
    destruct (wf_all0 Hs t' Ht') as [?|[?|[?|[?|Hfl]]]]; try tauto.
    apply elem_of_cons in Hfl. tauto.
Qed.

Lemma wf_pop_avail strict run ex fl s t l :
  wf strict run ex fl s -> availableThreadIds s = t :: l ->
  wf strict run ex (t :: fl) (set_avail l s) /\ state_of s t = Some NOT_ASSIGNED /\ (t ∉ fl).
Proof.
  intros Hwf Hl.
  assert (Hin : forall t', t' ∈ availableThreadIds s <-> t' = t \/ t' ∈ l)
    by (intros t'; by rewrite Hl, elem_of_cons).
  pose proof (wf_nd_avail _ _ _ _ _ Hwf) as Hnd. rewrite Hl in Hnd.
  apply NoDup_cons in Hnd as [Hni Hnd].
  assert (Hst : state_of s t = Some NOT_ASSIGNED)
    by (apply (wf_avail _ _ _ _ _ Hwf); rewrite Hin; by left).
  split_and!; [|done|].
  2:{ intros H. apply (wf_fl _ _ _ _ _ Hwf) in H as (_ & H & _). apply H. rewrite Hin. by left. }
  destruct Hwf. constructor; try done; simpl.
  - intros t' Ht'. apply wf_avail0. rewrite Hin. by right.
  - intros t' [->|Ht']%elem_of_cons.
    + split_and!; [|done|].
      * intros H%wf_ready0. congruence.
      * intros H%wf_wait0. naive_solver congruence.
    + apply wf_fl0 in Ht' as (? & Hn & ?). split_and!; [done| |done].
      intros ?. apply Hn. rewrite Hin. by right.
  - intros Hs t' Ht'. rewrite elem_of_cons.
    destruct (wf_all0 Hs t' Ht') as [?|[?|[Hr|[?|?]]]]; [tauto..| |tauto|tauto].
    apply Hin in Hr. tauto.
Qed.

(** Waiting in a state whose queue [q] holds [l]. *)
Lemma waiting_insert s q l t :
  waiting (set_wqs (<[q := l]> (wqs s)) s) t <->
  t ∈ l \/ exists q' l', q' <> q /\ wqs s !! q' = Some l' /\ t ∈ l'.
Proof.
  unfold waiting. simpl. split.
  - intros (q' & l' & H & Ht). rewrite lookup_insert in H. case_decide; simplify_eq; [by left|].
    right. exists q', l'. auto.
  - intros [Ht|(q' & l' & Hne & H & Ht)].
    + exists q, l. by rewrite lookup_insert_eq.
    + exists q', l'. by rewrite lookup_insert_ne.
Qed.

Lemma wf_push_wait strict run ex fl s t q l :
  wf strict run ex (t :: fl) s -> state_of s t = Some READY -> wqs s !! q = Some l ->
  wf strict run ex (filter (fun t' => t' <> t) fl) (set_wqs (<[q := l ++ [t]]> (wqs s)) s).
Proof.
  intros Hwf Ht Hq. destruct (wf_fl _ _ _ _ _ Hwf t ltac:(set_solver)) as (Hn1 & Hn2 & Hn3).
  assert (Hin : forall t', waiting (set_wqs (<[q := l ++ [t]]> (wqs s)) s) t' <-> waiting s t' \/ t' = t).
  { intros t'. rewrite waiting_insert, elem_of_app, list_elem_of_singleton. split.
    - intros [[?|?]|(q' & l' & _ & ? & ?)]; [left|by right|left]; [exists q, l|exists q', l']; done.
    - intros [(q' & l' & ? & ?)| ->]; [|tauto]. destruct (decide (q' = q)) as [->|]; [|eauto 8].
      simplify_eq. tauto. }
  destruct Hwf. constructor; try done.
  - intros t' [Hw| ->]%Hin; [by apply wf_wait0|done].
  - intros q' l'. simpl. rewrite lookup_insert. case_decide; [intros [= <-]|eauto].
    apply NoDup_app. split_and!; [eauto| |apply NoDup_singleton].
    intros t' ? ->%list_elem_of_singleton. apply Hn3. by exists q, l.
  - intros q1 q2 l1 l2 t'. simpl. rewrite !lookup_insert. intros H1 H2 Hl1 Hl2.
    destruct (decide (q = q1)), (decide (q = q2)); simplify_eq; try done; [..|by eapply wf_disj0].
    + apply elem_of_app in Hl1 as [Hl1| ->%list_elem_of_singleton]; [by eapply wf_disj0|].
      exfalso. apply Hn3. by exists q2, l2.
    + apply elem_of_app in Hl2 as [Hl2| ->%list_elem_of_singleton]; [by eapply wf_disj0|].
      exfalso. apply Hn3. by exists q1, l1.
  - intros t' [Hne Ht']%list_elem_of_filter.
    destruct (wf_fl0 t' ltac:(set_solver)) as (? & ? & ?). split_and!; [done..|].
    rewrite Hin. tauto.
  - intros t' y q' H H'. simpl. rewrite lookup_insert_is_Some'. eauto.
  - intros t' y H. destruct (wf_twait0 t' y H) as (q' & ? & ?). exists q'. simpl.
    rewrite lookup_insert_is_Some'. eauto.
  - intros lk y H. simpl. rewrite lookup_insert_is_Some'. eauto.
  - intros c y H. simpl. rewrite lookup_insert_is_Some'. eauto.
  - intros q'. simpl. rewrite lookup_insert_is_Some'. intros [<-|?]; eauto.
  - intros Hs t' Ht'. rewrite Hin, list_elem_of_filter.
    destruct (decide (t' = t)) as [->|Hne]; [tauto|].
    destruct (wf_all0 Hs t' Ht') as [?|[?|[?|[?|Hfl]]]]; try tauto.
    apply elem_of_cons in Hfl. tauto.
Qed.

(** The first threads [l1] of the queue [q] go to the end of the ready queue. *)
Lemma wf_wake strict run ex fl s q l1 l2 :
  wf strict run ex fl s -> wqs s !! q = Some (l1 ++ l2) ->
  wf strict run ex fl (set_ready (readyQueue s ++ l1) (set_wqs (<[q := l2]> (wqs s)) s)).
Proof.
  intros Hwf Hq. set (s' := set_ready _ _).
  assert (Hl1 : forall t, t ∈ l1 -> waiting s t)
    by (intros t Ht; exists q, (l1 ++ l2); set_solver).
  pose proof (wf_nd_wait _ _ _ _ _ Hwf _ _ Hq) as Hnd. apply NoDup_app in Hnd as (Hnd1 & Hd & Hnd2).
  assert (Hin : forall t, waiting s' t <-> waiting s t /\ t ∉ l1).
  { intros t. change (waiting s' t) with (waiting (set_wqs (<[q := l2]> (wqs s)) s) t).
    rewrite waiting_insert. split.
    - intros [Ht|(q' & l' & Hne & Hq' & Ht)].
      + split; [exists q, (l1 ++ l2); set_solver|]. intros ?. by apply (Hd t).
      + split; [by exists q', l'|]. intros ?. apply Hne.
        eapply (wf_disj _ _ _ _ _ Hwf q' q _ _ t); [done..|]. set_solver.
    - intros [(q' & l' & Hq' & Ht) Hn]. destruct (decide (q' = q)) as [->|]; [|eauto 8].
      simplify_eq. set_solver. }
  destruct Hwf. constructor; try done; simpl.
  - intros t [?|Ht]%elem_of_app; [eauto|]. apply wf_wait0. eauto.
  - intros t [Hw Hn]%Hin. apply wf_wait0 in Hw as [? ?]. split; [done|]. set_solver.
  - apply NoDup_app. split_and!; [done| |done]. intros t Ht Ht1%Hl1.
    by apply wf_wait0 in Ht1 as [_ ?].
  - intros q' l'. rewrite lookup_insert. case_decide; [by intros [= <-]|eauto].
  - intros qa qb la lb t. rewrite !lookup_insert. intros Ha Hb Hla Hlb.
    destruct (decide (q = qa)), (decide (q = qb)); simplify_eq; try done; [..|by eapply wf_disj0].
    + eapply (wf_disj0 qa qb (l1 ++ la) lb t); set_solver.
    + eapply (wf_disj0 qa qb la (l1 ++ lb) t); set_solver.
  - intros t Ht. destruct (wf_fl0 t Ht) as (? & ? & ?). split_and!; [|done|].
    + rewrite elem_of_app. naive_solver.
    + rewrite Hin. tauto.
  - intros t' y q' H H'. rewrite lookup_insert_is_Some'. eauto.
  - intros t' y H. destruct (wf_twait0 t' y H) as (q' & ? & ?). exists q'.
    rewrite lookup_insert_is_Some'. eauto.
  - intros lk y H. rewrite lookup_insert_is_Some'. eauto.
  - intros c y H. rewrite lookup_insert_is_Some'. eauto.
  - intros q'. rewrite lookup_insert_is_Some'. intros [<-|?]; eauto.
  - intros Hs t Ht. rewrite elem_of_app, Hin.
    destruct (decide (t ∈ l1)); [tauto|].
    destruct (wf_all0 Hs t Ht) as [?|[?|[?|[?|?]]]]; tauto.
Qed.

(** ** New objects *)
Lemma waiting_new s q t : wqs s !! q = None -> waiting (set_wqs (<[q := []]> (wqs s)) s) t <-> waiting s t.
Proof.
  intros Hq. rewrite waiting_insert. split.
  - intros [?|(q' & l' & _ & ? & ?)]; [set_solver|by exists q', l'].
  - intros (q' & l' & ? & ?). right. exists q', l'. split_and!; [congruence|done..].
Qed.

Lemma wf_bump strict run ex fl s :
  wf strict run ex fl s -> wf strict run ex fl (set_next_addr (Pos.succ (next_addr s)) s).
Proof. intros Hwf. destruct Hwf. constructor; try done; intros q Hq; apply Pos.lt_lt_succ; eauto. Qed.

Lemma wf_new_wq strict run ex fl s q :
  wf strict run ex fl s -> wqs s !! q = None -> (q < next_addr s)%positive ->
  wf strict run ex fl (set_wqs (<[q := []]> (wqs s)) s).
Proof.
  intros Hwf Hq Hlt. destruct Hwf. constructor; try done.
  - intros t Ht. rewrite waiting_new in Ht by done. by apply wf_wait0.
  - intros q' l'. simpl. rewrite lookup_insert. case_decide; [intros [= <-]; constructor|eauto].
  - intros qa qb la lb t. simpl. rewrite !lookup_insert. intros Ha Hb Hla Hlb.
    destruct (decide (q = qa)), (decide (q = qb)); simplify_eq; try done; [set_solver..|by eapply wf_disj0].
  - intros t Ht. rewrite waiting_new by done. by apply wf_fl0.
  - intros t' y q' H H'. simpl. rewrite lookup_insert_is_Some'. eauto.
  - intros t' y H. destruct (wf_twait0 t' y H) as (q' & ? & ?). exists q'. simpl.
    rewrite lookup_insert_is_Some'. eauto.
  - intros lk y H. simpl. rewrite lookup_insert_is_Some'. eauto.
  - intros c y H. simpl. rewrite lookup_insert_is_Some'. eauto.
  - intros q'. simpl. rewrite lookup_insert_is_Some'. intros [<-|?]; eauto.
  - intros Hs t Ht. rewrite waiting_new by done. eauto.
Qed.

Lemma good_mono ls ls' t x :
  (forall lk, is_Some (ls !! lk) -> is_Some (ls' !! lk)) -> good ls t x -> good ls' t x.
Proof.
  intros Hmono [Hb H]. split; [done|]. destruct (uc_pc _) as [| | |[|[] fs] b]; try done.
  destruct H as (? & ? & Hf). split_and!; [done..|].
  eapply Forall_impl; [exact Hf|]. intros []; simpl; eauto.
Qed.

Lemma thread_ok_mono strict ls ls' t x :
  (forall lk, is_Some (ls !! lk) -> is_Some (ls' !! lk)) -> thread_ok strict ls t x -> thread_ok strict ls' t x.
Proof. intros Hmono [Hg Hs]. split; [|done]. intros Hr. eapply good_mono; eauto. Qed.

(** A queue that gets the owner [o0], if no other has it. *)
Lemma owner_new s s' o0 q0 :
  (forall o1 o2 q, owns s o1 q -> owns s o2 q -> o1 = o2) ->
  (forall o q, owns s' o q -> o = o0 /\ q = q0 \/ owns s o q) -> (forall o, owns s o q0 -> o = o0) ->
  forall o1 o2 q, owns s' o1 q -> owns s' o2 q -> o1 = o2.
Proof.
  intros Hinj Hnew Hq0 o1 o2 q [[-> ->]|H1]%Hnew [[-> ?]|H2]%Hnew; try done; subst; [symmetry; auto|auto|by eapply Hinj].
Qed.

Lemma wf_set_lock strict run ex fl s lk l :
  wf strict run ex fl s -> is_Some (wqs s !! wait_on_lock l) -> (lk < next_addr s)%positive ->
  (forall o, owns s o (wait_on_lock l) -> o = OLock lk) ->
  wf strict run ex fl (set_locks (<[lk := l]> (locks s)) s).
Proof.
  intros Hwf Hl Hlt Ho. destruct Hwf. constructor; try done; simpl.
  - intros t x Hx Hex. eapply thread_ok_mono; [|by eapply wf_thr0].
    intros lk' ?. rewrite lookup_insert_is_Some'. eauto.
  - intros lk' l'. rewrite lookup_insert. case_decide; [by intros [= <-]|eauto].
  - intros lk'. rewrite lookup_insert_is_Some'. intros [<-|?]; eauto.
  - apply (owner_new s _ (OLock lk) (wait_on_lock l)); [done| |done].
    intros [lk'|cv|t] q; simpl; [|by right..]. rewrite lookup_insert. case_decide; [|by right]. subst. intros [= <-]. by left.
Qed.

Lemma wf_set_cv strict run ex fl s c q :
  wf strict run ex fl s -> is_Some (wqs s !! q) -> (c < next_addr s)%positive ->
  (forall o, owns s o q -> o = OCv c) ->
  wf strict run ex fl (set_cvs (<[c := q]> (cvs s)) s).
Proof.
  intros Hwf Hq Hlt Ho. destruct Hwf. constructor; try done; simpl.
  - intros c' q'. rewrite lookup_insert. case_decide; [by intros [= <-]|eauto].
  - intros c'. rewrite lookup_insert_is_Some'. intros [<-|?]; eauto.
  - apply (owner_new s _ (OCv c) q); [done| |done].
    intros [lk|c'|t] q'; simpl; [by right| |by right]. rewrite lookup_insert. case_decide; [|by right]. subst. intros [= <-]. by left.
Qed.

(** ** Objects that are destroyed *)

(** An empty queue of the client's own that no thread is about to sleep on. *)
Lemma wf_del_wq strict run ex fl s q :
  wf strict run ex fl s -> wqs s !! q = Some [] -> (forall o, ~ owns s o q) ->
  (forall t x, TCBs s !! t = Some x -> waitQueue x <> Some q) ->
  wf strict run ex fl (set_wqs (delete q (wqs s)) s).
Proof.
  intros Hwf Hq Ho Hn.
  assert (Hin : forall t, waiting (set_wqs (delete q (wqs s)) s) t <-> waiting s t).
  { intros t. unfold waiting. simpl. split.
    - intros (q' & l & [_ H]%lookup_delete_Some & Ht). by exists q', l.
    - intros (q' & l & H & Ht). exists q', l. split; [|done]. apply lookup_delete_Some. split; [|done].
      intros <-. rewrite Hq in H. injection H as <-. by apply elem_of_nil in Ht. }
  assert (Hd : forall q', is_Some (wqs s !! q') -> q' <> q -> is_Some (delete q (wqs s) !! q'))
    by (intros q' H Hne; by rewrite lookup_delete_ne).
  destruct Hwf. constructor; try done; try (setoid_rewrite Hin; assumption); simpl.
  - intros q' l [_ H]%lookup_delete_Some. eauto.
  - intros q1 q2 l1 l2 t [_ H1]%lookup_delete_Some [_ H2]%lookup_delete_Some. eauto.
  - intros t x q' Hx Hw. apply Hd; [eauto|]. intros ->. by eapply Hn.
  - intros t x Hx. destruct (wf_twait0 t x Hx) as (q' & Hq' & Hs). exists q'. split; [done|]. apply Hd; [done|].
    intros ->. apply (Ho (OExit t)). simpl. by rewrite Hx.
  - intros lk l Hl. apply Hd; [eauto|]. intros E. apply (Ho (OLock lk)). simpl. by rewrite Hl, <- E.
  - intros c q' Hc. apply Hd; [eauto|]. intros ->. by apply (Ho (OCv c)).
  - intros q' [l [_ H]%lookup_delete_Some]. apply wf_next_wq0. by eexists.
Qed.

(** The locks that the frames of a suspended thread refer to *)
Definition frame_lock (f : frame) : option addr :=
  match f with InLockAcquire _ lk | InCvWaitSleep _ lk => Some lk | _ => None end.
Definition uses_lock (lk : addr) (x : thread) : bool :=
  match uc_pc (mycontext x) with
  | PSaved fs _ => existsb (fun f => bool_decide (frame_lock f = Some lk)) fs
  | _ => false
  end.

Lemma frames_del lk ls fs :
  existsb (fun f => bool_decide (frame_lock f = Some lk)) fs = false -> Forall (frame_ok ls) fs -> Forall (frame_ok (delete lk ls)) fs.
Proof.
  intros Hu. induction 1 as [|f fs Hf Hfs IH]; [constructor|]. simpl in Hu. apply orb_false_iff in Hu as [Hu1%bool_decide_eq_false Hu2].
  constructor; [|by apply IH]. destruct f; simpl in *; try done; rewrite lookup_delete_ne by congruence; done.
Qed.

(** A lock that no suspended thread refers to. *)
Lemma wf_del_lock strict run ex fl s lk :
  wf strict run ex fl s -> (forall t x, TCBs s !! t = Some x -> t_state x = READY -> uses_lock lk x = false) ->
  wf strict run ex fl (set_locks (delete lk (locks s)) s).
Proof.
  intros Hwf Hu. destruct Hwf. constructor; try done; simpl.
  - intros t x Hx Hex. destruct (wf_thr0 t x Hx Hex) as [Hg Hs]. split; [|done]. intros Hr.
    destruct (Hg Hr) as [Hb H]. split; [done|]. specialize (Hu t x Hx Hr). unfold uses_lock in Hu.
    destruct (uc_pc (mycontext x)) as [| | |[|[] fs] b]; try done. destruct H as (? & ? & Hf). split_and!; [done..|].
    apply frames_del; [|done]. exact Hu.
  - intros lk' l [_ H]%lookup_delete_Some. eauto.
  - intros lk' [l [_ H]%lookup_delete_Some]. apply wf_next_lk0. by eexists.
  - intros o1 o2 q H1 H2. apply (wf_owner0 o1 o2 q).
    + destruct o1; simpl in *; try done. by apply fmap_Some_1 in H1 as (l & [_ ->]%lookup_delete_Some & ->).
    + destruct o2; simpl in *; try done. by apply fmap_Some_1 in H2 as (l & [_ ->]%lookup_delete_Some & ->).
Qed.

Lemma wf_del_cv strict run ex fl s c : wf strict run ex fl s -> wf strict run ex fl (set_cvs (delete c (cvs s)) s).
Proof.
  intros Hwf. destruct Hwf. constructor; try done; simpl.
  - intros c' q [_ H]%lookup_delete_Some. eauto.
  - intros c' [q [_ H]%lookup_delete_Some]. apply wf_next_cv0. by eexists.
  - intros o1 o2 q H1 H2. apply (wf_owner0 o1 o2 q).
    + destruct o1; simpl in *; try done. by apply lookup_delete_Some in H1 as [_ H1].
    + destruct o2; simpl in *; try done. by apply lookup_delete_Some in H2 as [_ H2].
Qed.

(** ** Stacks *)

(** Freeing the stack of a thread that is not assigned. *)
Lemma wf_free_stack strict run ex fl s t x a :
  wf strict run ex fl s -> TCBs s !! t = Some x -> t_state x = NOT_ASSIGNED ->
  stack_to_free x = Some a ->
  wf strict run ex fl (set_TCBs (<[t := w_stack None x]> (TCBs s)) (set_stacks (stacks s ∖ {[a]}) s)).
Proof.
  intros Hwf Hx Hst Ha. set (s' := set_TCBs _ _).
  assert (Heq : forall t', state_of s' t' = state_of s t').
  { intros t'. subst s'. unfold state_of. simpl. rewrite lookup_insert.
    case_decide; [|done]. subst. by rewrite Hx. }
  destruct Hwf. constructor; try done; try (setoid_rewrite Heq; assumption).
  - intros t'. simpl. rewrite lookup_insert_is_Some, <- wf_dom0.
    split; [intros [<-|[_ ?]]; eauto|]. intros ?. destruct (decide (t = t')); eauto.
  - intros t' y H Hex. upd_cases H; [|eauto]. by apply (wf_thr0 t' x).
  - intros t' y q H Hq. upd_cases H; eauto.
  - intros t' y H. upd_cases H; eauto.
  - intros t' y b H Hb. upd_cases H. apply elem_of_difference. split; [eauto|].
    rewrite elem_of_singleton. intros ->. by eapply H0, wf_inj0.
  - intros t' y H H0 Hn. upd_cases H; eauto; done.
  - intros t1 t2 x1 x2 b H1 H2 Hb1 Hb2. upd_cases H1; upd_cases H2; eauto.
  - intros o1 o2 q H1 H2. apply (wf_owner0 o1 o2 q); (eapply owns_tcb; [eassumption|reflexivity..|eassumption|done]).
Qed.

(** Giving a stack to a thread that has none. *)
Lemma wf_alloc_stack strict run ex fl s t x a :
  wf strict run ex fl s -> TCBs s !! t = Some x -> stack_to_free x = None -> a ∉ stacks s ->
  wf strict run ex fl (set_TCBs (<[t := w_stack (Some a) x]> (TCBs s)) (set_stacks (stacks s ∪ {[a]}) s)).
Proof.
  intros Hwf Hx Hn Ha. set (s' := set_TCBs _ _).
  assert (Heq : forall t', state_of s' t' = state_of s t').
  { intros t'. subst s'. unfold state_of. simpl. rewrite lookup_insert.
    case_decide; [|done]. subst. by rewrite Hx. }
  destruct Hwf. constructor; try done; try (setoid_rewrite Heq; assumption).
  - intros t'. simpl. rewrite lookup_insert_is_Some, <- wf_dom0.
    split; [intros [<-|[_ ?]]; eauto|]. intros ?. destruct (decide (t = t')); eauto.
  - intros t' y H Hex. upd_cases H; [|eauto]. by apply (wf_thr0 t' x).
  - intros t' y q H Hq. upd_cases H; eauto.
  - intros t' y H. upd_cases H; eauto.
  - intros t' y b H Hb. upd_cases H; [set_solver|]. apply elem_of_union_l. eauto.
  - intros t' y H H0 Hns. upd_cases H; eauto.
  - intros t1 t2 x1 x2 b H1 H2 Hb1 Hb2. upd_cases H1; upd_cases H2; eauto.
    + exfalso. eauto.
    + exfalso. eauto.
  - intros o1 o2 q H1 H2. apply (wf_owner0 o1 o2 q); (eapply owns_tcb; [eassumption|reflexivity..|eassumption|done]).
Qed.

(** A thread in no queue, which keeps or now has a stack, becomes ready. *)
Lemma wf_make_ready strict run ex fl s t x :
  wf strict run ex (t :: fl) s -> TCBs s !! t = Some x -> t_state x = NOT_ASSIGNED ->
  is_Some (stack_to_free x) ->
  wf strict run (t :: ex) (t :: fl) (set_TCBs (<[t := w_state READY x]> (TCBs s)) s).
Proof.
  intros Hwf Hx Hst Hsk.
  assert (Heq : forall t', state_of (set_TCBs (<[t := w_state READY x]> (TCBs s)) s) t' =
                if decide (t = t') then Some READY else state_of s t').
  { intros t'. by rewrite (state_of_upd s t (w_state READY)). }
  assert (Hts : state_of s t = Some NOT_ASSIGNED) by (by rewrite (state_of_lookup _ _ _ Hx), Hst).
  destruct (wf_fl _ _ _ _ _ Hwf t ltac:(set_solver)) as (Hn1 & Hn2 & Hn3).
  destruct Hwf. constructor; try done.
  - intros t'. simpl. rewrite lookup_insert_is_Some, <- wf_dom0.
    split; [intros [<-|[_ ?]]; eauto|]. intros ?. destruct (decide (t = t')); eauto.
  - intros Hr. simpl. rewrite Heq. rewrite decide_False; [eauto|]. intros ->.
    rewrite wf_cur0 in Hts; done.
  - intros t'. rewrite Heq. case_decide; [done|]. apply wf_one0.
  - intros t' H. rewrite Heq. rewrite decide_False; [eauto|]. by intros ->.
  - intros t' H. rewrite Heq. rewrite decide_False; [eauto|]. by intros ->.
  - intros t' H. rewrite Heq. rewrite decide_False; [by apply wf_wait0|]. by intros ->.
  - intros t' y H Hex. upd_cases H; [set_solver|]. apply wf_thr0; [done|set_solver].
  - intros t' y q H Hq. upd_cases H; eauto.
  - intros t' y H. upd_cases H; eauto.
  - intros t' y b H Hb. upd_cases H; eauto.
  - intros t' y H H0 Hn. upd_cases H; eauto.
  - intros t1 t2 x1 x2 b H1 H2 Hb1 Hb2. upd_cases H1; upd_cases H2; eauto.
  - intros o1 o2 q H1 H2. apply (wf_owner0 o1 o2 q); (eapply owns_tcb; [eassumption|reflexivity..|eassumption|done]).
Qed.
