(* ===== verification/ThreadSafety.v ===== *)
(** * Every operation of the thread package preserves its invariant

    [out_ok] says of the outcome of an operation what the machine needs: on a
    return the invariant holds again in the same thread, on a switch the
    chosen context can be resumed, and no step is undefined.  [keeps] is what
    an operation of thread [cur] does to the objects of the package: none
    disappears, and a lock another thread holds is left alone. *)
From S2P Require Import Prelude DList Threads ThreadMachine ThreadInv.

(** ** Objects survive *)
Definition keeps (cur : Z) (s s' : st) : Prop :=
  (forall lk l, locks s !! lk = Some l -> exists l', locks s' !! lk = Some l' /\
     wait_on_lock l' = wait_on_lock l /\
     (isAcquired l = true -> acquiredBy l <> cur -> l' = l)) /\
  (forall q, is_Some (wqs s !! q) -> is_Some (wqs s' !! q)) /\
  (forall c q, cvs s !! c = Some q -> cvs s' !! c = Some q).

#[global] Instance keeps_preorder cur : PreOrder (keeps cur).
Proof.
  split.
  - intros s. split_and!; eauto.
  - intros s1 s2 s3 (Hl1 & Hw1 & Hc1) (Hl2 & Hw2 & Hc2). split_and!; [|eauto..].
    intros lk l H. destruct (Hl1 lk l H) as (l' & H' & Hw' & Hk).
    destruct (Hl2 lk l' H') as (l'' & H'' & Hw'' & Hk'). exists l''. split_and!; [done|congruence|].
    intros Ha Hb. rewrite Hk in Hk' by done. by apply Hk'.
Qed.

(** A step that leaves the locks and the condition variables alone. *)
Lemma keeps_same cur s s' :
  locks s' = locks s -> cvs s' = cvs s ->
  (forall q, is_Some (wqs s !! q) -> is_Some (wqs s' !! q)) -> keeps cur s s'.
Proof. intros Hl Hc Hw. split_and!; rewrite ?Hl, ?Hc; eauto. Qed.

(** ** Outcomes *)

(** The thread a [setcontext] goes to. *)
Definition resumable (strict : bool) (s : st) : Prop :=
  wf strict true [current_thread_id s] [] s /\
  exists x, TCBs s !! current_thread_id s = Some x /\
            thread_ok strict (locks s) (current_thread_id s) (w_state READY x).

Definition out_ok (strict : bool) (cur : Z) (s : st) (o : outcome) : Prop :=
  match o with
  | Return _ s' => wf strict true [] [] s' /\ current_thread_id s' = cur /\ keeps cur s s'
  | Switch s' => resumable strict s' /\ keeps cur s s'
  | Stop code _ => code = 0
  | Crash e => e = Diverge \/ e = FreedStack /\ cur <> 0
  end.

Lemma out_ok_keeps strict cur s s' o : keeps cur s s' -> out_ok strict cur s' o -> out_ok strict cur s o.
Proof.
  destruct o; simpl; try done.
  - intros H (? & ? & ?). split_and!; [done..|]. by transitivity s'.
  - intros H (? & ?). split; [done|]. by transitivity s'.
Qed.

Lemma out_ok_then strict cur s o k :
  out_ok strict cur s o ->
  (forall v s', wf strict true [] [] s' -> current_thread_id s' = cur -> keeps cur s s' ->
     out_ok strict cur s' (k v s')) ->
  out_ok strict cur s (then_ o k).
Proof.
  destruct o; simpl; try done. intros (? & ? & ?) Hk. eapply out_ok_keeps; [done|]. eauto.
Qed.

Lemma wf_cur_Some strict ex fl s :
  wf strict true ex fl s -> exists x, TCBs s !! current_thread_id s = Some x /\ t_state x = RUNNING.
Proof. intros H. apply state_of_Some. by apply (wf_cur _ _ _ _ _ H). Qed.

Lemma wf_cur_running strict ex fl s x :
  wf strict true ex fl s -> TCBs s !! current_thread_id s = Some x -> t_state x = RUNNING.
Proof. intros (y & Hy & Hr)%wf_cur_Some Hx. congruence. Qed.

Lemma wf_in_range strict run ex fl s t a : wf strict run ex fl s -> state_of s t = Some a -> in_range t.
Proof. intros H (x & Hx & _)%state_of_Some. apply (wf_dom _ _ _ _ _ H). eauto. Qed.

(** ** Stacks: freeTCBStacks and threadResponsibilities *)

(** Only the stacks of unassigned threads change. *)
Definition stacks_only (s s' : st) : Prop :=
  exists m st, s' = set_TCBs m (set_stacks st s) /\
    forall t x, TCBs s !! t = Some x -> t_state x <> NOT_ASSIGNED -> m !! t = Some x.

Lemma stacks_only_trans s1 s2 s3 : stacks_only s1 s2 -> stacks_only s2 s3 -> stacks_only s1 s3.
Proof.
  intros (m1 & st1 & -> & H1) (m2 & st2 & -> & H2). exists m2, st2. split; [done|].
  intros t x Hx Hn. apply H2; [|done]. by apply H1.
Qed.

(** No two threads share a stack, so the stack of another thread is not the
    one the code runs on. *)
Lemma not_running_on strict run ex fl s i x a :
  wf strict run ex fl s -> TCBs s !! i = Some x -> stack_to_free x = Some a -> i <> current_thread_id s ->
  running_on s <> Some a.
Proof.
  intros Hwf Hx Ha Hne (y & Hy & Hb)%bind_Some. apply Hne. by eapply (wf_inj _ _ _ _ _ Hwf).
Qed.

(** The invariant survives [free] of the stack of any thread but one that
    exits: the running thread's state is not NOT_ASSIGNED. *)
Lemma freeTCBStack_ok strict run ex fl s i :
  wf strict run ex fl s -> in_range i -> (run = true \/ i <> current_thread_id s) ->
  exists s', freeTCBStack i s = Ret s' /\ wf strict run ex fl s' /\ stacks_only s s' /\
    current_thread_id s' = current_thread_id s /\ (forall t, t <> i -> TCBs s' !! t = TCBs s !! t).
Proof.
  intros Hwf Hi Hrun. apply (wf_dom _ _ _ _ _ Hwf) in Hi as [x Hx].
  assert (Hid : stacks_only s s) by (exists (TCBs s), (stacks s); split; [by destruct s|eauto]).
  unfold freeTCBStack, tcb. rewrite Hx. simpl.
  destruct (stack_to_free x) as [a|] eqn:Ha; [|eauto 6]. case_decide as Hst; [|eauto 6].
  assert (Hne : i <> current_thread_id s).
  { destruct Hrun as [Hr|]; [|done]. intros ->. pose proof (wf_cur _ _ _ _ _ Hwf Hr) as H.
    apply state_of_Some in H as (y & Hy & Hys). congruence. }
  unfold free_stack. rewrite bool_decide_true by (by eapply wf_live).
  rewrite bool_decide_false by (by eapply not_running_on). simpl.
  erewrite upd_ok by done. eexists. split; [done|]. split_and!; [by apply (wf_free_stack _ _ _ _ s i x a)| |done|].
  - eexists _, _. split; [done|]. intros t y Hy Hn. rewrite lookup_insert_ne; [done|]. congruence.
  - intros t Ht. simpl. by rewrite lookup_insert_ne.
Qed.

Lemma freeTCBStacks_from_ok strict run ex fl ids s :
  wf strict run ex fl s -> Forall in_range ids -> (run = true \/ current_thread_id s ∉ ids) ->
  exists s', freeTCBStacks_from ids s = Ret s' /\ wf strict run ex fl s' /\ stacks_only s s'.
Proof.
  intros Hwf Hids. revert s Hwf. induction Hids as [|i ids Hi Hids IH]; intros s Hwf Hrun; simpl.
  - eexists. split_and!; [done..|]. exists (TCBs s), (stacks s). split; [by destruct s|eauto].
  - destruct (freeTCBStack_ok _ _ _ _ _ i Hwf Hi) as (s1 & -> & Hwf1 & Hs1 & Hc & _); [set_solver|]. simpl.
    destruct (IH s1 Hwf1) as (s2 & -> & Hwf2 & Hs2); [rewrite Hc; set_solver|]. eexists. split_and!; [done..|].
    by eapply stacks_only_trans.
Qed.

(** The loop that meets the stack of a thread that has exited but still runs. *)
Lemma freeTCBStacks_from_freed strict ex fl ids s x a :
  wf strict false ex fl s -> Forall in_range ids -> current_thread_id s ∈ ids ->
  TCBs s !! current_thread_id s = Some x -> t_state x = NOT_ASSIGNED -> stack_to_free x = Some a ->
  freeTCBStacks_from ids s = Fail FreedStack.
Proof.
  intros Hwf Hids. revert s Hwf. induction Hids as [|i ids Hi Hids IH]; intros s Hwf Hin Hx Hst Ha; [by apply not_elem_of_nil in Hin|].
  simpl. destruct (decide (i = current_thread_id s)) as [->|Hne].
  - unfold freeTCBStack, tcb. rewrite Hx. simpl. rewrite Ha, decide_True by done. unfold free_stack.
    rewrite bool_decide_true by (by eapply wf_live). rewrite bool_decide_true; [done|].
    unfold running_on. by rewrite Hx.
  - destruct (freeTCBStack_ok _ _ _ _ _ i Hwf Hi) as (s1 & -> & Hwf1 & _ & Hc & Hsame); [by right|]. simpl.
    apply IH; rewrite ?Hc; try done; [set_solver|]. by rewrite Hsame.
Qed.

Lemma all_in_range : Forall in_range (seqZ 1 (THREAD_MAX_THREADS - 1)).
Proof. apply Forall_forall. intros t Ht%elem_of_seqZ. unfold in_range, THREAD_MAX_THREADS in *. lia. Qed.

Lemma freeTCBStacks_ok strict run ex fl s :
  wf strict run ex fl s -> (run = true \/ current_thread_id s = 0) ->
  exists s', freeTCBStacks s = Ret s' /\ wf strict run ex fl s' /\ stacks_only s s'.
Proof.
  intros Hwf Hrun. apply freeTCBStacks_from_ok; [done|exact all_in_range|].
  destruct Hrun as [|Hc]; [by left|right]. rewrite Hc, elem_of_seqZ. lia.
Qed.

Lemma responsibilities_free_ok strict ex fl s :
  wf strict true ex fl s ->
  exists s', responsibilities_free s = Ret s' /\ wf strict true ex fl s' /\ stacks_only s s'.
Proof.
  intros Hwf. unfold responsibilities_free, interrupts_off, interrupts_set.
  destruct (freeTCBStacks_ok _ _ _ _ _ (wf_intr _ _ _ _ false _ Hwf)) as (s' & -> & Hwf' & m & sk & -> & H); [by left|].
  simpl. eexists. split_and!; [done|by apply wf_intr|].
  exists m, sk. split; [by destruct s|]. done.
Qed.

(** ** thread_wakeup *)

(** The threads a wake-up takes: all of them, or the first. *)
Definition woken (all : Z) (l : list Tid) : list Tid := if all =? 1 then l else take 1 l.

Lemma wakeup_loop_eq q rq n :
  (-1 ∉ q) -> wakeup_loop q rq n = ([], rq ++ q, n + Z.of_nat (length q)).
Proof.
  revert rq n. induction q as [|t q IH]; intros rq n Hn; simpl.
  - by rewrite app_nil_r, Z.add_0_r.
  - apply not_elem_of_cons in Hn as [Hne Hn]. rewrite (proj2 (Z.eqb_neq t (-1))) by done.
    rewrite IH by done. rewrite <- app_assoc. simpl. f_equal. lia.
Qed.

Lemma thread_wakeup_eq s q l all :
  wqs s !! q = Some l -> (-1 ∉ l) ->
  thread_wakeup (Some q) all s =
  Ret (Z.of_nat (length (woken all l)),
       set_ready (readyQueue s ++ woken all l)
         (set_wqs (<[q := drop (length (woken all l)) l]> (wqs s)) s)).
Proof.
  intros Hq Hn. unfold thread_wakeup, getHeadWait, popHeadThreadWait, woken. destruct s; simpl in *.
  rewrite Hq. simpl. destruct l as [|t l]; simpl.
  - destruct (all =? 1); simpl; unfold set_intr, set_ready, set_wqs; simpl;
      by rewrite app_nil_r, insert_id.
  - apply not_elem_of_cons in Hn as [Hne Hn]. rewrite (proj2 (Z.eqb_neq t (-1))) by done.
    destruct (all =? 1); simpl.
    + rewrite lookup_insert_eq. simpl. rewrite wakeup_loop_eq by done.
      unfold set_intr, set_ready, set_wqs; simpl. rewrite insert_insert_eq, drop_all, <- app_assoc.
      f_equal. f_equal. lia.
    + rewrite take_0, drop_0. done.
Qed.

Lemma wf_no_none strict run ex fl s q l : wf strict run ex fl s -> wqs s !! q = Some l -> -1 ∉ l.
Proof.
  intros Hwf Hq Hin. destruct (wf_wait _ _ _ _ _ Hwf (-1)) as [H _]; [by exists q, l|].
  apply (wf_in_range _ _ _ _ _ _ _ Hwf) in H. unfold in_range in H. lia.
Qed.

Lemma woken_app all l : woken all l ++ drop (length (woken all l)) l = l.
Proof.
  unfold woken. destruct (all =? 1); [by rewrite drop_all, app_nil_r|].
  destruct l; [done|]. simpl. by rewrite drop_0.
Qed.

Lemma wqs_insert_mono (m : gmap positive (list Tid)) q l q' : is_Some (m !! q') -> is_Some (<[q := l]> m !! q').
Proof. rewrite lookup_insert_is_Some'. by right. Qed.

Lemma thread_wakeup_ok strict run ex fl s q all cur :
  wf strict run ex fl s -> is_Some (wqs s !! q) ->
  exists v rq m, thread_wakeup (Some q) all s = Ret (v, set_ready rq (set_wqs m s)) /\
    wf strict run ex fl (set_ready rq (set_wqs m s)) /\ keeps cur s (set_ready rq (set_wqs m s)).
Proof.
  intros Hwf [l Hq]. eexists _, _, _. split_and!.
  - apply thread_wakeup_eq; [done|]. by eapply wf_no_none.
  - apply wf_wake; [done|]. by rewrite woken_app.
  - apply keeps_same; [done..|]. intros q'. apply wqs_insert_mono.
Qed.

(** ** thread_exit *)

(** [rq_next] on the ready queue of a well-formed state. *)
Lemma rq_next_cases strict run ex fl s :
  wf strict run ex fl s ->
  (readyQueue s = [] /\ rq_next (readyQueue s) = (-1, [])) \/
  (exists n q, readyQueue s = n :: q /\ rq_next (readyQueue s) = (n, q) /\ (n =? -1) = false).
Proof.
  intros Hwf. destruct (readyQueue s) as [|n q] eqn:E; [by left|]. right. exists n, q.
  split_and!; [done..|]. apply Z.eqb_neq. intros ->.
  assert (H : state_of s (-1) = Some READY) by (apply (wf_ready _ _ _ _ _ Hwf); rewrite E; by left).
  apply (wf_in_range _ _ _ _ _ _ _ Hwf) in H. unfold in_range in H. lia.
Qed.

(** Switching to a ready thread that is in no queue. *)
Lemma resumable_start strict ex s n x :
  wf strict false ex [n] s -> TCBs s !! n = Some x -> t_state x = READY -> (n ∉ ex) ->
  ex = [] -> resumable strict (set_TCBs (<[n := w_state RUNNING x]> (TCBs s)) (set_current n s)).
Proof.
  intros Hwf Hx Hr Hn ->. split.
  - apply wf_start; [done..|]. apply not_elem_of_nil.
  - eexists. simpl. rewrite lookup_insert_eq. split; [done|].
    pose proof (wf_thr _ _ _ _ _ Hwf n x Hx Hn) as H. destruct x; simpl in *. by subst.
Qed.

(** The context, pending kill and wait queue of an unassigned thread do not matter. *)
Lemma thread_ok_unassigned strict ls t x :
  t_state x = NOT_ASSIGNED -> killOnNextRun x = 0 -> (strict = true -> setcontext_called x = 0) ->
  thread_ok strict ls t x.
Proof. intros H1 H2 H3. split; [congruence|]. auto. Qed.

(** The exit queues are freed once each. *)
Definition exit_queues (s : st) : Prop :=
  (forall t x q, TCBs s !! t = Some x -> t_wait x = Some q -> is_Some (wqs s !! q)) /\
  (forall t1 t2 x1 x2 q, TCBs s !! t1 = Some x1 -> TCBs s !! t2 = Some x2 ->
     t_wait x1 = Some q -> t_wait x2 = Some q -> t1 = t2).

Lemma dealloc_wait_queue_ok i s :
  exit_queues s -> is_Some (TCBs s !! i) ->
  exists s', dealloc_wait_queue i s = Ret s' /\ exit_queues s' /\
    forall t, is_Some (TCBs s !! t) -> is_Some (TCBs s' !! t).
Proof.
  intros [Hlive Hinj] [x Hx]. unfold dealloc_wait_queue, tcb. rewrite Hx. simpl.
  destruct (t_wait x) as [q|] eqn:Hq; [|by exists s].
  destruct (Hlive i x q Hx Hq) as [l Hl]. rewrite Hl. simpl. erewrite upd_ok by done.
  eexists. split; [done|]. split; [split|].
  - intros t y q' H Hq'. upd_cases H. rewrite lookup_delete_ne; [by eapply Hlive|].
    intros ->. by eapply H0, Hinj.
  - intros t1 t2 x1 x2 q' H1 H2 Hq1 Hq2. upd_cases H1; upd_cases H2; eauto.
  - intros t Ht. simpl. rewrite lookup_insert_is_Some'. by right.
Qed.

Lemma dealloc_from_ok ids s :
  exit_queues s -> Forall (fun i => is_Some (TCBs s !! i)) ids -> exists s', dealloc_from ids s = Ret s'.
Proof.
  revert s. induction ids as [|i ids IH]; intros s Hs Hids; simpl; [eauto|].
  apply Forall_cons in Hids as [Hi Hids].
  destruct (dealloc_wait_queue_ok i s Hs Hi) as (s' & -> & Hs' & Hd). simpl.
  apply IH; [done|]. eapply Forall_impl; [exact Hids|]. exact Hd.
Qed.

Lemma dealloc_ok strict run ex fl s :
  wf strict run ex fl s -> exists s', dealloc_thread_specific_wait_queue s = Ret s'.
Proof.
  intros Hwf. apply dealloc_from_ok.
  - split; [|intros t1 t2 x1 x2 q; by eapply wf_twait_inj]. intros t x q Hx Hq.
    destruct (wf_twait _ _ _ _ _ Hwf t x Hx) as (q' & ? & ?). by simplify_eq.
  - apply Forall_forall. intros t. rewrite elem_of_reverse, elem_of_seqZ. intros Ht.
    apply (wf_dom _ _ _ _ _ Hwf). unfold in_range. lia.
Qed.

(** Outside strict mode, what floats may be dropped and the running thread's
    context does not matter. *)
Lemma wf_drop fl s : wf false true [current_thread_id s] fl s -> wf false true [] [] s.
Proof.
  intros Hwf. apply (wf_unex _ _ _ _ _ (current_thread_id s));
    [exact (wf_lose _ _ _ [] _ Hwf (list_subseteq_nil _))|].
  intros x Hx. split; [|done]. destruct (wf_cur_Some _ _ _ _ Hwf) as (y & Hy & Hr). congruence.
Qed.

(** Runs an update of a thread that is known to be in the table. *)
Ltac run_upd :=
  erewrite upd_ok by (simpl; rewrite ?lookup_insert_eq; done); cbn [obind].

(** The block of thread_exit that clears the TCB. *)
Definition exited (x : thread) : thread := w_wq None (w_kill 0 (w_state NOT_ASSIGNED (w_ctx zero_ctx x))).

Lemma wf_exit strict s x :
  wf strict true [] [] s -> TCBs s !! current_thread_id s = Some x ->
  wf strict false [] [current_thread_id s] (set_TCBs (<[current_thread_id s := exited x]> (TCBs s)) s).
Proof.
  intros Hwf Hx. set (cur := current_thread_id s).
  destruct (wf_thr _ _ _ _ _ Hwf cur x Hx (not_elem_of_nil _)) as [_ Hok].
  pose proof (wf_cur_running _ _ _ _ _ Hwf Hx) as Hr.
  pose proof (wf_stop _ _ _ _ x NOT_ASSIGNED Hwf Hx ltac:(done)) as H1.
  eapply (wf_upd _ _ _ _ _ cur _ (fun _ => exited x)) in H1;
    [|simpl; by rewrite lookup_insert_eq|done..|left; by apply list_elem_of_here].
  simpl in H1. rewrite insert_insert_eq in H1. eapply wf_unex; [exact H1|].
  intros y Hy. simpl in Hy. rewrite lookup_insert_eq in Hy. simplify_eq.
  apply thread_ok_unassigned; [done..|]. intros Hs. simpl. apply (Hok Hs). left. congruence.
Qed.

(** The state in which thread_exit looks for the next thread: the exiting
    thread's waiters [l] are ready and its id is available. *)
Definition exit_state (x : thread) (q : addr) (l : list Tid) (s : st) : st :=
  addToHeadId (current_thread_id s)
    (set_ready (readyQueue s ++ l) (set_wqs (<[q := []]> (wqs s))
       (set_TCBs (<[current_thread_id s := exited x]> (TCBs s)) (set_intr false s)))).

Lemma exit_state_wf strict s x q l :
  wf strict true [] [] s -> TCBs s !! current_thread_id s = Some x -> wqs s !! q = Some l ->
  wf strict false [] [] (exit_state x q l s).
Proof.
  intros Hwf Hx Hl. pose proof (wf_intr _ _ _ _ false _ (wf_exit _ _ _ Hwf Hx)) as H1.
  apply (wf_push_avail _ _ _ []); [|unfold state_of; simpl; by rewrite lookup_insert_eq].
  apply (wf_wake _ _ _ _ _ q l [] H1). simpl. by rewrite app_nil_r.
Qed.

(** The last thread, when it is not the first one: freeTCBStacks meets its stack. *)
Lemma exit_frees_own_stack strict s x q l :
  wf strict true [] [] s -> TCBs s !! current_thread_id s = Some x -> wqs s !! q = Some l ->
  current_thread_id s <> 0 -> freeTCBStacks (exit_state x q l s) = Fail FreedStack.
Proof.
  intros Hwf Hx Hl Hc. pose proof (exit_state_wf _ _ _ _ _ Hwf Hx Hl) as H2.
  pose proof (wf_cur_running _ _ _ _ _ Hwf Hx) as Hr.
  assert (Hi : in_range (current_thread_id s)) by (apply (wf_dom _ _ _ _ _ Hwf); by eexists).
  unfold in_range, THREAD_MAX_THREADS in Hi.
  destruct (wf_has _ _ _ _ _ Hwf _ x Hx) as [a Ha]; [lia|congruence|].
  eapply (freeTCBStacks_from_freed _ _ _ _ _ (exited x) a H2 all_in_range); [|simpl; by rewrite lookup_insert_eq|done..].
  apply elem_of_seqZ. simpl. unfold THREAD_MAX_THREADS. lia.
Qed.

(** The end of thread_exit: the next thread, or the end of the process. *)
Definition exit_rest (enabled : bool) (s : st) : outcome :=
  let (nextTidToRun, q) := rq_next (readyQueue s) in
  let s := set_ready q s in
  if nextTidToRun =? -1 then
    s <~ freeTCBStacks s;;
    s <~ dealloc_thread_specific_wait_queue s;;
    Stop 0 (set_intr enabled s)
  else
    let s := set_current nextTidToRun s in
    s <~ upd nextTidToRun (w_state RUNNING) s;;
    Switch s.

Lemma thread_exit_run strict s x q l :
  wf strict true [] [] s -> TCBs s !! current_thread_id s = Some x -> t_wait x = Some q -> wqs s !! q = Some l ->
  thread_exit s = exit_rest (intr s) (exit_state x q l s).
Proof.
  intros Hwf Hx Hq Hl.
  assert (E : thread_exit s = (let (enabled, s) := interrupts_set false s in
  let cur := current_thread_id s in
  s <~ upd cur (w_ctx zero_ctx) s;;
  s <~ upd cur (w_state NOT_ASSIGNED) s;;
  s <~ upd cur (w_kill 0) s;;
  s <~ upd cur (w_wq None) s;;
  x <~ tcb cur s;;
  r <~ thread_wakeup (t_wait x) 1 s;;
  exit_rest enabled (addToHeadId cur r.2))) by reflexivity.
  rewrite E. clear E. unfold interrupts_set. simpl. do 4 run_upd. unfold tcb. simpl.
  rewrite !insert_insert_eq, lookup_insert_eq. simpl. rewrite Hq.
  match goal with |- context [thread_wakeup (Some q) 1 ?s0] =>
    rewrite (thread_wakeup_eq s0 q l 1 Hl (wf_no_none _ _ _ _ _ _ _ Hwf Hl)) end.
  simpl. by rewrite drop_all.
Qed.

Lemma thread_exit_eq strict s x q l :
  wf strict true [] [] s -> TCBs s !! current_thread_id s = Some x -> t_wait x = Some q -> wqs s !! q = Some l ->
  match readyQueue s ++ l with
  | [] => if decide (current_thread_id s = 0) then exists s', thread_exit s = Stop 0 s' else thread_exit s = Crash FreedStack
  | n :: rq => exists y, TCBs (exit_state x q l s) !! n = Some y /\ t_state y = READY /\
      thread_exit s = Switch (set_TCBs (<[n := w_state RUNNING y]> (TCBs (exit_state x q l s)))
                                (set_current n (set_ready rq (exit_state x q l s))))
  end.
Proof.
  intros Hwf Hx Hq Hl. pose proof (exit_state_wf _ _ _ _ _ Hwf Hx Hl) as H2.
  pose proof (exit_frees_own_stack _ _ _ _ _ Hwf Hx Hl) as Hown.
  rewrite (thread_exit_run _ _ _ _ _ Hwf Hx Hq Hl). unfold exit_rest.
  change (readyQueue s ++ l) with (readyQueue (exit_state x q l s)).
  change (current_thread_id s) with (current_thread_id (exit_state x q l s)) in Hown |- * at 1.
  set (s2 := exit_state x q l s) in *.
  destruct (rq_next_cases _ _ _ _ _ H2) as [[Hr E]|(n & rq & Hr & E & En)]; rewrite E, Hr.
  - replace (set_ready [] s2) with s2 by (destruct s2; simpl in Hr; by subst). change (-1 =? -1) with true. cbv iota.
    case_decide as Hc; [|by rewrite Hown].
    destruct (freeTCBStacks_ok _ _ _ _ _ H2) as (s3 & -> & H3 & _); [by right|]. cbn [obind].
    destruct (dealloc_ok _ _ _ _ _ H3) as (s4 & ->). cbn [obind]. eauto.
  - rewrite En. destruct (wf_pop_ready _ _ _ _ _ n rq H2 ltac:(by rewrite Hr)) as (_ & Hst & _).
    apply state_of_Some in Hst as (y & Hy & Hys). exists y. split_and!; [done..|].
    by erewrite upd_ok by exact Hy.
Qed.

Lemma thread_exit_ok strict s :
  wf strict true [] [] s -> out_ok strict (current_thread_id s) s (thread_exit s).
Proof.
  intros Hwf. destruct (wf_cur_Some _ _ _ _ Hwf) as (x & Hx & _).
  destruct (wf_twait _ _ _ _ _ Hwf _ x Hx) as (q & Hq & l & Hl).
  pose proof (thread_exit_eq _ _ _ _ _ Hwf Hx Hq Hl) as H.
  pose proof (exit_state_wf _ _ _ _ _ Hwf Hx Hl) as H2. set (s2 := exit_state x q l s) in *.
  destruct (readyQueue s ++ l) as [|n rq] eqn:Erq.
  { case_decide; [by destruct H as [s' ->]|rewrite H; by right]. }
  destruct H as (y & Hy & Hys & ->). split.
  - destruct (wf_pop_ready _ _ _ _ s2 n rq H2) as (H3 & _); [by rewrite <- Erq|].
    by apply (resumable_start _ [] (set_ready rq s2)); [..|apply not_elem_of_nil|].
  - apply keeps_same; [done..|]. intros q'. apply wqs_insert_mono.
Qed.

(** thread_exit does not return to its caller. *)
Lemma thread_exit_then s k : then_ (thread_exit s) k = thread_exit s.
Proof.
  unfold thread_exit. destruct (interrupts_set _ _) as [e s0].
  repeat (match goal with |- then_ (obind ?m _) _ = _ => destruct m; [cbn [obind]|done] end).
  destruct (rq_next _) as [n q]. destruct (n =? -1);
    repeat (match goal with |- then_ (obind ?m _) _ = _ => destruct m; [cbn [obind]|done] end); done.
Qed.

(** ** thread_yield *)

Lemma stacks_only_tcb s s' t x :
  stacks_only s s' -> TCBs s !! t = Some x -> t_state x <> NOT_ASSIGNED -> TCBs s' !! t = Some x.
Proof. intros (m & sk & -> & H). apply H. Qed.

Lemma stacks_only_same s s' cur :
  stacks_only s s' -> current_thread_id s' = current_thread_id s /\ locks s' = locks s /\ wqs s' = wqs s /\
    keeps cur s s'.
Proof. intros (m & sk & -> & H). split_and!; try done. by apply keeps_same. Qed.

(** The responsibilities of a thread that has none pending, or its exit. *)
Lemma threadResponsibilities_ok strict fl s x (k : Z -> st -> outcome) :
  wf strict true [current_thread_id s] fl s ->
  TCBs s !! current_thread_id s = Some x -> (strict = true -> killOnNextRun x = 0) ->
  (forall s', wf strict true [current_thread_id s] fl s' -> stacks_only s s' ->
     out_ok strict (current_thread_id s) s' (k 0 s')) ->
  out_ok strict (current_thread_id s) s (then_ (threadResponsibilities s) k).
Proof.
  intros Hwf Hx Hkill Hk. unfold threadResponsibilities, responsibilities_check.
  destruct (responsibilities_free_ok _ _ _ _ Hwf) as (s1 & -> & H1 & Hst). simpl.
  destruct (stacks_only_same _ _ (current_thread_id s) Hst) as (Hc & _ & _ & Hkeep).
  pose proof (wf_cur_running _ _ _ _ _ Hwf Hx) as Hr.
  unfold tcb. rewrite Hc, (stacks_only_tcb _ _ _ _ Hst Hx) by congruence. simpl.
  apply (out_ok_keeps _ _ _ _ _ Hkeep). destruct (Z.eqb_spec (killOnNextRun x) 1) as [E|E].
  - rewrite thread_exit_then. destruct strict; [by rewrite Hkill in E|].
    rewrite <- Hc. apply thread_exit_ok. eapply wf_drop. by rewrite Hc.
  - by apply Hk.
Qed.

(** The context a thread saves when it yields. *)
Definition saved_ok (ls : gmap addr lock) (t : Z) (x : thread) : Prop :=
  uc_blocked (mycontext x) = true /\
  exists e n fs b, uc_pc (mycontext x) = PSaved (InYield e n t :: fs) b /\ Forall (frame_ok ls) fs.

Lemma saved_good ls t x : saved_ok ls t x -> setcontext_called x = 1 -> good ls t x.
Proof. intros (Hb & e & n & fs & b & Hpc & Hf) Hsc. split; [done|]. rewrite Hpc. auto. Qed.

(** The thread goes to the back of the ready queue, or of the queue it sleeps on. *)
Lemma wf_enqueue strict ex s t n x :
  wf strict false ex [t; n] s -> TCBs s !! t = Some x -> t_state x = READY -> t <> n ->
  t ∈ ex -> t = current_thread_id s ->
  exists s' x', match waitQueue x with
       | Some q => s ← pushThreadToWait q (current_thread_id s) s; upd (current_thread_id s) (w_wq None) s
       | None => Ret (set_ready (readyQueue s ++ [current_thread_id s]) s)
       end = Ret s' /\ wf strict false ex [n] s' /\ keeps t s s' /\ locks s' = locks s /\
       TCBs s' = <[t := x']> (TCBs s) /\ x' = w_wq None x.
Proof.
  intros Hwf Hx Hr Hne Hex ->. set (t := current_thread_id s) in *.
  assert (Hts : state_of s t = Some READY) by (by rewrite (state_of_lookup _ _ _ Hx), Hr).
  assert (Hf : filter (fun t' => t' <> t) [n] = [n]) by (by rewrite filter_cons_True).
  destruct (waitQueue x) as [q|] eqn:Hq.
  - destruct (wf_wq _ _ _ _ _ Hwf t x q Hx Hq) as [l Hl].
    unfold pushThreadToWait. rewrite Hl. simpl. erewrite upd_ok by done.
    eexists _, _. split; [reflexivity|]. split_and!; [| |reflexivity..].
    + eapply (wf_upd _ _ _ _ (set_wqs _ _) _ x (w_wq None)); [|done..|by left].
      pose proof (wf_push_wait _ _ _ _ _ _ _ _ Hwf Hts Hl) as H.
      by rewrite Hf in H.
    + apply keeps_same; [done..|]. intros q'. apply wqs_insert_mono.
  - eexists _, x. split; [reflexivity|]. split_and!; [|by apply keeps_same|done| |].
    + pose proof (wf_push_ready _ _ _ _ _ _ Hwf Hts) as H. by rewrite Hf in H.
    + simpl. by rewrite insert_id.
    + destruct x; simpl in *. by subst.
Qed.

(** The switch of thread_yield: the current thread becomes ready and is
    queued, [n] runs, and the current thread's flag is set. *)
Definition yield_switch (x : thread) (n old : Tid) (s : st) : outcome :=
  s <~ upd (current_thread_id s) (w_state READY) s;;
  s <~ match waitQueue x with
       | Some q => s ← pushThreadToWait q (current_thread_id s) s;
                   upd (current_thread_id s) (w_wq None) s
       | None => Ret (set_ready (readyQueue s ++ [current_thread_id s]) s)
       end;;
  let s := set_current n s in
  s <~ upd n (w_state RUNNING) s;;
  s <~ upd old (w_sc 1) s;;
  Switch s.

Lemma yield_switch_ok strict s n x y :
  let cur := current_thread_id s in
  wf strict true [cur] [n] s -> TCBs s !! n = Some y -> t_state y = READY ->
  TCBs s !! cur = Some x -> saved_ok (locks s) cur x -> (strict = true -> killOnNextRun x = 0) ->
  out_ok strict cur s (yield_switch x n cur s).
Proof.
  intros cur Hwf Hy Hys Hx Hsaved Hstrict. pose proof (wf_cur_running _ _ _ _ _ Hwf Hx) as Hr.
  assert (Hne : cur <> n) by (intros E; rewrite <- E in Hy; congruence).
  unfold yield_switch. erewrite upd_ok by exact Hx. simpl.
  pose proof (wf_stop _ _ _ _ x READY Hwf Hx ltac:(done)) as H2. fold cur in H2 |- *.
  set (s2 := set_TCBs (<[cur := w_state READY x]> (TCBs s)) s) in *.
  assert (Hx2 : TCBs s2 !! cur = Some (w_state READY x)) by (subst s2; simpl; by rewrite lookup_insert_eq).
  destruct (wf_enqueue _ _ s2 cur n _ H2 Hx2) as (s3 & x3 & E3 & H3 & Hk3 & Hl3 & HT3 & Hx3);
    [done..|by left|done|].
  simpl in E3. fold cur in E3. rewrite E3. clear E3. simpl.
  assert (Hy3 : TCBs s3 !! n = Some y).
  { rewrite HT3, lookup_insert_ne by done. subst s2; simpl. by rewrite lookup_insert_ne. }
  assert (Hx3' : TCBs s3 !! cur = Some x3) by (by rewrite HT3, lookup_insert_eq).
  rewrite (upd_ok n _ (set_current n s3) y) by done. simpl.
  rewrite (upd_ok cur _ _ x3) by (simpl; by rewrite lookup_insert_ne by done). simpl.
  rewrite (insert_insert_ne (TCBs s3) cur n) by done.
  assert (Hok : forall z, <[cur := w_sc 1 x3]> (TCBs s3) !! cur = Some z -> thread_ok strict (locks s3) cur z).
  { intros z Hz. rewrite lookup_insert_eq in Hz. injection Hz as <-. rewrite Hl3, Hx3. split.
    - intros _. by apply saved_good.
    - intros Hs. split; [by apply Hstrict|]. intros [?|Hstub]; [done|].
      destruct Hsaved as (_ & e & n' & fs & b & Hpc & _). unfold is_stub in Hstub. simpl in Hstub.
      by rewrite Hpc in Hstub. }
  assert (H4 : wf strict false [] [n] (set_TCBs (<[cur := w_sc 1 x3]> (TCBs s3)) s3)).
  { apply (wf_unex _ _ _ _ _ cur); [apply (wf_unex _ _ _ _ _ cur)|]; [|exact Hok..].
    apply wf_upd; [done..| |by left; left]. subst x3. done. }
  split.
  - eapply resumable_start in H4; [exact H4|..]; simpl; rewrite ?lookup_insert_ne by done; try done.
    apply not_elem_of_nil.
  - exact Hk3.
Qed.

(** The first pass over the block that follows [getcontext]. *)
Lemma yield_tail_fresh strict s n x enabled :
  let cur := current_thread_id s in
  wf strict true [cur] [n] s -> state_of s n = Some READY ->
  TCBs s !! cur = Some x -> saved_ok (locks s) cur x ->
  (strict = true -> killOnNextRun x = 0 /\ setcontext_called x = 0) ->
  out_ok strict cur s (yield_tail enabled n cur s).
Proof.
  intros cur Hwf Hn Hx Hsaved Hstrict. unfold yield_tail.
  eapply threadResponsibilities_ok; [exact Hwf|exact Hx|naive_solver|]. fold cur.
  intros s1 H1 Hst. destruct (stacks_only_same _ _ cur Hst) as (Hc & Hlk & Hwqs & _). fold cur in Hc.
  pose proof (wf_cur_running _ _ _ _ _ Hwf Hx) as Hr.
  assert (Hx1 : TCBs s1 !! cur = Some x) by (apply (stacks_only_tcb _ _ _ _ Hst); congruence).
  apply state_of_Some in Hn as (y & Hy & Hys).
  assert (Hy1 : TCBs s1 !! n = Some y) by (apply (stacks_only_tcb _ _ _ _ Hst); congruence).
  unfold tcb. rewrite Hc, Hx1. simpl. rewrite <- Hc in H1, Hx1, Hsaved |- *.
  destruct (Z.eqb_spec (setcontext_called x) 0) as [Esc|Esc].
  - eapply (yield_switch_ok strict s1 n x y); [done..| |naive_solver]. by rewrite Hlk.
  - destruct strict; [by destruct Hstrict|]. erewrite upd_ok by exact Hx1. simpl.
    split_and!; [|done|by apply keeps_same]. apply wf_intr.
    eapply (wf_upd _ _ _ _ s1 _ x (w_sc 0)); [by eapply wf_drop|done..| |].
    + intros q Hq. by apply (wf_wq _ _ _ _ _ H1 _ _ _ Hx1).
    + right. split; [|done]. simpl. congruence.
Qed.

(** The second pass, when the context is resumed. *)
Lemma yield_tail_resumed strict s n x enabled :
  let cur := current_thread_id s in
  wf strict true [cur] [] s -> TCBs s !! cur = Some x -> setcontext_called x = 1 ->
  (strict = true -> killOnNextRun x = 0) ->
  out_ok strict cur s (yield_tail enabled n cur s).
Proof.
  intros cur Hwf Hx Hsc Hstrict. unfold yield_tail.
  eapply threadResponsibilities_ok; [exact Hwf|exact Hx|done|]. fold cur.
  intros s1 H1 Hst. destruct (stacks_only_same _ _ cur Hst) as (Hc & Hlk & Hwqs & _). fold cur in Hc.
  pose proof (wf_cur_running _ _ _ _ _ Hwf Hx) as Hr.
  assert (Hx1 : TCBs s1 !! cur = Some x) by (apply (stacks_only_tcb _ _ _ _ Hst); congruence).
  unfold tcb. rewrite Hc, Hx1. simpl. rewrite Hsc. simpl. erewrite upd_ok by exact Hx1. simpl.
  split_and!; [|done|by apply keeps_same]. apply wf_intr.
  apply (wf_unex _ _ _ _ _ cur); [apply (wf_upd _ _ _ _ s1 _ x (w_sc 0)); try done|].
  - intros q Hq. by apply (wf_wq _ _ _ _ _ H1 _ _ _ Hx1).
  - by left; left.
  - intros z Hz. simpl in Hz. rewrite lookup_insert_eq in Hz. injection Hz as <-.
    split; [simpl; congruence|]. auto.
Qed.

(** What thread_yield takes from the ready queue. *)
Definition pick (want_tid : Tid) (q : list Tid) : Tid * list Tid :=
  if want_tid =? THREAD_ANY then rq_next q else rq_remove q want_tid.

Lemma pick_cases strict run ex fl s w :
  wf strict run ex fl s ->
  (pick w (readyQueue s) = (-1, readyQueue s)) \/
  (exists n q, pick w (readyQueue s) = (n, q) /\ (n =? -1) = false /\ readyQueue s ≡ₚ n :: q).
Proof.
  intros Hwf. unfold pick. destruct (w =? THREAD_ANY).
  - destruct (rq_next_cases _ _ _ _ _ Hwf) as [[Hr ->]|(n & rq' & Hr & -> & Hn)];
      [left; by rewrite Hr|right]. exists n, rq'. by rewrite Hr.
  - unfold rq_remove. destruct (remove_ends _ _) as [[n q]|] eqn:E; [|by left].
    apply remove_ends_Permutation in E as [_ E]. right. exists n, q. split_and!; [done| |done].
    apply Z.eqb_neq. intros ->.
    assert (H : state_of s (-1) = Some READY) by (apply (wf_ready _ _ _ _ _ Hwf); rewrite E; by left).
    apply (wf_in_range _ _ _ _ _ _ _ Hwf) in H. unfold in_range in H. lia.
Qed.

Lemma yield_to_ok strict s n fs b enabled :
  let cur := current_thread_id s in
  wf strict true [] [n] s -> state_of s n = Some READY -> intr s = false ->
  Forall (frame_ok (locks s)) fs ->
  out_ok strict cur s (yield_to enabled n fs b s).
Proof.
  intros cur Hwf Hn Hi Hfs. unfold yield_to. fold cur.
  destruct (wf_cur_Some _ _ _ _ Hwf) as (x & Hx & Hr). fold cur in Hx.
  destruct (wf_thr _ _ _ _ _ Hwf cur x Hx (not_elem_of_nil _)) as [_ Hstrict].
  erewrite upd_ok by exact Hx. simpl. rewrite Hi. simpl.
  set (x' := w_ctx _ x). set (s' := set_TCBs _ s).
  assert (Hk : keeps cur s s') by (by apply keeps_same).
  apply (out_ok_keeps _ _ _ _ _ Hk). eapply (yield_tail_fresh _ s' _ x').
  - apply (wf_upd _ _ _ _ s cur x (fun _ => x')); try done.
    + eapply wf_ex; [done|]. apply list_subseteq_nil.
    + intros q. by apply (wf_wq _ _ _ _ _ Hwf cur x q).
    + by left; left.
  - subst s'. unfold state_of. simpl. apply state_of_Some in Hn as (y & Hy & Hys).
    rewrite lookup_insert_ne; [by rewrite Hy; simpl; rewrite Hys|]. congruence.
  - subst s'. simpl. by rewrite lookup_insert_eq.
  - split; [done|]. by eexists _, _, _, _.
  - intros Hs. destruct (Hstrict Hs) as [? H]. split; [done|]. apply H. left. simpl. congruence.
Qed.

Lemma out_ok_ret strict s s0 v b :
  wf strict true [] [] s -> locks s = locks s0 -> wqs s = wqs s0 -> cvs s = cvs s0 ->
  out_ok strict (current_thread_id s) s0 (Return v (set_intr b s)).
Proof.
  intros Hwf Hl Hw Hc. split_and!; [by apply wf_intr|done|]. apply keeps_same; [done..|].
  simpl. by rewrite Hw.
Qed.

Lemma thread_yield_ok strict s w fs b :
  wf strict true [] [] s -> Forall (frame_ok (locks s)) fs ->
  out_ok strict (current_thread_id s) s (thread_yield w fs b s).
Proof.
  intros Hwf Hfs. unfold thread_yield, interrupts_set.
  change (if w =? THREAD_ANY then _ else _) with (pick w (readyQueue (set_intr false s))).
  change (readyQueue (set_intr false s)) with (readyQueue s).
  change (current_thread_id (set_intr false s)) with (current_thread_id s).
  destruct (_ || _) eqn:E1; [by apply (out_ok_ret _ s)|].
  destruct (w =? THREAD_SELF); [by apply (out_ok_ret _ s)|].
  destruct (w =? current_thread_id s); [by apply (out_ok_ret _ s)|].
  assert (exists u, (if w >=? 0 then x ← tcb w (set_intr false s); Ret (bool_decide (t_state x = NOT_ASSIGNED))
                     else Ret false) = Ret u) as [u ->].
  { destruct (Z.geb_spec w 0); [|eauto]. unfold tcb. simpl.
    destruct (proj2 (wf_dom _ _ _ _ _ Hwf w)) as [x ->]; [|simpl; eauto].
    unfold in_range, THREAD_MAX_THREADS in *. lia. }
  simpl. destruct u; [by apply (out_ok_ret _ s)|].
  destruct (pick_cases _ _ _ _ s w Hwf) as [-> |(n & q & -> & -> & Hp)].
  - by apply (out_ok_ret _ (set_ready (readyQueue s) s)); [destruct s|..].
  - destruct (wf_pop_ready _ _ _ _ _ n q Hwf Hp) as (H1 & Hn & _).
    by apply (yield_to_ok strict (set_ready q (set_intr false s))); [apply (wf_intr _ _ _ _ false) in H1|..].
Qed.

(** ** thread_sleep, thread_wait and locks *)
Lemma frames_keep cur s s' fs :
  keeps cur s s' -> Forall (frame_ok (locks s)) fs -> Forall (frame_ok (locks s')) fs.
Proof.
  intros (Hl & _) Hf. eapply Forall_impl; [exact Hf|].
  intros []; simpl; try done; intros [l H]; destruct (Hl _ _ H) as (l' & ? & _); eauto.
Qed.

Lemma thread_sleep_ok strict s q fs b :
  wf strict true [] [] s -> is_Some (wqs s !! q) -> Forall (frame_ok (locks s)) fs ->
  out_ok strict (current_thread_id s) s (thread_sleep (Some q) fs b s).
Proof.
  intros Hwf Hq Hfs. unfold thread_sleep, interrupts_set.
  change (readyQueue (set_intr false s)) with (readyQueue s).
  destruct (readyQueue s) as [|n rq]; cbn [hd_error]; [by apply (out_ok_ret _ s)|].
  destruct (wf_cur_Some _ _ _ _ Hwf) as (x & Hx & Hr).
  erewrite upd_ok by exact Hx. simpl. set (s1 := set_TCBs _ _).
  assert (H1 : wf strict true [] [] s1).
  { apply (wf_upd _ _ _ _ (set_intr false s) _ x (w_wq (Some q))); try done; [by apply wf_intr|..].
    - intros q' [= <-]. done.
    - right. exact (wf_thr _ _ _ _ _ Hwf _ _ Hx (not_elem_of_nil _)). }
  apply (out_ok_keeps _ _ _ s1); [by apply keeps_same|].
  apply out_ok_then.
  - apply (thread_yield_ok strict s1); [done|]. by constructor.
  - intros v s2 H2 <- _. by apply (out_ok_ret _ s2).
Qed.

Lemma thread_wait_ok strict s tid fs b :
  wf strict true [] [] s -> tid < THREAD_MAX_THREADS -> Forall (frame_ok (locks s)) fs ->
  out_ok strict (current_thread_id s) s (thread_wait tid fs b s).
Proof.
  intros Hwf Ht Hfs. unfold thread_wait, interrupts_set. simpl.
  destruct (_ || _) eqn:E; [by apply (out_ok_ret _ s)|].
  destruct (proj2 (wf_dom _ _ _ _ _ Hwf tid)) as [x Hx]; [unfold in_range; lia|].
  unfold tcb. simpl. rewrite Hx. simpl. case_decide; [by apply (out_ok_ret _ s)|].
  destruct (wf_twait _ _ _ _ _ Hwf tid x Hx) as (q & -> & Hq).
  apply (out_ok_keeps _ _ _ (set_intr false s)); [by apply keeps_same|].
  apply out_ok_then.
  - apply (thread_sleep_ok strict (set_intr false s)); [by apply wf_intr|done|]. by constructor.
  - intros v s2 H2 <- _. by apply (out_ok_ret _ s2).
Qed.

(** A lock's queue belongs to it alone. *)
Lemma lock_owns strict run ex fl s lk l o :
  wf strict run ex fl s -> locks s !! lk = Some l -> owns s o (wait_on_lock l) -> o = OLock lk.
Proof. intros Hwf Hl Ho. apply (wf_owner _ _ _ _ _ Hwf _ _ _ Ho). simpl. by rewrite Hl. Qed.

Lemma lock_acquire_loop_ok strict fuel s lk fs b enabled :
  wf strict true [] [] s -> is_Some (locks s !! lk) -> Forall (frame_ok (locks s)) fs ->
  out_ok strict (current_thread_id s) s (lock_acquire_loop fuel enabled lk fs b s).
Proof.
  revert s. induction fuel as [|fuel IH]; intros s Hwf [l Hl] Hfs; [by left|].
  cbn [lock_acquire_loop]. rewrite Hl. simpl. pose proof (wf_lock _ _ _ _ _ Hwf _ _ Hl) as Hq.
  destruct (isAcquired l) eqn:Ha; simpl.
  - apply out_ok_then.
    + apply thread_sleep_ok; [done..|]. constructor; [|done]. by eexists.
    + intros v s' H' Hc Hk. rewrite <- Hc. destruct (proj1 Hk _ _ Hl) as (l' & Hl' & _).
      apply IH; [done|by eexists|]. by eapply frames_keep.
  - split_and!; [apply wf_intr, wf_set_lock; [done..|by eapply wf_next_lk, mk_is_Some|intros o Ho; exact (lock_owns _ _ _ _ _ _ _ _ Hwf Hl Ho)]|done|]. split_and!; [|done..].
    intros lk' l' H. simpl. destruct (decide (lk = lk')) as [->|]; [|rewrite lookup_insert_ne by done; eauto].
    rewrite lookup_insert_eq. eexists. split; [done|]. simplify_eq. simpl. split; [done|congruence].
Qed.

Lemma lock_acquire_ok strict s lk fs b :
  wf strict true [] [] s -> is_Some (locks s !! lk) -> Forall (frame_ok (locks s)) fs ->
  out_ok strict (current_thread_id s) s (lock_acquire (Some lk) fs b s).
Proof.
  intros Hwf Hl Hfs. unfold lock_acquire, interrupts_set. cbn [nonnull obind].
  apply (out_ok_keeps _ _ _ (set_intr false s)); [by apply keeps_same|].
  apply (lock_acquire_loop_ok strict LOCK_FUEL (set_intr false s)); [by apply wf_intr|done..].
Qed.

#[local] Arguments thread_wakeup : simpl never.

(** Operations that return a state. *)
Definition res_ok (strict : bool) (s : st) (m : res st) : Prop :=
  exists s', m = Ret s' /\ wf strict true [] [] s' /\ current_thread_id s' = current_thread_id s /\
    keeps (current_thread_id s) s s'.

Lemma res_ok_out strict s m v :
  res_ok strict s m -> out_ok strict (current_thread_id s) s (s <~ m;; Return v s).
Proof. intros (s' & -> & ? & ? & ?). done. Qed.

Lemma lock_release_ok strict s lk :
  wf strict true [] [] s -> is_Some (locks s !! lk) -> res_ok strict s (lock_release (Some lk) s).
Proof.
  intros Hwf [l Hl]. unfold lock_release, interrupts_set. cbn. rewrite Hl. cbn.
  destruct (isAcquired l && _) eqn:E.
  - destruct (thread_wakeup_ok _ _ _ _ (set_intr false s) (wait_on_lock l) 1 (current_thread_id s)
      (wf_intr _ _ _ _ _ _ Hwf) (wf_lock _ _ _ _ _ Hwf _ _ Hl)) as (v & rq & m & -> & H1 & Hk).
    simpl. eexists. split_and!; [done|apply wf_intr|done|].
    + apply (wf_set_lock _ _ _ _ _ lk (Lock (wait_on_lock l) false (-1)) H1).
      * apply Hk. simpl. by eapply wf_lock.
      * by eapply (wf_next_lk _ _ _ _ _ Hwf), mk_is_Some.
      * intros o Ho. exact (lock_owns _ _ _ _ _ _ _ _ H1 Hl Ho).
    + split_and!; [|apply Hk..]. intros lk' l' H. simpl.
      destruct (decide (lk = lk')) as [->|]; [|rewrite lookup_insert_ne by done; eauto].
      rewrite lookup_insert_eq. simplify_eq. eexists. split_and!; [done..|].
      simpl in E. intros _ Hne. apply andb_true_iff in E as [_ E]. lia.
  - eexists. split_and!; [done|by apply wf_intr, wf_intr|done|by apply keeps_same].
Qed.

Lemma cv_wakeup_ok strict s cv lk all :
  wf strict true [] [] s -> is_Some (cvs s !! cv) -> is_Some (locks s !! lk) ->
  res_ok strict s (cv_wakeup (Some cv) (Some lk) all s).
Proof.
  intros Hwf [q Hq] [l Hl]. unfold cv_wakeup, interrupts_set. cbn. rewrite Hl. cbn.
  destruct (isAcquired l && _).
  - rewrite Hq. cbn.
    destruct (thread_wakeup_ok _ _ _ _ (set_intr false s) q all (current_thread_id s)
      (wf_intr _ _ _ _ _ _ Hwf) (wf_cv _ _ _ _ _ Hwf _ _ Hq)) as (v & rq & m & -> & H1 & Hk).
    simpl. eexists. split_and!; [done|by apply wf_intr|done|done].
  - eexists. split_and!; [done|by apply wf_intr, wf_intr|done|by apply keeps_same].
Qed.

Lemma cv_wait_ok strict s cv lk fs b :
  wf strict true [] [] s -> is_Some (cvs s !! cv) -> is_Some (locks s !! lk) ->
  Forall (frame_ok (locks s)) fs ->
  out_ok strict (current_thread_id s) s (cv_wait (Some cv) (Some lk) fs b s).
Proof.
  intros Hwf [q Hq] [l Hl] Hfs. unfold cv_wait, interrupts_set. cbn [nonnull obind].
  change (locks (set_intr false s)) with (locks s). rewrite Hl. cbn [deref obind].
  destruct (isAcquired l && _); [|by apply (out_ok_ret _ s)].
  apply (out_ok_keeps _ _ _ (set_intr false s)); [by apply keeps_same|].
  destruct (lock_release_ok strict (set_intr false s) lk) as (s1 & -> & H1 & Hc1 & Hk1);
    [by apply wf_intr|by eexists|]. simpl in Hc1, Hk1. cbn [obind].
  apply (out_ok_keeps _ _ _ _ _ Hk1). rewrite (proj2 (proj2 Hk1) _ _ Hq). cbn [deref obind].
  destruct (proj1 Hk1 _ _ Hl) as (l1 & Hl1 & _).
  assert (Hf1 : Forall (frame_ok (locks s1)) fs) by (by eapply (frames_keep _ (set_intr false s))).
  rewrite <- Hc1. apply out_ok_then.
  - apply thread_sleep_ok; [done|by eapply wf_cv, (proj2 (proj2 Hk1))|]. constructor; [by eexists|done].
  - intros v s2 H2 Hc2 Hk2. destruct (proj1 Hk2 _ _ Hl1) as (l2 & Hl2 & _). rewrite <- Hc2.
    apply out_ok_then.
    + apply lock_acquire_ok; [done|by eexists|]. constructor; [done|]. by eapply frames_keep.
    + intros v' s3 H3 <- _. by apply (out_ok_ret _ s3).
Qed.

(** ** thread_create *)

(** The first part of thread_create: the current thread's context is
    overwritten, an id is taken and the stack left over from the id's last
    thread is freed. *)
Definition create_slot (s : st) : res (Z * st) :=
  s ← upd (current_thread_id s) (w_ctx (Ctx PCreate true None 0 0)) s;
  let (i, s) := removeFromHead s in
  if i =? -1 then Ret (i, s)
  else
    x ← tcb i s;
    s ← match stack_to_free x with
        | Some a => s ← free_stack a s; upd i (w_stack None) s
        | None => Ret s
        end;
    Ret (i, s).

Lemma create_slot_ok strict s :
  wf strict true [] [] s ->
  exists i s', create_slot s = Ret (i, s') /\ current_thread_id s' = current_thread_id s /\
    keeps (current_thread_id s) s s' /\ locks s' = locks s /\
    ((availableThreadIds s = [] /\ i = -1 /\ wf strict true [] [] s') \/
     (exists l x c, availableThreadIds s = i :: l /\ (i =? -1) = false /\ wf strict true [] [i] s' /\
        TCBs s' !! i = Some x /\ t_state x = NOT_ASSIGNED /\ stack_to_free x = None /\
        TCBs s' !! current_thread_id s = Some c /\ uc_blocked (mycontext c) = true /\
        current_thread_id s <> i /\
        (stacks s' = stacks s ∖ freed_by_create s))).
Proof.
  intros Hwf. destruct (wf_cur_Some _ _ _ _ Hwf) as (c & Hc & Hr). unfold create_slot.
  erewrite upd_ok by exact Hc. cbn [mbind res_bind].
  set (c' := w_ctx _ c). set (s1 := set_TCBs _ s). set (cur := current_thread_id s) in *.
  assert (H1 : wf strict true [] [] s1).
  { apply (wf_upd _ _ _ _ s cur c (fun _ => c')); try done.
    - intros q. by apply (wf_wq _ _ _ _ _ Hwf cur c q).
    - right. destruct (wf_thr _ _ _ _ _ Hwf cur c Hc (not_elem_of_nil _)) as [_ Hs].
      split; [simpl; congruence|]. intros E. destruct (Hs E) as [? Hsc]. split; [done|].
      intros _. apply Hsc. left. congruence. }
  unfold removeFromHead. change (availableThreadIds s1) with (availableThreadIds s).
  destruct (availableThreadIds s) as [|i l] eqn:Hav.
  { exists (-1), s1. split_and!; [done|done|by apply keeps_same|done|by left]. }
  destruct (wf_pop_avail _ _ _ _ s1 i l H1 Hav) as (H2 & Hi & _).
  assert (Hne : (i =? -1) = false).
  { apply (wf_in_range _ _ _ _ _ _ _ H1) in Hi. unfold in_range in Hi. lia. }
  apply state_of_Some in Hi as (x & Hx & Hxs). rewrite Hne. unfold tcb.
  change (TCBs (set_avail l s1)) with (TCBs s1). rewrite Hx. cbn [deref mbind res_bind].
  assert (Hci : cur <> i).
  { intros E. rewrite <- E in Hx. subst s1. simpl in Hx. rewrite lookup_insert_eq in Hx.
    simplify_eq. simpl in Hxs. congruence. }
  assert (Hxs0 : TCBs s !! i = Some x).
  { subst s1. simpl in Hx. by rewrite lookup_insert_ne in Hx. }
  assert (Hfr : freed_by_create s = match stack_to_free x with Some a => {[a]} | None => ∅ end).
  { unfold freed_by_create. by rewrite Hav, Hxs0. }
  destruct (stack_to_free x) as [a|] eqn:Ha.
  - unfold free_stack. rewrite bool_decide_true by (by apply (wf_live _ _ _ _ _ H1 i x)).
    rewrite bool_decide_false by (apply (not_running_on _ _ _ _ _ i x a H2 Hx Ha); by apply not_eq_sym).
    cbn [mbind res_bind]. erewrite upd_ok by exact Hx. cbn [mbind res_bind].
    eexists _, _. split; [done|]. split_and!; [done|by apply keeps_same|done|right].
    exists l, (w_stack None x), c'. split_and!; try done.
    + by apply (wf_free_stack _ _ _ _ (set_avail l s1) i x a).
    + simpl. by rewrite lookup_insert_eq.
    + simpl. rewrite lookup_insert_ne by done. by rewrite lookup_insert_eq.
    + simpl. by rewrite Hfr.
  - eexists _, _. split; [done|]. split_and!; [done|by apply keeps_same|done|right].
    exists l, x, c'. split_and!; try done.
    + subst s1. simpl. by rewrite lookup_insert_eq.
    + rewrite Hfr. simpl. by rewrite difference_empty_L.
Qed.

Lemma upd_frame t f s s' :
  upd t f s = Ret s' -> current_thread_id s' = current_thread_id s /\ readyQueue s' = readyQueue s /\
    availableThreadIds s' = availableThreadIds s.
Proof. unfold upd. intros H. inv_res H. by simplify_eq. Qed.

Lemma create_slot_frame s i s' :
  create_slot s = Ret (i, s') -> readyQueue s' = readyQueue s /\ availableThreadIds s' = drop 1 (availableThreadIds s).
Proof.
  unfold create_slot. intros H. inv_res H. apply upd_frame in H0 as (_ & Hr & Hav).
  unfold removeFromHead in H. rewrite Hav in H. destruct (availableThreadIds s) as [|j l]; simpl in H.
  { by simplify_eq. }
  destruct (j =? -1); [by simplify_eq|]. inv_res H. inv_res H. simplify_eq.
  destruct (stack_to_free _); [|by simplify_eq]. inv_res H1.
  unfold free_stack in *. repeat case_bool_decide; simplify_eq. apply upd_frame in H1 as (_ & -> & ->). done.
Qed.

(** The rest of thread_create. *)
Definition create_fill (enabled : bool) (m : option Z) (fn parg : Z) (i : Z) (s : st) : outcome :=
  s <~ upd i (w_stack m) s;;
  match m with
  | None => Return THREAD_NOMEMORY (set_intr enabled s)
  | Some a =>
      let s := set_stacks (stacks s ∪ {[a]}) s in
      c <~ tcb (current_thread_id s) s;;
      s <~ upd i (w_ctx (Ctx (PStub fn parg) (uc_blocked (mycontext c)) (Some a) THREAD_MIN_STACK (stack_top a))) s;;
      s <~ upd i (w_state READY) s;;
      Return i (set_intr enabled (set_ready (readyQueue s ++ [i]) s))
  end.

Lemma upd_current t f s s' : upd t f s = Ret s' -> current_thread_id s' = current_thread_id s.
Proof. apply upd_frame. Qed.

Lemma thread_create_split m fn parg s :
  thread_create m fn parg s =
  (r <~ create_slot (set_intr false s);;
   if r.1 =? -1 then Return THREAD_NOMORE (set_intr (intr s) r.2)
   else create_fill (intr s) m fn parg r.1 r.2).
Proof.
  unfold thread_create, create_slot, create_fill, interrupts_set.
  change (current_thread_id (set_intr false s)) with (current_thread_id s).
  destruct (upd _ _ (set_intr false s)) as [s1|] eqn:E1; cbn [obind mbind res_bind]; [|done].
  apply upd_current in E1. simpl in E1. rewrite <- E1.
  destruct (removeFromHead s1) as [i s2] eqn:E2.
  assert (Hc2 : current_thread_id s1 = current_thread_id s2).
  { unfold removeFromHead in E2. by destruct (availableThreadIds s1); simplify_eq. }
  destruct (i =? -1) eqn:Ei; cbn [obind mbind res_bind fst snd]; [by rewrite Ei|].
  destruct (tcb i s2) as [x|]; cbn [obind mbind res_bind]; [|done].
  set (m3 := match stack_to_free x with Some _ => _ | None => _ end).
  assert (Hc3 : forall s3, m3 = Ret s3 -> current_thread_id s2 = current_thread_id s3).
  { subst m3. intros s3 E3. destruct (stack_to_free x); [|congruence].
    inv_res E3. unfold free_stack in *. repeat case_bool_decide; simplify_eq. by apply upd_current in E3. }
  destruct m3 as [s3|]; cbn [obind mbind res_bind fst snd]; [|done].
  specialize (Hc3 s3 eq_refl). rewrite Ei.
  destruct (upd i (w_stack m) s3) as [s4|] eqn:E4; cbn [obind]; [|done].
  apply upd_current in E4. destruct m as [a|]; [|done].
  replace (current_thread_id s1) with (current_thread_id (set_stacks (stacks s4 ∪ {[a]}) s4)); [done|].
  simpl. congruence.
Qed.

Lemma create_fill_ok strict enabled m fn parg i s x c :
  let cur := current_thread_id s in
  wf strict true [] [i] s -> TCBs s !! i = Some x -> t_state x = NOT_ASSIGNED -> stack_to_free x = None ->
  TCBs s !! cur = Some c -> uc_blocked (mycontext c) = true -> cur <> i ->
  match m with Some a => a ∉ stacks s | None => strict = false end ->
  out_ok strict cur s (create_fill enabled m fn parg i s).
Proof.
  intros cur Hwf Hx Hxs Hsk Hc Hb Hne Hm. unfold create_fill. rewrite (upd_ok i _ s x) by done.
  cbn [obind]. destruct m as [a|].
  - set (s1 := set_stacks _ _).
    assert (H1 : wf strict true [] [i] s1) by (by apply (wf_alloc_stack _ _ _ _ s i x a)).
    assert (Hx1 : TCBs s1 !! i = Some (w_stack (Some a) x)) by (subst s1; simpl; by rewrite lookup_insert_eq).
    unfold tcb. change (current_thread_id s1) with cur.
    assert (Hc1 : TCBs s1 !! cur = Some c) by (subst s1; simpl; by rewrite lookup_insert_ne).
    rewrite Hc1. cbn [deref obind]. rewrite Hb.
    set (ctx := Ctx _ _ _ _ _). erewrite upd_ok by exact Hx1. cbn [obind].
    set (x2 := w_ctx ctx (w_stack (Some a) x)). set (s2 := set_TCBs _ s1).
    destruct (wf_thr _ _ _ _ _ Hwf i x Hx (not_elem_of_nil _)) as [_ Hstrict].
    assert (Hsc : strict = true -> killOnNextRun x = 0 /\ setcontext_called x = 0).
    { intros E. destruct (Hstrict E) as [? H]. split; [done|]. apply H. left. congruence. }
    assert (H2 : wf strict true [] [i] s2).
    { apply (wf_upd _ _ _ _ s1 i _ (w_ctx ctx)); try done.
      - intros q. by apply (wf_wq _ _ _ _ _ Hwf i x q).
      - right. split; [simpl; congruence|]. intros E. destruct (Hsc E). auto. }
    assert (Hx2 : TCBs s2 !! i = Some x2) by (subst s2; simpl; by rewrite lookup_insert_eq).
    erewrite upd_ok by exact Hx2. cbn [obind].
    pose proof (wf_make_ready _ _ _ _ s2 i x2 H2 Hx2 Hxs ltac:(by eexists)) as H3.
    apply wf_push_ready in H3; [|unfold state_of; simpl; by rewrite lookup_insert_eq].
    split_and!; [|done|by apply keeps_same]. apply wf_intr. eapply wf_unex; [exact H3|].
    intros z Hz. simpl in Hz. rewrite lookup_insert_eq in Hz. injection Hz as <-.
    split; [done|]. intros E. destruct (Hsc E). auto.
  - subst strict. split_and!; [|done|by apply keeps_same]. apply wf_intr.
    apply (wf_lose _ _ [i]); [|apply list_subseteq_nil].
    apply (wf_upd _ _ _ _ s i x (w_stack None)); try done.
    + intros q. by apply (wf_wq _ _ _ _ _ Hwf i x q).
    + right. split; [simpl; congruence|done].
Qed.

Lemma thread_create_ok strict m fn parg s :
  wf strict true [] [] s -> malloc_ok (ThreadCreate m fn parg) s = true -> (strict = true -> m <> None) ->
  out_ok strict (current_thread_id s) s (thread_create m fn parg s).
Proof.
  intros Hwf Hm Hstrict. rewrite thread_create_split.
  destruct (create_slot_ok strict (set_intr false s) (wf_intr _ _ _ _ _ _ Hwf))
    as (i & s' & -> & Hc & Hk & Hlk & Hcase). cbn [obind fst snd].
  apply (out_ok_keeps _ _ _ s'); [done|]. simpl in Hc.
  destruct Hcase as [(_ & -> & H1)|(l & x & c & _ & -> & H1 & Hx & Hxs & Hsk & Hcur & Hb & Hne & Hst)].
  - rewrite <- Hc. by apply (out_ok_ret _ s').
  - rewrite <- Hc. eapply create_fill_ok; [done..| | | |]; rewrite ?Hc; [done..|].
    destruct m as [a|]; simpl in Hm; [|by destruct strict; [destruct Hstrict|]].
    apply bool_decide_eq_true in Hm. by rewrite Hst.
Qed.

(** ** Resuming a thread *)
Lemma return_to_ok strict fs b v s :
  wf strict true [] [] s -> Forall (frame_ok (locks s)) fs ->
  out_ok strict (current_thread_id s) s (return_to fs b v s).
Proof.
  revert v s. induction fs as [|f fs IH]; intros v s Hwf Hfs; cbn [return_to].
  { split_and!; [done..|]. reflexivity. }
  apply Forall_cons in Hfs as [Hf Hfs].
  assert (Hint : forall v e s', wf strict true [] [] s' -> current_thread_id s' = current_thread_id s ->
             Forall (frame_ok (locks s')) fs ->
             out_ok strict (current_thread_id s) s' (return_to fs b v (set_intr e s'))).
  { intros v' e s' H' <- Hfs'. apply (out_ok_keeps _ _ _ (set_intr e s')); [by apply keeps_same|].
    apply (IH v' (set_intr e s')); [by apply wf_intr|done]. }
  destruct f; simpl in Hf; [done|by apply Hint|by apply Hint|..|by apply Hint|by apply Hint].
  - apply out_ok_then; [by apply lock_acquire_loop_ok|].
    intros v' s' H' Hc Hk. rewrite <- Hc. apply IH; [done|]. by eapply frames_keep.
  - apply out_ok_then; [apply lock_acquire_ok; [done..|]; by constructor|].
    intros v' s' H' Hc Hk. apply Hint; [done..|]. by eapply frames_keep.
Qed.
