(* ===== verification/ThreadReach.v ===== *)
(** * Reachable configurations of the thread package

    The machine's configurations reached from the end of thread_init by any
    client program that respects the package's contract ([client_ok]), with
    any preemptions.  The theorems at the end read the invariant back as
    statements about the program. *)
From S2P Require Import Prelude DList Threads ThreadMachine ThreadInv ThreadSafety.

(** ** thread_init establishes the invariant *)

(** The TCBs that have been initialised: those [f] gives a state. *)
Record init_tcbs (f : Z -> option ThreadState) (s : st) : Prop := InitTcbs {
  it_tcb : forall t x, TCBs s !! t = Some x -> exists a q, f t = Some a /\
             x = Thread a t zero_ctx None 0 0 None (Some q) /\ wqs s !! q = Some [];
  it_dom : forall t, is_Some (f t) -> is_Some (TCBs s !! t);
  it_inj : forall t1 t2 x1 x2 q, TCBs s !! t1 = Some x1 -> TCBs s !! t2 = Some x2 ->
             t_wait x1 = Some q -> t_wait x2 = Some q -> t1 = t2;
  it_wqs : forall q l, wqs s !! q = Some l -> l = [];
  it_next : forall q, is_Some (wqs s !! q) -> (q < next_addr s)%positive
}.

Lemma init_tcb_ok f s i a :
  init_tcbs f s -> f i = None ->
  init_tcbs (fun t => if decide (i = t) then Some a else f t) (init_tcb i a s).
Proof.
  intros [Ht Hd Hi Hw Hn] Hfi. unfold init_tcb, wait_queue_create, alloc_addr.
  set (q := next_addr s).
  assert (Hq : wqs s !! q = None).
  { destruct (wqs s !! q) eqn:E; [|done]. destruct (Pos.lt_irrefl q). apply Hn. by eexists. }
  assert (Hold : forall t x, TCBs s !! t = Some x -> t_wait x <> Some q).
  { intros t x H E. destruct (Ht t x H) as (a' & q' & _ & -> & H'). simpl in E. congruence. }
  constructor; simpl.
  - intros t x. rewrite lookup_insert. case_decide as E; intros H; simplify_eq.
    + eexists a, q. by rewrite lookup_insert_eq.
    + destruct (Ht t x H) as (a' & q' & ? & ? & ?). exists a', q'. split_and!; [done..|].
      rewrite lookup_insert_ne; [done|]. congruence.
  - intros t H. rewrite lookup_insert_is_Some'. case_decide; [by left|right; auto].
  - intros t1 t2 x1 x2 q' H1 H2 Hq1 Hq2. rewrite lookup_insert in H1, H2.
    repeat case_decide; simplify_eq/=; try done; [..|by eapply Hi].
    + exfalso. by eapply Hold.
    + exfalso. by eapply Hold.
  - intros q' l. rewrite lookup_insert. case_decide; [by intros [= <-]|eauto].
  - intros q'. rewrite lookup_insert_is_Some'. intros [<-|Hs]; [apply Pos.lt_succ_diag_r|].
    apply Pos.lt_lt_succ. eauto.
Qed.

Definition ids_above (n : nat) (t : Z) : option ThreadState :=
  if decide (Z.of_nat n < t < THREAD_MAX_THREADS) then Some NOT_ASSIGNED else None.

Lemma init_tcbs_ext f g s : (forall t, f t = g t) -> init_tcbs f s -> init_tcbs g s.
Proof. intros E [Ht Hd Hi Hw Hn]. constructor; try done; setoid_rewrite <- E; done. Qed.

Lemma init_loop_ok n s :
  init_tcbs (ids_above n) s -> (n < 1024)%nat -> availableThreadIds s = seqZ (Z.of_nat n + 1) (1023 - Z.of_nat n) ->
  init_tcbs (ids_above 0) (init_loop n s) /\
  availableThreadIds (init_loop n s) = seqZ 1 1023 /\
  readyQueue (init_loop n s) = readyQueue s /\ locks (init_loop n s) = locks s /\
  cvs (init_loop n s) = cvs s.
Proof.
  revert s. induction n as [|n IH]; intros s Hs Hn Hav; [done|]. cbn [init_loop].
  set (s' := init_tcb _ _ _). apply (IH s'); [|lia|].
  - eapply init_tcbs_ext, (init_tcb_ok _ (addToHeadId (Z.of_nat (S n)) s));
      [|by destruct Hs; constructor|].
    + intros t. unfold ids_above, THREAD_MAX_THREADS. cbn beta. repeat case_decide; try done; lia.
    + unfold ids_above. rewrite decide_False; [done|]. lia.
  - subst s'. unfold init_tcb. simpl. rewrite Hav. symmetry.
    rewrite seqZ_cons by lia. f_equal; [lia|]. f_equal; lia.
Qed.

(** The last two statements of thread_init. *)
Lemma init_finish_wf s :
  init_tcbs (ids_above 0) s -> availableThreadIds s = seqZ 1 1023 -> readyQueue s = [] ->
  locks s = ∅ -> cvs s = ∅ -> wf true true [] [] (set_current 0 (init_tcb 0 RUNNING s)).
Proof.
  intros Hs Hav Hrq Hlk Hcv.
  pose proof (init_tcb_ok _ s 0 RUNNING Hs eq_refl) as [Ht Hd Hi Hw Hn].
  set (s1 := set_current 0 (init_tcb 0 RUNNING s)).
  set (f := fun t => if decide (0 = t) then Some RUNNING else ids_above 0 t) in *.
  assert (Hf : forall t, is_Some (f t) <-> in_range t).
  { intros t. subst f. unfold ids_above, in_range, THREAD_MAX_THREADS. simpl.
    repeat case_decide; (split; [intros Hs'|intros Hr]); try (by eexists); try lia; by destruct Hs'. }
  assert (Hst : forall t, state_of s1 t = f t).
  { intros t. unfold state_of. change (TCBs s1) with (TCBs (init_tcb 0 RUNNING s)).
    destruct (TCBs (init_tcb 0 RUNNING s) !! t) as [x|] eqn:E.
    - destruct (Ht t x E) as (a & q & Hfa & -> & _). symmetry. exact Hfa.
    - destruct (f t) eqn:E'; [|done]. destruct (Hd t) as [? ?]; [by eexists|congruence]. }
  assert (Hnw : forall t, ~ waiting s1 t).
  { intros t (q & l & Hq & Hl). apply Hw in Hq. subst l. by apply elem_of_nil in Hl. }
  assert (Hr : readyQueue s1 = []) by exact Hrq.
  assert (Ha : forall t, t ∈ availableThreadIds s1 <-> 0 < t < THREAD_MAX_THREADS).
  { intros t. change (availableThreadIds s1) with (availableThreadIds s).
    rewrite Hav, elem_of_seqZ. unfold THREAD_MAX_THREADS. lia. }
  change (wf true true [] [] s1).
  constructor; try done; rewrite ?Hr.
  - intros t. split; [intros [x E]; destruct (Ht t x E) as (a & q & E' & _); apply Hf; by eexists|].
    intros H%Hf. by apply Hd.
  - intros t. rewrite Hst. subst f. simpl. case_decide; [by intros; subst|].
    unfold ids_above. by case_decide.
  - intros t H. by apply elem_of_nil in H.
  - intros t H%Ha. rewrite Hst. subst f. unfold ids_above. simpl.
    rewrite decide_False by lia. by rewrite decide_True.
  - intros t H. by apply Hnw in H.
  - constructor.
  - change (availableThreadIds s1) with (availableThreadIds s). rewrite Hav. apply NoDup_seqZ.
  - intros q l Hq. apply Hw in Hq. subst. constructor.
  - intros q1 q2 l1 l2 t Hq. apply Hw in Hq. subst l1. by intros _ H%elem_of_nil.
  - intros t H. by apply elem_of_nil in H.
  - intros t x E _. destruct (Ht t x E) as (a & q & Hfa & -> & _). split; [|done].
    simpl. intros ->. subst f. simpl in Hfa. unfold ids_above in Hfa. repeat case_decide; done.
  - intros t x q E. by destruct (Ht t x E) as (a & q' & _ & -> & _).
  - intros t x E. destruct (Ht t x E) as (a & q' & _ & -> & H). exists q'. split; [done|]. by eexists.
  - intros lk l. change (locks s1) with (locks s). by rewrite Hlk.
  - intros c q. change (cvs s1) with (cvs s). by rewrite Hcv.
  - intros lk. change (locks s1) with (locks s). rewrite Hlk. by intros [? ?].
  - intros c. change (cvs s1) with (cvs s). rewrite Hcv. by intros [? ?].
  - intros t x a E. by destruct (Ht t x E) as (a' & q' & _ & -> & _).
  - intros t x E Hpos Hna. exfalso. destruct (Ht t x E) as (a' & q' & Hfa & -> & _).
    subst f. simpl in Hfa, Hna. unfold ids_above in Hfa. repeat case_decide; try lia; congruence.
  - intros t1 t2 x1 x2 a E. by destruct (Ht t1 x1 E) as (a' & q' & _ & -> & _).
  - assert (Ho : forall o q, owns s1 o q -> exists t x, o = OExit t /\ TCBs s1 !! t = Some x /\ t_wait x = Some q).
    { intros [lk|c|t] q; simpl.
      - change (locks s1) with (locks s). rewrite Hlk, lookup_empty. done.
      - change (cvs s1) with (cvs s). rewrite Hcv, lookup_empty. done.
      - intros (x & Hx & Hq)%bind_Some. by exists t, x. }
    intros o1 o2 q (t1 & x1 & -> & H1 & Hq1)%Ho (t2 & x2 & -> & H2 & Hq2)%Ho. f_equal. by eapply Hi.
  - intros _ t Hrange. destruct (decide (t = 0)); [by left|]. right; right; left. apply Ha.
    unfold in_range in Hrange. lia.
Qed.

Lemma thread_init_wf : wf true true [] [] (thread_init boot).
Proof.
  unfold thread_init.
  destruct (init_loop_ok 1023 (set_avail [] (set_ready [] boot))) as (Hs & Hav & Hrq & Hlk & Hcv);
    [|lia|reflexivity|].
  - constructor; simpl; try done.
    + intros t [a H]. unfold ids_above, THREAD_MAX_THREADS in H. case_decide; [lia|done].
    + by intros q [? ?].
  - exact (init_finish_wf _ Hs Hav Hrq Hlk Hcv).
Qed.

(** ** The client's contract *)

Definition valid_lock (s : st) (lk : option addr) : Prop := exists a, lk = Some a /\ is_Some (locks s !! a).
Definition valid_cv (s : st) (cv : option addr) : Prop := exists a, cv = Some a /\ is_Some (cvs s !! a).
Definition valid_wq (s : st) (q : option addr) : Prop :=
  match q with Some a => is_Some (wqs s !! a) | None => True end.

(** No thread sleeps on the queue, or is about to. *)
Definition idle_wq (s : st) (q : addr) : Prop :=
  wqs s !! q = Some [] /\ map_Forall (fun _ x => waitQueue x <> Some q) (TCBs s).

(** The queue was made by wait_queue_create for the program: it is not inside
    a lock or a condition variable, and no thread's exit queue. *)
Definition unowned (s : st) (q : addr) : Prop :=
  map_Forall (fun _ l => wait_on_lock l <> q) (locks s) /\
  map_Forall (fun _ q' => q' <> q) (cvs s) /\
  map_Forall (fun _ x => t_wait x <> Some q) (TCBs s).

(** When thread.h lets an object be destroyed: nobody sleeps on it, a lock is
    available, and no thread is inside a call that will use the lock again. *)
Definition destroyable_lock (s : st) (lk : addr) : Prop :=
  match locks s !! lk with
  | Some l => isAcquired l = false /\ idle_wq s (wait_on_lock l) /\
              map_Forall (fun _ x => t_state x = READY -> uses_lock lk x = false) (TCBs s)
  | None => False
  end.
Definition destroyable_cv (s : st) (cv : addr) : Prop :=
  match cvs s !! cv with Some q => idle_wq s q | None => False end.

(** What the callers must respect: locks, condition variables and wait queues
    passed to the package have been created by it and not destroyed, what is
    destroyed has no user left, a killed id is not one of the special values
    -7..-1 and a waited-for id is not past the table (both read outside the
    table, [kill_wait_bad_ids]).  In strict mode the program also never kills
    a thread and never runs out of memory for stacks. *)
Definition client_ok (strict : bool) (c : call) (s : st) : Prop :=
  match c with
  | ThreadCreate m _ _ => strict = true -> m <> None
  | ThreadKill tid => strict = false /\ (0 <= tid \/ tid < -7)
  | ThreadWait tid => tid < THREAD_MAX_THREADS
  | ThreadSleep q | ThreadWakeup q _ => valid_wq s q
  | LockAcquire lk | LockRelease lk => valid_lock s lk
  | CvWait cv lk | CvSignal cv lk | CvBroadcast cv lk => valid_cv s cv /\ valid_lock s lk
  | WqDestroy q => idle_wq s q /\ unowned s q
  | LockDestroy lk => match lk with Some a => destroyable_lock s a | None => False end
  | CvDestroy cv => match cv with Some a => destroyable_cv s a | None => False end
  | ThreadId | ThreadYield _ | ThreadExit | WqCreate | LockCreate | CvCreate | InterruptsSet _ => True
  end.

Definition label_ok (strict : bool) (l : label) (c : config) : Prop :=
  match l, c with LCall call, Running _ _ s => client_ok strict call s | _, _ => True end.

#[global] Instance valid_lock_dec s lk : Decision (valid_lock s lk).
Proof.
  destruct lk as [a|]; [destruct (decide (is_Some (locks s !! a)))|]; [left|right|right].
  - by exists a.
  - by intros (a' & [= <-] & ?).
  - by intros (a' & ? & ?).
Defined.

#[global] Instance valid_cv_dec s cv : Decision (valid_cv s cv).
Proof.
  destruct cv as [a|]; [destruct (decide (is_Some (cvs s !! a)))|]; [left|right|right].
  - by exists a.
  - by intros (a' & [= <-] & ?).
  - by intros (a' & ? & ?).
Defined.

#[global] Instance client_ok_dec strict c s : Decision (client_ok strict c s).
Proof.
  destruct c; simpl; try apply _; unfold valid_wq, idle_wq, unowned, destroyable_lock, destroyable_cv, idle_wq;
    repeat case_match; apply _.
Defined.

#[global] Instance label_ok_dec strict l c : Decision (label_ok strict l c).
Proof. destruct l, c; simpl; apply _. Defined.

(** Runs a schedule, checking the contract at every call. *)
Fixpoint exec (strict : bool) (ls : list label) (c : config) : option config :=
  match ls with
  | [] => Some c
  | l :: ls => if decide (label_ok strict l c) then c ← step l c; exec strict ls c else None
  end.

Inductive reach (strict : bool) : config -> Prop :=
| reach_start : reach strict start
| reach_step c l c' : reach strict c -> label_ok strict l c -> step l c = Some c' -> reach strict c'.

(** ** The invariant of the machine *)
Definition cfg_ok (strict : bool) (c : config) : Prop :=
  match c with
  | Running _ _ s => wf strict true [] [] s
  | Dispatching s => resumable strict s
  | Halted code _ => code = 0
  | Faulted e => e = Diverge \/ e = FreedStack
  end.

Definition cfg_st (c : config) : option st :=
  match c with Running _ _ s | Dispatching s => Some s | _ => None end.

(** A lock that a thread other than [cur] holds is left alone. *)
Definition held_kept (cur : Z) (s s' : st) : Prop :=
  forall lk l, locks s !! lk = Some l -> isAcquired l = true -> acquiredBy l <> cur -> locks s' !! lk = Some l.

Lemma keeps_held cur s s' : keeps cur s s' -> held_kept cur s s'.
Proof. intros (Hl & _) lk l H Ha Hb. destruct (Hl lk l H) as (l' & H' & _ & E). by rewrite <- (E Ha Hb). Qed.

(** What a step from state [s] leads to.  Only a thread that thread_create
    made ends up on a freed stack. *)
Definition next_ok (strict : bool) (s : st) (c : config) : Prop :=
  cfg_ok strict c /\ (forall s', cfg_st c = Some s' -> held_kept (current_thread_id s) s s') /\
  (c = Faulted FreedStack -> current_thread_id s <> 0).

Lemma finish_ok strict s b o : out_ok strict (current_thread_id s) s o -> next_ok strict s (finish b o).
Proof.
  destruct o as [v s'|s'|code s'|e]; simpl.
  - intros (? & ? & ?). split_and!; [done| |done]. intros ? [= <-]. by apply keeps_held.
  - intros (? & ?). split_and!; [done| |done]. intros ? [= <-]. by apply keeps_held.
  - intros ->. by split_and!.
  - intros [-> |[-> ?]]; split_and!; try done; [by left|by right].
Qed.

Lemma next_None {B} (mp : gmap positive B) q :
  (forall q', is_Some (mp !! q') -> (q' < q)%positive) -> mp !! q = None.
Proof. intros H. destruct (mp !! q) eqn:E; [|done]. destruct (Pos.lt_irrefl q). apply H. by eexists. Qed.

Lemma wait_queue_create_ok strict s :
  wf strict true [] [] s ->
  let (q, s') := wait_queue_create s in
  wf strict true [] [] s' /\ is_Some (wqs s' !! q) /\ keeps (current_thread_id s) s s' /\
  current_thread_id s' = current_thread_id s /\ (forall o, ~ owns s' o q).
Proof.
  intros Hwf. unfold wait_queue_create, alloc_addr. set (q := next_addr s).
  assert (Hq : wqs s !! q = None) by (by eapply (next_None _ q), wf_next_wq).
  split_and!; [apply (wf_new_wq _ _ _ _ (set_next_addr _ s)); [by apply wf_bump|done|apply Pos.lt_succ_diag_r]|simpl; by rewrite lookup_insert_eq| |done|].
  - apply keeps_same; [done..|]. intros q'. apply wqs_insert_mono.
  - intros o Ho. change (owns s o q) in Ho. destruct (owns_live _ _ _ _ _ _ _ Hwf Ho). congruence.
Qed.

Lemma lock_create_ok strict s :
  wf strict true [] [] s ->
  let (lk, s') := lock_create s in
  wf strict true [] [] s' /\ keeps (current_thread_id s) s s' /\ current_thread_id s' = current_thread_id s.
Proof.
  intros Hwf. unfold lock_create. pose proof (wait_queue_create_ok strict s Hwf) as H.
  destruct (wait_queue_create s) as [q s1]. destruct H as (H1 & Hq & Hk & Hc & Ho).
  unfold alloc_addr. set (lk := next_addr s1).
  assert (Hl : locks s1 !! lk = None) by (by eapply (next_None _ lk), wf_next_lk).
  split_and!; [apply (wf_set_lock _ _ _ _ (set_next_addr _ s1)); [by apply wf_bump|done|apply Pos.lt_succ_diag_r|intros o H; by destruct (Ho o)]| |done]. transitivity s1; [done|].
  split_and!; [|done..]. intros lk' l H. exists l. simpl. rewrite lookup_insert_ne; [done|congruence].
Qed.

Lemma cv_create_ok strict s :
  wf strict true [] [] s ->
  let (cv, s') := cv_create s in
  wf strict true [] [] s' /\ keeps (current_thread_id s) s s' /\ current_thread_id s' = current_thread_id s.
Proof.
  intros Hwf. unfold cv_create. pose proof (wait_queue_create_ok strict s Hwf) as H.
  destruct (wait_queue_create s) as [q s1]. destruct H as (H1 & Hq & Hk & Hc & Ho).
  unfold alloc_addr. set (cv := next_addr s1).
  assert (Hl : cvs s1 !! cv = None) by (by eapply (next_None _ cv), wf_next_cv).
  split_and!; [apply (wf_set_cv _ _ _ _ (set_next_addr _ s1)); [by apply wf_bump|done|apply Pos.lt_succ_diag_r|intros o H; by destruct (Ho o)]| |done]. transitivity s1; [done|].
  split_and!; [by eauto|done|]. intros c q' H. simpl. rewrite lookup_insert_ne; [done|congruence].
Qed.

Lemma thread_kill_ok s tid :
  wf false true [] [] s -> 0 <= tid \/ tid < -7 ->
  out_ok false (current_thread_id s) s (thread_kill tid s).
Proof.
  intros Hwf Ht. unfold thread_kill, interrupts_set.
  change (current_thread_id (set_intr false s)) with (current_thread_id s).
  destruct (_ || _) eqn:E; [by apply (out_ok_ret _ s)|].
  destruct (tid =? current_thread_id s); [by apply (out_ok_ret _ s)|].
  destruct (proj2 (wf_dom _ _ _ _ _ Hwf tid)) as [x Hx]; [unfold in_range, THREAD_MAX_THREADS; lia|].
  unfold tcb. change (TCBs (set_intr false s)) with (TCBs s). rewrite Hx. cbn [deref obind].
  case_decide; [by apply (out_ok_ret _ s)|]. erewrite upd_ok by exact Hx. cbn [obind].
  split_and!; [apply wf_intr|done|by apply keeps_same].
  apply (wf_upd _ _ _ _ (set_intr false s) tid x (w_kill 1)); try done; [by apply wf_intr|..].
  - intros q. by apply (wf_wq _ _ _ _ _ Hwf tid x q).
  - right. destruct (wf_thr _ _ _ _ _ Hwf tid x Hx (not_elem_of_nil _)) as [Hg _]. by split.
Qed.

Lemma thread_wakeup_out strict s q all :
  wf strict true [] [] s -> valid_wq s q ->
  out_ok strict (current_thread_id s) s (r <~ thread_wakeup q all s;; Return r.1 r.2).
Proof.
  intros Hwf Hq. destruct q as [q|]; [|by apply (out_ok_ret _ s)].
  by destruct (thread_wakeup_ok _ _ _ _ s q all (current_thread_id s) Hwf Hq)
    as (v & rq & m & -> & H1 & Hk).
Qed.

(** ** Destroying what nobody uses *)
Definition is_destroy (c : call) : bool :=
  match c with WqDestroy _ | LockDestroy _ | CvDestroy _ => true | _ => false end.

Lemma wait_queue_destroy_idle s q :
  wqs s !! q = Some [] -> wait_queue_destroy q s = Ret (set_wqs (delete q (wqs s)) s).
Proof.
  intros Hq. unfold wait_queue_destroy. rewrite Hq. simpl. do 2 f_equal.
  apply map_eq. intros q'. destruct (decide (q = q')) as [->|]; by simplify_map_eq.
Qed.

Lemma wf_del_idle strict run ex fl s q :
  wf strict run ex fl s -> idle_wq s q -> (forall o, ~ owns s o q) ->
  wf strict run ex fl (set_wqs (delete q (wqs s)) s).
Proof. intros Hwf [Hq Hn] Ho. by apply wf_del_wq. Qed.

Lemma unowned_owns s q o : unowned s q -> ~ owns s o q.
Proof.
  intros (Hl & Hc & Ht). destruct o as [lk|c|t]; simpl.
  - intros (l & H & E)%fmap_Some_1. by apply (Hl lk l H).
  - intros H. by apply (Hc c q H).
  - intros (x & H & E)%bind_Some. by apply (Ht t x H).
Qed.

(** A destroy call returns, keeps the invariant and leaves held locks alone. *)
Lemma do_destroy_ok strict c b s :
  wf strict true [] [] s -> client_ok strict c s -> is_destroy c = true ->
  exists s', do_call c b s = Return 0 s' /\ wf strict true [] [] s' /\ held_kept (current_thread_id s) s s'.
Proof.
  intros Hwf Hc Hd. destruct c as [| | | | | | | | |q| |[lk|]| | | |[cv|]| | | |]; try done; cbn [do_call]; simpl in Hc.
  - destruct Hc as [Hi Hu]. rewrite wait_queue_destroy_idle by apply Hi. simpl. eexists. split_and!; [done| |by intros ?].
    apply wf_del_idle; [done..|]. intros o. by apply unowned_owns.
  - unfold destroyable_lock in Hc. destruct (locks s !! lk) as [l|] eqn:Hl; [|done]. destruct Hc as (Ha & Hi & Hu).
    unfold lock_destroy. simpl. rewrite Hl. simpl. rewrite Ha. simpl.
    rewrite wait_queue_destroy_idle by apply Hi. simpl. eexists. split_and!; [done| |].
    + pose proof (wf_del_lock _ _ _ _ s lk Hwf Hu) as H1.
      apply (wf_del_idle _ _ _ _ _ (wait_on_lock l)) in H1; [done|done|]. intros o Ho.
      assert (Ho' : owns s o (wait_on_lock l)).
      { destruct o; simpl in *; try done. apply fmap_Some_1 in Ho as (l' & [_ H']%lookup_delete_Some & ->). by rewrite H'. }
      apply (lock_owns _ _ _ _ _ _ _ _ Hwf Hl) in Ho' as ->. simpl in Ho. by rewrite lookup_delete_eq in Ho.
    + intros lk' l' H Hacq _. simpl. rewrite lookup_delete_ne; [done|]. congruence.
  - unfold destroyable_cv in Hc. destruct (cvs s !! cv) as [q|] eqn:Hq; [|done].
    unfold cv_destroy. simpl. rewrite Hq. simpl. rewrite wait_queue_destroy_idle by apply Hc. simpl.
    eexists. split_and!; [done| |by intros ?].
    pose proof (wf_del_cv _ _ _ _ s cv Hwf) as H1.
    apply (wf_del_idle _ _ _ _ _ q) in H1; [done|done|]. intros o Ho.
    assert (o = OCv cv) as ->.
    { apply (wf_owner _ _ _ _ _ Hwf _ _ q); [|done]. destruct o; simpl in *; try done.
      by apply lookup_delete_Some in Ho as [_ Ho]. }
    simpl in Ho. by rewrite lookup_delete_eq in Ho.
Qed.

Lemma do_call_ok strict c b s :
  wf strict true [] [] s -> client_ok strict c s -> malloc_ok c s = true -> is_destroy c = false ->
  out_ok strict (current_thread_id s) s (do_call c b s).
Proof.
  intros Hwf Hc Hm Hd. destruct c; cbn [do_call]; simpl in Hc; try done.
  - unfold thread_id, interrupts_set. destruct (_ >=? 0); by apply (out_ok_ret _ s).
  - by apply thread_create_ok.
  - by apply thread_yield_ok.
  - by apply thread_exit_ok.
  - destruct Hc as [-> Ht]. by apply thread_kill_ok.
  - destruct q as [q|]; [by apply thread_sleep_ok|by apply (out_ok_ret _ s)].
  - by apply thread_wakeup_out.
  - by apply thread_wait_ok.
  - pose proof (wait_queue_create_ok strict s Hwf) as H. destruct (wait_queue_create s). naive_solver.
  - pose proof (lock_create_ok strict s Hwf) as H. destruct (lock_create s). naive_solver.
  - destruct Hc as (a & -> & Ha). by apply lock_acquire_ok.
  - destruct Hc as (a & -> & Ha). by apply res_ok_out, lock_release_ok.
  - pose proof (cv_create_ok strict s Hwf) as H. destruct (cv_create s). naive_solver.
  - destruct Hc as [(a & -> & Ha) (l & -> & Hl)]. by apply cv_wait_ok.
  - destruct Hc as [(a & -> & Ha) (l & -> & Hl)]. by apply res_ok_out, cv_wakeup_ok.
  - destruct Hc as [(a & -> & Ha) (l & -> & Hl)]. by apply res_ok_out, cv_wakeup_ok.
  - by apply (out_ok_ret _ s).
Qed.

Lemma interrupt_handler_ok strict b s :
  wf strict true [] [] s -> out_ok strict (current_thread_id s) s (interrupt_handler b s).
Proof.
  intros Hwf. unfold interrupt_handler, interrupts_enabled.
  change (intr (set_intr false s)) with false. cbn [obind].
  apply (out_ok_keeps _ _ _ (set_intr false s)); [by apply keeps_same|].
  apply out_ok_then.
  - apply (thread_yield_ok strict (set_intr false s)); [by apply wf_intr|]. by constructor.
  - intros v s' H' <- _. by apply (out_ok_ret _ s').
Qed.

Lemma dispatch_ok strict s : resumable strict s -> next_ok strict s (dispatch s).
Proof.
  intros [Hwf (x & Hx & Hok)]. unfold dispatch. rewrite Hx. set (cur := current_thread_id s) in *.
  destruct Hok as [Hg Hs]. specialize (Hg eq_refl). destruct Hg as [Hb Hg]. simpl in Hb, Hg.
  set (s1 := set_intr _ s). assert (H1 : wf strict true [cur] [] s1) by (by apply wf_intr).
  pose proof (wf_cur_running _ _ _ _ _ Hwf Hx) as Hr.
  destruct (uc_pc (mycontext x)) as [| |fn parg|[|[] fs] b] eqn:Hpc; try done.
  - set (s2 := if interrupts_enabled s1 then s1 else _).
    assert (H2 : wf strict true [cur] [] s2) by (subst s2; destruct (interrupts_enabled s1); [|apply wf_intr]; done).
    split_and!; [|by intros s' [= <-]; apply keeps_held, keeps_same; subst s2; destruct (interrupts_enabled s1)|done].
    apply (wf_unex _ _ _ _ _ cur); [done|].
    assert (Hx2 : TCBs s2 !! cur = Some x) by (subst s2; by destruct (interrupts_enabled s1)).
    intros z Hz. rewrite Hx2 in Hz. injection Hz as <-. split; [congruence|].
    intros E. destruct (Hs E) as [? Hsc]. split; [done|]. intros _. apply Hsc. right.
    unfold is_stub. simpl. by rewrite Hpc.
  - destruct Hg as (-> & Hsc & Hfs). cbn [return_to].
    apply (finish_ok _ s), (out_ok_keeps _ _ _ s1), out_ok_then; [by apply keeps_same|..].
    + apply (yield_tail_resumed strict s1 _ x); [done..|]. intros E. by apply Hs.
    + intros v s' H' Hc Hk. rewrite <- Hc. apply return_to_ok; [done|]. by eapply (frames_keep _ s1).
Qed.

Lemma step_next strict l c c' s :
  cfg_ok strict c -> label_ok strict l c -> step l c = Some c' -> cfg_st c = Some s -> next_ok strict s c'.
Proof.
  intros Hc Hl Hstep [= Hst]. destruct c as [b v s0|s0| |]; simplify_eq/=.
  - destruct l as [call| | | |].
    + simpl in Hstep, Hl. destruct (is_client b && malloc_ok call s) eqn:E; [|by destruct b].
      assert (E' : c' = finish b (do_call call b s)) by (destruct b; congruence). subst c'.
      apply andb_true_iff in E as [_ Hm].
      destruct (is_destroy call) eqn:Hd; [|by apply finish_ok, do_call_ok].
      destruct (do_destroy_ok strict call b s Hc Hl Hd) as (s' & -> & Hwf' & Hk).
      split_and!; [done| |done]. by intros ? [= <-].
    + assert (E' : c' = finish b (interrupt_handler b s)).
      { simpl in Hstep. destruct b, (intr s); congruence. }
      subst c'. by apply finish_ok, interrupt_handler_ok.
    + destruct b as [fn parg|fn parg| |]; try done; simpl in Hstep.
      * destruct (responsibilities_free_ok _ _ _ _ Hc) as (s1 & E & H1 & Hs1). rewrite E in Hstep.
        injection Hstep as <-. split_and!; [done| |done]. intros s' [= <-]. by apply keeps_held, (stacks_only_same s s1).
      * injection Hstep as <-. unfold responsibilities_check, tcb.
        destruct (wf_cur_Some _ _ _ _ Hc) as (x & -> & _). simpl.
        destruct (_ =? 1); [by apply finish_ok, thread_exit_ok|].
        split_and!; [done| |done]. intros s' [= <-]. by apply keeps_held.
    + destruct b; try done. injection Hstep as <-. by apply finish_ok, thread_exit_ok.
    + by destruct b.
  - destruct l; try done. injection Hstep as <-. by apply dispatch_ok.
Qed.

Lemma step_ok strict l c c' :
  cfg_ok strict c -> label_ok strict l c -> step l c = Some c' -> cfg_ok strict c'.
Proof.
  intros Hc Hl Hstep. destruct (cfg_st c) as [s|] eqn:E; [by eapply step_next|].
  destruct c, l; done.
Qed.

Lemma exec_reach strict ls c c' : reach strict c -> exec strict ls c = Some c' -> reach strict c'.
Proof.
  revert c. induction ls as [|l ls IH]; intros c Hc He; simpl in He; [by simplify_eq|].
  case_decide; [|done]. destruct (step l c) as [c1|] eqn:E; [|done]. simpl in He.
  eapply IH; [|done]. by eapply reach_step.
Qed.

Lemma wf_weaken strict run ex fl s : wf true run ex fl s -> wf strict run ex fl s.
Proof.
  intros Hwf. pose proof (wf_thr _ _ _ _ _ Hwf) as Hthr. pose proof (wf_all _ _ _ _ _ Hwf) as Hall.
  destruct Hwf. constructor; try done; [|by intros _; auto].
  intros t x Hx Hex. destruct (Hthr t x Hx Hex). by split; auto.
Qed.

Lemma reach_ok strict c : reach strict c -> cfg_ok strict c.
Proof. induction 1; [apply wf_weaken, thread_init_wf|by eapply step_ok]. Qed.
