(* ===== verification/ThreadTheorems.v ===== *)
(** * What the thread package guarantees

    The theorems about threads/thread.c: safety of every reachable
    configuration, the placement of threads, stacks, mutual exclusion, the
    behaviour of each operation that moves threads, the two schedules on which a
    thread is lost, and what the package does outside its contract. *)
From S2P Require Import Prelude DList Threads ThreadMachine ThreadInv ThreadSafety ThreadReach.

(** The configuration after a schedule that respects the contract; the start
    when the schedule is not possible. *)
Definition after (strict : bool) (ls : list label) : config := default start (exec strict ls start).

Lemma after_reach strict ls : reach strict (after strict ls).
Proof.
  unfold after. destruct (exec strict ls start) as [c|] eqn:E; simpl; [|apply reach_start].
  eapply exec_reach; [apply reach_start|done].
Qed.

(** What a configuration runs, without its state. *)
Definition shape (c : config) : option (code * Z) :=
  match c with Running b v _ => Some (b, v) | _ => None end.
Definition has_st (c : config) : bool := match cfg_st c with Some _ => true | None => false end.
Definition st_of (c : config) : st := default boot (cfg_st c).

Definition next (l : label) (c : config) : config := default start (step l c).

Definition enabled (l : label) (c : config) : bool := match step l c with Some _ => true | None => false end.

Lemma next_eq l c : enabled l c = true -> step l c = Some (next l c).
Proof. unfold next, enabled. by destruct (step l c). Qed.

Lemma has_st_eq c : has_st c = true -> cfg_st c = Some (st_of c).
Proof. unfold has_st, st_of. by destruct (cfg_st c). Qed.

#[global] Instance code_eq_dec : EqDecision code.
Proof. solve_decision. Defined.
#[global] Instance lock_eq_dec : EqDecision lock.
Proof. solve_decision. Defined.
Definition is_dispatching (c : config) : bool := match c with Dispatching _ => true | _ => false end.

(** A thread of the table; the default is not used. *)
Definition tcb_of (t : Z) (s : st) : thread :=
  default (Thread NOT_ASSIGNED 0 zero_ctx None 0 0 None None) (TCBs s !! t).
Definition has_tcb (t : Z) (s : st) : bool := match TCBs s !! t with Some _ => true | None => false end.

Lemma has_tcb_eq t s : has_tcb t s = true -> TCBs s !! t = Some (tcb_of t s).
Proof. unfold has_tcb, tcb_of. by destruct (TCBs s !! t). Qed.

(** The witnesses below evaluate a schedule once, to a conjunction of
    decidable facts about the configuration it leads to. *)
Lemma facts_of (P : config -> Prop) `{forall c, Decision (P c)} c : bool_decide (P c) = true -> P c.
Proof. apply bool_decide_eq_true_1. Qed.
Ltac facts F P c := unshelve epose proof (facts_of P c _) as F; [vm_compute; reflexivity|cbv beta in F].

Lemma reach_shape strict c b v :
  reach strict c -> shape c = Some (b, v) -> reach strict (Running b v (st_of c)).
Proof. destruct c; intros Hr; intros [= -> ->]. exact Hr. Qed.

Lemma reach_dispatching strict c :
  reach strict c -> is_dispatching c = true ->
  reach strict (Dispatching (st_of c)).
Proof. destruct c; done. Qed.

(** ** Safety *)



Lemma reach_wf strict c s :
  reach strict c -> cfg_st c = Some s -> exists ex, wf strict true ex [] s.
Proof.
  intros Hr%reach_ok. destruct c as [b v s0|s0| |]; intros [= ->]; simpl in Hr; [by eexists|].
  destruct Hr as [H _]. by eexists.
Qed.


(** Two threads, a lock, a wait and a preemption. *)
Definition demo : list label :=
  [LCall (ThreadCreate (Some 4096) 7 1); LCall (ThreadCreate (Some 65536) 7 2); LCall LockCreate;
   LCall (LockAcquire (Some 1026%positive)); LPreempt; LDispatch; LStub; LStub;
   LCall (LockAcquire (Some 1026%positive)); LDispatch; LStub; LStub; LCall (ThreadWait 0)].


(** C8: In a program that never calls thread_kill, whose stack allocations
    succeed and that destroys a wait queue, a lock or a condition variable
    only when no thread sleeps on it or is about to, no thread is ever lost:
    every thread id is the running thread, in the ready queue, in a wait
    queue, or available.  A destroy call on a queue with sleepers loses them
    all ([destroy_loses_sleepers]), a kill can lose a thread
    ([kill_reuse_loses_thread]). *)
Theorem no_thread_lost c s t (Hr : reach true c) (Hs : cfg_st c = Some s)
    (Ht : 0 <= t < THREAD_MAX_THREADS) :
  t = current_thread_id s \/ t ∈ readyQueue s \/ t ∈ availableThreadIds s \/
  exists q l, wqs s !! q = Some l /\ t ∈ l.
Proof.
  destruct (reach_wf _ _ s Hr Hs) as [ex H].
  destruct (wf_all _ _ _ _ _ H eq_refl t Ht) as [[_ ?]|[?|[?|[?|Hn]]]]; [tauto..|].
  by apply elem_of_nil in Hn.
Qed.

Lemma no_thread_lost_witness :
  let s := st_of (after true demo) in
  1 = current_thread_id s \/ 1 ∈ readyQueue s \/ 1 ∈ availableThreadIds s \/
  exists q l, wqs s !! q = Some l /\ 1 ∈ l.
Proof.
  apply (no_thread_lost (after true demo)); [apply after_reach| |by split].
  apply has_st_eq. vm_compute. reflexivity.
Defined.

(** C18: In every reachable configuration the stack of each thread that is
    running, ready or waiting (other than thread 0, which runs on the
    process's stack) is allocated, and no two threads share a stack: the
    reaping in threadResponsibilities never frees a stack in use. *)
Theorem stacks_live c s t x (Hr : reach false c) (Hs : cfg_st c = Some s)
    (Ht : 0 < t) (Hx : TCBs s !! t = Some x) (Hst : t_state x <> NOT_ASSIGNED) :
  exists a, stack_to_free x = Some a /\ a ∈ stacks s /\
    forall t' x', TCBs s !! t' = Some x' -> stack_to_free x' = Some a -> t' = t.
Proof.
  destruct (reach_wf _ _ s Hr Hs) as [ex H].
  destruct (wf_has _ _ _ _ _ H t x Hx Ht Hst) as [a Ha]. exists a. split_and!; [done|..].
  - by eapply wf_live.
  - intros t' x' Hx' Ha'. by eapply (wf_inj _ _ _ _ _ H t' t x' x a).
Qed.

Lemma stacks_live_witness :
  let s := st_of (after false demo) in
  exists a, stack_to_free (tcb_of 2 s) = Some a /\ a ∈ stacks s /\
    forall t' x', TCBs s !! t' = Some x' -> stack_to_free x' = Some a -> t' = 2.
Proof.
  intros s. facts F (fun c => has_st c = true /\ has_tcb 2 (st_of c) = true /\
    t_state (tcb_of 2 (st_of c)) <> NOT_ASSIGNED) (after false demo).
  destruct F as (F1 & F2 & F3).
  apply (stacks_live (after false demo) s 2);
    [apply after_reach|exact (has_st_eq _ F1)|reflexivity|exact (has_tcb_eq _ _ F2)|exact F3].
Defined.

(** ** Mutual exclusion *)

(** C11: A lock that is held stays held by the same thread, and unchanged, over
    every step of the machine (calls of any other thread, preemptions, context
    switches, exits): only its holder can release it. *)
Theorem lock_exclusion c l c' s s' lk lo
    (Hr : reach false c) (Hl : label_ok false l c) (Hstep : step l c = Some c')
    (Hs : cfg_st c = Some s) (Hs' : cfg_st c' = Some s')
    (Hlk : locks s !! lk = Some lo) (Hacq : isAcquired lo = true)
    (Hother : acquiredBy lo <> current_thread_id s) :
  locks s' !! lk = Some lo.
Proof.
  destruct (step_next _ _ _ _ _ (reach_ok _ _ Hr) Hl Hstep Hs) as (_ & Hk & _). by apply (Hk s' Hs').
Qed.

(** Thread 1 releases, in vain, the lock thread 0 holds. *)
Definition demo_lock : list label :=
  [LCall (ThreadCreate (Some 4096) 7 1); LCall LockCreate;
   LCall (LockAcquire (Some 1026%positive)); LCall (ThreadYield 1); LDispatch; LStub; LStub].

Lemma lock_exclusion_witness :
  locks (st_of (next (LCall (LockRelease (Some 1026%positive))) (after false demo_lock))) !! 1026%positive
    = Some (Lock 1025 true 0).
Proof.
  facts F (fun c => label_ok false (LCall (LockRelease (Some 1026%positive))) c /\
      enabled (LCall (LockRelease (Some 1026%positive))) c = true /\
      has_st c = true /\ has_st (next (LCall (LockRelease (Some 1026%positive))) c) = true /\
      locks (st_of c) !! 1026%positive = Some (Lock 1025 true 0) /\ 0 <> current_thread_id (st_of c))
    (after false demo_lock).
  destruct F as (F1 & F2 & F3 & F4 & F5 & F6).
  apply (lock_exclusion (after false demo_lock) (LCall (LockRelease (Some 1026%positive)))
            (next (LCall (LockRelease (Some 1026%positive))) (after false demo_lock)) (st_of (after false demo_lock)));
    [apply after_reach|exact F1|exact (next_eq _ _ F2)|exact (has_st_eq _ F3)|exact (has_st_eq _ F4)|exact F5|reflexivity|exact F6].
Defined.

(** The current thread holds [lk]. *)
Definition holds (lk : addr) (s : st) : Prop :=
  exists l, locks s !! lk = Some l /\ isAcquired l = true /\ acquiredBy l = current_thread_id s.

Definition on_return (o : outcome) (P : st -> Prop) : Prop :=
  match o with Return _ s => P s | _ => True end.

Lemma on_return_then o k (P : st -> Prop) :
  (forall v s, o = Return v s -> on_return (k v s) P) -> on_return (then_ o k) P.
Proof. intros H. destruct o; simpl; [by eapply H|done..]. Qed.

Lemma lock_acquire_loop_holds fuel e lk fs b s :
  on_return (lock_acquire_loop fuel e lk fs b s) (holds lk).
Proof.
  revert s. induction fuel as [|fuel IH]; intros s; cbn [lock_acquire_loop]; [done|].
  destruct (locks s !! lk) as [l|]; cbn [deref obind]; [|done]. destruct (isAcquired l); simpl.
  - apply on_return_then. intros v s' _. apply IH.
  - eexists. simpl. rewrite lookup_insert_eq. by split_and!.
Qed.

Lemma lock_acquire_holds lk fs b s : on_return (lock_acquire (Some lk) fs b s) (holds lk).
Proof. apply lock_acquire_loop_holds. Qed.

(** C16: lock_acquire returns only when the calling thread holds the lock,
    whether it returns at once or after the thread slept and was resumed; so
    does cv_wait, when the caller held the lock as its comment requires. *)
Theorem acquire_returns_held lk cv e e' e'' v fs b s :
  on_return (lock_acquire (Some lk) fs b s) (holds lk) /\
  on_return (return_to [InSleep e'; InLockAcquire e lk] b v s) (holds lk) /\
  on_return (cv_wait (Some cv) (Some lk) fs b s) (fun s' => holds lk s -> holds lk s') /\
  on_return (return_to [InSleep e'; InCvWaitSleep e lk] b v s) (holds lk) /\
  on_return (return_to [InSleep e'; InLockAcquire e lk; InCvWaitLock e''] b v s) (holds lk).
Proof.
  split_and!; cbn [return_to].
  - apply lock_acquire_holds.
  - apply on_return_then. intros v' s' E. pose proof (lock_acquire_loop_holds LOCK_FUEL e lk [] b (set_intr e' s)) as H.
    by rewrite E in H.
  - unfold cv_wait, interrupts_set. cbn [nonnull obind].
    destruct (locks (set_intr false s) !! lk) as [l|] eqn:El; cbn [deref obind]; [|done].
    destruct (isAcquired l && _); [|by intros H; exact H].
    destruct (lock_release _ _) as [s1|]; cbn [obind]; [|done].
    destruct (cvs s1 !! cv) as [q|]; cbn [deref obind]; [|done].
    apply on_return_then. intros v2 s2 _. apply on_return_then. intros v3 s3 E3.
    pose proof (lock_acquire_holds lk (InCvWaitLock (intr s) :: fs) b s2) as H. rewrite E3 in H.
    simpl in *. intros _. exact H.
  - apply on_return_then. intros v2 s2 E2.
    pose proof (lock_acquire_holds lk [InCvWaitLock e] b (set_intr e' s)) as H. by rewrite E2 in H.
  - apply on_return_then. intros v' s' E.
    pose proof (lock_acquire_loop_holds LOCK_FUEL e lk [InCvWaitLock e''] b (set_intr e' s)) as H.
    by rewrite E in H.
Qed.

(** ** Waking and exiting *)

(** thread_wakeup moves the first sleeper, or with [all] = 1 every sleeper
    in the order they went to sleep, from the wait queue to the end of the
    ready queue, returns how many it moved and changes nothing else. *)
Theorem thread_wakeup_fifo b v s q l all
    (Hr : reach false (Running b v s)) (Hb : is_client b = true) (Hq : wqs s !! q = Some l) :
  step (LCall (ThreadWakeup (Some q) all)) (Running b v s) =
  Some (Running b (Z.of_nat (length (woken all l)))
          (set_ready (readyQueue s ++ woken all l)
             (set_wqs (<[q := drop (length (woken all l)) l]> (wqs s)) s))).
Proof.
  apply reach_ok in Hr. simpl in Hr.
  transitivity (Some (finish b (do_call (ThreadWakeup (Some q) all) b s))).
  - destruct b; done.
  - cbn [do_call]. by rewrite (thread_wakeup_eq s q l) by (done || by eapply wf_no_none).
Qed.

(** Threads 1 and 2 sleep on a queue; thread 0 wakes both. *)
Definition demo_sleep : list label :=
  [LCall (ThreadCreate (Some 4096) 7 1); LCall (ThreadCreate (Some 65536) 7 2); LCall WqCreate;
   LCall (ThreadYield 1); LDispatch; LStub; LStub; LCall (ThreadSleep (Some 1025%positive)); LDispatch;
   LStub; LStub; LCall (ThreadSleep (Some 1025%positive)); LDispatch].

Lemma thread_wakeup_fifo_witness :
  let s := st_of (after false demo_sleep) in
  step (LCall (ThreadWakeup (Some 1025%positive) 1)) (Running Main 1 s) =
  Some (Running Main 2 (set_ready (readyQueue s ++ [1; 2]) (set_wqs (<[1025%positive := []]> (wqs s)) s))).
Proof.
  intros s. facts F (fun c => shape c = Some (Main, 1) /\ wqs (st_of c) !! 1025%positive = Some [1; 2])
    (after false demo_sleep). destruct F as (F1 & F2).
  apply (thread_wakeup_fifo Main 1 s 1025 [1; 2] 1); [|reflexivity|exact F2].
  apply reach_shape; [apply after_reach|exact F1].
Defined.

(** C32: thread_exit wakes every thread that waits for the exiting one: they
    join the end of the ready queue in the order they called thread_wait, the
    head of the resulting queue runs next, the exiting id is the next one
    handed out, and no other thread's TCB changes.  When that queue is empty
    the exiting thread is the last one: thread 0 ends the process with exit
    code 0, any other thread frees the stack it is running on
    (thread.c:661, freeTCBStacks) and its behaviour is undefined. *)
Theorem thread_exit_spec b v s x q l
    (Hr : reach false (Running b v s)) (Hx : TCBs s !! current_thread_id s = Some x)
    (Hq : t_wait x = Some q) (Hl : wqs s !! q = Some l) :
  match readyQueue s ++ l with
  | [] => if decide (current_thread_id s = 0) then exists s', thread_exit s = Stop 0 s'
          else thread_exit s = Crash FreedStack
  | n :: rq => exists s', thread_exit s = Switch s' /\ current_thread_id s' = n /\
      readyQueue s' = rq /\ availableThreadIds s' = current_thread_id s :: availableThreadIds s /\
      wqs s' = <[q := []]> (wqs s) /\ locks s' = locks s /\
      state_of s' (current_thread_id s) = Some NOT_ASSIGNED /\
      (forall t, t <> current_thread_id s -> t <> n -> TCBs s' !! t = TCBs s !! t)
  end.
Proof.
  apply reach_ok in Hr. simpl in Hr.
  pose proof (thread_exit_eq _ _ _ _ _ Hr Hx Hq Hl) as H.
  destruct (readyQueue s ++ l) as [|n rq] eqn:Erq; [done|]. destruct H as (y & Hy & Hys & ->).
  assert (Hne : n <> current_thread_id s).
  { intros ->. simpl in Hy. rewrite lookup_insert_eq in Hy. by simplify_eq. }
  eexists. split_and!; [done..| |].
  - unfold state_of. simpl. by rewrite lookup_insert_ne, lookup_insert_eq by done.
  - intros t Ht Htn. simpl. by rewrite !lookup_insert_ne by done.
Qed.

(** Thread 2 waits for thread 1, which returns from its function. *)
Definition demo_exit : list label :=
  [LCall (ThreadCreate (Some 4096) 7 1); LCall (ThreadCreate (Some 65536) 7 2);
   LCall (ThreadYield 2); LDispatch; LStub; LStub; LCall (ThreadWait 1); LDispatch; LStub; LStub].

Lemma thread_exit_spec_witness :
  let s := st_of (after false demo_exit) in
  exists s', thread_exit s = Switch s' /\ current_thread_id s' = 0 /\
      readyQueue s' = [2] /\ availableThreadIds s' = 1 :: availableThreadIds s /\
      wqs s' = <[1023%positive := []]> (wqs s) /\ locks s' = locks s /\
      state_of s' 1 = Some NOT_ASSIGNED /\
      (forall t, t <> 1 -> t <> 0 -> TCBs s' !! t = TCBs s !! t).
Proof.
  intros s. facts F (fun c => shape c = Some (Body 7 1, 0) /\ current_thread_id (st_of c) = 1 /\
      readyQueue (st_of c) = [0] /\ has_tcb 1 (st_of c) = true /\
      t_wait (tcb_of 1 (st_of c)) = Some 1023%positive /\ wqs (st_of c) !! 1023%positive = Some [2])
    (after false demo_exit). destruct F as (F1 & Hc & Hrq & F4 & F5 & F6).
  pose proof (thread_exit_spec (Body 7 1) 0 s (tcb_of 1 s) 1023 [2]) as T.
  rewrite (Hc : current_thread_id s = 1), (Hrq : readyQueue s = [0]) in T.
  apply T; [exact (reach_shape _ _ _ _ (after_reach _ _) F1)|exact (has_tcb_eq _ _ F4)|exact F5|exact F6].
Defined.

(** ** Yielding *)





Lemma intr_back s : set_intr (intr s) (set_intr false s) = s.
Proof. by destruct s. Qed.





(** C33: In a program without kills (and within the contract of
    [no_thread_lost]), when a thread that called thread_yield is scheduled again its call returns, with the id of the
    thread it had yielded to and with interrupts as they were at the call;
    the queues are those of the switch and no other thread is touched but for
    the reaping of exited threads' stacks. *)
Theorem yield_resumes s x e n b (Hr : reach true (Dispatching s))
    (Hx : TCBs s !! current_thread_id s = Some x)
    (Hctx : uc_pc (mycontext x) = PSaved [InYield e n (current_thread_id s)] b) :
  exists s', step LDispatch (Dispatching s) = Some (Running b n s') /\ intr s' = e /\
    current_thread_id s' = current_thread_id s /\
    readyQueue s' = readyQueue s /\ availableThreadIds s' = availableThreadIds s /\
    wqs s' = wqs s /\ locks s' = locks s /\
    TCBs s' !! current_thread_id s = Some (w_sc 0 x) /\
    (forall t y, t <> current_thread_id s -> TCBs s !! t = Some y -> t_state y <> NOT_ASSIGNED ->
       TCBs s' !! t = Some y).
Proof.
  apply reach_ok in Hr. destruct Hr as (Hwf & x' & Hx' & Hok). rewrite Hx in Hx'. injection Hx' as <-.
  pose proof (wf_cur_running _ _ _ _ _ Hwf Hx) as Hrun.
  destruct Hok as [Hg Hs]. destruct (Hg eq_refl) as [Hb Hg']. simpl in Hb, Hg'. rewrite Hctx in Hg'.
  destruct Hg' as (_ & Hsc & _). destruct (Hs eq_refl) as [Hkill _].
  unfold step, dispatch. rewrite Hx, Hctx, Hb. cbn [negb return_to].
  unfold yield_tail, threadResponsibilities.
  destruct (responsibilities_free_ok _ _ _ _ (wf_intr _ _ _ _ false _ Hwf)) as (s2 & -> & H2 & Hst).
  cbn [obind]. destruct (stacks_only_same _ _ 0 Hst) as (Hc & _).
  change (current_thread_id (set_intr false s)) with (current_thread_id s) in Hc.
  assert (Hx2 : TCBs s2 !! current_thread_id s = Some x)
    by (apply (stacks_only_tcb _ _ _ _ Hst); [done|congruence]).
  unfold responsibilities_check, tcb. rewrite Hc, Hx2. cbn [deref obind].
  change (killOnNextRun (w_state READY x)) with (killOnNextRun x) in Hkill. rewrite Hkill.
  cbn [Z.eqb then_]. rewrite Hc, Hx2. cbn [deref obind].
  change (setcontext_called (w_state READY x)) with (setcontext_called x) in Hsc. rewrite Hsc.
  cbn [Z.eqb]. erewrite upd_ok by exact Hx2. cbn [obind then_ finish].
  eexists. split; [reflexivity|]. destruct Hst as (m & sk & -> & Hm). split_and!; try done.
  - simpl. by rewrite lookup_insert_eq.
  - intros t y Hne Hy Hys. simpl. rewrite lookup_insert_ne by done. by apply Hm.
Qed.

(** Threads 0 and 1 yield to each other. *)
Definition demo_yield : list label :=
  [LCall (ThreadCreate (Some 4096) 7 1); LCall (ThreadYield 1); LDispatch; LStub; LStub; LCall (ThreadYield (-1))].

Lemma yield_resumes_witness :
  let s := st_of (after true demo_yield) in
  exists s', step LDispatch (Dispatching s) = Some (Running Main 1 s') /\ intr s' = true /\
    current_thread_id s' = current_thread_id s /\
    readyQueue s' = readyQueue s /\ availableThreadIds s' = availableThreadIds s /\
    wqs s' = wqs s /\ locks s' = locks s /\
    TCBs s' !! current_thread_id s = Some (w_sc 0 (tcb_of 0 s)) /\
    (forall t y, t <> current_thread_id s -> TCBs s !! t = Some y -> t_state y <> NOT_ASSIGNED ->
       TCBs s' !! t = Some y).
Proof.
  intros s. facts F (fun c => is_dispatching c = true /\ current_thread_id (st_of c) = 0 /\
      has_tcb 0 (st_of c) = true /\
      (match uc_pc (mycontext (tcb_of 0 (st_of c))) with
       | PSaved [InYield true 1 0] Main => true | _ => false end) = true) (after true demo_yield).
  destruct F as (F1 & Hc & F3 & F4).
  apply (yield_resumes s (tcb_of 0 s)).
  - exact (reach_dispatching _ _ (after_reach _ _) F1).
  - rewrite (Hc : current_thread_id s = 0). exact (has_tcb_eq _ _ F3).
  - rewrite (Hc : current_thread_id s = 0). change (st_of (after true demo_yield)) with s in F4. destruct (uc_pc _) as [| | |[|[[] [|[]|] [] | | | | | |] []] []]; done.
Defined.

(** ** Creating *)

(** The stack pointer a new thread starts with lies inside its own
    32768-byte stack, above its base, and is 8 modulo 16, as the AMD64 calling
    convention requires at a function's first instruction. *)
Theorem stack_top_ok a (Ha : 0 <= a) (Hhi : a + THREAD_MIN_STACK < 2 ^ 64) :
  a + THREAD_MIN_STACK - 24 < stack_top a <= a + THREAD_MIN_STACK - 8 /\ stack_top a mod 16 = 8.
Proof.
  unfold stack_top, THREAD_MIN_STACK in *. pose proof (Z.mod_pos_bound (a + 32768) 16).
  rewrite (u64_small (a + 32768)) by (unfold in_u64; lia).
  rewrite (u64_small (a + 32768 - _)) by (unfold in_u64; lia).
  rewrite u64_small by (unfold in_u64; lia). split; [lia|].
  rewrite (Z.div_mod (a + 32768) 16) at 1 by lia.
  replace (16 * ((a + 32768) / 16) + (a + 32768) mod 16 - (a + 32768) mod 16 - 8)
    with (8 + ((a + 32768) / 16 - 1) * 16) by lia.
  by rewrite Z.mod_add.
Qed.

Lemma stack_top_ok_witness : 0 <= 4100 /\ 4100 + THREAD_MIN_STACK - 24 < stack_top 4100 <= 4100 + THREAD_MIN_STACK - 8 /\ stack_top 4100 mod 16 = 8.
Proof. split; [lia|]. apply (stack_top_ok 4100); unfold THREAD_MIN_STACK; lia. Defined.

(** thread_create takes the id that has been available for the shortest
    time, gives it a fresh stack and appends it to the ready queue; when the
    new thread is dispatched it starts in thread_stub with the function and
    argument given, with interrupts on.  With no id left it returns
    THREAD_NOMORE. *)
Theorem thread_create_spec b v s a fn parg (Hr : reach false (Running b v s))
    (Ha : a ∉ stacks s ∖ freed_by_create s) :
  match availableThreadIds s with
  | [] => exists s', thread_create (Some a) fn parg s = Return THREAD_NOMORE s' /\ readyQueue s' = readyQueue s
  | i :: l => exists s' x, thread_create (Some a) fn parg s = Return i s' /\
      availableThreadIds s' = l /\ readyQueue s' = readyQueue s ++ [i] /\ a ∈ stacks s' /\
      current_thread_id s' = current_thread_id s /\ intr s' = intr s /\
      TCBs s' !! i = Some x /\ stack_to_free x = Some a /\ t_state x = READY /\
      mycontext x = Ctx (PStub fn parg) true (Some a) THREAD_MIN_STACK (stack_top a) /\
      (forall s'', current_thread_id s'' = i -> TCBs s'' !! i = Some (w_state RUNNING x) ->
         step LDispatch (Dispatching s'') = Some (Running (StubEntry fn parg) 0 (set_intr true s'')))
  end.
Proof.
  apply reach_ok in Hr. simpl in Hr. rewrite thread_create_split.
  destruct (create_slot_ok false (set_intr false s) (wf_intr _ _ _ _ _ _ Hr))
    as (i & s' & Es & Hc & Hk & Hlk & Hcase). rewrite Es. cbn [obind fst snd].
  pose proof (create_slot_frame _ _ _ Es) as (Hrq & Hav). simpl in Hrq, Hav.
  destruct Hcase as [(E & -> & H1)|(l & x & c & E & Hi & H1 & Hx & Hxs & Hsk & Hcur & Hb & Hne & Hst)];
    simpl in E; rewrite E in Hav |- *.
  - eexists. split; [done|]. done.
  - rewrite Hi. unfold create_fill, tcb. rewrite (upd_ok i _ s' x) by done. cbn [obind].
    simpl in Hc, Hcur, Hne. simpl. rewrite Hc, lookup_insert_ne, Hcur by done. cbn [deref obind].
    rewrite Hb. repeat run_upd. eexists _, _. split; [reflexivity|]. simpl.
    split_and!; [done|by rewrite Hrq|set_solver|done|done|by rewrite lookup_insert_eq|done..|].
    intros s'' Hc'' Hx''. unfold dispatch. rewrite Hc'', Hx''. simpl. done.
Qed.

Lemma thread_create_spec_witness :
  let s := st_of (after false (take 2 demo)) in
  exists s' x, thread_create (Some 900000) 5 6 s = Return 3 s' /\
      availableThreadIds s' = seqZ 4 1020 /\ readyQueue s' = readyQueue s ++ [3] /\
      900000 ∈ stacks s' /\
      current_thread_id s' = current_thread_id s /\ intr s' = intr s /\
      TCBs s' !! 3 = Some x /\ stack_to_free x = Some 900000 /\ t_state x = READY /\
      mycontext x = Ctx (PStub 5 6) true (Some 900000) THREAD_MIN_STACK (stack_top 900000) /\
      (forall s'', current_thread_id s'' = 3 -> TCBs s'' !! 3 = Some (w_state RUNNING x) ->
         step LDispatch (Dispatching s'') = Some (Running (StubEntry 5 6) 0 (set_intr true s''))).
Proof.
  intros s. facts F (fun c => shape c = Some (Main, 2) /\ availableThreadIds (st_of c) = 3 :: seqZ 4 1020 /\
      900000 ∉ stacks (st_of c) ∖ freed_by_create (st_of c)) (after false (take 2 demo)).
  destruct F as (F1 & Hav & F3). pose proof (thread_create_spec Main 2 s 900000 5 6) as T.
  rewrite (Hav : availableThreadIds s = _) in T.
  apply T; [exact (reach_shape _ _ _ _ (after_reach _ _) F1)|exact F3].
Defined.

(** ** The loop of lock_acquire *)

Lemma obind_ret {A} (m : res A) k v s : obind m k = Return v s -> exists a, m = Ret a /\ k a = Return v s.
Proof. destruct m; simpl; [eauto|done]. Qed.

Lemma then_ret o k v s : then_ o k = Return v s -> exists v' s', o = Return v' s' /\ k v' s' = Return v s.
Proof. destruct o; simpl; [eauto|done..]. Qed.

Lemma threadResponsibilities_ret s v s' :
  threadResponsibilities s = Return v s' -> responsibilities_free s = Ret s'.
Proof.
  unfold threadResponsibilities, responsibilities_check. intros (s1 & -> & H)%obind_ret.
  apply obind_ret in H as (x & _ & H). destruct (_ =? 1); [|by simplify_eq].
  pose proof (thread_exit_then s1 (fun _ _ => Crash Undef)) as E. rewrite H in E. done.
Qed.

(** thread_yield's block returns only by clearing the flag. *)
Lemma yield_tail_ret strict ex fl s e n o v s' x :
  wf strict true ex fl s -> TCBs s !! current_thread_id s = Some x ->
  yield_tail e n o s = Return v s' ->
  setcontext_called x <> 0 /\
  exists x', TCBs s' !! current_thread_id s' = Some x' /\ setcontext_called x' = 0.
Proof.
  intros Hwf Hx H. unfold yield_tail in H. apply then_ret in H as (v1 & s1 & H1 & H).
  apply threadResponsibilities_ret in H1.
  destruct (responsibilities_free_ok _ _ _ _ Hwf) as (s2 & E & _ & Hst). rewrite H1 in E. simplify_eq.
  destruct (stacks_only_same _ _ 0 Hst) as (Hc & _). pose proof (wf_cur_running _ _ _ _ _ Hwf Hx) as Hr.
  assert (Hx2 : TCBs s2 !! current_thread_id s = Some x)
    by (apply (stacks_only_tcb _ _ _ _ Hst); [done|congruence]).
  unfold tcb in H. rewrite Hc, Hx2 in H. cbn [deref obind] in H.
  destruct (Z.eqb_spec (setcontext_called x) 0) as [Esc|Esc].
  - repeat (apply obind_ret in H as (? & _ & H)). done.
  - split; [done|]. rewrite (upd_ok _ _ _ x) in H by done. cbn [obind] in H. simplify_eq.
    exists (w_sc 0 x). simpl. by rewrite Hc, lookup_insert_eq.
Qed.

(** Yielding to the head of the ready queue always gets past the checks. *)
Lemma yield_head strict s n rq fs b :
  wf strict true [] [] s -> readyQueue s = n :: rq ->
  thread_yield n fs b s = yield_to (intr s) n fs b (set_ready rq (set_intr false s)).
Proof.
  intros Hwf Hrq. unfold thread_yield, interrupts_set.
  assert (Hst : state_of s n = Some READY) by (apply (wf_ready _ _ _ _ _ Hwf); rewrite Hrq; by left).
  pose proof (wf_in_range _ _ _ _ _ _ _ Hwf Hst) as Hin. unfold in_range, THREAD_MAX_THREADS in Hin.
  apply state_of_Some in Hst as (y & Hy & Hys).
  rewrite (proj2 (orb_false_iff _ _)) by (unfold THREAD_MAX_THREADS; lia).
  rewrite (proj2 (Z.eqb_neq n THREAD_SELF)) by (unfold THREAD_SELF; lia).
  rewrite (proj2 (Z.eqb_neq n (current_thread_id (set_intr false s)))).
  2:{ intros ->. destruct (wf_cur_Some _ _ _ _ Hwf) as (x & Hx & Hr). simpl in Hy. congruence. }
  destruct (Z.geb_spec n 0); [|lia]. unfold tcb. simpl. rewrite Hy. simpl.
  rewrite bool_decide_false by congruence. rewrite (proj2 (Z.eqb_neq n THREAD_ANY)) by (unfold THREAD_ANY; lia).
  rewrite Hrq. unfold rq_remove. cbn [remove_ends]. rewrite Z.eqb_refl.
  by rewrite (proj2 (Z.eqb_neq n (-1))) by lia.
Qed.

(** thread_sleep returns to its caller only when no thread is ready, or when
    the caller's flag was left set (and is now clear). *)
Lemma thread_sleep_ret strict s q fs b v s' x :
  wf strict true [] [] s -> is_Some (wqs s !! q) -> TCBs s !! current_thread_id s = Some x ->
  thread_sleep (Some q) fs b s = Return v s' ->
  (readyQueue s = [] /\ readyQueue s' = [] /\ locks s' = locks s) \/
  (setcontext_called x <> 0 /\ exists x', TCBs s' !! current_thread_id s' = Some x' /\ setcontext_called x' = 0).
Proof.
  intros Hwf Hq Hx H. unfold thread_sleep, interrupts_set in H.
  change (readyQueue (set_intr false s)) with (readyQueue s) in H.
  destruct (readyQueue s) as [|n rq] eqn:Erq; cbn [hd_error] in H.
  { left. by simplify_eq. }
  right. rewrite (upd_ok _ _ _ x) in H by done. cbn [obind] in H.
  apply then_ret in H as (v1 & s1 & H1 & H). injection H as <- <-. simpl.
  set (s0 := set_TCBs _ _) in H1.
  assert (H0 : wf strict true [] [] s0).
  { apply (wf_upd _ _ _ _ (set_intr false s) _ x (w_wq (Some q))); try done; [by apply wf_intr|..].
    - by intros q' [= <-].
    - right. exact (wf_thr _ _ _ _ _ Hwf _ _ Hx (not_elem_of_nil _)). }
  rewrite (yield_head strict s0 n rq) in H1 by done. unfold yield_to in H1.
  apply obind_ret in H1 as (s2 & E2 & H1).
  destruct (wf_pop_ready _ _ _ _ s0 n rq H0 (eq_ind_r (fun l => l ≡ₚ n :: rq) (reflexivity _) Erq)) as (H2 & _ & _).
  rewrite (upd_ok _ _ _ (w_wq (Some q) x)) in E2 by (subst s0; simpl; by rewrite lookup_insert_eq).
  injection E2 as <-. eapply (yield_tail_ret strict [current_thread_id s]) in H1;
    [|..|simpl; by rewrite lookup_insert_eq].
  - exact H1.
  - apply (wf_upd _ _ _ _ (set_ready rq (set_intr false s0)) (current_thread_id s) (w_wq (Some q) x) (w_ctx _));
      [|subst s0; simpl; by rewrite lookup_insert_eq|done..| |left; by left].
    + eapply wf_ex; [exact (wf_intr _ _ _ _ false _ H2)|apply list_subseteq_nil].
    + intros q' E. simpl in E. injection E as <-. exact Hq.
Qed.

(** A lock that is held when no other thread can run: the loop goes on. *)
Lemma lock_acquire_spins fuel e lk fs b s l :
  readyQueue s = [] -> locks s !! lk = Some l -> isAcquired l = true ->
  lock_acquire_loop fuel e lk fs b s = Crash Diverge.
Proof.
  revert s. induction fuel as [|fuel IH]; intros s Hrq Hl Ha; [done|]. cbn [lock_acquire_loop].
  rewrite Hl. cbn [deref obind]. rewrite Ha. cbn [negb]. unfold thread_sleep, interrupts_set. simpl.
  rewrite Hrq. cbn [hd_error then_]. by apply IH.
Qed.

Lemma lock_acquire_loop_S fuel e lk fs b s :
  lock_acquire_loop (S fuel) e lk fs b s =
  (l <~ deref (locks s !! lk);;
   if negb (isAcquired l) then
     Return 0 (set_intr e (set_locks (<[lk := Lock (wait_on_lock l) true (current_thread_id s)]> (locks s)) s))
   else
     do (_, s) <~ thread_sleep (Some (wait_on_lock l)) (InLockAcquire e lk :: fs) b s;;
     lock_acquire_loop fuel e lk fs b s).
Proof. reflexivity. Qed.

Lemma loop_flag_clear strict fuel e lk fs b s x :
  wf strict true [] [] s -> is_Some (locks s !! lk) -> TCBs s !! current_thread_id s = Some x ->
  setcontext_called x = 0 ->
  lock_acquire_loop (S fuel) e lk fs b s = lock_acquire_loop 1 e lk fs b s.
Proof.
  intros Hwf [l Hl] Hx Hsc. cbn [lock_acquire_loop]. rewrite Hl. cbn [deref obind].
  destruct (isAcquired l) eqn:Ha; [|done]. cbn [negb].
  destruct (thread_sleep _ _ _ _) as [v s'| | |] eqn:Es; try done. cbn [then_].
  destruct (thread_sleep_ret _ _ _ _ _ _ _ _ Hwf (wf_lock _ _ _ _ _ Hwf _ _ Hl) Hx Es)
    as [(_ & Hrq & Hlk)|[? _]]; [|done].
  eapply lock_acquire_spins; [done| |done]. by rewrite Hlk.
Qed.

(** The fuel of the model's lock_acquire loop is enough: in a well-formed
    state any larger bound gives the same outcome, so [Diverge] means that the
    loop of the code never ends (the lock is held and no thread is ready). *)
Theorem lock_acquire_fuel_enough fuel e lk fs b s
    (Hwf : wf false true [] [] s) (Hlk : is_Some (locks s !! lk))
    (Hfs : Forall (frame_ok (locks s)) fs) (Hf : (LOCK_FUEL <= fuel)%nat) :
  lock_acquire_loop fuel e lk fs b s = lock_acquire_loop LOCK_FUEL e lk fs b s.
Proof.
  assert (H : forall f, lock_acquire_loop (S (S f)) e lk fs b s = lock_acquire_loop 2 e lk fs b s).
  { intros f. destruct Hlk as [l Hl]. destruct (wf_cur_Some _ _ _ _ Hwf) as (x & Hx & _).
    rewrite (lock_acquire_loop_S (S f)), (lock_acquire_loop_S 1). rewrite Hl. cbn [deref obind].
    destruct (isAcquired l) eqn:Ha; [|done]. cbn [negb]. pose proof (wf_lock _ _ _ _ _ Hwf _ _ Hl) as Hq.
    pose proof (thread_sleep_ok false s _ (InLockAcquire e lk :: fs) b Hwf Hq
      ltac:(constructor; [by eexists|done])) as Hok.
    destruct (thread_sleep _ _ _ _) as [v s'| | |] eqn:Es; try done. cbn [then_].
    destruct Hok as (H' & _ & Hk). destruct (proj1 Hk _ _ Hl) as (l' & Hl' & _).
    destruct (thread_sleep_ret _ _ _ _ _ _ _ _ Hwf Hq Hx Es) as [(_ & Hrq & Hlk)|(_ & x' & Hx' & Hsc)].
    - rewrite Hlk in Hl'. simplify_eq. by rewrite !(lock_acquire_spins _ e lk fs b s' l) by (done || by rewrite Hlk).
    - apply (loop_flag_clear false f e lk fs b s' x'); [done|by eexists|done..]. }
  destruct fuel as [|[|f]]; [unfold LOCK_FUEL in Hf; lia..|]. rewrite H. symmetry. apply (H 2%nat).
Qed.

(** Thread 1 finds the lock held; [demo] stops before it sleeps. *)
Lemma lock_acquire_fuel_enough_witness :
  let s := st_of (after false (take 8 demo)) in
  is_Some (locks s !! 1026%positive) /\
  lock_acquire_loop 100 true 1026 [] (Body 7 1) s = lock_acquire_loop LOCK_FUEL true 1026 [] (Body 7 1) s.
Proof.
  intros s. facts F (fun c => shape c = Some (Body 7 1, 0) /\ is_Some (locks (st_of c) !! 1026%positive))
    (after false (take 8 demo)). destruct F as (F1 & F2). split; [exact F2|].
  apply (lock_acquire_fuel_enough 100 true 1026 [] (Body 7 1) s); [|exact F2|constructor|unfold LOCK_FUEL; lia].
  apply (reach_ok false (Running (Body 7 1) 0 s)). exact (reach_shape _ _ _ _ (after_reach _ _) F1).
Defined.

(** ** Schedules on which a thread is lost, and calls outside the contract *)

(** A thread that should run but is neither running nor in any queue. *)
Definition lost (t : Tid) (s : st) : Prop :=
  state_of s t = Some READY /\ (t ∉ readyQueue s) /\ map_Forall (fun _ l => t ∉ l) (wqs s).

Lemma exec_facts (P : config -> Prop) `{forall c, Decision (P c)} ls :
  (match exec false ls start with Some c => bool_decide (P c) | None => false end) = true ->
  exists c, exec false ls start = Some c /\ P c.
Proof.
  destruct (exec false ls start) as [c|]; [|done]. intros H1%bool_decide_eq_true_1. by exists c.
Qed.

(** Thread 1 yields, is killed and exits; its id is used again, and the new
    thread 1 yields to thread 2. *)
Definition kill_reuse : list label :=
  [LCall (ThreadCreate (Some 4096) 7 1); LCall (ThreadYield 1); LDispatch; LStub; LStub;
   LCall (ThreadYield THREAD_ANY); LDispatch; LCall (ThreadKill 1); LCall (ThreadYield 1); LDispatch; LDispatch;
   LCall (ThreadCreate (Some 65536) 7 2); LCall (ThreadCreate (Some 131072) 7 3);
   LCall (ThreadYield 1); LDispatch; LStub; LStub; LCall (ThreadYield 2)].

(** thread_exit and thread_create leave [setcontext_called] set in the TCB
    of a thread that was killed while it was suspended in thread_yield.  The
    next thread with that id takes the flag for its own: its first
    thread_yield(2) returns 2 without switching, and thread 2, already taken
    from the ready queue, is lost. *)
Theorem kill_reuse_loses_thread :
  exists c, exec false kill_reuse start = Some c /\
    shape c = Some (Body 7 2, 2) /\ current_thread_id (st_of c) = 1 /\ lost 2 (st_of c).
Proof.
  apply (exec_facts (fun c => shape c = Some (Body 7 2, 2) /\ current_thread_id (st_of c) = 1 /\ lost 2 (st_of c))).
  vm_compute. reflexivity.
Qed.

(** Thread 1 is killed before it first runs and the timer fires in its stub. *)
Definition kill_in_stub : list label :=
  [LCall (ThreadCreate (Some 4096) 7 1); LCall (ThreadCreate (Some 65536) 7 2); LCall (ThreadKill 1);
   LCall (ThreadYield 1); LDispatch; LPreempt].

(** thread_stub turns interrupts on before threadResponsibilities.  A
    timer interrupt there makes a thread with a pending kill pick the next
    thread (2) from the ready queue and then exit, which picks another one:
    thread 2 is lost. *)
Theorem kill_in_stub_loses_thread :
  exists c, exec false kill_in_stub start = Some c /\
    current_thread_id (st_of c) = 0 /\ lost 2 (st_of c).
Proof.
  apply (exec_facts (fun c => current_thread_id (st_of c) = 0 /\ lost 2 (st_of c))).
  vm_compute. reflexivity.
Qed.

(** The main thread exits and thread 1, the last one, returns. *)
Definition last_exit : list label :=
  [LCall (ThreadCreate (Some 4096) 7 1); LCall ThreadExit; LDispatch; LStub; LStub; LBodyReturn].

(** thread_exit has marked the last thread NOT_ASSIGNED when it calls
    freeTCBStacks, which frees the stack of every such thread from 1 on: the
    one it runs on is among them. *)
Theorem last_exit_frees_own_stack : exec false last_exit start = Some (Faulted FreedStack).
Proof.
  assert (H : (match exec false last_exit start with Some (Faulted FreedStack) => true | _ => false end) = true)
    by (vm_compute; reflexivity).
  by destruct (exec false last_exit start) as [[| | |[]]|].
Qed.

(** Objects without users are destroyed within the contract. *)
Definition demo_destroy : list label :=
  [LCall WqCreate; LCall (WqDestroy 1025); LCall LockCreate; LCall (LockAcquire (Some 1027%positive));
   LCall (LockRelease (Some 1027%positive)); LCall (LockDestroy (Some 1027%positive)); LCall CvCreate;
   LCall (CvDestroy (Some 1029%positive))].

Lemma destroys_run :
  exists c, exec false demo_destroy start = Some c /\
    locks (st_of c) = ∅ /\ cvs (st_of c) = ∅ /\ size (wqs (st_of c)) = 1024%nat.
Proof.
  apply (exec_facts (fun c => locks (st_of c) = ∅ /\ cvs (st_of c) = ∅ /\ size (wqs (st_of c)) = 1024%nat)).
  vm_compute. reflexivity.
Qed.

(** wait_queue_destroy pops the threads that sleep on the queue and forgets
    them, where thread.h asks it to check that the queue is empty. *)
Theorem destroy_loses_sleepers b v s q l t (Hr : reach false (Running b v s))
    (Hq : wqs s !! q = Some l) (Ht : t ∈ l) :
  exists s', wait_queue_destroy q s = Ret s' /\ lost t s'.
Proof.
  apply reach_ok in Hr. simpl in Hr. unfold wait_queue_destroy. rewrite Hq. simpl. eexists. split; [done|].
  destruct (wf_wait _ _ _ _ _ Hr t) as [Hst Hn]; [by exists q, l|]. split_and!; [done..|].
  intros q' l' H Ht'. simpl in H. apply lookup_delete_Some in H as [Hne H]. rewrite lookup_insert_ne in H by done.
  apply Hne. by eapply (wf_disj _ _ _ _ _ Hr q q').
Qed.

(** thread_kill with one of the negative special values -1 .. -7, and
    thread_wait with an id past the table, index TCBs out of bounds instead of
    returning THREAD_INVALID; every other bad id is answered with
    THREAD_INVALID and no change of state. *)
Theorem kill_wait_bad_ids b v s tid (Hr : reach false (Running b v s)) :
  (thread_kill tid s = Crash Undef <-> -7 <= tid < 0) /\
  (thread_wait tid [] b s = Crash Undef <-> THREAD_MAX_THREADS <= tid) /\
  (tid < -7 \/ THREAD_MAX_THREADS <= tid \/ tid = current_thread_id s \/ state_of s tid = Some NOT_ASSIGNED ->
     thread_kill tid s = Return THREAD_INVALID s) /\
  (tid < 0 \/ tid = current_thread_id s \/ state_of s tid = Some NOT_ASSIGNED ->
     thread_wait tid [] b s = Return THREAD_INVALID s).
Proof.
  apply reach_ok in Hr. simpl in Hr. pose proof (wf_dom _ _ _ _ _ Hr tid) as Hd.
  pose proof (wf_in_range _ _ _ _ _ _ _ Hr (wf_cur _ _ _ _ _ Hr eq_refl)) as Hcur.
  assert (Hst : state_of s tid = Some NOT_ASSIGNED -> in_range tid) by apply (wf_in_range _ _ _ _ _ _ _ Hr).
  unfold in_range, THREAD_MAX_THREADS in *. split_and!.
  - split; [|].
    + intros E. destruct (decide (-7 <= tid < 0)); [done|].
      pose proof (thread_kill_ok s tid Hr ltac:(lia)) as H. rewrite E in H. by destruct H as [?|[? ?]].
    + intros Ht. unfold thread_kill, interrupts_set. rewrite (proj2 (orb_false_iff _ _)) by lia.
      simpl. rewrite (proj2 (Z.eqb_neq _ _)) by lia. unfold tcb. simpl.
      destruct (TCBs s !! tid) eqn:E; [|done]. destruct Hd as [Hd _]. destruct Hd; [by eexists|lia].
  - split; [|].
    + intros E. destruct (decide (1024 <= tid)); [done|].
      pose proof (thread_wait_ok false s tid [] b Hr ltac:(unfold THREAD_MAX_THREADS; lia) ltac:(constructor)) as H.
      rewrite E in H. by destruct H as [?|[? ?]].
    + intros Ht. unfold thread_wait, interrupts_set. simpl. rewrite (proj2 (orb_false_iff _ _)) by lia.
      unfold tcb. simpl. destruct (TCBs s !! tid) eqn:E; [|done]. destruct Hd as [Hd _].
      destruct Hd; [by eexists|lia].
  - intros Ht. unfold thread_kill, interrupts_set.
    destruct (_ || _) eqn:E; [by rewrite intr_back|]. simpl.
    destruct (Z.eqb_spec tid (current_thread_id s)); [by rewrite intr_back|].
    destruct Ht as [?|[?|[?|Ht]]]; [lia..|]. pose proof (Hst Ht).
    apply state_of_Some in Ht as (x & Hx & Hxs). unfold tcb. simpl. rewrite Hx. simpl.
    rewrite decide_True by done. by rewrite intr_back.
  - intros Ht. unfold thread_wait, interrupts_set. simpl.
    destruct (_ || _) eqn:E; [by rewrite intr_back|].
    destruct Ht as [?|[?|Ht]]; [lia..|]. 
    apply state_of_Some in Ht as (x & Hx & Hxs). unfold tcb. simpl. rewrite Hx. simpl.
    rewrite decide_True by done. by rewrite intr_back.
Qed.

Lemma kill_wait_bad_ids_witness :
  let s := st_of (after false (take 2 demo)) in
  (thread_kill (-1) s = Crash Undef <-> -7 <= -1 < 0) /\
  (thread_wait (-1) [] Main s = Crash Undef <-> THREAD_MAX_THREADS <= -1) /\
  (-1 < -7 \/ THREAD_MAX_THREADS <= -1 \/ -1 = current_thread_id s \/ state_of s (-1) = Some NOT_ASSIGNED ->
     thread_kill (-1) s = Return THREAD_INVALID s) /\
  (-1 < 0 \/ -1 = current_thread_id s \/ state_of s (-1) = Some NOT_ASSIGNED ->
     thread_wait (-1) [] Main s = Return THREAD_INVALID s).
Proof.
  intros s. apply (kill_wait_bad_ids Main 2 s (-1)).
  apply reach_shape; [apply after_reach|]. vm_compute. reflexivity.
Defined.
