(* ===== verification/Bytes.v ===== *)
(** * Byte buffers and little-endian integers

    The file system keeps its structures in buffers of bytes and copies them
    with memcpy.  A buffer is a list of bytes, a byte is a [Z] in [0, 256).
    [slice] and [splice] are the two directions of memcpy; [le_enc] and
    [le_dec] are how an integer is laid out on the (little-endian) machines the
    code runs on. *)
From S2P Require Import Prelude.

Definition zlen {A} (l : list A) : Z := Z.of_nat (length l).
Lemma zlen_app {A} (l l' : list A) : zlen (l ++ l') = zlen l + zlen l'.
Proof. unfold zlen. rewrite length_app. lia. Qed.
Lemma zlen_cons {A} (c : A) l : zlen (c :: l) = 1 + zlen l.
Proof. unfold zlen. cbn [length]. lia. Qed.
Lemma zlen_nonneg {A} (l : list A) : 0 <= zlen l.
Proof. unfold zlen. lia. Qed.

Definition is_byte (b : Z) : Prop := 0 <= b < 256.

Section slices.
Context {A : Type}.
Implicit Types (l d : list A).

(** memcpy(d, l + off, n) *)
Definition slice (off n : Z) l : list A := take (Z.to_nat n) (drop (Z.to_nat off) l).
(** memcpy(l + off, d, length d) *)
Definition splice (off : Z) d l : list A :=
  take (Z.to_nat off) l ++ d ++ drop (Z.to_nat off + length d) l.

Lemma length_slice off n l :
  0 <= off -> 0 <= n -> off + n <= zlen l -> length (slice off n l) = Z.to_nat n.
Proof. unfold slice, zlen. intros. rewrite length_take, length_drop. lia. Qed.

Lemma zlen_slice off n l : 0 <= off -> 0 <= n -> off + n <= zlen l -> zlen (slice off n l) = n.
Proof. intros. unfold zlen. rewrite length_slice by done. lia. Qed.

Lemma length_splice off d l :
  0 <= off -> off + zlen d <= zlen l -> length (splice off d l) = length l.
Proof. unfold splice, zlen. intros. rewrite !length_app, length_take, length_drop. lia. Qed.

Lemma zlen_splice off d l : 0 <= off -> off + zlen d <= zlen l -> zlen (splice off d l) = zlen l.
Proof. intros. unfold zlen. by rewrite length_splice. Qed.

(** What was copied in is copied out. *)
Lemma slice_splice off d l :
  0 <= off -> off + zlen d <= zlen l -> slice off (zlen d) (splice off d l) = d.
Proof.
  unfold slice, splice, zlen. intros. rewrite Nat2Z.id, drop_app_ge by (rewrite length_take; lia).
  rewrite length_take_le by lia. rewrite Nat.sub_diag, drop_0. apply take_app_length.
Qed.

Lemma lookup_splice off d l (i : nat) :
  0 <= off -> off + zlen d <= zlen l ->
  splice off d l !! i =
  if decide (off <= Z.of_nat i < off + zlen d) then d !! (i - Z.to_nat off)%nat else l !! i.
Proof.
  unfold splice, zlen. intros. case_decide.
  - rewrite lookup_app_r by (rewrite length_take; lia). rewrite length_take_le by lia.
    apply lookup_app_l. lia.
  - destruct (decide (Z.of_nat i < off)).
    + rewrite lookup_app_l by (rewrite length_take; lia). apply lookup_take_lt. lia.
    + rewrite lookup_app_r by (rewrite length_take; lia). rewrite length_take_le by lia.
      rewrite lookup_app_r by lia. rewrite lookup_drop. f_equal. lia.
Qed.

Lemma lookup_slice off n l (i : nat) :
  0 <= off -> slice off n l !! i = if decide (Z.of_nat i < n) then l !! (Z.to_nat off + i)%nat else None.
Proof.
  unfold slice. intros. case_decide.
  - rewrite lookup_take_lt by lia. apply lookup_drop.
  - apply lookup_take_ge. lia.
Qed.

(** Bytes elsewhere stay. *)
Lemma slice_splice_other off n off' d l :
  0 <= off -> 0 <= off' -> off' + zlen d <= zlen l ->
  off + n <= off' \/ off' + zlen d <= off ->
  slice off n (splice off' d l) = slice off n l.
Proof.
  intros. apply list_eq. intros i. rewrite !lookup_slice by done. case_decide; [|done].
  rewrite lookup_splice by done. rewrite decide_False; [done|]. lia.
Qed.

(** Part of a copy. *)
Lemma slice_splice_sub off n off' d l :
  0 <= off -> 0 <= off' -> 0 <= n -> off + n <= zlen d -> off' + zlen d <= zlen l ->
  slice (off' + off) n (splice off' d l) = slice off n d.
Proof.
  intros. apply list_eq. intros i. rewrite !lookup_slice by lia. case_decide; [|done].
  rewrite lookup_splice by done. rewrite decide_True by lia. f_equal. lia.
Qed.

Lemma splice_slice off n l : 0 <= off -> 0 <= n -> off + n <= zlen l -> splice off (slice off n l) l = l.
Proof.
  intros. apply list_eq. intros i. rewrite lookup_splice by (rewrite ?zlen_slice; lia).
  rewrite zlen_slice by done. case_decide; [|done]. rewrite lookup_slice by done.
  rewrite decide_True by lia. f_equal. lia.
Qed.

Lemma slice_all l : slice 0 (zlen l) l = l.
Proof. unfold slice, zlen. rewrite drop_0, Nat2Z.id. apply firstn_all. Qed.

Lemma splice_all d l : zlen d = zlen l -> splice 0 d l = d.
Proof. unfold splice, zlen. intros. rewrite take_0, drop_ge by lia. simpl. apply app_nil_r. Qed.

Lemma slice_app off n m l :
  0 <= off -> 0 <= n -> 0 <= m -> slice off n l ++ slice (off + n) m l = slice off (n + m) l.
Proof.
  unfold slice. intros. rewrite !Z2Nat.inj_add by lia.
  rewrite <- drop_drop. by rewrite take_take_drop.
Qed.

Lemma Forall_slice (P : A -> Prop) off n l : Forall P l -> Forall P (slice off n l).
Proof. intros. by apply Forall_take, Forall_drop. Qed.

Lemma Forall_splice (P : A -> Prop) off d l : Forall P l -> Forall P d -> Forall P (splice off d l).
Proof. intros. apply Forall_app. split; [by apply Forall_take|]. apply Forall_app. split; [done|by apply Forall_drop]. Qed.

End slices.

(** ** Little-endian integers *)
Fixpoint le_enc (n : nat) (z : Z) : list Z :=
  match n with O => [] | S n => (z mod 256) :: le_enc n (z / 256) end.
Fixpoint le_dec (l : list Z) : Z :=
  match l with [] => 0 | b :: l => b + 256 * le_dec l end.

Lemma length_le_enc n z : length (le_enc n z) = n.
Proof. revert z. induction n; intros z; simpl; [done|by rewrite IHn]. Qed.

Lemma zlen_le_enc n z : zlen (le_enc n z) = Z.of_nat n.
Proof. unfold zlen. by rewrite length_le_enc. Qed.

Lemma le_enc_bytes n z : Forall is_byte (le_enc n z).
Proof.
  revert z. induction n; intros z; simpl; [done|]. constructor; [|done].
  apply Z.mod_pos_bound. lia.
Qed.

Lemma le_dec_enc n z : le_dec (le_enc n z) = z mod 256 ^ Z.of_nat n.
Proof.
  revert z. induction n as [|n IH]; intros z; [by rewrite Z.mod_1_r|].
  cbn [le_enc le_dec]. rewrite IH. rewrite Nat2Z.inj_succ, Z.pow_succ_r by lia.
  rewrite Z.rem_mul_r; lia.
Qed.

Lemma le_dec_range l : Forall is_byte l -> 0 <= le_dec l < 256 ^ zlen l.
Proof.
  unfold zlen. induction 1 as [|b l Hb Hl IH]; [done|]. cbn [le_dec length].
  rewrite Nat2Z.inj_succ, Z.pow_succ_r by lia. unfold is_byte in Hb. lia.
Qed.

Lemma le_enc_dec l : Forall is_byte l -> le_enc (length l) (le_dec l) = l.
Proof.
  induction 1 as [|b l Hb Hl IH]; [done|]. cbn [le_dec length le_enc]. unfold is_byte in Hb.
  rewrite (Z.mul_comm 256), Z.mod_add, Z.mod_small, Z.div_add, Z.div_small, Z.add_0_l by lia.
  by rewrite IH.
Qed.

(** The integer types stored on disk: u32, s32, and the 64-bit u64 and off_t. *)
Definition get_u32 (off : Z) (l : list Z) : Z := le_dec (slice off 4 l).
Definition get_s32 (off : Z) (l : list Z) : Z := s32 (le_dec (slice off 4 l)).
Definition get_u64 (off : Z) (l : list Z) : Z := le_dec (slice off 8 l).
Definition get_s64 (off : Z) (l : list Z) : Z := s64 (le_dec (slice off 8 l)).

Lemma s32_u32 z : s32 (z mod 2 ^ 32) = s32 z.
Proof. unfold s32. by rewrite Zplus_mod_idemp_l. Qed.
Lemma s64_u64 z : s64 (z mod 2 ^ 64) = s64 z.
Proof. unfold s64. by rewrite Zplus_mod_idemp_l. Qed.

Lemma dec_enc4 z : le_dec (le_enc 4 z) = u32 z.
Proof. rewrite le_dec_enc. done. Qed.
Lemma dec_enc8 z : le_dec (le_enc 8 z) = u64 z.
Proof. rewrite le_dec_enc. done. Qed.
