(* ===== verification/Text.v ===== *)
(** * Characters, numbers and words of C strings

    A string is the list of its characters, without the NUL that ends it; a
    character is the value of an unsigned char.  The functions are those of the
    C library that more than one component calls. *)
From S2P Require Import Prelude Bytes.

(** The characters of a literal. *)
Definition chars (s : string) : list Z := (fun c => Z.of_nat (Ascii.nat_of_ascii c)) <$> String.list_ascii_of_string s.

(** The C string in a buffer. *)
Fixpoint cstr (s : list Z) : list Z :=
  match s with c :: s => if c =? 0 then [] else c :: cstr s | [] => [] end.

Definition isspace (c : Z) : bool := ((9 <=? c) && (c <=? 13)) || (c =? 32).
Definition isdigit (c : Z) : bool := (48 <=? c) && (c <=? 57).

Fixpoint skip_while (f : Z -> bool) (s : list Z) : list Z :=
  match s with c :: s' => if f c then skip_while f s' else s | [] => [] end.
Fixpoint digits (s : list Z) (n : Z) : Z * list Z :=
  match s with c :: s' => if isdigit c then digits s' (10 * n + (c - 48)) else (n, s) | [] => (n, []) end.

(** The sign, the magnitude and the rest of a number; None when there are no digits. *)
Definition scan_number (s : list Z) : option (bool * Z * list Z) :=
  let s := skip_while isspace s in
  let '(neg, s) := match s with 45 :: s' => (true, s') | 43 :: s' => (false, s') | _ => (false, s) end in
  match s with
  | c :: _ => if isdigit c then let '(n, rest) := digits s 0 in Some (neg, n, rest) else None
  | [] => None
  end.

(** atoi; the C standard leaves a number that is not an int undefined. *)
Definition atoi (s : list Z) : res Z :=
  match scan_number s with
  | None => Ret 0
  | Some (neg, n, _) => let n := if neg : bool then - n else n in if s32 n =? n then Ret n else Fail Undef
  end.

(** The next word of the string and what follows it (the %s of sscanf). *)
Fixpoint word (s : list Z) : list Z * list Z :=
  match s with
  | c :: s' => if isspace c then ([], s) else let '(w, rest) := word s' in (c :: w, rest)
  | [] => ([], [])
  end.
Definition scan_word (s : list Z) : option (list Z * list Z) :=
  match word (skip_while isspace s) with ([], _) => None | r => Some r end.

(** The %u and %d of printf. *)
Fixpoint print_loop (fuel : nat) (n : Z) (acc : list Z) : list Z :=
  match fuel with
  | O => acc
  | S fuel => if n <? 10 then (48 + n) :: acc else print_loop fuel (n / 10) ((48 + n mod 10) :: acc)
  end.
Definition print_u (n : Z) : list Z := print_loop (S (Z.to_nat (Z.log2 n))) n [].
Definition print_d (n : Z) : list Z := if n <? 0 then 45 :: print_u (- n) else print_u n.

Fixpoint prefix_of (p s : list Z) : option (list Z) :=
  match p, s with
  | [], _ => Some s
  | a :: p, b :: s => if a =? b then prefix_of p s else None
  | _ :: _, [] => None
  end.

(** strstr(s, p) != NULL *)
Fixpoint strstr (p s : list Z) : bool :=
  match prefix_of p s with Some _ => true | None => match s with [] => false | _ :: s => strstr p s end end.

(** strrchr: from the last occurrence of the character on. *)
Fixpoint strrchr (c : Z) (s : list Z) : option (list Z) :=
  match s with
  | [] => None
  | x :: s' => match strrchr c s' with Some r => Some r | None => if x =? c then Some s else None end
  end.

Definition tolower (c : Z) : Z := if (65 <=? c) && (c <=? 90) then c + 32 else c.
(** strcasecmp(s, t) == 0 *)
Definition strcaseeq (s t : list Z) : bool := bool_decide (tolower <$> s = tolower <$> t).

(** ** Numbers are read as they were printed *)

Lemma digits_print_loop fuel n acc k :
  0 <= n < 10 ^ Z.of_nat fuel -> (0 < fuel)%nat -> k = 0 -> digits (print_loop fuel n acc) k = digits acc n.
Proof.
  revert n acc. induction fuel as [|fuel IH]; intros n acc Hn Hf ->; [lia|]. cbn [print_loop].
  destruct (Z.ltb_spec n 10).
  - cbn [digits]. unfold isdigit. rewrite (proj2 (Z.leb_le _ _)), (proj2 (Z.leb_le _ _)) by lia. cbn [andb]. f_equal. lia.
  - rewrite Nat2Z.inj_succ, Z.pow_succ_r in Hn by lia.
    pose proof (Z.div_mod n 10 ltac:(lia)). pose proof (Z.mod_pos_bound n 10 ltac:(lia)).
    destruct fuel as [|fuel]; [cbn in Hn; lia|]. rewrite IH; [|split; [apply Z.div_pos; lia|apply Z.div_lt_upper_bound; lia]|lia|done].
    cbn [digits]. unfold isdigit. rewrite (proj2 (Z.leb_le _ _)), (proj2 (Z.leb_le _ _)) by lia. cbn [andb]. f_equal. lia.
Qed.

Lemma print_loop_app fuel n acc : print_loop fuel n acc = print_loop fuel n [] ++ acc.
Proof.
  revert n acc. induction fuel as [|fuel IH]; intros n acc; [done|]. cbn [print_loop].
  destruct (_ <? _); [done|]. rewrite IH, (IH _ [_]), <- app_assoc. done.
Qed.

Lemma print_fuel n : 0 <= n -> n < 10 ^ Z.of_nat (S (Z.to_nat (Z.log2 n))).
Proof.
  intros Hn. rewrite Nat2Z.inj_succ, Z2Nat.id by apply Z.log2_nonneg.
  destruct (Z.eq_dec n 0) as [->|]; [done|]. pose proof (Z.log2_spec n ltac:(lia)) as [_ Hl].
  eapply Z.lt_le_trans; [exact Hl|]. apply Z.pow_le_mono_l. lia.
Qed.

Lemma digits_print n rest : 0 <= n -> digits (print_u n ++ rest) 0 = digits rest n.
Proof. intros Hn. unfold print_u. rewrite <- print_loop_app. apply digits_print_loop; [split; [done|by apply print_fuel]|lia|done]. Qed.

Lemma print_u_head n : 0 <= n -> exists c l, print_u n = c :: l /\ isdigit c = true.
Proof.
  intros Hn.
  assert (Hgen : forall fuel n acc, (0 < fuel)%nat -> 0 <= n < 10 ^ Z.of_nat fuel ->
    exists c l, print_loop fuel n acc = c :: l /\ isdigit c = true).
  { clear. induction fuel as [|fuel IH]; intros n acc Hf Hn; [lia|]. cbn [print_loop]. destruct (Z.ltb_spec n 10).
    - eexists _, _. split; [done|]. unfold isdigit. rewrite (proj2 (Z.leb_le _ _)), (proj2 (Z.leb_le _ _)) by lia. done.
    - rewrite Nat2Z.inj_succ, Z.pow_succ_r in Hn by lia. destruct fuel; [cbn in Hn; lia|].
      apply IH; [lia|]. split; [apply Z.div_pos; lia|apply Z.div_lt_upper_bound; lia]. }
  apply Hgen; [lia|]. split; [done|by apply print_fuel].
Qed.

(** A number that is printed after blanks and followed by something that is no digit. *)
Lemma scan_print n rest :
  0 <= n -> (match rest with c :: _ => isdigit c = false | [] => True end) ->
  scan_number (print_u n ++ rest) = Some (false, n, rest).
Proof.
  intros Hn Hr. destruct (print_u_head n Hn) as (c & l & E & Hc). unfold scan_number. rewrite E. cbn [app skip_while].
  assert (Hsp : isspace c = false).
  { unfold isdigit in Hc. unfold isspace. apply andb_true_iff in Hc as [H1%Z.leb_le H2%Z.leb_le].
    rewrite (proj2 (Z.eqb_neq c 32)) by lia. rewrite (proj2 (Z.leb_gt c 13)) by lia. by rewrite andb_false_r. }
  rewrite Hsp. unfold isdigit in Hc. apply andb_true_iff in Hc as [H1%Z.leb_le H2%Z.leb_le].
  assert (Hm : (match c :: l ++ rest with 45 :: s' => (true, s') | 43 :: s' => (false, s') | _ => (false, c :: l ++ rest) end) = (false, c :: l ++ rest)).
  { destruct c as [|p|]; [lia| |lia]. do 6 (destruct p as [p|p|]; try lia; try done). }
  rewrite Hm. unfold isdigit. rewrite (proj2 (Z.leb_le 48 c)), (proj2 (Z.leb_le c 57)) by lia. cbn [andb].
  change (c :: l ++ rest) with ((c :: l) ++ rest). rewrite <- E, digits_print by done.
  destruct rest as [|r rest]; [done|]. cbn [digits]. by rewrite Hr.
Qed.

Lemma atoi_print n rest :
  0 <= n < 2 ^ 31 -> (match rest with c :: _ => isdigit c = false | [] => True end) -> atoi (print_u n ++ rest) = Ret n.
Proof. intros Hn Hr. unfold atoi. rewrite scan_print by (done || lia). by rewrite s32_small, Z.eqb_refl by (unfold in_s32; lia). Qed.

Lemma cstr_id s : Forall (fun c => c <> 0) s -> cstr s = s.
Proof. induction 1 as [|c s Hc _ IH]; [done|]. cbn [cstr]. rewrite (proj2 (Z.eqb_neq _ _) Hc). by rewrite IH. Qed.

Lemma cstr_nonzero s : Forall (fun c => c <> 0) (cstr s).
Proof. induction s as [|c s IH]; [done|]. cbn [cstr]. destruct (Z.eqb_spec c 0); by constructor. Qed.

Lemma word_app w c rest : Forall (fun c => isspace c = false) w -> isspace c = true -> word (w ++ c :: rest) = (w, c :: rest).
Proof. induction 1 as [|a w Ha _ IH]; intros Hc; cbn [app word]; [by rewrite Hc|]. by rewrite Ha, (IH Hc). Qed.

Lemma scan_word_app w c rest :
  w <> [] -> Forall (fun c => isspace c = false) w -> isspace c = true -> scan_word (w ++ c :: rest) = Some (w, c :: rest).
Proof.
  intros Hn Hw Hc. unfold scan_word. destruct w as [|a w]; [done|]. pose proof Hw as [Ha _]%Forall_cons.
  cbn [app skip_while]. rewrite Ha. change (a :: w ++ c :: rest) with ((a :: w) ++ c :: rest). by rewrite (word_app _ _ _ Hw Hc).
Qed.

Lemma prefix_of_app p s : prefix_of p (p ++ s) = Some s.
Proof. induction p as [|a p IH]; [done|]. cbn [app prefix_of]. by rewrite Z.eqb_refl. Qed.

Lemma length_print_u n : 0 <= n < 2 ^ 32 -> (length (print_u n) <= 32)%nat.
Proof.
  intros Hn. assert (Hlen : forall fuel n, (length (print_loop fuel n []) <= fuel)%nat).
  { clear. induction fuel as [|fuel IH]; intros n; [done|]. cbn [print_loop]. destruct (_ <? _); [cbn; lia|].
    rewrite print_loop_app, length_app. specialize (IH (n / 10)). cbn. lia. }
  unfold print_u. pose proof (Hlen (S (Z.to_nat (Z.log2 n))) n).
  assert (Z.log2 n <= 31); [|lia]. destruct (Z.eq_dec n 0) as [->|]; [done|]. apply Z.lt_succ_r. apply Z.log2_lt_pow2; lia.
Qed.

Lemma print_d_nonneg n : 0 <= n -> print_d n = print_u n.
Proof. intros Hn. unfold print_d. by rewrite (proj2 (Z.ltb_ge _ _)). Qed.

Lemma print_u_digits n : 0 <= n -> Forall (fun c => isdigit c = true) (print_u n).
Proof.
  assert (Hgen : forall fuel n acc, 0 <= n -> Forall (fun c => isdigit c = true) acc -> Forall (fun c => isdigit c = true) (print_loop fuel n acc)).
  { clear. induction fuel as [|fuel IH]; intros n acc Hn Ha; [done|]. cbn [print_loop]. unfold isdigit in *. destruct (Z.ltb_spec n 10).
    - constructor; [|done]. by rewrite (proj2 (Z.leb_le _ _)), (proj2 (Z.leb_le _ _)) by lia.
    - apply IH; [by apply Z.div_pos; lia|]. constructor; [|done]. pose proof (Z.mod_pos_bound n 10 ltac:(lia)).
      by rewrite (proj2 (Z.leb_le _ _)), (proj2 (Z.leb_le _ _)) by lia. }
  intros Hn. by apply Hgen.
Qed.

(** ** Substrings *)

Lemma prefix_of_Some p s r : prefix_of p s = Some r <-> s = p ++ r.
Proof.
  split; [|intros ->; apply prefix_of_app]. revert s. induction p as [|a p IH]; intros s H; [by injection H as <-|].
  destruct s as [|b s]; [done|]. cbn [prefix_of] in H. destruct (Z.eqb_spec a b) as [->|]; [|done]. by rewrite (IH s H).
Qed.

Lemma strstr_spec p s : strstr p s = true <-> exists a b, s = a ++ p ++ b.
Proof.
  split.
  - induction s as [|c s IH]; cbn [strstr]; destruct (prefix_of p _) as [r|] eqn:E; try done.
    + apply prefix_of_Some in E as E'. intros _. by exists [], r.
    + apply prefix_of_Some in E as E'. intros _. by exists [], r.
    + intros H. destruct (IH H) as (a & b & ->). by exists (c :: a), b.
  - intros (a & b & ->). induction a as [|c a IH]; cbn [app].
    + assert (E : prefix_of p (p ++ b) = Some b) by apply prefix_of_app. by destruct (p ++ b); cbn [strstr]; rewrite E.
    + cbn [strstr]. by destruct (prefix_of p _).
Qed.

Lemma strrchr_app c s t : c ∉ t -> strrchr c (s ++ c :: t) = Some (c :: t).
Proof.
  intros Ht. assert (En : strrchr c t = None).
  { induction t as [|x t IH]; [done|]. rewrite not_elem_of_cons in Ht. destruct Ht as [Hx Ht]. cbn [strrchr].
    rewrite (IH Ht). by rewrite (proj2 (Z.eqb_neq x c)) by congruence. }
  induction s as [|x s IH]; cbn [app strrchr]; [by rewrite En, Z.eqb_refl|by rewrite IH].
Qed.
