(* ===== verification/Bitmap.v ===== *)
(** * Bitmaps (fs/bitmap.c)

    A [bitmap] is the array of words of the code (WORD_TYPE is a byte); [bit]
    reads it as a set of bits.  [bm_ok] is the invariant that bitmap_create
    establishes: the array has the words [nbits] needs and the bits past the
    end are set, which is what keeps bitmap_alloc from handing them out. *)
From S2P Require Import Prelude Bytes.

#[local] Ltac Zify.zify_post_hook ::= Z.to_euclidean_division_equations.

(** Errors are returned as negative numbers (errno.h). *)
Definition ENOENT : Z := 2.
Definition ENOMEM : Z := 12.
Definition EEXIST : Z := 17.
Definition ENOTDIR : Z := 20.
Definition EISDIR : Z := 21.
Definition EINVAL : Z := 22.
Definition ENOSPC : Z := 28.
Definition ENOSYS : Z := 38.
Definition ENOTEMPTY : Z := 39.

Definition BITS_PER_WORD : Z := 8.
Definition WORD_ALLBITS : Z := 255.
Definition DIVROUNDUP (a b : Z) : Z := (a + b - 1) / b.

Record bitmap := Bitmap { nbits : Z; v : list Z }.

Definition word (b : bitmap) (ix : Z) : res Z := deref (v b !! Z.to_nat ix).
Definition set_word (b : bitmap) (ix w : Z) : bitmap := Bitmap (nbits b) (<[Z.to_nat ix := w]> (v b)).

(** The two [malloc]s of bitmap_create succeed or not. *)
Definition bitmap_create (m1 m2 : bool) (n : Z) : res (Z + bitmap) :=
  let words := u32 (n + BITS_PER_WORD - 1) / BITS_PER_WORD in
  if negb m1 then Ret (inl (- ENOMEM))
  else if negb m2 then Ret (inl (- ENOMEM))
  else
    let b := Bitmap n (replicate (Z.to_nat words) 0) in
    if n / BITS_PER_WORD <? words then
      let ix := words - 1 in
      let overbits := u32 (n - ix * BITS_PER_WORD) in
      _ ← c_assert (n / BITS_PER_WORD =? words - 1);
      _ ← c_assert ((0 <? overbits) && (overbits <? BITS_PER_WORD));
      w ← word b ix;
      Ret (inr (set_word b ix
        (foldl (fun w j => Z.lor w (Z.shiftl 1 j)) w (seqZ overbits (BITS_PER_WORD - overbits)))))
    else Ret (inr b).

Definition bitmap_getdata (b : bitmap) : list Z := v b.
Definition bitmap_getsize (b : bitmap) : Z := nbits b.

(** The inner loop of bitmap_alloc: the first clear bit of a word. *)
Fixpoint alloc_bit (n : nat) (offset w : Z) : option Z :=
  match n with
  | O => None
  | S n => if Z.land w (Z.shiftl 1 offset) =? 0 then Some offset else alloc_bit n (offset + 1) w
  end.

(** The outer loop, [n] words left. *)
Fixpoint alloc_word (n : nat) (ix : Z) (b : bitmap) : res (Z * Z * bitmap) :=
  match n with
  | O => Ret (- ENOSPC, 0, b)
  | S n =>
      w ← word b ix;
      if w =? WORD_ALLBITS then alloc_word n (ix + 1) b
      else
        match alloc_bit (Z.to_nat BITS_PER_WORD) 0 w with
        | Some offset =>
            let b' := set_word b ix (Z.lor w (Z.shiftl 1 offset)) in
            let index := u32 (ix * BITS_PER_WORD + offset) in
            _ ← c_assert (index <? nbits b);
            Ret (0, index, b')
        | None => Fail Assert
        end
  end.

(** The return value, [*index], the bitmap. *)
Definition bitmap_alloc (b : bitmap) : res (Z * Z * bitmap) :=
  alloc_word (Z.to_nat (u32 (nbits b + BITS_PER_WORD - 1) / BITS_PER_WORD)) 0 b.

Definition bitmap_translate (bitno : Z) : Z * Z :=
  (bitno / BITS_PER_WORD, Z.shiftl 1 (bitno mod BITS_PER_WORD)).

Definition bitmap_mark (b : bitmap) (index : Z) : res bitmap :=
  _ ← c_assert (index <? nbits b);
  let (ix, mask) := bitmap_translate index in
  w ← word b ix;
  _ ← c_assert (Z.land w mask =? 0);
  Ret (set_word b ix (Z.lor w mask)).

Definition bitmap_unmark (b : bitmap) (index : Z) : res bitmap :=
  _ ← c_assert (index <? nbits b);
  let (ix, mask) := bitmap_translate index in
  w ← word b ix;
  _ ← c_assert (negb (Z.land w mask =? 0));
  Ret (set_word b ix (Z.land w (u8 (Z.lnot mask)))).

Definition bitmap_isset (b : bitmap) (index : Z) : res Z :=
  let (ix, mask) := bitmap_translate index in
  w ← word b ix; Ret (Z.land w mask).

Fixpoint nr_allocated (n : nat) (i nr : Z) (b : bitmap) : res Z :=
  match n with
  | O => Ret nr
  | S n => x ← bitmap_isset b i; nr_allocated n (i + 1) (if x =? 0 then nr else s32 (nr + 1)) b
  end.
Definition bitmap_nr_allocated (b : bitmap) : res Z := nr_allocated (Z.to_nat (nbits b)) 0 0 b.

(** ** Bits *)

(** Bit [i] of an array of words. *)
Definition wbit (l : list Z) (i : Z) : bool :=
  match l !! Z.to_nat (i / 8) with Some w => Z.testbit w (i mod 8) | None => false end.
Definition bit (b : bitmap) (i : Z) : bool := wbit (v b) i.

Record bm_ok (b : bitmap) : Prop := BmOk {
  bm_range : 0 <= nbits b < 2 ^ 31;
  bm_len : zlen (v b) = DIVROUNDUP (nbits b) 8;
  bm_bytes : Forall is_byte (v b);
  bm_over : forall i, nbits b <= i < 8 * zlen (v b) -> bit b i = true
}.

Lemma land_bit w i : 0 <= i -> (Z.land w (Z.shiftl 1 i) =? 0) = negb (Z.testbit w i).
Proof.
  intros Hi. destruct (Z.testbit w i) eqn:E; simpl.
  - apply Z.eqb_neq. intros H. apply (f_equal (fun z => Z.testbit z i)) in H.
    rewrite Z.land_spec, Z.shiftl_spec, Z.sub_diag, E, Z.testbit_0_l in H by done. done.
  - apply Z.eqb_eq. apply Z.bits_inj'. intros j Hj. rewrite Z.land_spec, Z.shiftl_spec, Z.testbit_0_l by done.
    destruct (decide (j = i)) as [->|Hne]; [by rewrite E|].
    destruct (decide (j < i)); [rewrite (Z.testbit_neg_r 1) by lia; by rewrite andb_false_r|].
    rewrite (Z.bits_above_log2 1 (j - i)), andb_false_r; simpl; lia || done.
Qed.

Lemma testbit_shiftl_1 i j : 0 <= i -> 0 <= j -> Z.testbit (Z.shiftl 1 i) j = bool_decide (j = i).
Proof.
  intros Hi Hj. rewrite Z.shiftl_spec by done. case_bool_decide as E.
  - subst. by rewrite Z.sub_diag.
  - destruct (decide (j < i)); [by rewrite Z.testbit_neg_r by lia|].
    apply Z.bits_above_log2; simpl; lia.
Qed.

Lemma testbit_lor_bit w i j : 0 <= i -> 0 <= j ->
  Z.testbit (Z.lor w (Z.shiftl 1 i)) j = Z.testbit w j || bool_decide (j = i).
Proof. intros. by rewrite Z.lor_spec, testbit_shiftl_1. Qed.

Lemma byte_bits w : is_byte w <-> (0 <= w /\ forall j, 8 <= j -> Z.testbit w j = false).
Proof.
  unfold is_byte. split.
  - intros [H0 H]. split; [done|]. intros j Hj. destruct (decide (w = 0)) as [->|]; [apply Z.testbit_0_l|].
    apply Z.bits_above_log2; [done|]. apply Z.log2_lt_pow2; [lia|].
    pose proof (Z.pow_le_mono_r 2 8 j). lia.
  - intros [H0 H]. split; [done|]. destruct (decide (w < 256)); [done|]. exfalso.
    assert (Hl : 8 <= Z.log2 w) by (apply Z.log2_le_pow2; lia).
    specialize (H _ Hl). rewrite Z.bit_log2 in H by lia. done.
Qed.

Lemma byte_lor_bit w i : is_byte w -> 0 <= i < 8 -> is_byte (Z.lor w (Z.shiftl 1 i)).
Proof.
  rewrite !byte_bits. intros [H0 H] Hi. split.
  - apply Z.lor_nonneg. split; [done|]. by apply Z.shiftl_nonneg.
  - intros j Hj. rewrite testbit_lor_bit, H by lia. by rewrite bool_decide_false by lia.
Qed.

Lemma byte_eq w w' : is_byte w -> is_byte w' -> (forall j, 0 <= j < 8 -> Z.testbit w j = Z.testbit w' j) -> w = w'.
Proof.
  rewrite !byte_bits. intros [_ H] [_ H'] Heq. apply Z.bits_inj'. intros j Hj.
  destruct (decide (j < 8)); [apply Heq; lia|]. by rewrite H, H' by lia.
Qed.

Lemma testbit_allbits j : 0 <= j < 8 -> Z.testbit WORD_ALLBITS j = true.
Proof.
  intros Hj. unfold WORD_ALLBITS. change 255 with (Z.ones 8).
  apply Z.ones_spec_low. lia.
Qed.

Lemma wbit_insert l ix w j :
  0 <= ix < zlen l -> 0 <= j ->
  wbit (<[Z.to_nat ix := w]> l) j = if decide (j / 8 = ix) then Z.testbit w (j mod 8) else wbit l j.
Proof.
  unfold wbit, zlen. intros Hix Hj. assert (0 <= j / 8) by (apply Z.div_pos; lia). case_decide as E.
  - rewrite E. by rewrite list_lookup_insert_eq by lia.
  - rewrite list_lookup_insert_ne; [done|]. lia.
Qed.

Lemma word_Some b ix : 0 <= ix < zlen (v b) -> exists w, v b !! Z.to_nat ix = Some w /\ word b ix = Ret w.
Proof.
  unfold word, zlen. intros H. destruct (lookup_lt_is_Some_2 (v b) (Z.to_nat ix)) as [w Hw]; [lia|].
  exists w. by rewrite Hw.
Qed.

(** Setting or clearing one bit. *)
Lemma bit_set_word b i w w' :
  0 <= i -> v b !! Z.to_nat (i / 8) = Some w -> i / 8 < zlen (v b) ->
  (forall j, 0 <= j < 8 -> j <> i mod 8 -> Z.testbit w' j = Z.testbit w j) ->
  forall j, 0 <= j -> bit (set_word b (i / 8) w') j = if decide (j = i) then Z.testbit w' (i mod 8) else bit b j.
Proof.
  intros Hi Hw Hlt Hother j Hj. unfold bit. simpl. assert (0 <= i / 8) by (apply Z.div_pos; lia).
  rewrite wbit_insert by done. pose proof (Z.div_mod i 8). pose proof (Z.div_mod j 8).
  pose proof (Z.mod_pos_bound j 8). pose proof (Z.mod_pos_bound i 8).
  destruct (decide (j / 8 = i / 8)) as [E|E], (decide (j = i)) as [->|Hne]; try done.
  - unfold wbit. rewrite E, Hw. apply Hother; lia.
Qed.

Lemma alloc_bit_spec n o w :
  0 <= o ->
  match alloc_bit n o w with
  | Some p => o <= p < o + Z.of_nat n /\ Z.testbit w p = false /\ forall j, o <= j < p -> Z.testbit w j = true
  | None => forall j, o <= j < o + Z.of_nat n -> Z.testbit w j = true
  end.
Proof.
  revert o. induction n as [|n IH]; intros o Ho; cbn [alloc_bit]; [lia|].
  rewrite land_bit by done. destruct (Z.testbit w o) eqn:E; cbn [negb].
  - specialize (IH (o + 1) ltac:(lia)). destruct (alloc_bit n (o + 1) w) as [p|].
    + destruct IH as (? & ? & Hlow). split_and!; [lia..|done|]. intros j Hj.
      destruct (decide (j = o)) as [->|]; [done|]. apply Hlow. lia.
    + intros j Hj. destruct (decide (j = o)) as [->|]; [done|]. apply IH. lia.
  - split_and!; [lia..|done|lia].
Qed.

(** [b'] is [b] with bit [i] set. *)
Definition bit_set (b : bitmap) (i : Z) (b' : bitmap) : Prop :=
  nbits b' = nbits b /\ zlen (v b') = zlen (v b) /\
  forall j, 0 <= j -> bit b' j = bit b j || bool_decide (j = i).

Lemma set_word_ok b i w w' :
  bm_ok b -> 0 <= i < nbits b -> v b !! Z.to_nat (i / 8) = Some w -> is_byte w' ->
  (forall j, nbits b <= j -> bit (set_word b (i / 8) w') j = bit b j) ->
  bm_ok (set_word b (i / 8) w').
Proof.
  intros [Hr Hl Hb Ho] Hi Hw Hw' Hbits. constructor; simpl; [done| |by apply Forall_insert|].
  - unfold zlen in *. by rewrite length_insert.
  - intros j Hj. unfold zlen in *. rewrite length_insert in Hj. rewrite Hbits by lia. apply Ho. unfold zlen. lia.
Qed.

Lemma words_bound b i : bm_ok b -> 0 <= i < nbits b -> 0 <= i / 8 < zlen (v b).
Proof. intros [Hr Hl Hb Ho] Hi. rewrite Hl. unfold DIVROUNDUP. split; [apply Z.div_pos; lia|]. lia. Qed.

Lemma lookup_byte b i w : bm_ok b -> v b !! i = Some w -> is_byte w.
Proof. intros H Hw. eapply Forall_lookup; [apply H|done]. Qed.

(** The block the three operations that set a bit share. *)
Lemma set_bit_ok b i w :
  bm_ok b -> 0 <= i < nbits b -> v b !! Z.to_nat (i / 8) = Some w ->
  let b' := set_word b (i / 8) (Z.lor w (Z.shiftl 1 (i mod 8))) in
  bm_ok b' /\ bit_set b i b'.
Proof.
  intros Hb Hi Hw b'. pose proof (words_bound b i Hb Hi) as Hlt. pose proof (Z.mod_pos_bound i 8).
  assert (Hbits : forall j, 0 <= j -> bit b' j = bit b j || bool_decide (j = i)).
  { intros j Hj. subst b'. rewrite (bit_set_word b i w) by (done || lia || (intros; rewrite testbit_lor_bit, bool_decide_false by lia; by rewrite orb_false_r)).
    case_decide as E.
    - rewrite testbit_lor_bit by lia. rewrite !bool_decide_true by done. by rewrite !orb_true_r.
    - rewrite bool_decide_false by done. by rewrite orb_false_r. }
  split.
  - eapply set_word_ok; [done..| |].
    + apply byte_lor_bit; [by eapply lookup_byte|lia].
    + intros j Hj. rewrite Hbits by lia. rewrite bool_decide_false by lia. by rewrite orb_false_r.
  - split_and!; [done| |done]. subst b'. simpl. unfold zlen. by rewrite length_insert.
Qed.

Lemma alloc_word_spec n ix b :
  bm_ok b -> 0 <= ix -> ix + Z.of_nat n = zlen (v b) ->
  exists r i b', alloc_word n ix b = Ret (r, i, b') /\
    ((r = - ENOSPC /\ b' = b /\ forall j, 8 * ix <= j < nbits b -> bit b j = true) \/
     (r = 0 /\ 8 * ix <= i < nbits b /\ bit b i = false /\ (forall j, 8 * ix <= j < i -> bit b j = true) /\
      bm_ok b' /\ bit_set b i b')).
Proof.
  intros Hb. revert ix. induction n as [|n IH]; intros ix Hix Hn; cbn [alloc_word].
  { eexists _, _, _. split; [done|]. left. split_and!; [done..|]. intros j Hj.
    destruct Hb as [Hr Hl _ _]. unfold DIVROUNDUP in Hl. lia. }
  destruct (word_Some b ix) as (w & Hw & ->); [lia|]. cbn [mbind res_bind].
  pose proof (lookup_byte _ _ _ Hb Hw) as Hwb.
  assert (Hbit : forall j, 8 * ix <= j < 8 * ix + 8 -> bit b j = Z.testbit w (j - 8 * ix)).
  { intros j Hj. unfold bit, wbit. assert (E : j / 8 = ix) by lia. rewrite E, Hw.
    f_equal. pose proof (Z.div_mod j 8). lia. }
  destruct (Z.eqb_spec w WORD_ALLBITS) as [->|Hne].
  - destruct (IH (ix + 1) ltac:(lia) ltac:(lia)) as (r & i & b' & E & Hcase). exists r, i, b'. split; [done|].
    assert (Hset : forall j, 8 * ix <= j < 8 * ix + 8 -> bit b j = true)
      by (intros j Hj; rewrite Hbit by done; apply testbit_allbits; lia).
    destruct Hcase as [(-> & -> & H)|(-> & Hi & Hc & H & Hb' & Hs)].
    + left. split_and!; [done..|]. intros j Hj. destruct (decide (j < 8 * ix + 8)); [apply Hset|apply H]; lia.
    + right. split_and!; try done; try lia. intros j Hj.
      destruct (decide (j < 8 * ix + 8)); [apply Hset|apply H]; lia.
  - pose proof (alloc_bit_spec (Z.to_nat BITS_PER_WORD) 0 w ltac:(lia)) as Ha.
    destruct (alloc_bit _ 0 w) as [o|].
    2:{ exfalso. apply Hne. apply byte_eq; [done|done|]. intros j Hj. rewrite testbit_allbits by done.
        apply Ha. unfold BITS_PER_WORD. lia. }
    destruct Ha as (Ho & Hc & Hlow). unfold BITS_PER_WORD in *.
    assert (Hcl : bit b (8 * ix + o) = false) by (rewrite Hbit by lia; rewrite <- Hc; f_equal; lia).
    assert (Hlt : 8 * ix + o < nbits b).
    { destruct (decide (8 * ix + o < nbits b)); [done|]. rewrite (bm_over b Hb) in Hcl by lia. done. }
    pose proof (bm_range b Hb). rewrite u32_small by (unfold in_u32; lia).
    rewrite (proj2 (Z.ltb_lt (ix * 8 + o) (nbits b))) by lia. simpl.
    assert (Ei : (ix * 8 + o) / 8 = ix) by lia. assert (Eo : (ix * 8 + o) mod 8 = o).
    { pose proof (Z.div_mod (ix * 8 + o) 8). lia. }
    rewrite <- Ei in Hw. destruct (set_bit_ok b (ix * 8 + o) w Hb ltac:(lia) Hw) as [Hb' Hs].
    rewrite Ei, Eo in Hb', Hs.
    eexists _, _, _. split; [done|]. right. replace (8 * ix + o) with (ix * 8 + o) in * by lia.
    split_and!; try done; try lia. intros j Hj. rewrite Hbit by lia. apply Hlow. lia.
Qed.

(** ** The operations on sets of bits *)

(** The bits in use. *)
Definition used (b : bitmap) : list Z := filter (fun i => bit b i = true) (seqZ 0 (nbits b)).

Lemma elem_of_used b i : i ∈ used b <-> 0 <= i < nbits b /\ bit b i = true.
Proof. unfold used. rewrite list_elem_of_filter, elem_of_seqZ. naive_solver lia. Qed.

Lemma NoDup_used b : NoDup (used b).
Proof. apply NoDup_filter, NoDup_seqZ. Qed.

Lemma bitmap_alloc_cases b :
  bm_ok b ->
  exists r i b', bitmap_alloc b = Ret (r, i, b') /\
    ((r = - ENOSPC /\ b' = b /\ forall j, 0 <= j < nbits b -> bit b j = true) \/
     (r = 0 /\ 0 <= i < nbits b /\ bit b i = false /\ (forall j, 0 <= j < i -> bit b j = true) /\
      bm_ok b' /\ bit_set b i b')).
Proof.
  intros Hb. unfold bitmap_alloc. pose proof (bm_range b Hb). pose proof (bm_len b Hb) as Hl.
  unfold DIVROUNDUP in Hl. rewrite u32_small by (unfold in_u32, BITS_PER_WORD; lia).
  unfold BITS_PER_WORD.
  destruct (alloc_word_spec (Z.to_nat ((nbits b + 8 - 1) / 8)) 0 b Hb) as (r & i & b' & -> & Hc); [lia..|].
  exists r, i, b'. split; [done|]. exact Hc.
Qed.

Lemma used_bit_set b i b' :
  bit_set b i b' -> 0 <= i < nbits b -> bit b i = false -> used b' ≡ₚ i :: used b.
Proof.
  intros (Hn & _ & Hbit) Hi Hf. apply NoDup_Permutation.
  - apply NoDup_used.
  - apply NoDup_cons. split; [rewrite elem_of_used; intros [_ ?]; congruence|apply NoDup_used].
  - intros j. rewrite elem_of_cons, !elem_of_used, Hn. split.
    + intros [Hj Hb]. rewrite Hbit in Hb by lia. apply orb_true_iff in Hb as [?|E%bool_decide_eq_true]; auto.
    + intros [->|[Hj Hb]]; (split; [done|]); rewrite Hbit by lia;
        rewrite ?bool_decide_true by done; rewrite ?Hb; auto using orb_true_r.
Qed.

(** C36: On a well-formed bitmap bitmap_alloc always returns.  When some bit
    is clear it returns 0 with the lowest clear bit, which is below [nbits],
    sets it and no other bit; when all [nbits] bits are set it returns -ENOSPC
    and changes nothing, for the bits past the end are never handed out. *)
Theorem bitmap_alloc_lowest b (Hb : bm_ok b) :
  match list_find (fun i => bit b i = false) (seqZ 0 (nbits b)) with
  | Some (_, i) => exists b', bitmap_alloc b = Ret (0, i, b') /\ bm_ok b' /\ nbits b' = nbits b /\
      (forall j, 0 <= j -> bit b' j = bit b j || bool_decide (j = i)) /\ used b' ≡ₚ i :: used b
  | None => exists i, bitmap_alloc b = Ret (- ENOSPC, i, b)
  end.
Proof.
  destruct (bitmap_alloc_cases b Hb) as (r & i & b' & E & Hc).
  destruct (list_find _ _) as [[k j]|] eqn:Ef.
  - apply list_find_Some in Ef as (Hk & Hj & Hlow). apply lookup_seqZ in Hk as [-> Hk].
    destruct Hc as [(_ & _ & H)|(-> & Hi & Hf & Hlow' & Hb' & Hs)].
    { rewrite H in Hj by lia. done. }
    assert (i = 0 + Z.of_nat k) as <-.
    { destruct (Z.lt_trichotomy i (0 + Z.of_nat k)) as [Hlt|[->|Hgt]]; [|done|].
      - exfalso. apply (Hlow (Z.to_nat i) i); [apply lookup_seqZ|..]; [lia|lia|done].
      - rewrite Hlow' in Hj by lia. done. }
    exists b'. split_and!; [done|done|apply Hs|apply Hs|by apply used_bit_set].
  - apply list_find_None in Ef. destruct Hc as [(-> & -> & _)|(_ & Hi & Hf & _)]; [by exists i|].
    exfalso. rewrite Forall_forall in Ef. apply (Ef i); [|done]. apply elem_of_seqZ. lia.
Qed.

(** Twelve bits, of which the first nine are taken. *)
Lemma twelve_ok : bm_ok (Bitmap 12 [255; 241]).
Proof.
  constructor; simpl; [lia|reflexivity|repeat constructor; unfold is_byte; lia|].
  intros i Hi. unfold zlen in Hi. simpl in Hi.
  assert (i = 12 \/ i = 13 \/ i = 14 \/ i = 15) as [->|[->|[->| ->]]] by lia; reflexivity.
Qed.

Lemma bitmap_alloc_lowest_witness :
  exists b', bitmap_alloc (Bitmap 12 [255; 241]) = Ret (0, 9, b') /\ bm_ok b' /\ nbits b' = 12 /\
      (forall j, 0 <= j -> bit b' j = bit (Bitmap 12 [255; 241]) j || bool_decide (j = 9)) /\
      used b' ≡ₚ 9 :: used (Bitmap 12 [255; 241]).
Proof.
  apply (bitmap_alloc_lowest (Bitmap 12 [255; 241])). apply twelve_ok.
Defined.

Lemma bitmap_isset_ok b i :
  bm_ok b -> 0 <= i < nbits b -> exists x, bitmap_isset b i = Ret x /\ (x =? 0) = negb (bit b i).
Proof.
  intros Hb Hi. unfold bitmap_isset, bitmap_translate, BITS_PER_WORD.
  destruct (word_Some b (i / 8)) as (w & Hw & ->); [by apply words_bound|].
  eexists. split; [reflexivity|]. rewrite land_bit by lia. unfold bit, wbit. by rewrite Hw.
Qed.

Lemma bitmap_mark_ok b i :
  bm_ok b -> 0 <= i < nbits b -> bit b i = false ->
  exists b', bitmap_mark b i = Ret b' /\ bm_ok b' /\ bit_set b i b'.
Proof.
  intros Hb Hi Hf. unfold bitmap_mark, bitmap_translate, BITS_PER_WORD.
  rewrite (proj2 (Z.ltb_lt _ _)) by lia. cbn [c_assert mbind res_bind].
  destruct (word_Some b (i / 8)) as (w & Hw & ->); [by apply words_bound|]. cbn [mbind res_bind].
  rewrite land_bit by lia. unfold bit, wbit in Hf. rewrite Hw in Hf. rewrite Hf. cbn [negb c_assert mbind res_bind].
  eexists. split; [reflexivity|]. by apply set_bit_ok.
Qed.

(** [b'] is [b] with bit [i] clear. *)
Definition bit_clear (b : bitmap) (i : Z) (b' : bitmap) : Prop :=
  nbits b' = nbits b /\ zlen (v b') = zlen (v b) /\
  forall j, 0 <= j -> bit b' j = bit b j && negb (bool_decide (j = i)).

Lemma testbit_clear w i j : is_byte w -> 0 <= i < 8 -> 0 <= j ->
  Z.testbit (Z.land w (u8 (Z.lnot (Z.shiftl 1 i)))) j = Z.testbit w j && negb (bool_decide (j = i)).
Proof.
  intros Hw Hi Hj. rewrite Z.land_spec. unfold u8. destruct (decide (j < 8)).
  - rewrite Z.mod_pow2_bits_low, Z.lnot_spec, testbit_shiftl_1 by lia. done.
  - apply byte_bits in Hw as [_ Hw]. by rewrite Hw by lia.
Qed.

Lemma bitmap_unmark_ok b i :
  bm_ok b -> 0 <= i < nbits b -> bit b i = true ->
  exists b', bitmap_unmark b i = Ret b' /\ bm_ok b' /\ bit_clear b i b'.
Proof.
  intros Hb Hi Hf. unfold bitmap_unmark, bitmap_translate, BITS_PER_WORD.
  rewrite (proj2 (Z.ltb_lt _ _)) by lia. cbn [c_assert mbind res_bind].
  pose proof (words_bound b i Hb Hi) as Hlt.
  destruct (word_Some b (i / 8)) as (w & Hw & ->); [done|]. cbn [mbind res_bind].
  rewrite land_bit by lia. unfold bit, wbit in Hf. rewrite Hw in Hf. rewrite Hf. cbn [negb c_assert mbind res_bind].
  pose proof (lookup_byte _ _ _ Hb Hw) as Hwb. pose proof (Z.mod_pos_bound i 8).
  set (b' := set_word _ _ _).
  assert (Hbits : forall j, 0 <= j -> bit b' j = bit b j && negb (bool_decide (j = i))).
  { intros j Hj. subst b'. rewrite (bit_set_word b i w).
    - case_decide as E; [subst|by rewrite bool_decide_false, andb_true_r by done].
      rewrite testbit_clear by (done || lia). rewrite !bool_decide_true by done. by rewrite !andb_false_r.
    - lia.
    - done.
    - lia.
    - intros k Hk Hne. rewrite testbit_clear by (done || lia). by rewrite bool_decide_false, andb_true_r by done.
    - done. }
  eexists. split; [reflexivity|]. split.
  - apply (set_word_ok b i w); try done.
    + apply byte_bits. split; [apply Z.land_nonneg; left; apply Hwb|].
      intros j Hj. rewrite testbit_clear by (done || lia). apply byte_bits in Hwb as [_ Hwb]. by rewrite Hwb.
    + intros j Hj. change (bit b' j = bit b j). rewrite Hbits by lia.
      by rewrite bool_decide_false, andb_true_r by lia.
  - split_and!; [done| |done]. subst b'. simpl. unfold zlen. by rewrite length_insert.
Qed.

Lemma used_bit_clear b i b' :
  bit_clear b i b' -> 0 <= i < nbits b -> bit b i = true -> used b ≡ₚ i :: used b'.
Proof.
  intros (Hn & _ & Hbit) Hi Hf. apply NoDup_Permutation.
  - apply NoDup_used.
  - apply NoDup_cons. split; [|apply NoDup_used]. rewrite elem_of_used. intros [_ H].
    rewrite Hbit, bool_decide_true, andb_false_r in H by lia. done.
  - intros j. rewrite elem_of_cons, !elem_of_used, Hn. split.
    + intros [Hj Hb]. destruct (decide (j = i)) as [->|Hne]; [by left|]. right. split; [done|].
      rewrite Hbit, Hb, bool_decide_false by lia. done.
    + intros [->|[Hj Hb]]; [done|]. split; [done|]. rewrite Hbit in Hb by lia.
      by apply andb_true_iff in Hb as [? _].
Qed.

(** The words that hold the same bits are equal. *)
Lemma slice_bits b b' off n :
  Forall is_byte (v b) -> Forall is_byte (v b') -> zlen (v b) = zlen (v b') -> 0 <= off ->
  (forall j, 8 * off <= j < 8 * (off + n) -> bit b j = bit b' j) ->
  slice off n (v b) = slice off n (v b').
Proof.
  intros Hb Hb' Hl Hoff Hbit. unfold zlen in Hl. apply list_eq. intros i. rewrite !lookup_slice by done.
  case_decide; [|done]. set (k := (Z.to_nat off + i)%nat).
  destruct (v b !! k) as [w|] eqn:E, (v b' !! k) as [w'|] eqn:E'; [|..|done].
  - f_equal. apply byte_eq; [by eapply Forall_lookup; [exact Hb|]|by eapply Forall_lookup; [exact Hb'|]|].
    intros j Hj. specialize (Hbit (8 * Z.of_nat k + j) ltac:(lia)). unfold bit, wbit in Hbit.
    replace ((8 * Z.of_nat k + j) / 8) with (Z.of_nat k) in Hbit by lia.
    replace ((8 * Z.of_nat k + j) mod 8) with j in Hbit by lia.
    by rewrite Nat2Z.id, E, E' in Hbit.
  - apply lookup_lt_Some in E. apply lookup_ge_None in E'. lia.
  - apply lookup_lt_Some in E'. apply lookup_ge_None in E. lia.
Qed.

(** Two well-formed bitmaps with the same bits are equal. *)
Lemma bitmap_ext b b' :
  bm_ok b -> bm_ok b' -> nbits b = nbits b' -> (forall j, 0 <= j -> bit b j = bit b' j) -> b = b'.
Proof.
  intros Hb Hb' Hn Hbit.
  assert (E : v b = v b').
  { rewrite <- (slice_all (v b)), <- (slice_all (v b')). pose proof (bm_len _ Hb) as Hl. pose proof (bm_len _ Hb') as Hl'.
    rewrite <- Hn, <- Hl in Hl'. rewrite Hl'. apply slice_bits; [apply Hb|apply Hb'|done|lia|]. intros j Hj. apply Hbit. lia. }
  destruct b, b'. simpl in *. by subst.
Qed.

(** The bits past the end are the same in every bitmap of a size. *)
Lemma bitmap_ext_used b b' :
  bm_ok b -> bm_ok b' -> nbits b = nbits b' -> (forall j, 0 <= j < nbits b -> bit b j = bit b' j) -> b = b'.
Proof.
  intros Hb Hb' Hn Hbit. apply bitmap_ext; [done..|]. intros j Hj.
  destruct (decide (j < nbits b)); [by apply Hbit|].
  assert (Hl : zlen (v b') = zlen (v b)) by (rewrite (bm_len _ Hb), (bm_len _ Hb'); by rewrite Hn).
  destruct (decide (j < 8 * zlen (v b))); [rewrite !bm_over by (done || lia); done|].
  unfold bit, wbit, zlen in *. by rewrite !(lookup_ge_None_2 _ (Z.to_nat (j / 8))) by lia.
Qed.

(** bitmap_unmark undoes bitmap_alloc and bitmap_mark undoes
    bitmap_unmark: allocating a bit and releasing it gives back the same
    array, and so does releasing a bit in use and marking it. *)
Theorem bitmap_roundtrip b (Hb : bm_ok b) :
  (forall i b', bitmap_alloc b = Ret (0, i, b') -> bitmap_unmark b' i = Ret b) /\
  (forall i, 0 <= i < nbits b -> bit b i = true ->
     exists b', bitmap_unmark b i = Ret b' /\ bitmap_mark b' i = Ret b).
Proof.
  split.
  - intros i b' E. destruct (bitmap_alloc_cases b Hb) as (r & i' & b'' & E' & Hc). rewrite E' in E. simplify_eq.
    destruct Hc as [(? & _)|(_ & Hi & Hf & _ & Hb' & (Hn & Hl & Hs))]; [done|].
    destruct (bitmap_unmark_ok b' i Hb') as (b2 & -> & Hb2 & (Hn2 & _ & Hc2)); [lia| |].
    { rewrite Hs, bool_decide_true by lia. apply orb_true_r. }
    f_equal. apply bitmap_ext; [done..|congruence|]. intros j Hj. rewrite Hc2, Hs by done.
    case_bool_decide; [subst; by rewrite Hf|]. by rewrite orb_false_r, andb_true_r.
  - intros i Hi Ht. destruct (bitmap_unmark_ok b i Hb Hi Ht) as (b' & E & Hb' & (Hn & _ & Hc)).
    exists b'. split; [done|].
    destruct (bitmap_mark_ok b' i Hb') as (b2 & -> & Hb2 & (Hn2 & _ & Hs2)); [lia| |].
    { rewrite Hc, bool_decide_true by lia. apply andb_false_r. }
    f_equal. apply bitmap_ext; [done..|congruence|]. intros j Hj. rewrite Hs2, Hc by done.
    case_bool_decide; [subst; rewrite Ht; apply orb_true_r|]. by rewrite orb_false_r, andb_true_r.
Qed.

Lemma bitmap_roundtrip_witness :
  let b := Bitmap 12 [255; 241] in
  (forall i b', bitmap_alloc b = Ret (0, i, b') -> bitmap_unmark b' i = Ret b) /\
  (forall i, 0 <= i < nbits b -> bit b i = true ->
     exists b', bitmap_unmark b i = Ret b' /\ bitmap_mark b' i = Ret b).
Proof.
  intros b. apply (bitmap_roundtrip b). apply twelve_ok.
Defined.

(** ** Creation and counting *)

Lemma over_bits n o w :
  0 <= o -> o + Z.of_nat n = 8 -> is_byte w ->
  is_byte (foldl (fun w j => Z.lor w (Z.shiftl 1 j)) w (seqZ o (Z.of_nat n))) /\
  forall j, 0 <= j < 8 ->
    Z.testbit (foldl (fun w j => Z.lor w (Z.shiftl 1 j)) w (seqZ o (Z.of_nat n))) j =
    Z.testbit w j || bool_decide (o <= j).
Proof.
  revert o w. induction n as [|n IH]; intros o w Ho Hn Hw.
  - rewrite seqZ_nil by lia. split; [done|]. intros j Hj. rewrite bool_decide_false by lia.
    by rewrite orb_false_r.
  - rewrite seqZ_cons by lia. replace (Z.pred (Z.of_nat (S n))) with (Z.of_nat n) by lia. cbn [foldl].
    destruct (IH (Z.succ o) (Z.lor w (Z.shiftl 1 o))) as [H1 H2]; [lia|lia|apply byte_lor_bit; [done|lia]|].
    split; [done|]. intros j Hj. rewrite H2, testbit_lor_bit by lia. rewrite <- orb_assoc. f_equal.
    destruct (decide (j = o)) as [->|Hne].
    + by rewrite (bool_decide_true (o = o)), (bool_decide_true (o <= o)) by lia.
    + rewrite (bool_decide_false (j = o)) by done. cbn [orb]. apply bool_decide_ext. lia.
Qed.

Lemma wbit_zeros n j : wbit (replicate n 0) j = false.
Proof.
  unfold wbit. destruct (replicate n 0 !! _) as [w|] eqn:E; [|done].
  apply lookup_replicate in E as [-> _]. apply Z.testbit_0_l.
Qed.

Lemma bitmap_create_run n :
  0 <= n < 2 ^ 31 ->
  exists b, bitmap_create true true n = Ret (inr b) /\ bm_ok b /\ nbits b = n /\
    forall i, 0 <= i < n -> bit b i = false.
Proof.
  intros Hn. unfold bitmap_create, BITS_PER_WORD. rewrite u32_small by (unfold in_u32; lia). cbn [negb].
  assert (Hz : forall m : Z, 0 <= m -> zlen (replicate (Z.to_nat m) 0) = m)
    by (intros; unfold zlen; rewrite length_replicate; lia).
  destruct (Z.ltb_spec (n / 8) ((n + 8 - 1) / 8)) as [Hlt|Hge].
  - rewrite (u32_small (n - _)) by (unfold in_u32; lia). set (ix := (n + 8 - 1) / 8 - 1).
    rewrite (proj2 (Z.eqb_eq _ _)) by lia. cbn [c_assert mbind res_bind].
    rewrite (proj2 (andb_true_iff _ _)) by lia. cbn [c_assert mbind res_bind].
    set (b := Bitmap n _).
    destruct (word_Some b ix) as (w & Hw & ->); [subst b; simpl; rewrite Hz; lia|]. cbn [mbind res_bind].
    apply lookup_replicate in Hw as [-> _]. set (o := n - ix * 8).
    destruct (over_bits (Z.to_nat (8 - o)) o 0) as [Hby Hbits]; [lia|lia|unfold is_byte; lia|].
    rewrite Z2Nat.id in Hby, Hbits by lia. set (w' := foldl _ _ _) in *.
    assert (Hb : forall j, 0 <= j -> bit (set_word b ix w') j = bool_decide (j / 8 = ix /\ o <= j mod 8)).
    { intros j Hj. unfold bit. simpl. rewrite wbit_insert by (rewrite ?Hz; lia).
      destruct (decide (j / 8 = ix)) as [E|E].
      - rewrite Hbits, Z.testbit_0_l by lia. cbn [orb]. apply bool_decide_ext. naive_solver.
      - rewrite wbit_zeros. symmetry. apply bool_decide_false. naive_solver. }
    eexists. split; [reflexivity|]. split_and!; [|done|].
    + constructor; simpl; [lia| |apply Forall_insert; [apply Forall_replicate; unfold is_byte; lia|done]|].
      * unfold zlen. rewrite length_insert, length_replicate. unfold DIVROUNDUP. lia.
      * intros j Hj. unfold zlen in Hj. rewrite length_insert, length_replicate in Hj.
        rewrite Hb by lia. apply bool_decide_true. subst o ix. lia.
    + intros i Hi. rewrite Hb by lia. apply bool_decide_false. subst o ix. lia.
  - eexists. split; [reflexivity|]. split_and!; [|done|].
    + constructor; simpl; [lia|rewrite Hz by lia; done|apply Forall_replicate; unfold is_byte; lia|].
      rewrite Hz by lia. lia.
    + intros i Hi. apply wbit_zeros.
Qed.

(** bitmap_create, given memory, returns a well-formed bitmap of the
    requested size with every usable bit clear (for any size below 2^31). *)
Theorem bitmap_create_ok n (Hn : 0 <= n < 2 ^ 31) :
  exists b, bitmap_create true true n = Ret (inr b) /\ bm_ok b /\ nbits b = n /\
    forall i, 0 <= i < n -> bit b i = false.
Proof. by apply bitmap_create_run. Qed.

Lemma bitmap_create_ok_witness :
  exists b, bitmap_create true true 13 = Ret (inr b) /\ bm_ok b /\ nbits b = 13 /\
    forall i, 0 <= i < 13 -> bit b i = false.
Proof. apply (bitmap_create_ok 13). lia. Defined.

Lemma nr_allocated_ok n i nr b :
  bm_ok b -> 0 <= i -> 0 <= nr <= i -> i + Z.of_nat n = nbits b ->
  nr_allocated n i nr b = Ret (nr + Z.of_nat (length (filter (fun j => bit b j = true) (seqZ i (Z.of_nat n))))).
Proof.
  intros Hb. revert i nr. induction n as [|n IH]; intros i nr Hi Hnr Hn; cbn [nr_allocated].
  - rewrite seqZ_nil by lia. simpl. f_equal. lia.
  - destruct (bitmap_isset_ok b i Hb) as (x & -> & Hx); [lia|]. cbn [mbind res_bind]. rewrite Hx.
    pose proof (bm_range b Hb). rewrite (seqZ_cons i) by lia. rewrite filter_cons.
    replace (Z.pred (Z.of_nat (S n))) with (Z.of_nat n) by lia.
    destruct (bit b i); cbn [negb].
    + rewrite decide_True by done. rewrite s32_small by (unfold in_s32; lia). rewrite IH by lia. f_equal.
      cbn [length]. rewrite <- Z.add_1_r. lia.
    + rewrite decide_False by done. by rewrite IH by lia.
Qed.

(** bitmap_nr_allocated counts the bits in use. *)
Theorem bitmap_nr_allocated_counts b (Hb : bm_ok b) :
  bitmap_nr_allocated b = Ret (Z.of_nat (length (used b))).
Proof.
  unfold bitmap_nr_allocated, used. pose proof (bm_range b Hb).
  rewrite nr_allocated_ok by (done || lia). by rewrite Z2Nat.id by lia.
Qed.

Lemma bitmap_nr_allocated_counts_witness : bitmap_nr_allocated (Bitmap 12 [255; 241]) = Ret 9.
Proof.
  apply (bitmap_nr_allocated_counts (Bitmap 12 [255; 241])). apply twelve_ok.
Defined.
