(* ===== verification/StateMonad.v ===== *)
(** * A state monad over C outcomes

    A C function that works on a piece of shared state [S] is a computation
    [ST S A]: from the state it either returns a value and the new state or
    stops with a fault. *)
From S2P Require Import Prelude.

Definition ST (S A : Type) : Type := S -> res (A * S).

#[global] Instance st_ret {S} : MRet (ST S) := fun A a s => Ret (a, s).
#[global] Instance st_bind {S} : MBind (ST S) :=
  fun A B f m s => match m s with Ret (a, s') => f a s' | Fail e => Fail e end.

Section ops.
Context {S : Type}.

Definition gets {A} (f : S -> A) : ST S A := fun s => Ret (f s, s).
Definition modify (f : S -> S) : ST S unit := fun s => Ret (tt, f s).
Definition lift_res {A} (m : res A) : ST S A := fun s => match m with Ret a => Ret (a, s) | Fail e => Fail e end.
Definition st_assert (b : bool) : ST S unit := lift_res (c_assert b).
(** if (b) m; *)
Definition st_when (b : bool) (m : ST S unit) : ST S unit := if b then m else mret tt.

Lemma bind_run {A B} (m : ST S A) (f : A -> ST S B) s a s' :
  m s = Ret (a, s') -> (m ≫= f) s = f a s'.
Proof. unfold mbind, st_bind. by intros ->. Qed.

Lemma bind_inv {A B} (m : ST S A) (f : A -> ST S B) s b s' :
  (m ≫= f) s = Ret (b, s') -> exists a s1, m s = Ret (a, s1) /\ f a s1 = Ret (b, s').
Proof. unfold mbind, st_bind. destruct (m s) as [[a s1]|] eqn:E; [eauto|done]. Qed.

Lemma run_gets {A B} (g : S -> A) (f : A -> ST S B) s : (gets g ≫= f) s = f (g s) s.
Proof. done. Qed.
Lemma run_modify {B} (g : S -> S) (f : unit -> ST S B) s : (modify g ≫= f) s = f tt (g s).
Proof. done. Qed.
Lemma run_lift {A B} (a : A) (f : A -> ST S B) s m : m = Ret a -> (lift_res m ≫= f) s = f a s.
Proof. by intros ->. Qed.
Lemma run_assert {B} b (f : unit -> ST S B) s : b = true -> (st_assert b ≫= f) s = f tt s.
Proof. by intros ->. Qed.
Lemma run_ret {A B} (a : A) (f : A -> ST S B) s : (mret a ≫= f) s = f a s.
Proof. done. Qed.

Lemma run_assoc {A B C} (m : ST S A) (f : A -> ST S B) (g : B -> ST S C) s :
  ((m ≫= f) ≫= g) s = (m ≫= (fun a => f a ≫= g)) s.
Proof. unfold mbind, st_bind. by destruct (m s) as [[]|]. Qed.
Lemma bind_ext {A B} (m : ST S A) (f g : A -> ST S B) s :
  (forall a s', f a s' = g a s') -> (m ≫= f) s = (m ≫= g) s.
Proof. intros E. unfold mbind, st_bind. destruct (m s) as [[a s']|]; [apply E|done]. Qed.
Lemma run_ret1 {A} (a : A) s : (mret a : ST S A) s = Ret (a, s).
Proof. done. Qed.
Lemma run_gets1 {A} (g : S -> A) s : gets g s = Ret (g s, s).
Proof. done. Qed.
Lemma run_modify1 (g : S -> S) s : modify g s = Ret (tt, g s).
Proof. done. Qed.

(** Postconditions: [m] returns from [s], and its result satisfies [Q]. *)
Definition runs {A} (m : ST S A) (s : S) (Q : A -> S -> Prop) : Prop :=
  exists a s', m s = Ret (a, s') /\ Q a s'.

Lemma runs_bind {A B} (m : ST S A) (f : A -> ST S B) s Q :
  runs m s (fun a s' => runs (f a) s' Q) -> runs (m ≫= f) s Q.
Proof. intros (a & s1 & Hm & b & s2 & Hf & HQ). exists b, s2. by rewrite (bind_run _ _ _ _ _ Hm). Qed.

Lemma runs_mono {A} (m : ST S A) s (Q Q' : A -> S -> Prop) :
  runs m s Q -> (forall a s', Q a s' -> Q' a s') -> runs m s Q'.
Proof. intros (a & s' & Hm & HQ) H. exists a, s'. auto. Qed.

Lemma runs_ret {A} (a : A) s (Q : A -> S -> Prop) : Q a s -> runs (mret a) s Q.
Proof. intros H. by exists a, s. Qed.

Lemma runs_gets {A} (g : S -> A) s (Q : A -> S -> Prop) : Q (g s) s -> runs (gets g) s Q.
Proof. intros H. by exists (g s), s. Qed.

Lemma runs_modify (g : S -> S) s (Q : unit -> S -> Prop) : Q tt (g s) -> runs (modify g) s Q.
Proof. intros H. by exists tt, (g s). Qed.

Lemma runs_lift {A} (m : res A) a s (Q : A -> S -> Prop) : m = Ret a -> Q a s -> runs (lift_res m) s Q.
Proof. intros -> H. by exists a, s. Qed.

Lemma runs_assert b s (Q : unit -> S -> Prop) : b = true -> Q tt s -> runs (st_assert b) s Q.
Proof. intros -> H. by exists tt, s. Qed.

Lemma runs_ret_inv {A} (m : ST S A) s (Q : A -> S -> Prop) a s' : runs m s Q -> m s = Ret (a, s') -> Q a s'.
Proof. intros (a1 & s1 & H1 & HQ) H. rewrite H1 in H. by simplify_eq. Qed.

End ops.

(** A computation on a part of the state. *)
Definition zoom {S T A} (get : S -> T) (set : T -> S -> S) (m : ST T A) : ST S A :=
  fun s => match m (get s) with Ret (a, t) => Ret (a, set t s) | Fail e => Fail e end.

Lemma runs_zoom {S T A} (get : S -> T) (set : T -> S -> S) (m : ST T A) s Q :
  runs m (get s) (fun a t => Q a (set t s)) -> runs (zoom get set m) s Q.
Proof. intros (a & t & Hm & HQ). exists a, (set t s). unfold zoom. by rewrite Hm. Qed.

(** The steps of a straight-line computation. *)
Ltac st_step :=
  lazymatch goal with
  | |- runs (mbind _ _) _ _ => apply runs_bind
  | |- runs (mret _) _ _ => apply runs_ret
  | |- runs (gets _) _ _ => apply runs_gets
  | |- runs (modify _) _ _ => apply runs_modify
  | |- runs (zoom _ _ _) _ _ => apply runs_zoom
  | |- runs (st_when true _) _ _ => cbn [st_when]
  | |- runs (st_when false _) _ _ => cbn [st_when]
  end.
Ltac st_steps := repeat (st_step; cbn beta).

(** The same by rewriting: one step of a computation that is run. *)
Ltac st_run :=
  cbv beta iota;
  repeat (first [rewrite run_assoc | rewrite run_gets | rewrite run_modify | rewrite run_ret
                | rewrite run_assert by done | rewrite run_ret1 | rewrite run_gets1 | rewrite run_modify1];
          cbv beta iota).
(** The step whose run is [H]. *)
Tactic Notation "st_call" uconstr(H) := first [rewrite (bind_run _ _ _ _ _ H) | rewrite H]; st_run.
