(* ===== verification/Disk.v ===== *)
(** * The disk (fs/block.c) and the file system's geometry (fs/testfs.h)

    The sizes of testfs.h are a [Geometry]; [testfs] has the values of the
    source.  The device is a file of whole blocks: its length, and the content
    of the blocks that have been written (a hole reads as zeros).  [ftell],
    [fseek], [fread] and [fwrite] fail only on a negative offset or at the end
    of the file, and the code then exits with status 1. *)
From S2P Require Import Prelude Bytes Bitmap.

#[local] Ltac Zify.zify_post_hook ::= Z.to_euclidean_division_equations.

Definition sizeof_dinode : Z := 64.
Definition sizeof_dsuper_block : Z := 32.

Class Geometry := {
  BLOCK_SIZE : Z;
  INODE_FREEMAP_SIZE : Z;
  BLOCK_FREEMAP_SIZE : Z;
  NR_INODE_BLOCKS : Z;
  geo_block : 64 <= BLOCK_SIZE /\ BLOCK_SIZE mod 64 = 0;
  geo_sizes : 1 <= INODE_FREEMAP_SIZE /\ 1 <= BLOCK_FREEMAP_SIZE /\ 1 <= NR_INODE_BLOCKS;
  geo_inodes : NR_INODE_BLOCKS * (BLOCK_SIZE / sizeof_dinode) <= BLOCK_SIZE * INODE_FREEMAP_SIZE * 8;
  geo_bits : 1 + INODE_FREEMAP_SIZE + BLOCK_FREEMAP_SIZE + NR_INODE_BLOCKS +
             BLOCK_SIZE * (INODE_FREEMAP_SIZE + BLOCK_FREEMAP_SIZE) * 8 < 2 ^ 31;
  geo_file : (10 + BLOCK_SIZE / 4) * BLOCK_SIZE < 2 ^ 31   (* a directory offset is an int *)
}.

Definition SUPER_BLOCK_SIZE : Z := 1.

#[global, refine] Instance testfs : Geometry :=
  {| BLOCK_SIZE := 8192; INODE_FREEMAP_SIZE := 1; BLOCK_FREEMAP_SIZE := 16; NR_INODE_BLOCKS := 128 |}.
Proof. all: abstract (vm_compute; intuition discriminate). Defined.

(** A small geometry, for examples. *)
#[global, refine] Instance tiny : Geometry | 100 :=
  {| BLOCK_SIZE := 64; INODE_FREEMAP_SIZE := 1; BLOCK_FREEMAP_SIZE := 1; NR_INODE_BLOCKS := 4 |}.
Proof. all: abstract (vm_compute; intuition discriminate). Defined.

Record disk := Disk { d_len : Z; d_blocks : gmap Z (list Z) }.

Section disk.
Context `{Geometry}.
Implicit Types (d : disk) (buf : list Z).

Definition zero : list Z := replicate (Z.to_nat BLOCK_SIZE) 0.

(** The content of block [b]. *)
Definition block_at d (b : Z) : list Z := default zero (d_blocks d !! b).

Definition write_block1 d (b : Z) buf : disk := Disk (Z.max (d_len d) (b + 1)) (<[b := buf]> (d_blocks d)).

Fixpoint write_loop (n : nat) d (b : Z) buf : disk :=
  match n with
  | O => d
  | S n => write_loop n (write_block1 d b (slice 0 BLOCK_SIZE buf)) (b + 1) (drop (Z.to_nat BLOCK_SIZE) buf)
  end.

(** A buffer with fewer than [nr] blocks is read past its end. *)
Definition write_blocks (blocks : list Z) (start nr : Z) d : res disk :=
  if start <? 0 then Fail (Exit 1)
  else if zlen blocks <? nr * BLOCK_SIZE then Fail Undef
  else Ret (write_loop (Z.to_nat nr) d start blocks).

Fixpoint zero_loop (n : nat) (i start : Z) d : res disk :=
  match n with
  | O => Ret d
  | S n => d ← write_blocks zero (start + i) 1 d; zero_loop n (i + 1) start d
  end.
Definition zero_blocks (start nr : Z) d : res disk := zero_loop (Z.to_nat nr) 0 start d.

Fixpoint read_loop (n : nat) (b : Z) d : list Z :=
  match n with O => [] | S n => block_at d b ++ read_loop n (b + 1) d end.

Definition read_blocks (start nr : Z) d : res (list Z) :=
  if start <? 0 then Fail (Exit 1)
  else if d_len d <? start + nr then Fail (Exit 1)
  else Ret (read_loop (Z.to_nat nr) start d).

(** ** Lemmas *)

(** Every block has the size of a block, in bytes. *)
Definition disk_ok d : Prop :=
  0 <= d_len d /\
  forall b blk, d_blocks d !! b = Some blk -> zlen blk = BLOCK_SIZE /\ Forall is_byte blk /\ 0 <= b < d_len d.

Lemma zlen_zero : zlen zero = BLOCK_SIZE.
Proof. unfold zlen, zero. rewrite length_replicate. pose proof geo_block. lia. Qed.

Lemma zero_bytes : Forall is_byte zero.
Proof. apply Forall_replicate. unfold is_byte. lia. Qed.

Lemma zlen_block_at d b : disk_ok d -> zlen (block_at d b) = BLOCK_SIZE.
Proof.
  intros [_ Hd]. unfold block_at. destruct (d_blocks d !! b) as [blk|] eqn:E; simpl; [by destruct (Hd _ _ E) as (? & _)|apply zlen_zero].
Qed.

Lemma block_at_bytes d b : disk_ok d -> Forall is_byte (block_at d b).
Proof.
  intros [_ Hd]. unfold block_at. destruct (d_blocks d !! b) as [blk|] eqn:E; simpl; [by destruct (Hd _ _ E) as (_ & ? & _)|apply zero_bytes].
Qed.

(** [d'] is [d] with block [b] holding [buf]. *)
Lemma write_block1_at d b buf b' :
  block_at (write_block1 d b buf) b' = if decide (b = b') then buf else block_at d b'.
Proof. unfold block_at, write_block1. simpl. rewrite lookup_insert. by case_decide. Qed.

Lemma write_block1_ok d b buf :
  disk_ok d -> 0 <= b -> zlen buf = BLOCK_SIZE -> Forall is_byte buf -> disk_ok (write_block1 d b buf).
Proof.
  intros [H0 Hd] Hb Hl Hby. split; simpl; [lia|]. intros b' blk. rewrite lookup_insert. case_decide.
  - intros [= <-]. split_and!; [done..| |]; lia.
  - intros E. destruct (Hd b' blk E) as (? & ? & ?). split_and!; [done..| |]; lia.
Qed.

Lemma write_blocks_one blk b d :
  0 <= b -> zlen blk = BLOCK_SIZE -> write_blocks blk b 1 d = Ret (write_block1 d b blk).
Proof.
  intros Hb Hl. unfold write_blocks. rewrite (proj2 (Z.ltb_ge _ _)) by lia.
  rewrite (proj2 (Z.ltb_ge _ _)) by lia. simpl. rewrite <- Hl at 1. by rewrite slice_all.
Qed.

(** Only the first block of a longer buffer is written. *)
Lemma write_blocks_first buf b d :
  0 <= b -> BLOCK_SIZE <= zlen buf -> write_blocks buf b 1 d = Ret (write_block1 d b (slice 0 BLOCK_SIZE buf)).
Proof.
  intros Hb Hl. unfold write_blocks. by rewrite !(proj2 (Z.ltb_ge _ _)) by lia.
Qed.

Lemma read_blocks_one b d :
  0 <= b < d_len d -> read_blocks b 1 d = Ret (block_at d b).
Proof.
  intros Hb. unfold read_blocks. rewrite (proj2 (Z.ltb_ge _ _)) by lia.
  rewrite (proj2 (Z.ltb_ge _ _)) by lia. simpl. by rewrite app_nil_r.
Qed.

Lemma zero_blocks_one b d : 0 <= b -> zero_blocks b 1 d = Ret (write_block1 d b zero).
Proof.
  intros Hb. unfold zero_blocks. change (Z.to_nat 1) with 1%nat. cbn [zero_loop].
  by rewrite Z.add_0_r, write_blocks_one by (done || apply zlen_zero).
Qed.

(** Runs of blocks. *)
Lemma zero_loop_ok n i start d :
  disk_ok d -> 0 <= start + i ->
  exists d', zero_loop n i start d = Ret d' /\ disk_ok d' /\
    d_len d' = (if decide (n = 0%nat) then d_len d else Z.max (d_len d) (start + i + Z.of_nat n)) /\
    forall b, block_at d' b = if decide (start + i <= b < start + i + Z.of_nat n) then zero else block_at d b.
Proof.
  revert i d. induction n as [|n IH]; intros i d Hd Hs; cbn [zero_loop].
  { exists d. split_and!; [done..|]. intros b. rewrite decide_False by lia. done. }
  rewrite write_blocks_one by (done || apply zlen_zero). cbn [mbind res_bind].
  destruct (IH (i + 1) (write_block1 d (start + i) zero)) as (d' & -> & Hd' & Hl & Hb);
    [by apply write_block1_ok; [..|apply zlen_zero|apply zero_bytes]|lia|].
  exists d'. split_and!; [done..| |].
  - rewrite Hl. unfold write_block1. cbn [d_len]. destruct (decide (S n = 0%nat)); [done|].
    case_decide; lia.
  - intros b. rewrite Hb, write_block1_at. repeat case_decide; try done; lia.
Qed.

Lemma zlen_read_loop n b d : disk_ok d -> zlen (read_loop n b d) = Z.of_nat n * BLOCK_SIZE.
Proof.
  intros Hd. revert b. induction n as [|n IH]; intros b; cbn [read_loop]; [done|].
  unfold zlen in *. rewrite length_app. specialize (IH (b + 1)). pose proof (zlen_block_at d b Hd) as E.
  unfold zlen in E. lia.
Qed.

Lemma read_loop_bytes n b d : disk_ok d -> Forall is_byte (read_loop n b d).
Proof.
  intros Hd. revert b. induction n as [|n IH]; intros b; cbn [read_loop]; [done|].
  apply Forall_app. split; [by apply block_at_bytes|done].
Qed.

(** Block [k] of a run read into one buffer. *)
Lemma slice_read_loop n b k d :
  disk_ok d -> 0 <= k < Z.of_nat n -> slice (k * BLOCK_SIZE) BLOCK_SIZE (read_loop n b d) = block_at d (b + k).
Proof.
  intros Hd. pose proof geo_block as [Hg _]. revert b k. induction n as [|n IH]; intros b k Hk; [lia|].
  cbn [read_loop]. pose proof (zlen_block_at d b Hd) as E. unfold zlen in E.
  destruct (decide (k = 0)) as [->|Hne].
  - rewrite Z.mul_0_l, Z.add_0_r. unfold slice. rewrite drop_0, take_app_le by lia.
    replace (Z.to_nat BLOCK_SIZE) with (length (block_at d b)) by lia. apply firstn_all.
  - replace (b + k) with (b + 1 + (k - 1)) by lia. rewrite <- (IH (b + 1) (k - 1)) by lia.
    unfold slice. f_equal. rewrite drop_app_ge by nia. f_equal. nia.
Qed.

(** Writing a buffer and reading it back, and what it leaves alone. *)
Lemma write_loop_at n d b buf b' :
  Z.of_nat n * BLOCK_SIZE <= zlen buf ->
  block_at (write_loop n d b buf) b' =
  if decide (b <= b' < b + Z.of_nat n) then slice ((b' - b) * BLOCK_SIZE) BLOCK_SIZE buf else block_at d b'.
Proof.
  pose proof geo_block as [Hg _]. revert d b buf. induction n as [|n IH]; intros d b buf Hl; cbn [write_loop].
  { rewrite decide_False by lia. done. }
  unfold zlen in *. rewrite IH by (rewrite length_drop; nia).
  rewrite write_block1_at. destruct (decide (b + 1 <= b' < b + 1 + Z.of_nat n)).
  - rewrite decide_True by lia. unfold slice. rewrite drop_drop. f_equal. f_equal. nia.
  - destruct (decide (b = b')) as [->|].
    + rewrite decide_True by lia. rewrite Z.sub_diag. done.
    + rewrite decide_False by lia. done.
Qed.

End disk.
