(* ===== verification/Super.v ===== *)
(** * The super block and the free maps (fs/super.c)

    [super_block] is the in-memory structure, with the device.  [super_ok] is
    the invariant the operations keep between calls: the free maps and the
    super block on disk are those in memory, the counters count the bits in
    use, and no more blocks than [max_fs_blocks] are allocated.  The inode
    layer relies on the block allocator through [alloc_block_ok] and
    [free_block_ok] only. *)
From S2P Require Import Prelude Bytes Bitmap StateMonad Disk.

#[local] Ltac Zify.zify_post_hook ::= Z.to_euclidean_division_equations.

Record dsuper_block := DSuper {
  inode_freemap_start : Z;
  block_freemap_start : Z;
  inode_blocks_start : Z;
  data_blocks_start : Z;
  used_inode_count : Z;
  used_block_count : Z;
  max_fs_blocks : Z
}.

(** struct dsuper_block in memory: six u32 and a u64. *)
Definition enc_super (d : dsuper_block) : list Z :=
  le_enc 4 (inode_freemap_start d) ++ le_enc 4 (block_freemap_start d) ++
  le_enc 4 (inode_blocks_start d) ++ le_enc 4 (data_blocks_start d) ++
  le_enc 4 (used_inode_count d) ++ le_enc 4 (used_block_count d) ++ le_enc 8 (max_fs_blocks d).
Definition dec_super (l : list Z) : dsuper_block :=
  DSuper (get_u32 0 l) (get_u32 4 l) (get_u32 8 l) (get_u32 12 l) (get_u32 16 l) (get_u32 20 l) (get_u64 24 l).

Record super_block := Super {
  sb : dsuper_block;
  dev : disk;
  inode_freemap : option bitmap;
  block_freemap : option bitmap
}.

Definition set_dev d (s : super_block) : super_block := Super (sb s) d (inode_freemap s) (block_freemap s).
Definition set_imap m (s : super_block) : super_block := Super (sb s) (dev s) m (block_freemap s).
Definition set_bmap m (s : super_block) : super_block := Super (sb s) (dev s) (inode_freemap s) m.
Definition set_sb d (s : super_block) : super_block := Super d (dev s) (inode_freemap s) (block_freemap s).
Definition set_used_inode_count c (s : super_block) : super_block :=
  set_sb (let d := sb s in DSuper (inode_freemap_start d) (block_freemap_start d) (inode_blocks_start d)
                             (data_blocks_start d) c (used_block_count d) (max_fs_blocks d)) s.
Definition set_used_block_count c (s : super_block) : super_block :=
  set_sb (let d := sb s in DSuper (inode_freemap_start d) (block_freemap_start d) (inode_blocks_start d)
                             (data_blocks_start d) (used_inode_count d) c (max_fs_blocks d)) s.

Abbreviation SB := (ST super_block).

Section super.
Context `{Geometry}.

(** Block operations on the device of the super block. *)
Definition sb_write (blocks : list Z) (start nr : Z) : SB unit := fun s =>
  match write_blocks blocks start nr (dev s) with Ret d => Ret (tt, set_dev d s) | Fail e => Fail e end.
Definition sb_zero (start nr : Z) : SB unit := fun s =>
  match zero_blocks start nr (dev s) with Ret d => Ret (tt, set_dev d s) | Fail e => Fail e end.
Definition sb_read (start nr : Z) : SB (list Z) := fun s =>
  match read_blocks start nr (dev s) with Ret l => Ret (l, s) | Fail e => Fail e end.

(** assert(sb->inode_freemap) *)
Definition the_imap : SB bitmap :=
  m ← gets inode_freemap; match m with Some m => mret m | None => lift_res (Fail Assert) end.
Definition the_bmap : SB bitmap :=
  m ← gets block_freemap; match m with Some m => mret m | None => lift_res (Fail Assert) end.

Definition testfs_write_super_block : SB unit :=
  d ← gets sb;
  _ ← st_assert (sizeof_dsuper_block <=? BLOCK_SIZE);
  sb_write (splice 0 (enc_super d) zero) 0 1.

Definition testfs_write_inode_freemap (inode_nr : Z) : SB unit :=
  m ← the_imap;
  start ← gets (fun s => inode_freemap_start (sb s));
  let nr := Z.quot inode_nr (BLOCK_SIZE * BITS_PER_WORD) in
  sb_write (drop (Z.to_nat (nr * BLOCK_SIZE)) (bitmap_getdata m)) (start + nr) 1.

Definition testfs_write_block_freemap (block_nr : Z) : SB unit :=
  m ← the_bmap;
  start ← gets (fun s => block_freemap_start (sb s));
  let nr := Z.quot block_nr (BLOCK_SIZE * BITS_PER_WORD) in
  sb_write (drop (Z.to_nat (nr * BLOCK_SIZE)) (bitmap_getdata m)) (start + nr) 1.

Definition testfs_get_block_freemap : SB Z :=
  m ← the_bmap;
  '(ret, index, m) ← lift_res (bitmap_alloc m);
  _ ← modify (set_bmap (Some m));
  if ret <? 0 then mret ret
  else
    _ ← testfs_write_block_freemap (s32 index);
    mret (s32 index).

Definition testfs_put_block_freemap (block_nr : Z) : SB unit :=
  m ← the_bmap;
  m ← lift_res (bitmap_unmark m block_nr);
  _ ← modify (set_bmap (Some m));
  testfs_write_block_freemap block_nr.

Definition testfs_get_dev (s : super_block) : disk := dev s.
Definition testfs_inode_blocks_start (s : super_block) : Z := inode_blocks_start (sb s).

Definition testfs_make_inode_freemap : SB unit :=
  start ← gets (fun s => inode_freemap_start (sb s)); sb_zero start INODE_FREEMAP_SIZE.
Definition testfs_make_block_freemap : SB unit :=
  start ← gets (fun s => block_freemap_start (sb s)); sb_zero start BLOCK_FREEMAP_SIZE.

Definition INODES_PER_BLOCK : Z := BLOCK_SIZE / sizeof_dinode.

Definition testfs_make_inode_blocks : SB unit :=
  let num_bits_in_freemap := BLOCK_SIZE * INODE_FREEMAP_SIZE * 8 in
  if num_bits_in_freemap <? NR_INODE_BLOCKS * INODES_PER_BLOCK then lift_res (Fail (Exit 1))
  else
    _ ← st_assert (BLOCK_SIZE mod sizeof_dinode =? 0);
    start ← gets (fun s => inode_blocks_start (sb s)); sb_zero start NR_INODE_BLOCKS.

(** testfs_make_super_block on the truncated file, without the inode table. *)
Definition make_super_block (max : Z) : res super_block :=
  let ifs := SUPER_BLOCK_SIZE in
  let bfs := ifs + INODE_FREEMAP_SIZE in
  let ibs := bfs + BLOCK_FREEMAP_SIZE in
  let dbs := ibs + NR_INODE_BLOCKS in
  '(_, s) ← testfs_write_super_block (Super (DSuper ifs bfs ibs dbs 0 0 max) (Disk 0 ∅) None None);
  Ret s.

(** The part of testfs_init_super_block after the file has been opened as [d];
    [m i] tells whether the [i]-th malloc succeeds.  The error or the super block. *)
Definition init_super_block (m : nat -> bool) (d : disk) : res (Z + super_block) :=
  if negb (m 0%nat) then Ret (inl (- ENOMEM))
  else
    block ← read_blocks 0 1 d;
    let s := dec_super block in
    im ← bitmap_create (m 1%nat) (m 2%nat) (BLOCK_SIZE * INODE_FREEMAP_SIZE * BITS_PER_WORD);
    match im with
    | inl e => Ret (inl e)
    | inr im =>
        idata ← read_blocks (inode_freemap_start s) INODE_FREEMAP_SIZE d;
        bm ← bitmap_create (m 3%nat) (m 4%nat) (BLOCK_SIZE * BLOCK_FREEMAP_SIZE * BITS_PER_WORD);
        match bm with
        | inl e => Ret (inl e)
        | inr bm =>
            bdata ← read_blocks (block_freemap_start s) BLOCK_FREEMAP_SIZE d;
            Ret (inr (Super s d (Some (Bitmap (nbits im) (splice 0 idata (v im))))
                                (Some (Bitmap (nbits bm) (splice 0 bdata (v bm))))))
        end
    end.

(** testfs_close_super_block from the free maps on. *)
Definition close_maps : SB unit :=
  im ← gets inode_freemap;
  ifs ← gets (fun s => inode_freemap_start (sb s));
  _ ← (match im with
       | Some im => _ ← sb_write (bitmap_getdata im) ifs INODE_FREEMAP_SIZE; modify (set_imap None)
       | None => mret tt
       end);
  bm ← gets block_freemap;
  bfs ← gets (fun s => block_freemap_start (sb s));
  match bm with
  | Some bm => _ ← sb_write (bitmap_getdata bm) bfs BLOCK_FREEMAP_SIZE; modify (set_bmap None)
  | None => mret tt
  end.

(** testfs_close_super_block, without the inode table: the device it leaves. *)
Definition close_super_block : SB unit := _ ← testfs_write_super_block; close_maps.

Definition testfs_get_inode_freemap : SB Z :=
  m ← the_imap;
  '(ret, index, m) ← lift_res (bitmap_alloc m);
  _ ← modify (set_imap (Some m));
  if ret <? 0 then mret ret
  else
    _ ← testfs_write_inode_freemap (s32 index);
    _ ← modify (fun s => set_used_inode_count (u32 (used_inode_count (sb s) + 1)) s);
    _ ← testfs_write_super_block;
    mret (s32 index).

Definition testfs_put_inode_freemap (inode_nr : Z) : SB unit :=
  m ← the_imap;
  m ← lift_res (bitmap_unmark m inode_nr);
  _ ← modify (set_imap (Some m));
  _ ← testfs_write_inode_freemap inode_nr;
  c ← gets (fun s => used_inode_count (sb s));
  _ ← st_assert (0 <? c);
  _ ← modify (fun s => set_used_inode_count (u32 (used_inode_count (sb s) - 1)) s);
  testfs_write_super_block.

Definition testfs_alloc_block : SB Z :=
  d ← gets sb;
  if max_fs_blocks d <=? used_block_count d then mret (- ENOSPC)
  else
    phy_block_nr ← testfs_get_block_freemap;
    if phy_block_nr <? 0 then mret phy_block_nr
    else
      _ ← modify (fun s => set_used_block_count (u32 (used_block_count (sb s) + 1)) s);
      _ ← testfs_write_super_block;
      start ← gets (fun s => data_blocks_start (sb s));
      mret (s32 (u32 (start + phy_block_nr))).

Definition testfs_free_block (block_nr : Z) : SB Z :=
  _ ← sb_zero block_nr 1;
  start ← gets (fun s => data_blocks_start (sb s));
  let block_nr := s32 (u32 (block_nr - start)) in
  _ ← st_assert (0 <=? block_nr);
  _ ← testfs_put_block_freemap block_nr;
  c ← gets (fun s => used_block_count (sb s));
  _ ← st_assert (0 <? c);
  _ ← modify (fun s => set_used_block_count (u32 (used_block_count (sb s) - 1)) s);
  _ ← testfs_write_super_block;
  mret 0.

(** cmd_fsstat prints the two counters. *)
Definition cmd_fsstat (nargs : Z) : SB (Z + Z * Z) :=
  if negb (nargs =? 1) then mret (inl (- EINVAL))
  else d ← gets sb; mret (inr (used_inode_count d, used_block_count d)).


(** mktestfs, up to the root directory: format the device, close it, mount it. *)
Definition mkfs (m : nat -> bool) (max : Z) : res (Z + super_block) :=
  s ← make_super_block max;
  '(_, s) ← (_ ← testfs_make_inode_freemap; _ ← testfs_make_block_freemap; _ ← testfs_make_inode_blocks;
             close_super_block) s;
  init_super_block m (dev s).

(** ** The layout of the device *)

Definition IMAP_START : Z := 1.
Definition BMAP_START : Z := 1 + INODE_FREEMAP_SIZE.
Definition INODE_START : Z := 1 + INODE_FREEMAP_SIZE + BLOCK_FREEMAP_SIZE.
Definition DATA_START : Z := 1 + INODE_FREEMAP_SIZE + BLOCK_FREEMAP_SIZE + NR_INODE_BLOCKS.
Definition IMAP_BITS : Z := BLOCK_SIZE * INODE_FREEMAP_SIZE * 8.
Definition BMAP_BITS : Z := BLOCK_SIZE * BLOCK_FREEMAP_SIZE * 8.

Record layout_ok (d : dsuper_block) : Prop := LayoutOk {
  lay_imap : inode_freemap_start d = IMAP_START;
  lay_bmap : block_freemap_start d = BMAP_START;
  lay_inodes : inode_blocks_start d = INODE_START;
  lay_data : data_blocks_start d = DATA_START;
  lay_max : in_u64 (max_fs_blocks d)
}.

(** A free map of [size] blocks and its image on the device from block [start]. *)
Record map_ok (d : disk) (start size : Z) (m : bitmap) : Prop := MapOk {
  map_bm : bm_ok m;
  map_bits : nbits m = BLOCK_SIZE * size * 8;
  map_disk : forall k, 0 <= k < size -> block_at d (start + k) = slice (k * BLOCK_SIZE) BLOCK_SIZE (v m)
}.

(** The device holds the super block [s] and the free maps [im] and [bm]. *)
Record super_rep (s : super_block) (im bm : bitmap) : Prop := SuperRep {
  sr_disk : disk_ok (dev s);
  sr_len : DATA_START <= d_len (dev s);
  sr_layout : layout_ok (sb s);
  sr_imap : inode_freemap s = Some im;
  sr_bmap : block_freemap s = Some bm;
  sr_im : map_ok (dev s) IMAP_START INODE_FREEMAP_SIZE im;
  sr_bm : map_ok (dev s) BMAP_START BLOCK_FREEMAP_SIZE bm;
  sr_used_i : used_inode_count (sb s) = Z.of_nat (length (used im));
  sr_used_b : used_block_count (sb s) = Z.of_nat (length (used bm));
  sr_quota : used_block_count (sb s) <= max_fs_blocks (sb s);
  sr_block0 : block_at (dev s) 0 = splice 0 (enc_super (sb s)) zero
}.

Definition super_ok (s : super_block) : Prop := exists im bm, super_rep s im bm.

(** Data block [b] is in use. *)
Definition allocated (bm : bitmap) (b : Z) : Prop :=
  DATA_START <= b < DATA_START + nbits bm /\ bit bm (b - DATA_START) = true.

(** The blocks that are not meta data of the super block stay. *)
Definition same_blocks (s s' : super_block) : Prop :=
  (forall b, INODE_START <= b -> block_at (dev s') b = block_at (dev s) b) /\
  d_len (dev s) <= d_len (dev s') /\ max_fs_blocks (sb s') = max_fs_blocks (sb s).

Lemma geo_limits :
  64 <= BLOCK_SIZE /\ 1 <= INODE_FREEMAP_SIZE /\ 1 <= BLOCK_FREEMAP_SIZE /\ 1 <= NR_INODE_BLOCKS /\
  IMAP_START = 1 /\ BMAP_START = 1 + INODE_FREEMAP_SIZE /\ INODE_START = BMAP_START + BLOCK_FREEMAP_SIZE /\
  DATA_START = INODE_START + NR_INODE_BLOCKS /\
  IMAP_BITS = BLOCK_SIZE * INODE_FREEMAP_SIZE * 8 /\ BMAP_BITS = BLOCK_SIZE * BLOCK_FREEMAP_SIZE * 8 /\
  0 < IMAP_BITS /\ 0 < BMAP_BITS /\ DATA_START + IMAP_BITS + BMAP_BITS < 2 ^ 31.
Proof.
  pose proof geo_block. pose proof geo_sizes. pose proof geo_bits.
  unfold DATA_START, INODE_START, BMAP_START, IMAP_START, IMAP_BITS, BMAP_BITS. nia.
Qed.

(** The bounds of the geometry, for lia. *)
Ltac geo := pose proof geo_limits.

Lemma zlen_enc_super d : zlen (enc_super d) = 32.
Proof. done. Qed.

Lemma enc_super_bytes d : Forall is_byte (enc_super d).
Proof. unfold enc_super. rewrite !Forall_app. split_and!; apply le_enc_bytes. Qed.

Lemma super_buf d : zlen (splice 0 (enc_super d) zero) = BLOCK_SIZE /\ Forall is_byte (splice 0 (enc_super d) zero).
Proof.
  pose proof geo_block. split.
  - rewrite zlen_splice; rewrite ?zlen_zero, ?zlen_enc_super; lia.
  - apply Forall_splice; [apply zero_bytes|apply enc_super_bytes].
Qed.

Definition super_range (d : dsuper_block) : Prop :=
  in_u32 (inode_freemap_start d) /\ in_u32 (block_freemap_start d) /\ in_u32 (inode_blocks_start d) /\
  in_u32 (data_blocks_start d) /\ in_u32 (used_inode_count d) /\ in_u32 (used_block_count d) /\
  in_u64 (max_fs_blocks d).

(** The super block is read back from the block it was written to. *)
Lemma dec_enc_super d : super_range d -> dec_super (splice 0 (enc_super d) zero) = d.
Proof.
  intros (H1 & H2 & H3 & H4 & H5 & H6 & H7). pose proof geo_block. unfold dec_super, get_u32, get_u64.
  assert (Hs : forall off n, 0 <= off -> 0 <= n -> off + n <= 32 ->
    slice off n (splice 0 (enc_super d) zero) = slice off n (enc_super d)).
  { intros off n ? ? ?. rewrite <- (slice_splice_sub off n 0 (enc_super d) zero);
      rewrite ?zlen_zero, ?zlen_enc_super; done || lia. }
  rewrite !Hs by lia.
  change (slice 0 4 (enc_super d)) with (le_enc 4 (inode_freemap_start d)).
  change (slice 4 4 (enc_super d)) with (le_enc 4 (block_freemap_start d)).
  change (slice 8 4 (enc_super d)) with (le_enc 4 (inode_blocks_start d)).
  change (slice 12 4 (enc_super d)) with (le_enc 4 (data_blocks_start d)).
  change (slice 16 4 (enc_super d)) with (le_enc 4 (used_inode_count d)).
  change (slice 20 4 (enc_super d)) with (le_enc 4 (used_block_count d)).
  change (slice 24 8 (enc_super d)) with (le_enc 8 (max_fs_blocks d)).
  rewrite !dec_enc4, dec_enc8, !u32_small, u64_small by done. by destruct d.
Qed.

(** ** The runs of the writers *)

Lemma write_super_block_run s :
  testfs_write_super_block s = Ret (tt, set_dev (write_block1 (dev s) 0 (splice 0 (enc_super (sb s)) zero)) s).
Proof.
  unfold testfs_write_super_block. rewrite run_gets. rewrite run_assert.
  2:{ pose proof geo_block. unfold sizeof_dsuper_block. lia. }
  unfold sb_write. rewrite write_blocks_one; [done|lia|apply super_buf].
Qed.

(** The block of a free map that holds bit [i]. *)
Lemma write_map_run d start size m i :
  bm_ok m -> nbits m = BLOCK_SIZE * size * 8 -> 0 <= start -> 0 <= i < nbits m ->
  let nr := i / (BLOCK_SIZE * 8) in
  write_blocks (drop (Z.to_nat (nr * BLOCK_SIZE)) (v m)) (start + nr) 1 d =
  Ret (write_block1 d (start + nr) (slice (nr * BLOCK_SIZE) BLOCK_SIZE (v m))).
Proof.
  intros Hm Hn Hs Hi nr. pose proof geo_block. pose proof (bm_len _ Hm) as Hl. unfold DIVROUNDUP in Hl.
  assert (0 <= nr) by (apply Z.div_pos; lia).
  assert (nr * (BLOCK_SIZE * 8) <= i) by (rewrite Z.mul_comm; apply Z.mul_div_le; lia).
  assert (nr < size) by (apply Z.div_lt_upper_bound; nia).
  rewrite write_blocks_first; [done|lia|].
  unfold zlen in *. rewrite length_drop. nia.
Qed.

Lemma write_block_freemap_run s m i :
  layout_ok (sb s) -> block_freemap s = Some m -> bm_ok m -> nbits m = BMAP_BITS -> 0 <= i < nbits m ->
  let nr := i / (BLOCK_SIZE * 8) in
  testfs_write_block_freemap i s =
  Ret (tt, set_dev (write_block1 (dev s) (BMAP_START + nr) (slice (nr * BLOCK_SIZE) BLOCK_SIZE (v m))) s).
Proof.
  intros Hlay Hs Hm Hn Hi nr. unfold testfs_write_block_freemap, the_bmap.
  st_run. rewrite Hs. st_run. geo.
  unfold sb_write, bitmap_getdata, BITS_PER_WORD. rewrite Z.quot_div_nonneg by lia.
  rewrite (lay_bmap _ Hlay). by rewrite (write_map_run _ _ BLOCK_FREEMAP_SIZE) by (done || lia).
Qed.

Lemma write_inode_freemap_run s m i :
  layout_ok (sb s) -> inode_freemap s = Some m -> bm_ok m -> nbits m = IMAP_BITS -> 0 <= i < nbits m ->
  let nr := i / (BLOCK_SIZE * 8) in
  testfs_write_inode_freemap i s =
  Ret (tt, set_dev (write_block1 (dev s) (IMAP_START + nr) (slice (nr * BLOCK_SIZE) BLOCK_SIZE (v m))) s).
Proof.
  intros Hlay Hs Hm Hn Hi nr. unfold testfs_write_inode_freemap, the_imap.
  st_run. rewrite Hs. st_run. geo.
  unfold sb_write, bitmap_getdata, BITS_PER_WORD. rewrite Z.quot_div_nonneg by lia.
  rewrite (lay_imap _ Hlay). by rewrite (write_map_run _ _ INODE_FREEMAP_SIZE) by (done || lia).
Qed.

Lemma map_other d start size m b buf :
  map_ok d start size m -> b < start \/ start + size <= b -> map_ok (write_block1 d b buf) start size m.
Proof.
  intros [Hm Hn Hd] Hb. constructor; [done..|]. intros k Hk. rewrite write_block1_at.
  rewrite decide_False by lia. by apply Hd.
Qed.

(** Writing the block of the changed bit brings the map on the device up to date. *)
Lemma map_update d start size m m' i :
  map_ok d start size m -> bm_ok m' -> nbits m' = nbits m -> 0 <= i < nbits m ->
  (forall j, 0 <= j -> j <> i -> bit m' j = bit m j) ->
  let nr := i / (BLOCK_SIZE * 8) in
  map_ok (write_block1 d (start + nr) (slice (nr * BLOCK_SIZE) BLOCK_SIZE (v m'))) start size m'.
Proof.
  intros [Hm Hn Hd] Hm' Hn' Hi Hbit nr. pose proof geo_block. constructor; [done|congruence|].
  intros k Hk. rewrite write_block1_at. case_decide as E; [by replace nr with k by lia|].
  rewrite Hd by done. apply slice_bits; [apply Hm|apply Hm'| |nia|].
  - rewrite (bm_len _ Hm), (bm_len _ Hm'). by rewrite Hn'.
  - intros j Hj. symmetry. apply Hbit; [nia|]. intros ->. apply E.
    assert (k = nr) as ->; [|done]. subst nr.
    apply Z.div_unique_pos with (i - BLOCK_SIZE * 8 * k); nia.
Qed.

(** A block of a free map is a block. *)
Lemma map_slice d start size m k :
  map_ok d start size m -> 0 <= k < size ->
  zlen (slice (k * BLOCK_SIZE) BLOCK_SIZE (v m)) = BLOCK_SIZE /\
  Forall is_byte (slice (k * BLOCK_SIZE) BLOCK_SIZE (v m)).
Proof.
  intros [Hm Hn Hd] Hk. pose proof geo_block. pose proof (bm_len _ Hm) as Hl. unfold DIVROUNDUP in Hl.
  split; [apply zlen_slice; nia|]. apply Forall_slice, Hm.
Qed.

Lemma map_nr i size :
  0 <= i < BLOCK_SIZE * size * 8 -> 0 <= i / (BLOCK_SIZE * 8) < size.
Proof.
  intros Hi. pose proof geo_block. split; [apply Z.div_pos; lia|]. apply Z.div_lt_upper_bound; nia.
Qed.

(** A write of a block that is neither the super block nor of a free map. *)
Lemma super_rep_write s im bm b buf :
  super_rep s im bm -> INODE_START <= b -> zlen buf = BLOCK_SIZE -> Forall is_byte buf ->
  super_rep (set_dev (write_block1 (dev s) b buf) s) im bm.
Proof.
  intros [] Hb Hl Hby. geo. constructor; cbn [dev sb inode_freemap block_freemap set_dev]; try done.
  - apply write_block1_ok; done || lia.
  - unfold write_block1. simpl. lia.
  - apply map_other; [done|lia].
  - apply map_other; [done|lia].
  - rewrite write_block1_at, decide_False by lia. done.
Qed.

(** ** The block allocator *)

(** The state after the block free map has changed at bit [i] and the counter
    and the super block have followed. *)
Definition bmap_changed s bm' i : super_block :=
  let nr := i / (BLOCK_SIZE * 8) in
  let d1 := write_block1 (dev s) (BMAP_START + nr) (slice (nr * BLOCK_SIZE) BLOCK_SIZE (v bm')) in
  let s1 := set_used_block_count (Z.of_nat (length (used bm'))) (set_dev d1 (set_bmap (Some bm') s)) in
  set_dev (write_block1 d1 0 (splice 0 (enc_super (sb s1)) zero)) s1.

Lemma bmap_changed_ok s im bm bm' i :
  super_rep s im bm -> bm_ok bm' -> nbits bm' = nbits bm -> 0 <= i < nbits bm ->
  (forall j, 0 <= j -> j <> i -> bit bm' j = bit bm j) ->
  Z.of_nat (length (used bm')) <= max_fs_blocks (sb s) ->
  super_rep (bmap_changed s bm' i) im bm' /\ same_blocks s (bmap_changed s bm' i).
Proof.
  intros Hs Hok Hn Hi Hbit Hq. pose proof Hs as []. geo. set (nr := i / (BLOCK_SIZE * 8)).
  assert (Hnr : 0 <= nr < BLOCK_FREEMAP_SIZE) by (apply map_nr; destruct sr_bm0; lia).
  pose proof (map_update _ _ _ _ _ _ sr_bm0 Hok Hn Hi Hbit) as Hm'. fold nr in Hm'.
  destruct (map_slice _ _ _ _ nr Hm' Hnr) as [Hl Hb].
  destruct (super_buf (sb (set_used_block_count (Z.of_nat (length (used bm'))) s))) as [Hl0 Hb0].
  split.
  - constructor; cbn [bmap_changed dev sb inode_freemap block_freemap set_dev set_bmap set_used_block_count set_sb
      used_inode_count used_block_count max_fs_blocks]; try done.
    + apply write_block1_ok; [apply write_block1_ok| | |]; done || (lia).
    + unfold write_block1. simpl. lia.
    + by destruct sr_layout0; constructor.
    + apply map_other; [apply map_other; [done|]|]; lia.
    + apply map_other; [done|]; lia.
    + by rewrite write_block1_at, decide_True.
  - split_and!; cbn [bmap_changed dev sb set_dev set_bmap set_used_block_count set_sb max_fs_blocks]; [|..|done].
    + intros b Hge. rewrite !write_block1_at, !decide_False by (lia). done.
    + unfold write_block1. simpl. lia.
Qed.

(** The same for the inode free map. *)
Definition imap_changed s im' i : super_block :=
  let nr := i / (BLOCK_SIZE * 8) in
  let d1 := write_block1 (dev s) (IMAP_START + nr) (slice (nr * BLOCK_SIZE) BLOCK_SIZE (v im')) in
  let s1 := set_used_inode_count (Z.of_nat (length (used im'))) (set_dev d1 (set_imap (Some im') s)) in
  set_dev (write_block1 d1 0 (splice 0 (enc_super (sb s1)) zero)) s1.

Lemma imap_changed_ok s im bm im' i :
  super_rep s im bm -> bm_ok im' -> nbits im' = nbits im -> 0 <= i < nbits im ->
  (forall j, 0 <= j -> j <> i -> bit im' j = bit im j) ->
  super_rep (imap_changed s im' i) im' bm /\ same_blocks s (imap_changed s im' i).
Proof.
  intros Hs Hok Hn Hi Hbit. pose proof Hs as []. geo. set (nr := i / (BLOCK_SIZE * 8)).
  assert (Hnr : 0 <= nr < INODE_FREEMAP_SIZE) by (apply map_nr; destruct sr_im0; lia).
  pose proof (map_update _ _ _ _ _ _ sr_im0 Hok Hn Hi Hbit) as Hm'. fold nr in Hm'.
  destruct (map_slice _ _ _ _ nr Hm' Hnr) as [Hl Hb].
  destruct (super_buf (sb (set_used_inode_count (Z.of_nat (length (used im'))) s))) as [Hl0 Hb0].
  split.
  - constructor; cbn [imap_changed dev sb inode_freemap block_freemap set_dev set_imap set_used_inode_count set_sb
      used_inode_count used_block_count max_fs_blocks]; try done.
    + apply write_block1_ok; [apply write_block1_ok| | |]; done || (lia).
    + unfold write_block1. simpl. lia.
    + by destruct sr_layout0; constructor.
    + apply map_other; [done|]; lia.
    + apply map_other; [apply map_other; [done|]|]; lia.
    + by rewrite write_block1_at, decide_True.
  - split_and!; cbn [imap_changed dev sb set_dev set_imap set_used_inode_count set_sb max_fs_blocks]; [|..|done].
    + intros b Hge. rewrite !write_block1_at, !decide_False by (lia). done.
    + unfold write_block1. simpl. lia.
Qed.

Lemma length_used_le b : Z.of_nat (length (used b)) <= Z.max 0 (nbits b).
Proof.
  unfold used. pose proof (length_filter (fun i => bit b i = true) (seqZ 0 (nbits b))). rewrite length_seqZ in H0. lia.
Qed.

(** The run of testfs_alloc_block. *)
Lemma alloc_block_ok s im bm :
  super_rep s im bm ->
  (exists r bm' s', testfs_alloc_block s = Ret (r, s') /\ super_rep s' im bm' /\ same_blocks s s' /\
     DATA_START <= r < DATA_START + BMAP_BITS /\ ~ allocated bm r /\ nbits bm' = nbits bm /\
     (forall b, allocated bm' b <-> allocated bm b \/ b = r) /\
     (forall b, DATA_START <= b < r -> allocated bm b) /\
     used_block_count (sb s') = used_block_count (sb s) + 1) \/
  (testfs_alloc_block s = Ret (- ENOSPC, s) /\
   (used_block_count (sb s) = max_fs_blocks (sb s) \/
    forall b, DATA_START <= b < DATA_START + BMAP_BITS -> allocated bm b)).
Proof.
  intros Hs. pose proof Hs as []. unfold testfs_alloc_block. rewrite run_gets.
  destruct (Z.leb_spec (max_fs_blocks (sb s)) (used_block_count (sb s))) as [Hle|Hlt].
  { right. split; [done|]. left. lia. }
  pose proof (map_bm _ _ _ _ sr_bm0) as Hok. pose proof (map_bits _ _ _ _ sr_bm0) as Hn. geo.
  unfold testfs_get_block_freemap, the_bmap. st_run. rewrite sr_bmap0.
  st_run.
  destruct (bitmap_alloc_cases bm Hok) as (r & i & bm' & E & Hc). rewrite (run_lift _ _ _ _ E). st_run.
  destruct Hc as [(-> & -> & Hall)|(-> & Hi & Hf & Hlow & Hok' & Hset)].
  - right. rewrite (proj2 (Z.ltb_lt _ _)) by done. st_run.
    rewrite (proj2 (Z.ltb_lt _ _)) by done. st_run. split.
    + unfold set_bmap. rewrite <- sr_bmap0. by destruct s.
    + right. intros b Hb. split; [lia|]. apply Hall. geo. lia.
  - left. rewrite (s32_small i) by (unfold in_s32; lia).
    rewrite (proj2 (Z.ltb_ge 0 0)) by done. st_run.
    pose proof Hset as (Hn' & _ & Hbit).
    st_call (write_block_freemap_run (set_bmap (Some bm') s) bm' i sr_layout0 eq_refl Hok' ltac:(lia) ltac:(lia)).
    rewrite (proj2 (Z.ltb_ge i 0)) by lia. st_run.
    st_call (write_super_block_run _).
    pose proof (used_bit_set _ _ _ Hset Hi Hf) as Hp. apply Permutation_length in Hp. cbn [length] in Hp.
    pose proof (length_used_le bm').
    assert (Hcount : u32 (used_block_count (sb s) + 1) = Z.of_nat (length (used bm'))).
    { rewrite u32_small by (unfold in_u32; lia). lia. }
    assert (Hret : s32 (u32 (data_blocks_start (sb s) + i)) = DATA_START + i).
    { rewrite (lay_data _ sr_layout0), u32_small, s32_small by (unfold in_u32, in_s32; lia). done. }
    cbn [sb set_dev set_bmap set_used_block_count set_sb used_block_count data_blocks_start].
    rewrite Hret. destruct (bmap_changed_ok s im bm bm' i Hs Hok' Hn' Hi) as [Hs' Hsame].
    { intros j Hj Hne. rewrite Hbit, bool_decide_false by done. apply orb_false_r. }
    { lia. }
    exists (DATA_START + i), bm', (bmap_changed s bm' i). split_and!; try done.
    + unfold bmap_changed. by rewrite <- Hcount.
    + lia.
    + lia.
    + intros [_ Hb]. rewrite Z.add_simpl_l in Hb. congruence.
    + intros b. unfold allocated. rewrite Hn'. split.
      * intros [Hb Hbb]. rewrite Hbit in Hbb by lia. apply orb_true_iff in Hbb as [?|E2%bool_decide_eq_true]; [by left|right; lia].
      * intros [[Hb Hbb]| ->]; (split; [lia|]); rewrite Hbit by lia; [by rewrite Hbb|].
        rewrite bool_decide_true by lia. apply orb_true_r.
    + intros b Hb. split; [lia|]. apply Hlow. lia.
    + cbn [sb set_dev set_bmap set_used_block_count set_sb used_block_count]. rewrite sr_used_b0. simpl. lia.
Qed.

(** The run of testfs_free_block on a block in use. *)
Lemma free_block_ok s im bm b :
  super_rep s im bm -> allocated bm b ->
  exists bm' s', testfs_free_block b s = Ret (0, s') /\ super_rep s' im bm' /\ nbits bm' = nbits bm /\
    (forall b', allocated bm' b' <-> allocated bm b' /\ b' <> b) /\
    (forall b', INODE_START <= b' -> b' <> b -> block_at (dev s') b' = block_at (dev s) b') /\
    block_at (dev s') b = zero /\
    d_len (dev s') = Z.max (d_len (dev s)) (b + 1) /\ max_fs_blocks (sb s') = max_fs_blocks (sb s) /\
    used_block_count (sb s') = used_block_count (sb s) - 1 /\
    bitmap_unmark bm (b - DATA_START) = Ret bm'.
Proof.
  intros Hs [Hb Hbit]. geo. unfold testfs_free_block.
  set (s1 := set_dev (write_block1 (dev s) b zero) s).
  assert (Hs1 : super_rep s1 im bm) by (apply super_rep_write; [done|lia|apply zlen_zero|apply zero_bytes]).
  assert (Ez : sb_zero b 1 s = Ret (tt, s1)) by (unfold sb_zero; by rewrite zero_blocks_one by lia).
  st_call Ez. pose proof Hs1 as []. pose proof (map_bm _ _ _ _ sr_bm0) as Hok.
  pose proof (map_bits _ _ _ _ sr_bm0) as Hn. set (i := b - DATA_START) in *.
  assert (Hi : s32 (u32 (b - data_blocks_start (sb s1))) = i).
  { rewrite (lay_data _ sr_layout0), u32_small, s32_small by (unfold in_u32, in_s32; lia). done. }
  rewrite Hi. rewrite (proj2 (Z.leb_le 0 i)) by lia. st_run.
  unfold testfs_put_block_freemap, the_bmap. st_run. rewrite sr_bmap0. st_run.
  destruct (bitmap_unmark_ok bm i Hok) as (bm' & E & Hok' & Hcl); [lia|done|].
  pose proof Hcl as (Hn' & _ & Hbit').
  rewrite (run_lift _ _ _ _ E). st_run.
  st_call (write_block_freemap_run (set_bmap (Some bm') s1) bm' i sr_layout0 eq_refl Hok' ltac:(lia) ltac:(lia)).
  pose proof (used_bit_clear _ _ _ Hcl ltac:(lia) Hbit) as Hp. apply Permutation_length in Hp. cbn [length] in Hp.
  pose proof (length_used_le bm).
  assert (Hcount : u32 (used_block_count (sb s1) - 1) = Z.of_nat (length (used bm'))).
  { rewrite u32_small by (unfold in_u32; lia). lia. }
  cbn [sb set_dev set_bmap used_block_count]. rewrite (proj2 (Z.ltb_lt 0 _)) by lia. st_run.
  st_call (write_super_block_run _). cbn [sb set_dev set_bmap used_block_count set_used_block_count set_sb].
  destruct (bmap_changed_ok s1 im bm bm' i Hs1 Hok' Hn') as [Hs' Hsame]; [lia| |lia|].
  { intros j Hj Hne. rewrite Hbit', bool_decide_false by done. apply andb_true_r. }
  exists bm', (bmap_changed s1 bm' i). destruct Hsame as (Hblk & _ & Hmax). split_and!; try done.
  - unfold bmap_changed. by rewrite <- Hcount.
  - intros b'. unfold allocated. rewrite Hn'. split.
    + intros [Hb' Hbb]. rewrite Hbit' in Hbb by lia. apply andb_true_iff in Hbb as [? Hne].
      split; [done|]. intros ->. rewrite bool_decide_true in Hne; done.
    + intros [[Hb' Hbb] Hne]. split; [done|]. rewrite Hbit' by lia. by rewrite Hbb, bool_decide_false by lia.
  - intros b' Hge Hne. rewrite Hblk by done. subst s1. cbn [dev set_dev].
    rewrite write_block1_at, decide_False by done. done.
  - rewrite Hblk by lia. subst s1. cbn [dev set_dev]. by rewrite write_block1_at, decide_True.
  - destruct Hs'. unfold bmap_changed. cbn [dev set_dev write_block1 d_len].
    assert (BMAP_START + i / (BLOCK_SIZE * 8) < DATA_START).
    { pose proof (map_nr i BLOCK_FREEMAP_SIZE). lia. }
    pose proof (sr_len _ _ _ Hs). assert (d_len (dev s1) = Z.max (d_len (dev s)) (b + 1)) by done. lia.
  - unfold bmap_changed. cbn [sb set_dev set_bmap used_block_count set_used_block_count set_sb].
    change (sb s1) with (sb s) in sr_used_b0. lia.
Qed.

(** ** The inode numbers *)

Lemma get_inode_freemap_ok s im bm :
  super_rep s im bm ->
  (exists i im' s', testfs_get_inode_freemap s = Ret (i, s') /\ super_rep s' im' bm /\ same_blocks s s' /\
     0 <= i < IMAP_BITS /\ bit im i = false /\ (forall j, 0 <= j < i -> bit im j = true) /\ bit_set im i im' /\
     s' = imap_changed s im' i /\ d_len (dev s') = d_len (dev s)) \/
  (testfs_get_inode_freemap s = Ret (- ENOSPC, s) /\ forall i, 0 <= i < IMAP_BITS -> bit im i = true).
Proof.
  intros Hs. pose proof Hs as []. geo.
  pose proof (map_bm _ _ _ _ sr_im0) as Hok. pose proof (map_bits _ _ _ _ sr_im0) as Hn.
  unfold testfs_get_inode_freemap, the_imap. st_run. rewrite sr_imap0. st_run.
  destruct (bitmap_alloc_cases im Hok) as (r & i & im' & E & Hc). rewrite (run_lift _ _ _ _ E). st_run.
  destruct Hc as [(-> & -> & Hall)|(-> & Hi & Hf & Hlow & Hok' & Hset)].
  - right. rewrite (proj2 (Z.ltb_lt _ _)) by done. st_run. split.
    + unfold set_imap. rewrite <- sr_imap0. by destruct s.
    + intros j Hj. apply Hall. lia.
  - left. rewrite (proj2 (Z.ltb_ge 0 0)) by done. rewrite (s32_small i) by (unfold in_s32; lia). st_run.
    pose proof Hset as (Hn' & _ & Hbit).
    st_call (write_inode_freemap_run (set_imap (Some im') s) im' i sr_layout0 eq_refl Hok' ltac:(lia) ltac:(lia)).
    st_call (write_super_block_run _).
    pose proof (used_bit_set _ _ _ Hset Hi Hf) as Hp. apply Permutation_length in Hp. cbn [length] in Hp.
    pose proof (length_used_le im').
    assert (Hcount : u32 (used_inode_count (sb s) + 1) = Z.of_nat (length (used im'))).
    { rewrite u32_small by (unfold in_u32; lia). lia. }
    cbn [sb set_dev set_imap set_used_inode_count set_sb used_inode_count].
    destruct (imap_changed_ok s im bm im' i Hs Hok' Hn' Hi) as [Hs' Hsame].
    { intros j Hj Hne. rewrite Hbit, bool_decide_false by done. apply orb_false_r. }
    exists i, im', (imap_changed s im' i). split_and!; try done; [|lia..|].
    + unfold imap_changed. by rewrite <- Hcount.
    + unfold imap_changed. cbn [dev set_dev write_block1 d_len].
      pose proof (map_nr i INODE_FREEMAP_SIZE). lia.
Qed.

Lemma put_inode_freemap_ok s im bm i :
  super_rep s im bm -> 0 <= i < IMAP_BITS -> bit im i = true ->
  exists im', testfs_put_inode_freemap i s = Ret (tt, imap_changed s im' i) /\
    super_rep (imap_changed s im' i) im' bm /\ same_blocks s (imap_changed s im' i) /\
    bit_clear im i im' /\ d_len (dev (imap_changed s im' i)) = d_len (dev s) /\ bm_ok im'.
Proof.
  intros Hs Hi Hbit. pose proof Hs as []. geo.
  pose proof (map_bm _ _ _ _ sr_im0) as Hok. pose proof (map_bits _ _ _ _ sr_im0) as Hn.
  unfold testfs_put_inode_freemap, the_imap. st_run. rewrite sr_imap0. st_run.
  destruct (bitmap_unmark_ok im i Hok) as (im' & E & Hok' & Hcl); [lia|done|].
  pose proof Hcl as (Hn' & _ & Hbit').
  rewrite (run_lift _ _ _ _ E). st_run.
  st_call (write_inode_freemap_run (set_imap (Some im') s) im' i sr_layout0 eq_refl Hok' ltac:(lia) ltac:(lia)).
  pose proof (used_bit_clear _ _ _ Hcl ltac:(lia) Hbit) as Hp. apply Permutation_length in Hp. cbn [length] in Hp.
  pose proof (length_used_le im).
  assert (Hcount : u32 (used_inode_count (sb s) - 1) = Z.of_nat (length (used im'))).
  { rewrite u32_small by (unfold in_u32; lia). lia. }
  cbn [sb set_dev set_imap used_inode_count]. rewrite (proj2 (Z.ltb_lt 0 _)) by lia. st_run.
  st_call (write_super_block_run _). cbn [sb set_dev set_imap set_used_inode_count set_sb used_inode_count].
  destruct (imap_changed_ok s im bm im' i Hs Hok' Hn') as [Hs' Hsame]; [lia| |].
  { intros j Hj Hne. rewrite Hbit', bool_decide_false by done. apply andb_true_r. }
  exists im'. split_and!; try done.
  - unfold imap_changed. by rewrite <- Hcount.
  - unfold imap_changed. cbn [dev set_dev write_block1 d_len]. pose proof (map_nr i INODE_FREEMAP_SIZE). lia.
Qed.

(** ** Mounting *)

(** Reading a free map from the device gives the map. *)
Lemma read_map d start size m :
  map_ok d start size m -> disk_ok d -> 0 <= start -> start + size <= d_len d -> 0 <= size ->
  read_blocks start size d = Ret (v m).
Proof.
  intros [Hm Hn Hd] Hdk Hs Hl Hz. pose proof geo_block. pose proof (bm_len _ Hm) as Hlen. unfold DIVROUNDUP in Hlen.
  unfold read_blocks. rewrite (proj2 (Z.ltb_ge _ _)) by lia. rewrite (proj2 (Z.ltb_ge _ _)) by lia. f_equal.
  assert (Hrun : forall n k, 0 <= k -> k + Z.of_nat n <= size ->
    read_loop n (start + k) d = slice (k * BLOCK_SIZE) (Z.of_nat n * BLOCK_SIZE) (v m)).
  { induction n as [|n IH]; intros k Hk Hkn; cbn [read_loop]; [done|].
    replace (start + k + 1) with (start + (k + 1)) by lia. rewrite IH, Hd by lia.
    replace ((k + 1) * BLOCK_SIZE) with (k * BLOCK_SIZE + BLOCK_SIZE) by lia.
    rewrite slice_app by nia. f_equal. nia. }
  specialize (Hrun (Z.to_nat size) 0). rewrite Z.add_0_r in Hrun. rewrite Hrun by lia.
  rewrite Z.mul_0_l, Z2Nat.id by done. replace (size * BLOCK_SIZE) with (zlen (v m)) by nia. apply slice_all.
Qed.

Lemma create_map size :
  1 <= size -> BLOCK_SIZE * size * 8 < 2 ^ 31 ->
  exists m, bitmap_create true true (BLOCK_SIZE * size * BITS_PER_WORD) = Ret (inr m) /\
    bm_ok m /\ nbits m = BLOCK_SIZE * size * 8 /\ zlen (v m) = BLOCK_SIZE * size.
Proof.
  intros H1 H2. pose proof geo_block.
  destruct (bitmap_create_run (BLOCK_SIZE * size * 8)) as (m & E & Hok & Hn & _); [nia|].
  exists m. split_and!; [done..|]. rewrite (bm_len _ Hok), Hn. unfold DIVROUNDUP. nia.
Qed.

Lemma super_rep_range s im bm : super_rep s im bm -> super_range (sb s).
Proof.
  intros []. geo. destruct sr_layout0. pose proof (length_used_le im). pose proof (length_used_le bm).
  pose proof (map_bits _ _ _ _ sr_im0). pose proof (map_bits _ _ _ _ sr_bm0).
  unfold super_range, in_u32. split_and!; try done; lia.
Qed.

Lemma init_super_block_run s im bm :
  super_rep s im bm -> init_super_block (fun _ => true) (dev s) = Ret (inr s).
Proof.
  intros Hs. pose proof Hs as []. geo. unfold init_super_block. cbn [negb].
  rewrite read_blocks_one by lia. cbn [mbind res_bind].
  rewrite sr_block1, dec_enc_super by (by eapply super_rep_range).
  rewrite (lay_imap _ sr_layout0), (lay_bmap _ sr_layout0).
  destruct (create_map INODE_FREEMAP_SIZE) as (m1 & -> & Hm1 & Hn1 & Hl1); [lia..|]. cbn [mbind res_bind].
  rewrite (read_map _ IMAP_START _ im) by (done || lia). cbn [mbind res_bind].
  destruct (create_map BLOCK_FREEMAP_SIZE) as (m2 & -> & Hm2 & Hn2 & Hl2); [lia..|]. cbn [mbind res_bind].
  rewrite (read_map _ BMAP_START _ bm) by (done || lia). cbn [mbind res_bind].
  pose proof (map_bits _ _ _ _ sr_im0) as Hb1. pose proof (map_bits _ _ _ _ sr_bm0) as Hb2.
  pose proof (bm_len _ (map_bm _ _ _ _ sr_im0)) as Hlen1. pose proof (bm_len _ (map_bm _ _ _ _ sr_bm0)) as Hlen2.
  unfold DIVROUNDUP in *.
  rewrite !splice_all by nia. do 2 f_equal. rewrite Hn1, Hn2, <- Hb1, <- Hb2.
  destruct im, bm, s. simpl in *. by subst.
Qed.

(** An empty free map. *)
Definition empty_map (size : Z) : bitmap := Bitmap (BLOCK_SIZE * size * 8) (replicate (Z.to_nat (BLOCK_SIZE * size)) 0).

Lemma empty_map_ok size d start :
  1 <= size -> BLOCK_SIZE * size * 8 < 2 ^ 31 -> (forall k, 0 <= k < size -> block_at d (start + k) = zero) ->
  map_ok d start size (empty_map size) /\ used (empty_map size) = [].
Proof.
  intros H1 H2 Hd. pose proof geo_block. split.
  - constructor; [|done|].
    + constructor; cbn [empty_map nbits v]; [nia| |apply Forall_replicate; unfold is_byte; lia|].
      * unfold zlen. rewrite length_replicate. unfold DIVROUNDUP. nia.
      * unfold zlen. rewrite length_replicate. nia.
    + intros k Hk. rewrite Hd by done. unfold slice, empty_map, zero. cbn [v].
      rewrite drop_replicate, take_replicate. f_equal. nia.
  - apply elem_of_nil_inv. intros j [_ Hj]%elem_of_used. unfold bit, empty_map in Hj. cbn [v] in Hj.
    by rewrite wbit_zeros in Hj.
Qed.

Lemma sb_zero_run s start n :
  disk_ok (dev s) -> 0 <= start -> 0 < n ->
  exists d, sb_zero start n s = Ret (tt, set_dev d s) /\ disk_ok d /\
    d_len d = Z.max (d_len (dev s)) (start + n) /\
    forall b, block_at d b = if decide (start <= b < start + n) then zero else block_at (dev s) b.
Proof.
  intros Hd Hs Hn. unfold sb_zero, zero_blocks.
  destruct (zero_loop_ok (Z.to_nat n) 0 start (dev s) Hd) as (d & -> & Hd' & Hl & Hb); [lia|].
  exists d. split_and!; [done..| |].
  - rewrite Hl, decide_False by lia. f_equal. lia.
  - intros b. rewrite Hb. apply decide_ext. lia.
Qed.

Lemma mkfs_run max :
  in_u64 max ->
  exists s im bm, mkfs (fun _ => true) max = Ret (inr s) /\ super_rep s im bm /\ used im = [] /\ used bm = [] /\
    max_fs_blocks (sb s) = max /\ d_len (dev s) = DATA_START /\
    forall b, INODE_START <= b -> block_at (dev s) b = zero.
Proof.
  intros Hmax. geo. unfold mkfs, make_super_block. rewrite write_super_block_run. cbn [mbind res_bind sb dev].
  set (d0 := DSuper _ _ _ _ _ _ _). unfold SUPER_BLOCK_SIZE in d0.
  assert (Hlay : layout_ok d0).
  { subst d0. constructor; cbn; unfold INODE_START, DATA_START in *; lia || done. }
  destruct (super_buf d0) as [Hbl Hbb]. set (buf := splice 0 (enc_super d0) zero) in *.
  set (d1 := write_block1 (Disk 0 ∅) 0 buf).
  assert (Hd1 : disk_ok d1).
  { apply write_block1_ok; done || lia. }
  set (s1 := set_dev d1 _). unfold testfs_make_inode_freemap, testfs_make_block_freemap, testfs_make_inode_blocks.
  st_run. destruct (sb_zero_run s1 IMAP_START INODE_FREEMAP_SIZE Hd1) as (d2 & E2 & Hd2 & Hl2 & Hb2); [lia..|].
  change (inode_freemap_start (sb s1)) with (inode_freemap_start d0). rewrite (lay_imap _ Hlay). st_call E2.
  destruct (sb_zero_run (set_dev d2 s1) BMAP_START BLOCK_FREEMAP_SIZE Hd2) as (d3 & E3 & Hd3 & Hl3 & Hb3); [lia..|].
  cbn [set_dev sb]. change (block_freemap_start (sb s1)) with (block_freemap_start d0). rewrite (lay_bmap _ Hlay).
  st_call E3. pose proof geo_inodes. unfold INODES_PER_BLOCK. rewrite (proj2 (Z.ltb_ge _ _)) by lia.
  assert (Hmod : (BLOCK_SIZE mod sizeof_dinode =? 0) = true) by (apply Z.eqb_eq, geo_block).
  rewrite Hmod. st_run.
  destruct (sb_zero_run (set_dev d3 (set_dev d2 s1)) INODE_START NR_INODE_BLOCKS Hd3) as (d4 & E4 & Hd4 & Hl4 & Hb4); [lia..|].
  cbn [set_dev sb]. change (inode_blocks_start (sb s1)) with (inode_blocks_start d0). rewrite (lay_inodes _ Hlay).
  st_call E4. unfold close_super_block. st_run. st_call (write_super_block_run _). unfold close_maps. st_run.
  cbn [set_dev inode_freemap block_freemap sb dev s1 mbind res_bind]. st_run. cbn [mbind res_bind]. change (sb s1) with d0. fold buf.
  set (d5 := write_block1 d4 0 buf).
  set (s := Super d0 d5 (Some (empty_map INODE_FREEMAP_SIZE)) (Some (empty_map BLOCK_FREEMAP_SIZE))).
  assert (Hz : forall b, 1 <= b -> block_at d5 b = zero).
  { intros b Hb. subst d5. rewrite write_block1_at, decide_False, Hb4 by lia. case_decide; [done|].
    cbn [set_dev dev]. rewrite Hb3. case_decide; [done|]. cbn [set_dev dev]. rewrite Hb2. case_decide; [done|].
    change (dev s1) with d1. subst d1. rewrite write_block1_at, decide_False by lia. done. }
  destruct (empty_map_ok INODE_FREEMAP_SIZE d5 IMAP_START) as [Him Hui]; [lia..| |]; [intros; apply Hz; lia|].
  destruct (empty_map_ok BLOCK_FREEMAP_SIZE d5 BMAP_START) as [Hbm Hub]; [lia..| |]; [intros; apply Hz; lia|].
  assert (Hlen : d_len d5 = DATA_START).
  { subst d5. cbn [write_block1 d_len]. cbn [set_dev dev] in *. rewrite Hl4, Hl3, Hl2.
    change (dev s1) with d1. subst d1. cbn [write_block1 d_len]. lia. }
  assert (Hs : super_rep s (empty_map INODE_FREEMAP_SIZE) (empty_map BLOCK_FREEMAP_SIZE)).
  { constructor; cbn [s dev sb inode_freemap block_freemap]; try done.
    - by apply write_block1_ok.
    - lia.
    - by rewrite Hui.
    - by rewrite Hub.
    - subst d0. cbn. destruct Hmax. lia.
    - subst d5. by rewrite write_block1_at, decide_True. }
  exists s, (empty_map INODE_FREEMAP_SIZE), (empty_map BLOCK_FREEMAP_SIZE).
  split_and!; [by apply (init_super_block_run s _ _ Hs)|done..|]. intros b Hb. apply Hz. lia.
Qed.

(** The block allocator.  On a well-formed file system testfs_alloc_block
    returns the lowest data block that is not in use, marks it and no other
    block, and leaves every other data block and inode block as it was; when
    the quota is used up or no block is free it returns -ENOSPC and changes
    nothing. *)
Theorem alloc_block_spec s im bm (Hs : super_rep s im bm) :
  match (if used_block_count (sb s) <? max_fs_blocks (sb s)
         then list_find (fun i => bit bm i = false) (seqZ 0 (nbits bm)) else None) with
  | Some (_, i) => exists bm' s', testfs_alloc_block s = Ret (DATA_START + i, s') /\
      super_rep s' im bm' /\ same_blocks s s' /\
      forall b, allocated bm' b <-> allocated bm b \/ b = DATA_START + i
  | None => testfs_alloc_block s = Ret (- ENOSPC, s)
  end.
Proof.
  geo. pose proof (map_bits _ _ _ _ (sr_bm _ _ _ Hs)) as Hn.
  destruct (alloc_block_ok s im bm Hs) as [(r & bm' & s' & E & Hs' & Hsame & Hr & Hna & Hn' & Hal & Hlow & Hc)|[E Hfull]].
  - rewrite (proj2 (Z.ltb_lt _ _)).
    2:{ pose proof (sr_quota _ _ _ Hs'). destruct Hsame as (_ & _ & Hm). lia. }
    assert (Hrb : bit bm (r - DATA_START) = false).
    { apply not_true_is_false. intros Hb. apply Hna. split; [lia|done]. }
    destruct (list_find _ _) as [[k i]|] eqn:Ef.
    + apply list_find_Some in Ef as (Hk & Hi & Hmin). apply lookup_seqZ in Hk as [-> Hk].
      assert (r = DATA_START + (0 + Z.of_nat k)) as ->; [|by exists bm', s'].
      destruct (Z.lt_trichotomy r (DATA_START + (0 + Z.of_nat k))) as [Hlt|[->|Hgt]]; [|done|].
      * exfalso. apply (Hmin (Z.to_nat (r - DATA_START)) (r - DATA_START)); [apply lookup_seqZ; lia|lia|done].
      * destruct (Hlow (DATA_START + (0 + Z.of_nat k))) as [_ Hb]; [lia|]. rewrite Z.add_simpl_l in Hb. congruence.
    + apply list_find_None in Ef. rewrite Forall_forall in Ef. exfalso.
      apply (Ef (r - DATA_START)); [apply elem_of_seqZ; lia|done].
  - destruct (Z.ltb_spec (used_block_count (sb s)) (max_fs_blocks (sb s))) as [Hlt|]; [|done].
    destruct (list_find _ _) as [[k i]|] eqn:Ef; [|done]. exfalso.
    apply list_find_Some in Ef as (Hk & Hi & _). apply lookup_seqZ in Hk as [-> Hk].
    destruct Hfull as [?|Hall]; [lia|]. destruct (Hall (DATA_START + (0 + Z.of_nat k))) as [_ Hb]; [lia|].
    rewrite Z.add_simpl_l in Hb. congruence.
Qed.

(** testfs_free_block undoes testfs_alloc_block: the free maps and the
    super block are those before the allocation, and so is every other data
    block and inode block; the block itself is zeroed. *)
Theorem alloc_free_roundtrip s im bm r s' (Hs : super_rep s im bm)
    (Ha : testfs_alloc_block s = Ret (r, s')) (Hr : 0 <= r) :
  exists s'', testfs_free_block r s' = Ret (0, s'') /\ super_rep s'' im bm /\ sb s'' = sb s /\
    block_at (dev s'') r = zero /\
    forall b, INODE_START <= b -> b <> r -> block_at (dev s'') b = block_at (dev s) b.
Proof.
  destruct (alloc_block_ok s im bm Hs) as [(r1 & bm' & s1 & E & Hs' & (Hsame & _ & Hmx) & Hr1 & Hna & Hn' & Hal & _ & Hc)|[E _]];
    rewrite E in Ha; simplify_eq; [|done].
  destruct (free_block_ok s' im bm' r Hs') as (bm2 & s2 & E2 & Hs2 & Hn2 & Hal2 & Hb2 & Hz & _ & Hm2 & Hc2 & _); [by apply Hal; right|].
  pose proof (map_bm _ _ _ _ (sr_bm _ _ _ Hs)) as Hok. pose proof (map_bm _ _ _ _ (sr_bm _ _ _ Hs2)) as Hok2.
  assert (bm2 = bm) as ->.
  { apply bitmap_ext_used; [done..|congruence|]. intros j Hj.
    assert (Hiff : allocated bm2 (DATA_START + j) <-> allocated bm (DATA_START + j)).
    { rewrite Hal2, Hal. naive_solver. }
    unfold allocated in Hiff. rewrite Z.add_simpl_l in Hiff.
    apply eq_true_iff_eq. split; intros Hb; [apply Hiff|apply Hiff]; (split; [lia|done]). }
  exists s2. split_and!; try done.
  - destruct (sr_layout _ _ _ Hs), (sr_layout _ _ _ Hs2).
    pose proof (sr_used_i _ _ _ Hs). pose proof (sr_used_i _ _ _ Hs2).
    destruct (sb s2), (sb s). simpl in *. f_equal; congruence || lia.
  - intros b Hb Hne. by rewrite Hb2, Hsame.
Qed.

(** What the rest of the file system does with the super block and the device:
    the four operations on the free maps, and writes to the inode and data
    blocks. *)
Inductive sb_op :=
| AllocBlock | FreeBlock (b : Z) | AllocInode | FreeInode (nr : Z) | WriteBlock (b : Z) (blk : list Z).

Definition sb_step (o : sb_op) : SB Z :=
  match o with
  | AllocBlock => testfs_alloc_block
  | FreeBlock b => testfs_free_block b
  | AllocInode => testfs_get_inode_freemap
  | FreeInode nr => _ ← testfs_put_inode_freemap nr; mret 0
  | WriteBlock b blk => _ ← sb_write blk b 1; mret 0
  end.

(** What is freed is in use; what is written is a block past the free maps. *)
Definition op_ok (s : super_block) (o : sb_op) : Prop :=
  match o with
  | AllocBlock | AllocInode => True
  | FreeBlock b => exists bm, block_freemap s = Some bm /\ allocated bm b
  | FreeInode nr => exists im, inode_freemap s = Some im /\ 0 <= nr < IMAP_BITS /\ bit im nr = true
  | WriteBlock b blk => INODE_START <= b /\ zlen blk = BLOCK_SIZE /\ Forall is_byte blk
  end.

#[global] Instance allocated_dec bm b : Decision (allocated bm b).
Proof. unfold allocated. apply _. Defined.
#[global] Instance op_ok_dec s o : Decision (op_ok s o).
Proof.
  destruct o; cbn [op_ok]; try apply _.
  - destruct (block_freemap s) as [bm|]; [destruct (decide (allocated bm b))|]; [left; by exists bm|right|right].
    + by intros (? & [= <-] & ?).
    + by intros (? & ? & ?).
  - destruct (inode_freemap s) as [im|]; [destruct (decide (0 <= nr < IMAP_BITS /\ bit im nr = true))|]; [left; by exists im|right|right].
    + by intros (? & [= <-] & ?).
    + by intros (? & ? & ?).
Defined.

(** The super blocks that a file system made for [max] blocks has in memory
    while it is in use. *)
Inductive running (max : Z) : super_block -> Prop :=
| running_mkfs s : mkfs (fun _ => true) max = Ret (inr s) -> running max s
| running_step s o r s' : running max s -> op_ok s o -> sb_step o s = Ret (r, s') -> running max s'.

Fixpoint sb_exec (os : list sb_op) (s : super_block) : option super_block :=
  match os with
  | [] => Some s
  | o :: os => if decide (op_ok s o) then match sb_step o s with Ret (_, s) => sb_exec os s | Fail _ => None end else None
  end.

Lemma sb_exec_running max os s s' : running max s -> sb_exec os s = Some s' -> running max s'.
Proof.
  revert s. induction os as [|o os IH]; intros s Hs E; cbn [sb_exec] in E; [by injection E as <-|].
  case_decide as Ho; [|done]. destruct (sb_step o s) as [[r s1]|] eqn:E1; [|done]. eapply IH; [|exact E]. by eapply running_step.
Qed.

(** Every operation returns and keeps the invariant. *)
Lemma sb_step_ok s o : super_ok s -> op_ok s o -> exists r s', sb_step o s = Ret (r, s') /\ super_ok s'.
Proof.
  intros (im & bm & Hs) Ho. geo. destruct o as [|b| |nr|b blk]; cbn [sb_step op_ok] in *.
  - destruct (alloc_block_ok s im bm Hs) as [(r & bm' & s' & E & Hs' & _)|[E _]];
      [exists r, s'|exists (- ENOSPC), s]; (split; [done|]); by eexists _, _.
  - destruct Ho as (bm0 & E0 & Ha). assert (bm0 = bm) as -> by (pose proof (sr_bmap _ _ _ Hs); congruence).
    destruct (free_block_ok s im bm b Hs Ha) as (bm' & s' & E & Hs' & _). exists 0, s'. split; [done|]. by eexists _, _.
  - destruct (get_inode_freemap_ok s im bm Hs) as [(r & im' & s' & E & Hs' & _)|[E _]];
      [exists r, s'|exists (- ENOSPC), s]; (split; [done|]); by eexists _, _.
  - destruct Ho as (im0 & E0 & Hr & Hb). assert (im0 = im) as -> by (pose proof (sr_imap _ _ _ Hs); congruence).
    destruct (put_inode_freemap_ok s im bm nr Hs Hr Hb) as (im' & E & Hs' & _). st_call E.
    eexists 0, _. split; [done|]. by eexists _, _.
  - destruct Ho as (Hb & Hl & Hby). exists 0, (set_dev (write_block1 (dev s) b blk) s). split.
    + assert (E : sb_write blk b 1 s = Ret (tt, set_dev (write_block1 (dev s) b blk) s)) by (unfold sb_write; by rewrite write_blocks_one by lia).
      by st_call E.
    + exists im, bm. by apply super_rep_write.
Qed.

Lemma running_ok max s : in_u64 max -> running max s -> super_ok s.
Proof.
  intros Hmax. induction 1 as [s E|s o r s' _ IH Ho E].
  - destruct (mkfs_run max Hmax) as (s0 & im & bm & E0 & Hs & _). rewrite E in E0. injection E0 as ->. by exists im, bm.
  - destruct (sb_step_ok s o IH Ho) as (r1 & s1 & E1 & Hok). rewrite E in E1. by injection E1 as <- <-.
Qed.

(** C28: Everything the super block keeps is written through.  After mktestfs
    and any sequence of block and inode allocations, frees of what is in use,
    and writes to inode and data blocks, mounting the device as it is, without
    unmounting it first, gives the super block and the free maps that are in
    memory, and every further operation of that kind returns. *)
Theorem mount_written_through max s (Hmax : in_u64 max) (Hs : running max s) :
  init_super_block (fun _ => true) (dev s) = Ret (inr s) /\
  forall o, op_ok s o -> exists r s', sb_step o s = Ret (r, s').
Proof.
  pose proof (running_ok max s Hmax Hs) as Hok. split.
  - destruct Hok as (im & bm & Hr). by eapply init_super_block_run.
  - intros o Ho. destruct (sb_step_ok s o Hok Ho) as (r & s' & E & _). by exists r, s'.
Qed.

(** Making a file system and mounting it: mktestfs leaves a well-formed
    file system with the requested quota, no inode and no block in use, and
    zeroed inode blocks. *)
Theorem mkfs_ok max (Hmax : in_u64 max) :
  exists s im bm, mkfs (fun _ => true) max = Ret (inr s) /\ super_rep s im bm /\ used im = [] /\ used bm = [] /\
    max_fs_blocks (sb s) = max /\ forall b, INODE_START <= b -> block_at (dev s) b = zero.
Proof. destruct (mkfs_run max Hmax) as (s & im & bm & ? & ? & ? & ? & ? & ? & ?). by exists s, im, bm. Qed.

End super.

Ltac geo := pose proof geo_limits.

(** A fresh file system on the small geometry. *)
Definition tiny_fs : super_block :=
  match @mkfs tiny (fun _ => true) 20 with Ret (inr s) => s | _ => Super (DSuper 0 0 0 0 0 0 0) (Disk 0 ∅) None None end.

Lemma tiny_fs_ok : exists im bm, @super_rep tiny tiny_fs im bm /\ used bm = [] /\ used im = [].
Proof.
  destruct (@mkfs_run tiny 20) as (s & im & bm & E & Hs & Hui & Hub & _); [done|].
  exists im, bm. unfold tiny_fs. by rewrite E.
Qed.

Lemma mkfs_ok_witness :
  exists s im bm, @mkfs testfs (fun _ => true) 131072 = Ret (inr s) /\ super_rep s im bm /\
    used im = [] /\ used bm = [] /\
    max_fs_blocks (sb s) = 131072 /\ forall b, @INODE_START testfs <= b -> block_at (dev s) b = zero.
Proof. apply (@mkfs_ok testfs 131072). done. Defined.

(** Two blocks and an inode number are taken, the first block is given back. *)
Definition tiny_ops : list sb_op := [AllocBlock; AllocBlock; AllocInode; FreeBlock (@DATA_START tiny)].
Definition tiny_used : super_block := default tiny_fs (@sb_exec tiny tiny_ops tiny_fs).

Lemma tiny_quota : in_u64 20.
Proof. done. Qed.

Lemma tiny_fs_running : @running tiny 20 tiny_fs.
Proof.
  apply (@running_mkfs tiny). destruct (@mkfs_run tiny 20) as (s0 & im & bm & E0 & _); [done|]. unfold tiny_fs. by rewrite E0.
Qed.

Lemma tiny_used_running : @running tiny 20 tiny_used /\ used_block_count (sb tiny_used) = 1 /\ used_inode_count (sb tiny_used) = 1.
Proof.
  assert (Hvm : (match @sb_exec tiny tiny_ops tiny_fs with
                 | Some s => bool_decide (used_block_count (sb s) = 1 /\ used_inode_count (sb s) = 1)
                 | None => false end) = true) by (vm_compute; reflexivity).
  unfold tiny_used. destruct (@sb_exec tiny tiny_ops tiny_fs) as [s|] eqn:E; [|done]. cbn [default].
  split; [exact (@sb_exec_running tiny 20 tiny_ops tiny_fs s tiny_fs_running E)|exact (bool_decide_eq_true_1 _ Hvm)].
Qed.

Lemma mount_written_through_witness :
  used_block_count (sb tiny_used) = 1 /\ @init_super_block tiny (fun _ => true) (dev tiny_used) = Ret (inr tiny_used) /\
  forall o, @op_ok tiny tiny_used o -> exists r s', @sb_step tiny o tiny_used = Ret (r, s').
Proof.
  destruct tiny_used_running as (Hs & Hu & _). split; [exact Hu|].
  exact (@mount_written_through tiny 20 tiny_used tiny_quota Hs).
Defined.

Lemma alloc_block_spec_witness :
  exists im bm, @super_rep tiny tiny_fs im bm /\
  match (if used_block_count (sb tiny_fs) <? max_fs_blocks (sb tiny_fs)
         then list_find (fun i => bit bm i = false) (seqZ 0 (nbits bm)) else None) with
  | Some (_, i) => exists bm' s', @testfs_alloc_block tiny tiny_fs = Ret (@DATA_START tiny + i, s') /\
      @super_rep tiny s' im bm' /\ @same_blocks tiny tiny_fs s' /\
      forall b, @allocated tiny bm' b <-> @allocated tiny bm b \/ b = @DATA_START tiny + i
  | None => @testfs_alloc_block tiny tiny_fs = Ret (- ENOSPC, tiny_fs)
  end.
Proof.
  destruct tiny_fs_ok as (im & bm & Hs & _). exists im, bm. split; [done|]. apply (@alloc_block_spec tiny tiny_fs im bm Hs).
Defined.

(** The first data block of the small file system is block 7. *)
Lemma alloc_free_roundtrip_witness :
  exists s' s'', @testfs_alloc_block tiny tiny_fs = Ret (7, s') /\ @testfs_free_block tiny 7 s' = Ret (0, s'') /\
    sb s'' = sb tiny_fs.
Proof.
  destruct (@testfs_alloc_block tiny tiny_fs) as [[r s']|] eqn:E; [|by vm_compute in E].
  assert (r = 7) as -> by (vm_compute in E; congruence).
  destruct tiny_fs_ok as (im & bm & Hs & _).
  destruct (@alloc_free_roundtrip tiny tiny_fs im bm 7 s' Hs E) as (s'' & ? & _ & ? & _); [lia|].
  by exists s', s''.
Defined.
