(* ===== verification/Inode.v ===== *)
(** * Inodes (fs/inode.c)

    The state [fs] of the mounted file system: the super block, the in-memory
    inodes at their addresses and the hash table that finds them by number.
    A chain of the table is the sequence of its inodes.  One super block is
    mounted at a time, so [in->sb] is always that super block.

    [fs_ok] is the invariant of this layer: the table holds exactly the
    in-memory inodes, each in the chain of its number and no number twice, and
    an inode that is not dirty agrees with the device. *)
From S2P Require Import Prelude Bytes Bitmap StateMonad Disk Super.

#[local] Ltac Zify.zify_post_hook ::= Z.to_euclidean_division_equations.

(** inode_type *)
Definition I_NONE : Z := 0.
Definition I_FILE : Z := 1.
Definition I_DIR : Z := 2.

Definition NR_DIRECT_BLOCKS : Z := 10.
Definition I_FLAGS_DIRTY : Z := 1.

Record dinode := DInode {
  i_type : Z;
  i_block_nr : list Z;
  i_indirect : Z;
  i_dindirect : Z;
  block_count : Z;
  i_size : Z
}.

(** struct dinode in memory: s32 throughout, and the off_t at offset 56. *)
Definition enc_dinode (d : dinode) : list Z :=
  le_enc 4 (i_type d) ++ concat (le_enc 4 <$> i_block_nr d) ++ le_enc 4 (i_indirect d) ++
  le_enc 4 (i_dindirect d) ++ le_enc 4 (block_count d) ++ le_enc 8 (i_size d).
Definition dec_dinode (l : list Z) : dinode :=
  DInode (get_s32 0 l) ((fun k => get_s32 (4 + 4 * k) l) <$> seqZ 0 NR_DIRECT_BLOCKS)
    (get_s32 44 l) (get_s32 48 l) (get_s32 52 l) (get_s64 56 l).
Definition zero_dinode : dinode := DInode 0 (replicate 10 0) 0 0 0 0.

Definition set_i_type x d := DInode x (i_block_nr d) (i_indirect d) (i_dindirect d) (block_count d) (i_size d).
Definition set_i_block_nr x d := DInode (i_type d) x (i_indirect d) (i_dindirect d) (block_count d) (i_size d).
Definition set_i_indirect x d := DInode (i_type d) (i_block_nr d) x (i_dindirect d) (block_count d) (i_size d).
Definition set_block_count x d := DInode (i_type d) (i_block_nr d) (i_indirect d) (i_dindirect d) x (i_size d).
Definition set_i_size x d := DInode (i_type d) (i_block_nr d) (i_indirect d) (i_dindirect d) (block_count d) x.

Record inode := Inode { din : dinode; i_flags : Z; i_nr : Z; i_count : Z }.

Definition set_din x i := Inode x (i_flags i) (i_nr i) (i_count i).
Definition set_i_flags x i := Inode (din i) x (i_nr i) (i_count i).
Definition set_i_count x i := Inode (din i) (i_flags i) (i_nr i) x.

(** The static pointer inode_hash_table. *)
Inductive htable := Null | Freed | Table (t : list (list Z)).

Record fs := Fs {
  f_sb : super_block;
  inodes : gmap Z inode;
  inode_hash_table : htable;
  next_in : Z
}.
Definition set_f_sb x (s : fs) : fs := Fs x (inodes s) (inode_hash_table s) (next_in s).
Definition set_inodes x (s : fs) : fs := Fs (f_sb s) x (inode_hash_table s) (next_in s).
Definition set_htable x (s : fs) : fs := Fs (f_sb s) (inodes s) x (next_in s).

Abbreviation FS := (ST fs).

Definition GOLDEN_RATIO_PRIME_32 : Z := 0x9e370001.
Definition hash_int (val bits : Z) : Z := Z.shiftr (u32 (val * GOLDEN_RATIO_PRIME_32)) (32 - bits).

Definition INODE_HASH_SHIFT : Z := 8.
Definition inode_hashfn (nr : Z) : Z := hash_int (u32 nr) INODE_HASH_SHIFT.
Definition inode_hash_size : Z := Z.shiftl 1 INODE_HASH_SHIFT.

Section inode.
Context `{Geometry}.

Definition on_sb {A} (m : SB A) : FS A := zoom f_sb set_f_sb m.

(** *in, and a store to a field of *in *)
Definition get_in (a : Z) : FS inode := m ← gets inodes; lift_res (deref (m !! a)).
Definition upd_in (a : Z) (f : inode -> inode) : FS unit :=
  i ← get_in a; modify (fun s => set_inodes (<[a := f i]> (inodes s)) s).
Definition upd_din (a : Z) (f : dinode -> dinode) : FS unit := upd_in a (fun i => set_din (f (din i)) i).
Definition mark_dirty (a : Z) : FS unit := upd_in a (fun i => set_i_flags (Z.lor (i_flags i) I_FLAGS_DIRTY) i).

(** ** The hash table *)

Definition inode_hash_init (malloc_ok : bool) : FS unit :=
  if malloc_ok then modify (set_htable (Table (replicate (Z.to_nat inode_hash_size) [])))
  else lift_res (Fail (Exit 1)).

Definition inode_hash_destroy : FS unit :=
  h ← gets inode_hash_table;
  match h with
  | Null => lift_res (Fail Assert)
  | Freed => lift_res (Fail Undef)
  | Table t => _ ← st_assert (forallb (fun c => match c with [] => true | _ => false end) t); modify (set_htable Freed)
  end.

(** inode_hash_table[inode_hashfn(nr)] *)
Definition chain_of (nr : Z) : FS (list (list Z) * list Z) :=
  h ← gets inode_hash_table;
  match h with
  | Table t => c ← lift_res (deref (t !! Z.to_nat (inode_hashfn nr))); mret (t, c)
  | _ => lift_res (Fail Undef)
  end.
Definition set_chain (t : list (list Z)) (nr : Z) (c : list Z) : FS unit :=
  modify (set_htable (Table (<[Z.to_nat (inode_hashfn nr) := c]> t))).

Fixpoint find_chain (m : gmap Z inode) (nr : Z) (c : list Z) : res (option Z) :=
  match c with
  | [] => Ret None
  | a :: c => i ← deref (m !! a); if i_nr i =? nr then Ret (Some a) else find_chain m nr c
  end.

Definition inode_hash_find (nr : Z) : FS (option Z) :=
  '(_, c) ← chain_of nr; m ← gets inodes; lift_res (find_chain m nr c).

Definition inode_hash_insert (a : Z) : FS unit :=
  i ← get_in a; '(t, c) ← chain_of (i_nr i); set_chain t (i_nr i) (a :: c).

(** hlist_del on the node of the inode; a node that is in no chain has no pprev. *)
Definition inode_hash_remove (a : Z) : FS unit :=
  i ← get_in a;
  '(t, c) ← chain_of (i_nr i);
  match rm_first (Z.eqb a) c with
  | Some (_, c) => set_chain t (i_nr i) c
  | None => lift_res (Fail Undef)
  end.

(** ** The place of an inode on the device *)

Definition testfs_inode_to_block_nr (i : inode) : res Z :=
  let block_nr := s32 (u32 (i_nr i) / INODES_PER_BLOCK) in
  _ ← c_assert (0 <=? block_nr);
  _ ← c_assert (block_nr <? NR_INODE_BLOCKS);
  Ret block_nr.

Definition testfs_inode_to_block_offset (i : inode) : res Z :=
  let block_offset := s32 (u32 (i_nr i) mod INODES_PER_BLOCK * sizeof_dinode) in
  _ ← c_assert (0 <=? block_offset);
  _ ← c_assert (block_offset <? BLOCK_SIZE);
  Ret block_offset.

Definition testfs_read_inode_block (a : Z) : FS (list Z) :=
  i ← get_in a;
  block_nr ← lift_res (testfs_inode_to_block_nr i);
  start ← gets (fun s => inode_blocks_start (sb (f_sb s)));
  on_sb (sb_read (u32 (start + block_nr)) 1).

Definition testfs_write_inode_block (a : Z) (block : list Z) : FS unit :=
  i ← get_in a;
  block_nr ← lift_res (testfs_inode_to_block_nr i);
  start ← gets (fun s => inode_blocks_start (sb (f_sb s)));
  on_sb (sb_write block (u32 (start + block_nr)) 1).

(** ** Operations *)

(** calloc of a struct inode *)
Definition alloc_inode (i : inode) : FS Z :=
  a ← gets next_in;
  _ ← modify (fun s => Fs (f_sb s) (<[a := i]> (inodes s)) (inode_hash_table s) (a + 1));
  mret a.

(** [calloc_ok]: the calloc of a miss succeeds. *)
Definition testfs_get_inode (calloc_ok : bool) (nr : Z) : FS Z :=
  f ← inode_hash_find nr;
  match f with
  | Some a => _ ← upd_in a (fun i => set_i_count (s32 (i_count i + 1)) i); mret a
  | None =>
      if negb calloc_ok then lift_res (Fail (Exit 1))
      else
        a ← alloc_inode (Inode zero_dinode 0 nr 1);
        block ← testfs_read_inode_block a;
        i ← get_in a;
        off ← lift_res (testfs_inode_to_block_offset i);
        _ ← upd_din a (fun _ => dec_dinode (slice off sizeof_dinode block));
        _ ← inode_hash_insert a;
        mret a
  end.

Definition testfs_sync_inode (a : Z) : FS unit :=
  i ← get_in a;
  if Z.land (i_flags i) I_FLAGS_DIRTY =? 0 then mret tt
  else
    block ← testfs_read_inode_block a;
    off ← lift_res (testfs_inode_to_block_offset i);
    _ ← testfs_write_inode_block a (splice off (enc_dinode (din i)) block);
    upd_in a (fun i => set_i_flags (Z.ldiff (i_flags i) I_FLAGS_DIRTY) i).

Definition testfs_put_inode (a : Z) : FS unit :=
  i ← get_in a;
  _ ← st_assert (Z.land (i_flags i) I_FLAGS_DIRTY =? 0);
  _ ← upd_in a (set_i_count (s32 (i_count i - 1)));
  if s32 (i_count i - 1) =? 0 then
    _ ← inode_hash_remove a;
    modify (fun s => set_inodes (delete a (inodes s)) s)
  else mret tt.

Definition testfs_inode_get_nr (i : inode) : Z := i_nr i.
Definition testfs_inode_get_type (i : inode) : Z := i_type (din i).
Definition testfs_inode_get_size (i : inode) : Z := i_size (din i).
Definition testfs_inode_get_block_count (i : inode) : Z := block_count (din i).

(** The error, or the address of the inode. *)
Definition testfs_create_inode (calloc_ok : bool) (type : Z) : FS (Z + Z) :=
  nr ← on_sb testfs_get_inode_freemap;
  if nr <? 0 then mret (inl nr)
  else if NR_INODE_BLOCKS <=? u32 nr / INODES_PER_BLOCK then
    _ ← on_sb (testfs_put_inode_freemap nr); mret (inl (- ENOSPC))
  else
    a ← testfs_get_inode calloc_ok nr;
    _ ← upd_din a (set_i_type type);
    _ ← mark_dirty a;
    mret (inr a).

Definition testfs_alloc_block_for_inode (a : Z) : FS Z :=
  phy_block_nr ← on_sb testfs_alloc_block;
  if 0 <=? phy_block_nr then
    _ ← upd_din a (fun d => set_block_count (s32 (block_count d + 1)) d);
    _ ← mark_dirty a;
    mret phy_block_nr
  else mret phy_block_nr.

Definition testfs_free_block_from_inode (a phy_block_nr : Z) : FS unit :=
  if phy_block_nr =? 0 then mret tt
  else
    _ ← on_sb (testfs_free_block phy_block_nr);
    _ ← upd_din a (fun d => set_block_count (s32 (block_count d - 1)) d);
    mark_dirty a.

(** ** The encoding of inodes *)

Record dinode_ok (d : dinode) : Prop := DInodeOk {
  di_len : length (i_block_nr d) = 10%nat;
  di_ptrs : Forall in_s32 (i_block_nr d);
  di_type : in_s32 (i_type d);
  di_ind : in_s32 (i_indirect d);
  di_dind : in_s32 (i_dindirect d);
  di_count : in_s32 (block_count d);
  di_size : in_s64 (i_size d)
}.

Lemma zlen_enc_dinode d : length (i_block_nr d) = 10%nat -> zlen (enc_dinode d) = sizeof_dinode.
Proof.
  intros Hl. unfold enc_dinode. destruct d as [ty l ind dind c sz]. simpl in Hl.
  do 10 (destruct l as [|? l]; [done|]). by destruct l.
Qed.

Lemma enc_dinode_bytes d : Forall is_byte (enc_dinode d).
Proof.
  unfold enc_dinode. rewrite !Forall_app. split_and!; try apply le_enc_bytes.
  induction (i_block_nr d) as [|x l IH]; [constructor|]. rewrite fmap_cons. cbn [concat]. apply Forall_app. split; [apply le_enc_bytes|done].
Qed.

Lemma dec_enc4_s x : in_s32 x -> s32 (le_dec (le_enc 4 x)) = x.
Proof. intros. rewrite dec_enc4. unfold u32. rewrite s32_u32. by apply s32_small. Qed.
Lemma dec_enc8_s x : in_s64 x -> s64 (le_dec (le_enc 8 x)) = x.
Proof. intros. rewrite dec_enc8. unfold u64. rewrite s64_u64. by apply s64_small. Qed.

Lemma dec_enc_dinode d : dinode_ok d -> dec_dinode (enc_dinode d) = d.
Proof.
  intros [Hl Hp Ht Hi Hd Hc Hs]. destruct d as [ty l ind dind c sz]. cbn in *.
  do 10 (destruct l as [|? l]; [done|]). destruct l; [|done].
  repeat match goal with H : Forall in_s32 (_ :: _) |- _ => apply Forall_cons in H as [? H] end.
  change (dec_dinode _) with (DInode (s32 (le_dec (le_enc 4 ty)))
    ((fun x => s32 (le_dec (le_enc 4 x))) <$> [z; z0; z1; z2; z3; z4; z5; z6; z7; z8])
    (s32 (le_dec (le_enc 4 ind))) (s32 (le_dec (le_enc 4 dind))) (s32 (le_dec (le_enc 4 c))) (s64 (le_dec (le_enc 8 sz)))).
  cbn [fmap list_fmap]. rewrite !dec_enc4_s, dec_enc8_s by done. done.
Qed.

Lemma dec_dinode_ok l : dinode_ok (dec_dinode l).
Proof.
  constructor; unfold dec_dinode, get_s32, get_s64; cbn [i_block_nr i_type i_indirect i_dindirect block_count i_size];
    try apply s32_range; try apply s64_range; [done|].
  apply Forall_forall. intros x (k & -> & _)%list_elem_of_fmap. apply s32_range.
Qed.

(** ** Runs *)

Lemma run_get_in {B} a i (f : inode -> FS B) s : inodes s !! a = Some i -> (get_in a ≫= f) s = f i s.
Proof. intros E. unfold get_in. st_run. by rewrite E. Qed.
Lemma run_get_in1 a i s : inodes s !! a = Some i -> get_in a s = Ret (i, s).
Proof. intros E. unfold get_in. st_run. by rewrite E. Qed.
Lemma run_upd_in1 a i g s :
  inodes s !! a = Some i -> upd_in a g s = Ret (tt, set_inodes (<[a := g i]> (inodes s)) s).
Proof. intros E. unfold upd_in. by rewrite (run_get_in a i). Qed.
Lemma run_upd_in {B} a i g (f : unit -> FS B) s :
  inodes s !! a = Some i -> (upd_in a g ≫= f) s = f tt (set_inodes (<[a := g i]> (inodes s)) s).
Proof. intros E. by rewrite (bind_run _ _ _ _ _ (run_upd_in1 a i g s E)). Qed.
Lemma run_on_sb1 {A} (m : SB A) s x t : m (f_sb s) = Ret (x, t) -> on_sb m s = Ret (x, set_f_sb t s).
Proof. intros E. unfold on_sb, zoom. by rewrite E. Qed.
Lemma run_on_sb {A B} (m : SB A) (f : A -> FS B) s x t :
  m (f_sb s) = Ret (x, t) -> (on_sb m ≫= f) s = f x (set_f_sb t s).
Proof. intros E. by rewrite (bind_run _ _ _ _ _ (run_on_sb1 m s x t E)). Qed.

(** ** The hash table *)

Lemma inode_hashfn_range nr : 0 <= inode_hashfn nr < 256.
Proof.
  unfold inode_hashfn, hash_int, INODE_HASH_SHIFT. pose proof (u32_range (u32 nr * GOLDEN_RATIO_PRIME_32)) as [? ?].
  change (32 - 8) with 24. rewrite Z.shiftr_div_pow2 by lia. lia.
Qed.

Record hash_ok (m : gmap Z inode) (t : list (list Z)) : Prop := HashOk {
  ht_len : length t = 256%nat;
  ht_nodup k c : t !! k = Some c -> NoDup c;
  ht_elem k c a : t !! k = Some c -> a ∈ c <-> exists i, m !! a = Some i /\ Z.to_nat (inode_hashfn (i_nr i)) = k;
  ht_uniq a b i j : m !! a = Some i -> m !! b = Some j -> i_nr i = i_nr j -> a = b
}.

Lemma hash_chain m t nr : hash_ok m t -> exists c, t !! Z.to_nat (inode_hashfn nr) = Some c.
Proof.
  intros [Hl _ _ _]. apply lookup_lt_is_Some_2. pose proof (inode_hashfn_range nr). lia.
Qed.

Lemma run_chain_of {B} nr t c (f : list (list Z) * list Z -> FS B) s :
  inode_hash_table s = Table t -> t !! Z.to_nat (inode_hashfn nr) = Some c -> (chain_of nr ≫= f) s = f (t, c) s.
Proof. intros E1 E2. unfold chain_of. st_run. rewrite E1. by rewrite E2. Qed.

Lemma find_chain_ok (m : gmap Z inode) nr c :
  (forall a, a ∈ c -> is_Some (m !! a)) ->
  exists r, find_chain m nr c = Ret r /\
    match r with
    | Some a => a ∈ c /\ exists i, m !! a = Some i /\ i_nr i = nr
    | None => forall a i, a ∈ c -> m !! a = Some i -> i_nr i <> nr
    end.
Proof.
  induction c as [|a c IH]; intros Hc; cbn [find_chain].
  { exists None. split; [done|]. intros a i Ha. by apply elem_of_nil in Ha. }
  destruct (Hc a) as [i Hi]; [by left|]. rewrite Hi. cbn [deref mbind res_bind].
  destruct (Z.eqb_spec (i_nr i) nr) as [E|Hne].
  - exists (Some a). split; [done|]. split; [by left|]. by exists i.
  - destruct IH as (r & -> & Hr); [intros; apply Hc; by right|]. exists r. split; [done|].
    destruct r as [b|]; [naive_solver (by right)|]. intros b j [->|Hb]%elem_of_cons Hj; [congruence|by eapply Hr].
Qed.

Lemma inode_hash_find_ok s t nr :
  inode_hash_table s = Table t -> hash_ok (inodes s) t ->
  exists r, inode_hash_find nr s = Ret (r, s) /\
    match r with
    | Some a => exists i, inodes s !! a = Some i /\ i_nr i = nr
    | None => forall a i, inodes s !! a = Some i -> i_nr i <> nr
    end.
Proof.
  intros Et Hh. destruct (hash_chain _ _ nr Hh) as [c Hc]. unfold inode_hash_find.
  rewrite (run_chain_of nr t c) by done. st_run.
  destruct (find_chain_ok (inodes s) nr c) as (r & E & Hr).
  { intros a Ha. apply (ht_elem _ _ Hh _ _ _ Hc) in Ha as (i & -> & _). by eexists. }
  unfold lift_res. rewrite E. exists r. split; [done|]. destruct r as [a|]; [naive_solver|].
  intros a i Hi E'. apply (Hr a i); [|done..]. apply (ht_elem _ _ Hh _ _ _ Hc). exists i. by rewrite E'.
Qed.

(** The table follows the inodes. *)
Lemma hash_ok_update m t a i i' :
  hash_ok m t -> m !! a = Some i -> i_nr i' = i_nr i -> hash_ok (<[a := i']> m) t.
Proof.
  intros [Hl Hn He Hu] Ha Hnr.
  assert (Hlook : forall b j, <[a := i']> m !! b = Some j -> exists j', m !! b = Some j' /\ i_nr j = i_nr j').
  { intros b j. rewrite lookup_insert. case_decide; [|naive_solver]. intros [= <-]. subst. by exists i. }
  assert (Hlook' : forall b j', m !! b = Some j' -> exists j, <[a := i']> m !! b = Some j /\ i_nr j = i_nr j').
  { intros b j' Hb. rewrite lookup_insert. case_decide; [|naive_solver]. simplify_eq. by exists i'. }
  constructor; [done..| |].
  - intros k c b Hk. rewrite (He k c b Hk). split.
    + intros (j & Hj & Hf). destruct (Hlook' _ _ Hj) as (j' & ? & E). exists j'. by rewrite E.
    + intros (j & Hj & Hf). destruct (Hlook _ _ Hj) as (j' & ? & E). exists j'. by rewrite <- E.
  - intros b c j k Hb Hc E. destruct (Hlook _ _ Hb) as (? & ? & ?), (Hlook _ _ Hc) as (? & ? & ?).
    eapply Hu; [done..|congruence].
Qed.

Lemma hash_ok_insert m t a i c :
  hash_ok m t -> m !! a = None -> (forall b j, m !! b = Some j -> i_nr j <> i_nr i) ->
  t !! Z.to_nat (inode_hashfn (i_nr i)) = Some c ->
  hash_ok (<[a := i]> m) (<[Z.to_nat (inode_hashfn (i_nr i)) := a :: c]> t).
Proof.
  intros Hh Ha Hnew Hc. pose proof Hh as [Hl Hn He Hu]. constructor.
  - by rewrite length_insert.
  - intros k c'. rewrite list_lookup_insert. case_decide as E; [|by apply Hn]. intros [= <-].
    apply NoDup_cons. split; [|by eapply Hn]. rewrite (He _ _ _ Hc). intros (j & Hj & _). congruence.
  - intros k c' b. rewrite list_lookup_insert, lookup_insert. case_decide as E.
    + intros [= <-]. destruct E as [<- _]. rewrite elem_of_cons, (He _ _ _ Hc).
      case_decide as E.
      * split; [intros _; by exists i|intros _; by left].
      * split; [intros [?|?]; [congruence|done]|by right].
    + intros Hk. rewrite (He _ _ _ Hk). case_decide as E'; [|done]. subst. apply lookup_lt_Some in Hk.
      split; intros (j & Hj & Hf); [congruence|]. simplify_eq. exfalso. apply E. lia.
  - intros b b' j j'. rewrite !lookup_insert. repeat case_decide; subst; [done|..].
    + intros [= <-] Hj E. exfalso. by apply (Hnew _ _ Hj).
    + intros Hj [= <-] E. exfalso. by apply (Hnew _ _ Hj).
    + apply Hu.
Qed.

Lemma hash_ok_delete m t a i c l r :
  hash_ok m t -> m !! a = Some i -> t !! Z.to_nat (inode_hashfn (i_nr i)) = Some c -> c = l ++ a :: r ->
  hash_ok (delete a m) (<[Z.to_nat (inode_hashfn (i_nr i)) := l ++ r]> t).
Proof.
  intros Hh Ha Hc Hlr. pose proof Hh as [Hl Hn He Hu].
  assert (Hnd : NoDup (a :: l ++ r)) by (rewrite Permutation_middle, <- Hlr; by eapply Hn).
  apply NoDup_cons in Hnd as [Hnot Hnd]. constructor.
  - by rewrite length_insert.
  - intros k c'. rewrite list_lookup_insert. case_decide as E; [|by apply Hn]. by intros [= <-].
  - intros k c' b. rewrite list_lookup_insert, lookup_delete. case_decide as E.
    + intros [= <-]. destruct E as [<- _]. case_decide as E.
      * subst b. split; [done|]. by intros (? & ? & _).
      * rewrite <- (He _ _ _ Hc), Hlr, !elem_of_app, elem_of_cons.
        split; [intros [?|?]; [by left|by right; right]|intros [?|[?|?]]; [by left|congruence|by right]].
    + intros Hk. rewrite (He _ _ _ Hk). case_decide as E'; [|done]. subst. apply lookup_lt_Some in Hk.
      split; intros (j & Hj & Hf); [|done]. exfalso. simplify_eq. apply E. lia.
  - intros b b' j j'. rewrite !lookup_delete. repeat case_decide; try done. apply Hu.
Qed.

(** ** The place of an inode on the device *)

Definition MAX_INODES : Z := NR_INODE_BLOCKS * INODES_PER_BLOCK.
Definition inode_block (nr : Z) : Z := INODE_START + nr / INODES_PER_BLOCK.
Definition inode_off (nr : Z) : Z := nr mod INODES_PER_BLOCK * sizeof_dinode.
Definition disk_inode (d : disk) (nr : Z) : dinode :=
  dec_dinode (slice (inode_off nr) sizeof_dinode (block_at d (inode_block nr))).

Lemma geo_inode :
  1 <= INODES_PER_BLOCK /\ 64 * INODES_PER_BLOCK = BLOCK_SIZE /\ 0 < MAX_INODES /\ MAX_INODES <= IMAP_BITS.
Proof.
  pose proof geo_inodes. pose proof geo_block. geo. unfold MAX_INODES, INODES_PER_BLOCK, sizeof_dinode in *. nia.
Qed.

Lemma inode_place nr :
  0 <= nr < MAX_INODES ->
  0 <= nr / INODES_PER_BLOCK < NR_INODE_BLOCKS /\ 0 <= nr mod INODES_PER_BLOCK < INODES_PER_BLOCK /\
  0 <= inode_off nr /\ inode_off nr + 64 <= BLOCK_SIZE /\ INODE_START <= inode_block nr < DATA_START.
Proof.
  intros Hnr. geo. pose proof geo_inode. unfold inode_off, inode_block, sizeof_dinode, MAX_INODES in *.
  assert (nr / INODES_PER_BLOCK < NR_INODE_BLOCKS) by (apply Z.div_lt_upper_bound; lia).
  assert (0 <= nr / INODES_PER_BLOCK) by (apply Z.div_pos; lia).
  pose proof (Z.mod_pos_bound nr INODES_PER_BLOCK). nia.
Qed.

Lemma inode_to_block_nr_run i :
  0 <= i_nr i < MAX_INODES -> testfs_inode_to_block_nr i = Ret (i_nr i / INODES_PER_BLOCK).
Proof.
  intros Hi. destruct (inode_place _ Hi) as (H1 & _). geo. pose proof geo_inode. unfold testfs_inode_to_block_nr.
  rewrite u32_small by (unfold in_u32; lia). rewrite s32_small by (unfold in_s32; lia).
  rewrite (proj2 (Z.leb_le _ _)), (proj2 (Z.ltb_lt _ _)) by lia. done.
Qed.

Lemma inode_to_block_offset_run i :
  0 <= i_nr i < MAX_INODES -> testfs_inode_to_block_offset i = Ret (inode_off (i_nr i)).
Proof.
  intros Hi. destruct (inode_place _ Hi) as (_ & H1 & H2 & H3 & _). geo. pose proof geo_inode.
  unfold testfs_inode_to_block_offset. fold (inode_off (i_nr i)).
  rewrite u32_small by (unfold in_u32; lia). fold (inode_off (i_nr i)).
  assert (BLOCK_SIZE < 2 ^ 31) by (unfold DATA_START in *; nia).
  rewrite s32_small by (unfold in_s32; lia).
  rewrite (proj2 (Z.leb_le _ _)), (proj2 (Z.ltb_lt _ _)) by lia. done.
Qed.

Lemma set_f_sb_id s : set_f_sb (f_sb s) s = s.
Proof. by destruct s. Qed.

Section place.
Context (s : fs) (im bm : bitmap) (a : Z) (i : inode).
Hypotheses (Hs : super_rep (f_sb s) im bm) (Ha : inodes s !! a = Some i) (Hnr : 0 <= i_nr i < MAX_INODES).

Lemma inode_block_u32 : u32 (inode_blocks_start (sb (f_sb s)) + i_nr i / INODES_PER_BLOCK) = inode_block (i_nr i).
Proof using Hs Hnr.
  destruct (inode_place _ Hnr) as (H1 & _ & _ & _ & H2). geo.
  rewrite (lay_inodes _ (sr_layout _ _ _ Hs)). unfold inode_block in *. apply u32_small. unfold in_u32. lia.
Qed.

Lemma read_inode_block_run :
  testfs_read_inode_block a s = Ret (block_at (dev (f_sb s)) (inode_block (i_nr i)), s).
Proof using Hs Ha Hnr.
  destruct (inode_place _ Hnr) as (_ & _ & _ & _ & H2). geo. pose proof (sr_len _ _ _ Hs).
  unfold testfs_read_inode_block. rewrite (run_get_in a i) by done.
  rewrite (run_lift _ _ _ _ (inode_to_block_nr_run i Hnr)). st_run. rewrite inode_block_u32.
  rewrite (run_on_sb1 _ s (block_at (dev (f_sb s)) (inode_block (i_nr i))) (f_sb s)); [by rewrite set_f_sb_id|].
  unfold sb_read. by rewrite read_blocks_one by lia.
Qed.

Lemma write_inode_block_run blk :
  zlen blk = BLOCK_SIZE ->
  testfs_write_inode_block a blk s =
  Ret (tt, set_f_sb (set_dev (write_block1 (dev (f_sb s)) (inode_block (i_nr i)) blk) (f_sb s)) s).
Proof using Hs Ha Hnr.
  intros Hl. destruct (inode_place _ Hnr) as (_ & _ & _ & _ & H2). geo.
  unfold testfs_write_inode_block. rewrite (run_get_in a i) by done.
  rewrite (run_lift _ _ _ _ (inode_to_block_nr_run i Hnr)). st_run. rewrite inode_block_u32.
  apply run_on_sb1. unfold sb_write. by rewrite write_blocks_one by lia.
Qed.

End place.

(** Storing an inode changes that inode and no other. *)
Lemma disk_inode_write d nr x nr' :
  disk_ok d -> dinode_ok x -> 0 <= nr < MAX_INODES -> 0 <= nr' < MAX_INODES ->
  disk_inode (write_block1 d (inode_block nr) (splice (inode_off nr) (enc_dinode x) (block_at d (inode_block nr)))) nr' =
  if decide (nr' = nr) then x else disk_inode d nr'.
Proof.
  intros Hd Hx Hnr Hnr'. pose proof (zlen_enc_dinode x (di_len _ Hx)) as Hl. unfold sizeof_dinode in Hl.
  destruct (inode_place _ Hnr) as (_ & _ & H1 & H2 & _), (inode_place _ Hnr') as (_ & _ & H1' & H2' & _).
  pose proof (zlen_block_at d (inode_block nr) Hd). pose proof geo_inode.
  unfold disk_inode. rewrite write_block1_at. case_decide as E.
  - assert (Ediv : nr / INODES_PER_BLOCK = nr' / INODES_PER_BLOCK) by (unfold inode_block in E; lia). rewrite <- E.
    case_decide as E'.
    + subst nr'. unfold sizeof_dinode. rewrite <- Hl at 1. rewrite slice_splice by lia. by apply dec_enc_dinode.
    + f_equal. apply slice_splice_other; [done|done|lia|]. unfold inode_off, sizeof_dinode in *. nia.
  - rewrite decide_False; [done|]. intros ->. done.
Qed.

Lemma disk_inode_same d d' nr :
  block_at d' (inode_block nr) = block_at d (inode_block nr) -> disk_inode d' nr = disk_inode d nr.
Proof. unfold disk_inode. by intros ->. Qed.

(** ** The invariant *)

Definition dirty (i : inode) : Prop := i_flags i = I_FLAGS_DIRTY.

Record inode_ok (d : disk) (i : inode) : Prop := InodeOk {
  io_nr : 0 <= i_nr i < MAX_INODES;
  io_count : 1 <= i_count i < 2 ^ 31;
  io_din : dinode_ok (din i);
  io_flags : i_flags i = 0 \/ dirty i;
  io_clean : i_flags i = 0 -> din i = disk_inode d (i_nr i)
}.

Record fs_ok (s : fs) (im bm : bitmap) : Prop := FsOk {
  fo_super : super_rep (f_sb s) im bm;
  fo_hash : exists t, inode_hash_table s = Table t /\ hash_ok (inodes s) t;
  fo_inode a i : inodes s !! a = Some i -> inode_ok (dev (f_sb s)) i;
  fo_next a i : inodes s !! a = Some i -> a < next_in s
}.

Lemma inode_ok_same d d' i :
  inode_ok d i -> (forall b, INODE_START <= b < DATA_START -> block_at d' b = block_at d b) -> inode_ok d' i.
Proof.
  intros [] Hb. constructor; try done. intros Hc. rewrite io_clean0 by done. symmetry. apply disk_inode_same.
  apply Hb. destruct (inode_place (i_nr i)) as (_ & _ & _ & _ & ?); done.
Qed.

(** A change of the super block that leaves the inode blocks alone. *)
Lemma fs_ok_set_sb s im bm t im' bm' :
  fs_ok s im bm -> super_rep t im' bm' ->
  (forall b, INODE_START <= b < DATA_START -> block_at (dev t) b = block_at (dev (f_sb s)) b) ->
  fs_ok (set_f_sb t s) im' bm'.
Proof.
  intros [Hs Hh Hi Hn] Ht Hb. constructor; cbn [set_f_sb f_sb inodes inode_hash_table next_in]; try done.
  intros a i Ha. by eapply inode_ok_same; [eapply Hi|].
Qed.

(** A change of one inode. *)
Lemma fs_ok_update s im bm a i i' :
  fs_ok s im bm -> inodes s !! a = Some i -> i_nr i' = i_nr i -> inode_ok (dev (f_sb s)) i' ->
  fs_ok (set_inodes (<[a := i']> (inodes s)) s) im bm.
Proof.
  intros [Hs (t & Ht & Hh) Hi Hn] Ha Hnr Hok. constructor; cbn [set_inodes f_sb inodes inode_hash_table next_in]; [done|..].
  - exists t. split; [done|]. by eapply hash_ok_update.
  - intros b j. rewrite lookup_insert. case_decide; [by intros [= <-]|by apply Hi].
  - intros b j. rewrite lookup_insert. case_decide; [intros _; subst; by eapply Hn|by apply Hn].
Qed.

(** ** The operations keep the invariant *)

(** The parts of the state that hold file data. *)
Definition same_data (s s' : fs) : Prop :=
  (forall b, DATA_START <= b -> block_at (dev (f_sb s')) b = block_at (dev (f_sb s)) b) /\
  d_len (dev (f_sb s)) <= d_len (dev (f_sb s')) /\ max_fs_blocks (sb (f_sb s')) = max_fs_blocks (sb (f_sb s)).

Lemma fs_ok_dinode s im bm a i : fs_ok s im bm -> inodes s !! a = Some i -> dinode_ok (din i).
Proof. intros Hs Ha. by destruct (fo_inode _ _ _ Hs _ _ Ha). Qed.

Lemma sync_inode_ok s im bm a i :
  fs_ok s im bm -> inodes s !! a = Some i ->
  exists s', testfs_sync_inode a s = Ret (tt, s') /\ fs_ok s' im bm /\
    inodes s' = <[a := set_i_flags 0 i]> (inodes s) /\ inode_hash_table s' = inode_hash_table s /\
    next_in s' = next_in s /\ sb (f_sb s') = sb (f_sb s) /\ same_data s s' /\
    (forall nr, 0 <= nr < MAX_INODES ->
       disk_inode (dev (f_sb s')) nr = if decide (nr = i_nr i) then din i else disk_inode (dev (f_sb s)) nr).
Proof.
  intros Hs Ha. pose proof (fo_inode _ _ _ Hs _ _ Ha) as []. unfold testfs_sync_inode.
  rewrite (run_get_in a i) by done. destruct io_flags0 as [Ef|Ef]; unfold dirty in *; rewrite Ef.
  { exists s. st_run. split_and!; try done.
    - rewrite insert_id; [done|]. rewrite Ha. f_equal. by destruct i; simpl in *; subst.
    - intros nr Hnr. case_decide; [subst; symmetry; by apply io_clean0|done]. }
  change (Z.land I_FLAGS_DIRTY I_FLAGS_DIRTY =? 0) with false. st_run.
  pose proof (fo_super _ _ _ Hs) as Hsb. pose proof (sr_disk _ _ _ Hsb) as Hd.
  destruct (inode_place _ io_nr0) as (_ & _ & H1 & H2 & H3).
  pose proof (zlen_enc_dinode _ (di_len _ io_din0)) as Hl. unfold sizeof_dinode in Hl.
  pose proof (zlen_block_at (dev (f_sb s)) (inode_block (i_nr i)) Hd) as Hb.
  set (blk := splice (inode_off (i_nr i)) (enc_dinode (din i)) (block_at (dev (f_sb s)) (inode_block (i_nr i)))).
  assert (Hblk : zlen blk = BLOCK_SIZE) by (subst blk; rewrite zlen_splice; lia).
  rewrite (bind_run _ _ _ _ _ (read_inode_block_run s im bm a i Hsb Ha io_nr0)).
  rewrite (run_lift _ _ _ _ (inode_to_block_offset_run i io_nr0)). fold blk.
  rewrite (bind_run _ _ _ _ _ (write_inode_block_run s im bm a i Hsb Ha io_nr0 blk Hblk)).
  rewrite (run_upd_in1 a i) by done. rewrite Ef. change (Z.ldiff I_FLAGS_DIRTY I_FLAGS_DIRTY) with 0.
  eexists. split; [reflexivity|]. cbn [set_inodes set_f_sb f_sb inodes inode_hash_table next_in set_dev dev sb].
  assert (Hdi : forall nr, 0 <= nr < MAX_INODES -> disk_inode (write_block1 (dev (f_sb s)) (inode_block (i_nr i)) blk) nr =
     if decide (nr = i_nr i) then din i else disk_inode (dev (f_sb s)) nr)
    by (intros; by apply disk_inode_write).
  geo. split_and!; try done.
  - destruct Hs as [_ (t & Ht & Hh) Hi Hn]. constructor; cbn [set_inodes set_f_sb f_sb inodes inode_hash_table next_in].
    + apply super_rep_write; [done|lia|done|]. apply Forall_splice; [by apply block_at_bytes|apply enc_dinode_bytes].
    + exists t. split; [done|]. by eapply hash_ok_update.
    + intros b j. cbn [set_dev dev]. rewrite lookup_insert. case_decide as Eb.
      * intros [= <-]. subst b. constructor; try done; [by left|]. intros _. cbn [set_i_flags i_nr din].
        rewrite Hdi by done. by rewrite decide_True.
      * intros Hj. pose proof (Hi _ _ Hj) as []. constructor; try done. intros Hc.
        rewrite Hdi, decide_False; [by apply io_clean1|intros Enr; apply Eb; by eapply (ht_uniq _ _ Hh)|done].
    + intros b j. rewrite lookup_insert. case_decide; [intros _; subst; by eapply Hn|by apply Hn].
  - split; cbn [set_inodes set_f_sb f_sb set_dev dev write_block1 d_len]; [|split; [lia|done]].
    intros b Hge. rewrite write_block1_at, decide_False by lia. done.
Qed.

Lemma put_inode_ok s im bm a i :
  fs_ok s im bm -> inodes s !! a = Some i -> i_flags i = 0 ->
  exists s', testfs_put_inode a s = Ret (tt, s') /\ fs_ok s' im bm /\ f_sb s' = f_sb s /\ next_in s' = next_in s /\
    inodes s' = if decide (i_count i = 1) then delete a (inodes s)
                else <[a := set_i_count (i_count i - 1) i]> (inodes s).
Proof.
  intros Hs Ha Hf. pose proof (fo_inode _ _ _ Hs _ _ Ha) as Hio. pose proof Hio as []. unfold testfs_put_inode.
  rewrite (run_get_in a i) by done. rewrite Hf. change (Z.land 0 I_FLAGS_DIRTY =? 0) with true. st_run.
  rewrite s32_small by (unfold in_s32; lia). rewrite (run_upd_in a i) by done.
  destruct (Z.eqb_spec (i_count i - 1) 0) as [Ec|Ec].
  2:{ st_run. eexists. split; [reflexivity|]. rewrite decide_False by lia.
      cbn [set_inodes f_sb inodes next_in]. split_and!; try done.
      eapply fs_ok_update; [done..|]. constructor; cbn [set_i_count i_nr i_count din i_flags]; try done. lia. }
  destruct (fo_hash _ _ _ Hs) as (t & Ht & Hh). destruct (hash_chain _ _ (i_nr i) Hh) as [c Hc].
  unfold inode_hash_remove. st_run. set (i' := set_i_count (i_count i - 1) i).
  rewrite (run_get_in a i') by apply lookup_insert_eq. st_run.
  rewrite (run_chain_of (i_nr i') t c) by done. st_run.
  assert (Hin : a ∈ c) by (apply (ht_elem _ _ Hh _ _ _ Hc); by exists i).
  destruct (rm_first (Z.eqb a) c) as [[b c']|] eqn:Er.
  2:{ exfalso. apply rm_first_None in Er. rewrite Forall_forall in Er. specialize (Er a Hin). lia. }
  apply rm_first_Some in Er as (l & r & Hlr & -> & Hb & _). apply Z.eqb_eq in Hb as <-.
  unfold set_chain. st_run. eexists. split; [reflexivity|]. rewrite decide_True by lia.
  cbn [set_inodes set_htable f_sb inodes next_in]. rewrite delete_insert_eq. split_and!; try done.
  constructor; cbn [set_inodes set_htable f_sb inodes next_in inode_hash_table].
  - apply Hs.
  - eexists. split; [reflexivity|]. cbn [i' set_i_count i_nr]. by eapply hash_ok_delete.
  - intros b j. rewrite lookup_delete. case_decide; [done|]. apply (fo_inode _ _ _ Hs).
  - intros b j. rewrite lookup_delete. case_decide; [done|]. apply (fo_next _ _ _ Hs).
Qed.

(** Retrieving an inode: the one in memory, or the one on the device. *)
Lemma get_inode_ok s im bm nr :
  fs_ok s im bm -> 0 <= nr < MAX_INODES -> (forall a i, inodes s !! a = Some i -> i_count i < 2 ^ 31 - 1) ->
  exists a s' i', testfs_get_inode true nr s = Ret (a, s') /\ fs_ok s' im bm /\ f_sb s' = f_sb s /\
    inodes s' = <[a := i']> (inodes s) /\ i_nr i' = nr /\
    match inodes s !! a with
    | Some i => i_nr i = nr /\ i' = set_i_count (i_count i + 1) i
    | None => (forall b j, inodes s !! b = Some j -> i_nr j <> nr) /\
              i' = Inode (disk_inode (dev (f_sb s)) nr) 0 nr 1 /\ a = next_in s
    end.
Proof.
  intros Hs Hnr Hcnt. destruct (fo_hash _ _ _ Hs) as (t & Ht & Hh).
  destruct (inode_hash_find_ok s t nr Ht Hh) as (r & E & Hr). unfold testfs_get_inode. st_call E.
  destruct r as [a|].
  - destruct Hr as (i & Ha & Hi). pose proof (fo_inode _ _ _ Hs _ _ Ha) as []. pose proof (Hcnt _ _ Ha).
    rewrite (run_upd_in a i) by done. st_run. exists a. eexists _, _. split; [reflexivity|].
    rewrite s32_small by (unfold in_s32; lia). split_and!; try done.
    + eapply fs_ok_update; [done..|]. constructor; cbn [set_i_count i_nr i_count din i_flags]; try done. lia.
    + by rewrite Ha.
  - st_run. cbn [negb]. unfold alloc_inode. st_run. set (a := next_in s).
    assert (Hnone : inodes s !! a = None).
    { destruct (inodes s !! a) eqn:Ea; [|done]. pose proof (fo_next _ _ _ Hs _ _ Ea). lia. }
    set (i0 := Inode zero_dinode 0 nr 1). set (s1 := Fs (f_sb s) (<[a:=i0]> (inodes s)) (inode_hash_table s) (a + 1)).
    pose proof (fo_super _ _ _ Hs) as Hsb. assert (Ha1 : inodes s1 !! a = Some i0) by apply lookup_insert_eq.
    rewrite (bind_run _ _ _ _ _ (read_inode_block_run s1 im bm a i0 Hsb Ha1 Hnr)).
    rewrite (run_get_in a i0) by done. rewrite (run_lift _ _ _ _ (inode_to_block_offset_run i0 Hnr)).
    unfold upd_din. rewrite (run_upd_in a i0) by done. set (i1 := set_din _ i0).
    set (s2 := set_inodes (<[a:=i1]> (inodes s1)) s1). assert (Ha2 : inodes s2 !! a = Some i1) by apply lookup_insert_eq.
    destruct (hash_chain _ _ nr Hh) as [c Hc]. unfold inode_hash_insert. st_run. rewrite (run_get_in a i1) by done. st_run.
    rewrite (run_chain_of (i_nr i1) t c) by done. unfold set_chain. st_run.
    exists a. eexists _, _. split; [reflexivity|].
    cbn [set_htable f_sb inodes s2 set_inodes s1]. rewrite insert_insert_eq. rewrite Hnone. split_and!; try done.
    constructor; cbn [set_htable f_sb inodes s2 set_inodes s1 next_in inode_hash_table].
    + done.
    + eexists. split; [reflexivity|]. rewrite insert_insert_eq. eapply (hash_ok_insert _ _ a i1); done.
    + intros b j. rewrite insert_insert_eq, lookup_insert. case_decide as Eb; [|by apply (fo_inode _ _ _ Hs)].
      intros [= <-]. constructor; [exact Hnr|cbn; lia|apply dec_dinode_ok|by left|intros _; reflexivity].
    + intros b j. rewrite insert_insert_eq, lookup_insert. case_decide as Eb; [subst; lia|].
      intros Hj. pose proof (fo_next _ _ _ Hs _ _ Hj). subst a. lia.
Qed.

(** The free map keeps the numbers of the inode blocks. *)
Lemma super_same_data s t :
  same_blocks (f_sb s) t ->
  same_data s (set_f_sb t s) /\ forall b, INODE_START <= b < DATA_START -> block_at (dev t) b = block_at (dev (f_sb s)) b.
Proof.
  intros (Hb & Hl & Hm). geo. split; [split; cbn [set_f_sb f_sb]; [|done]|]; intros b ?; apply Hb; lia.
Qed.

Lemma lor_dirty i : i_flags i = 0 \/ dirty i -> Z.lor (i_flags i) I_FLAGS_DIRTY = I_FLAGS_DIRTY.
Proof. intros [->|Hd]; [done|]. unfold dirty in Hd. by rewrite Hd. Qed.

(** A store to the dinode followed by a store of the dirty flag. *)
Definition dirtied (f : dinode -> dinode) (i : inode) : inode := set_i_flags I_FLAGS_DIRTY (set_din (f (din i)) i).

Lemma upd_dirty_run1 s a i f :
  inodes s !! a = Some i -> i_flags i = 0 \/ dirty i ->
  (_ ← upd_din a f; mark_dirty a) s = Ret (tt, set_inodes (<[a := dirtied f i]> (inodes s)) s).
Proof.
  intros Ha Hf. unfold upd_din, mark_dirty. rewrite (run_upd_in a i) by done.
  rewrite (run_upd_in1 a (set_din (f (din i)) i)) by apply lookup_insert_eq.
  cbn [set_inodes inodes]. rewrite insert_insert_eq, lor_dirty by done. done.
Qed.
Lemma upd_dirty_run {B} s a i f (k : unit -> FS B) :
  inodes s !! a = Some i -> i_flags i = 0 \/ dirty i ->
  (upd_din a f ≫= fun _ => mark_dirty a ≫= k) s = k tt (set_inodes (<[a := dirtied f i]> (inodes s)) s).
Proof.
  intros Ha Hf. pose proof (upd_dirty_run1 s a i f Ha Hf) as E.
  rewrite <- (run_assoc (upd_din a f) (fun _ => mark_dirty a) k). by rewrite (bind_run _ _ _ _ _ E).
Qed.

Lemma inode_ok_dirtied d i f : inode_ok d i -> dinode_ok (f (din i)) -> inode_ok d (dirtied f i).
Proof. intros [] Hf. constructor; cbn; try done. by right. Qed.

Lemma fs_ok_dirtied s im bm a i f :
  fs_ok s im bm -> inodes s !! a = Some i -> dinode_ok (f (din i)) ->
  fs_ok (set_inodes (<[a := dirtied f i]> (inodes s)) s) im bm.
Proof.
  intros Hs Ha Hf. eapply fs_ok_update; [done..|]. apply inode_ok_dirtied; [by eapply (fo_inode _ _ _ Hs)|done].
Qed.

Lemma dinode_ok_count d x : dinode_ok d -> dinode_ok (set_block_count (s32 x) d).
Proof. intros []. constructor; cbn; try done. apply s32_range. Qed.

Lemma alloc_block_for_inode_ok s im bm a i :
  fs_ok s im bm -> inodes s !! a = Some i ->
  (exists r bm' t, let i' := dirtied (fun d => set_block_count (s32 (block_count d + 1)) d) i in
     let s' := set_inodes (<[a := i']> (inodes s)) (set_f_sb t s) in
     testfs_alloc_block_for_inode a s = Ret (r, s') /\ fs_ok s' im bm' /\
     (forall b, INODE_START <= b -> block_at (dev t) b = block_at (dev (f_sb s)) b) /\
     d_len (dev (f_sb s)) <= d_len (dev t) /\
     DATA_START <= r < DATA_START + BMAP_BITS /\ ~ allocated bm r /\ nbits bm' = nbits bm /\
     (forall b, allocated bm' b <-> allocated bm b \/ b = r) /\
     used_block_count (sb t) = used_block_count (sb (f_sb s)) + 1 /\ max_fs_blocks (sb t) = max_fs_blocks (sb (f_sb s))) \/
  (testfs_alloc_block_for_inode a s = Ret (- ENOSPC, s) /\
   (used_block_count (sb (f_sb s)) = max_fs_blocks (sb (f_sb s)) \/
    forall b, DATA_START <= b < DATA_START + BMAP_BITS -> allocated bm b)).
Proof.
  intros Hs Ha. pose proof (fo_inode _ _ _ Hs _ _ Ha) as Hio. geo. pose proof geo_inode.
  unfold testfs_alloc_block_for_inode.
  destruct (alloc_block_ok _ _ _ (fo_super _ _ _ Hs)) as [(r & bm' & t & E & Ht & Hsame & Hr & Hna & Hn & Hal & _ & Hc)|[E Hfull]].
  - left. exists r, bm', t. rewrite (run_on_sb _ _ _ _ _ E). rewrite (proj2 (Z.leb_le _ _)) by lia.
    rewrite (upd_dirty_run (set_f_sb t s) a i) by (done || apply Hio). st_run.
    destruct (super_same_data s t Hsame) as [Hd Hb]. destruct Hsame as (Hbl & Hl & Hm). split_and!; try done; try lia.
    apply (fs_ok_dirtied (set_f_sb t s) im bm' a i); [by eapply fs_ok_set_sb|done|].
    apply dinode_ok_count. by destruct Hio.
  - right. rewrite (run_on_sb _ _ _ _ _ E). st_run. by rewrite set_f_sb_id.
Qed.

Lemma free_block_from_inode_ok s im bm a i b :
  fs_ok s im bm -> inodes s !! a = Some i -> allocated bm b ->
  exists bm' t, let i' := dirtied (fun d => set_block_count (s32 (block_count d - 1)) d) i in
    let s' := set_inodes (<[a := i']> (inodes s)) (set_f_sb t s) in
    testfs_free_block_from_inode a b s = Ret (tt, s') /\ fs_ok s' im bm' /\ nbits bm' = nbits bm /\
    (forall b', allocated bm' b' <-> allocated bm b' /\ b' <> b) /\
    (forall b', INODE_START <= b' -> b' <> b -> block_at (dev t) b' = block_at (dev (f_sb s)) b') /\
    block_at (dev t) b = zero /\ d_len (dev t) = Z.max (d_len (dev (f_sb s))) (b + 1) /\
    used_block_count (sb t) = used_block_count (sb (f_sb s)) - 1 /\
    max_fs_blocks (sb t) = max_fs_blocks (sb (f_sb s)) /\ bitmap_unmark bm (b - DATA_START) = Ret bm'.
Proof.
  intros Hs Ha Hb. pose proof (fo_inode _ _ _ Hs _ _ Ha) as Hio. geo. pose proof Hb as [? _].
  unfold testfs_free_block_from_inode. rewrite (proj2 (Z.eqb_neq _ _)) by lia.
  destruct (free_block_ok _ _ _ b (fo_super _ _ _ Hs) Hb) as (bm' & t & E & Ht & Hn & Hal & Hbl & Hz & Hlen & Hm & Hc & Hu).
  exists bm', t. rewrite (run_on_sb _ _ _ _ _ E). rewrite (upd_dirty_run1 (set_f_sb t s) a i) by (done || apply Hio). split_and!; try done.
  - apply (fs_ok_dirtied (set_f_sb t s) im bm' a i); [|done|apply dinode_ok_count; by destruct Hio].
    eapply fs_ok_set_sb; [done..|]. intros b' ?. apply Hbl; lia.
Qed.

Lemma create_inode_ok s im bm type :
  fs_ok s im bm -> in_s32 type -> (forall a i, inodes s !! a = Some i -> i_count i < 2 ^ 31 - 1) ->
  (exists a s' i' im' nr, testfs_create_inode true type s = Ret (inr a, s') /\ fs_ok s' im' bm /\
     (forall b, INODE_START <= b < DATA_START -> block_at (dev (f_sb s')) b = block_at (dev (f_sb s)) b) /\ same_data s s' /\
     inodes s' = <[a := i']> (inodes s) /\ i_nr i' = nr /\ i_type (din i') = type /\ dirty i' /\
     0 <= nr < MAX_INODES /\ bit im nr = false /\ (forall n, 0 <= n < nr -> bit im n = true) /\ bit_set im nr im' /\
     match inodes s !! a with
     | Some i => i_nr i = nr /\ din i' = set_i_type type (din i)
     | None => (forall b j, inodes s !! b = Some j -> i_nr j <> nr) /\ i_count i' = 1 /\
               din i' = set_i_type type (disk_inode (dev (f_sb s)) nr)
     end) \/
  (exists s', testfs_create_inode true type s = Ret (inl (- ENOSPC), s') /\ fs_ok s' im bm /\
     (forall b, INODE_START <= b < DATA_START -> block_at (dev (f_sb s')) b = block_at (dev (f_sb s)) b) /\ same_data s s' /\
     inodes s' = inodes s /\ sb (f_sb s') = sb (f_sb s) /\ forall n, 0 <= n < MAX_INODES -> bit im n = true).
Proof.
  intros Hs Hty Hcnt. geo. pose proof geo_inode as (HI & _ & HM & HMb). unfold testfs_create_inode.
  destruct (get_inode_freemap_ok _ _ _ (fo_super _ _ _ Hs)) as
    [(nr & im' & t & E & Ht & Hsame & Hnr & Hf & Hlow & Hset & Et & _)|[E Hall]].
  - rewrite (run_on_sb _ _ _ _ _ E). st_run. rewrite (proj2 (Z.ltb_ge _ _)) by lia.
    rewrite u32_small by (unfold in_u32; lia). destruct (super_same_data s t Hsame) as [Hd Hb].
    assert (Hs1 : fs_ok (set_f_sb t s) im' bm) by (by eapply fs_ok_set_sb).
    destruct (Z.leb_spec NR_INODE_BLOCKS (nr / INODES_PER_BLOCK)) as [Hbig|Hsmall].
    + right. pose proof Hset as (Hn' & _ & Hbit).
      destruct (put_inode_freemap_ok t im' bm nr Ht Hnr) as (im2 & E2 & Ht2 & Hsame2 & (Hn2 & _ & Hbit2) & _ & Hok2).
      { rewrite Hbit, bool_decide_true by lia. apply orb_true_r. }
      pose proof (map_bm _ _ _ _ (sr_im _ _ _ (fo_super _ _ _ Hs))) as Hok.
      assert (im2 = im) as ->.
      { apply bitmap_ext_used; [done..|congruence|]. intros j Hj. rewrite Hbit2, Hbit by lia.
        case_bool_decide; [subst; by rewrite Hf|by rewrite orb_false_r, andb_true_r]. }
      rewrite (run_on_sb _ _ (set_f_sb t s) _ _ E2). st_run.
      destruct (super_same_data (set_f_sb t s) _ Hsame2) as [Hd2 Hb2].
      eexists. split; [reflexivity|]. split_and!; [by eapply fs_ok_set_sb| | |done| |].
      * intros b Hr. cbn [set_f_sb f_sb]. rewrite Hb2 by done. by apply Hb.
      * destruct Hd as [Hd Hl], Hd2 as [Hd2 Hl2]. split; [|lia].
        intros b Hge. rewrite Hd2, Hd by done. done.
      * cbn [set_f_sb f_sb]. pose proof (sr_used_i _ _ _ Ht2). pose proof (sr_used_i _ _ _ (fo_super _ _ _ Hs)).
        rewrite Et in *. unfold imap_changed in *. cbn [sb dev set_dev set_imap set_used_inode_count set_sb used_inode_count] in *.
        destruct (sb (f_sb s)). cbn in *. f_equal. lia.
      * intros n Hn. apply Hlow. split; [lia|]. unfold MAX_INODES in *.
        assert (INODES_PER_BLOCK * NR_INODE_BLOCKS <= nr) by (etrans; [|apply (Z.mul_div_le nr INODES_PER_BLOCK)]; nia). lia.
    + left. assert (Hmax : 0 <= nr < MAX_INODES).
      { unfold MAX_INODES. split; [lia|]. pose proof (Z.mod_pos_bound nr INODES_PER_BLOCK).
        pose proof (Z.div_mod nr INODES_PER_BLOCK). nia. }
      destruct (get_inode_ok (set_f_sb t s) im' bm nr Hs1 Hmax Hcnt) as (a & s2 & i2 & E2 & Hs2 & Hsb2 & Hin2 & Hnr2 & Hcase).
      st_call E2. assert (Ha2 : inodes s2 !! a = Some i2) by (rewrite Hin2; apply lookup_insert_eq).
      pose proof (fo_inode _ _ _ Hs2 _ _ Ha2) as Hio.
      rewrite (upd_dirty_run s2 a i2) by (done || apply Hio).
      st_run. exists a. eexists _, _, im', nr. split; [reflexivity|].
      cbn [set_inodes inodes f_sb]. rewrite Hin2, insert_insert_eq. cbn [set_f_sb inodes].
      assert (Hok2 : fs_ok (set_inodes (<[a:=dirtied (set_i_type type) i2]> (inodes s2)) s2) im' bm).
      { apply (fs_ok_dirtied s2); [done..|]. destruct (io_din _ _ Hio). by constructor. }
      rewrite Hin2 in Hok2. rewrite insert_insert_eq in Hok2. cbn [set_f_sb inodes f_sb] in *.
      split_and!; try done; try lia.
      * cbn [set_inodes f_sb]. by rewrite Hsb2.
      * destruct Hd as [Hd Hl]. unfold same_data. cbn [set_inodes f_sb]. rewrite Hsb2. done.
      * revert Hcase. destruct (inodes s !! a); [by intros [? ->]|]. intros (? & -> & _). split_and!; [done..|].
        cbn. f_equal. apply disk_inode_same. apply Hb. by destruct (inode_place nr Hmax) as (_ & _ & _ & _ & ?).
  - right. rewrite (run_on_sb _ _ _ _ _ E). rewrite set_f_sb_id. exists s. split_and!; try done.
    intros n Hn. apply Hall. lia.
Qed.

End inode.
