(* ===== verification/InodeHash.v ===== *)
(** * The inode hash table with its pointers (fs/inode.c on fs/list.h)

    Inode.v keeps the chains of the hash table as sequences of the addresses of
    the inodes.  Here are the functions of inode.c on the memory of HList.v, in
    which the node hnode of the inode at [a] is the node [a] and the table has
    the heads 0 to 255; [inode_hash_refined] shows that both answer the same,
    so that the sequences are a faithful account of the table. *)
From S2P Require Import Prelude StateMonad Disk Super Inode HList.

(** A loop over the malloced heads, whose contents are not known before. *)
Fixpoint init_heads (n : nat) (i : Z) (m : hmem) : res hmem :=
  match n with O => Ret m | S n => m ← INIT_HLIST_HEAD i m; init_heads n (i + 1) m end.
Definition ptr_hash_init (m : hmem) : res hmem := init_heads (Z.to_nat inode_hash_size) 0 m.

Fixpoint empty_heads (n : nat) (i : Z) (m : hmem) : res unit :=
  match n with O => Ret tt | S n => b ← hlist_empty i m; _ ← c_assert b; empty_heads n (i + 1) m end.
Definition ptr_hash_destroy (m : hmem) : res unit := empty_heads (Z.to_nat inode_hash_size) 0 m.

(** in->i_nr == inode_nr, for the inode of a node *)
Definition has_nr (ins : gmap Z inode) (nr a : Z) : res bool := i ← deref (ins !! a); Ret (i_nr i =? nr).
(** A walk visits a node at most once. *)
Definition ptr_hash_find (ins : gmap Z inode) (nr : Z) (m : hmem) : res (option Z) :=
  hlist_find (S (size (pprevs m))) (has_nr ins nr) (inode_hashfn nr) m.
Definition ptr_hash_insert (ins : gmap Z inode) (a : Z) (m : hmem) : res hmem :=
  i ← deref (ins !! a);
  m ← INIT_HLIST_NODE a m;
  hlist_add_head a (inode_hashfn (i_nr i)) m.
Definition ptr_hash_remove (a : Z) (m : hmem) : res hmem := hlist_del a m.

(** Calls of the two, and what the finds answer. *)
Inductive call := CFind (nr : Z) | CInsert (a : Z) | CRemove (a : Z).

Definition ptr_call (ins : gmap Z inode) (c : call) (m : hmem) : res (option (option Z) * hmem) :=
  match c with
  | CFind nr => r ← ptr_hash_find ins nr m; Ret (Some r, m)
  | CInsert a => m ← ptr_hash_insert ins a m; Ret (None, m)
  | CRemove a => m ← ptr_hash_remove a m; Ret (None, m)
  end.
Fixpoint ptr_calls (ins : gmap Z inode) (cs : list call) (m : hmem) : res (list (option (option Z)) * hmem) :=
  match cs with
  | [] => Ret ([], m)
  | c :: cs => '(r, m) ← ptr_call ins c m; '(rs, m) ← ptr_calls ins cs m; Ret (r :: rs, m)
  end.

Definition seq_call (c : call) : FS (option (option Z)) :=
  match c with
  | CFind nr => r ← inode_hash_find nr; mret (Some r)
  | CInsert a => _ ← inode_hash_insert a; mret None
  | CRemove a => _ ← inode_hash_remove a; mret None
  end.
Fixpoint seq_calls (cs : list call) : FS (list (option (option Z))) :=
  match cs with [] => mret [] | c :: cs => r ← seq_call c; rs ← seq_calls cs; mret (r :: rs) end.

(** The sequences of a table by the number of their head. *)
Definition table_of (t : list (list Z)) : gmap Z (list Z) := kmap Z.of_nat (map_seq 0 t : gmap nat (list Z)).

(** An inode is inserted only while it is not in the table. *)
Definition call_ok (N : gset Z) (c : call) (s : fs) : Prop :=
  match c with
  | CInsert a => a ∈ N /\ match inode_hash_table s with Table t => a ∉ concat t | _ => False end
  | _ => True
  end.
Fixpoint calls_ok (N : gset Z) (cs : list call) (s : fs) : Prop :=
  match cs with
  | [] => True
  | c :: cs => call_ok N c s /\ match seq_call c s with Ret (_, s') => calls_ok N cs s' | Fail _ => True end
  end.

#[global] Instance call_ok_dec N c s : Decision (call_ok N c s).
Proof. destruct c; cbn; [apply _| |apply _]. destruct (inode_hash_table s); apply _. Defined.
#[global] Instance calls_ok_dec N cs s : Decision (calls_ok N cs s).
Proof. revert s. induction cs as [|c cs IH]; intros s; cbn; [apply _|]. destruct (seq_call c s) as [[r s']|e]; apply _. Defined.

Lemma table_of_lookup t k : table_of t !! Z.of_nat k = t !! k.
Proof. unfold table_of. rewrite lookup_kmap by apply _. rewrite lookup_map_seq_0. reflexivity. Qed.

Lemma table_of_hash t nr : table_of t !! inode_hashfn nr = t !! Z.to_nat (inode_hashfn nr).
Proof. pose proof (inode_hashfn_range nr). rewrite <- table_of_lookup. by rewrite Z2Nat.id by lia. Qed.

Lemma table_of_insert t k c : (k < length t)%nat -> table_of (<[k := c]> t) = <[Z.of_nat k := c]> (table_of t).
Proof.
  intros Hk. unfold table_of. rewrite <- (kmap_insert Z.of_nat). f_equal. apply map_eq. intros j.
  rewrite lookup_map_seq_0. destruct (decide (k = j)) as [->|Hj].
  - by rewrite list_lookup_insert_eq, lookup_insert_eq.
  - by rewrite list_lookup_insert_ne, lookup_insert_ne, lookup_map_seq_0 by done.
Qed.

Lemma table_of_unused t a : unused (table_of t) a <-> a ∉ concat t.
Proof.
  unfold unused. split.
  - intros Hu (k & c & Ek & Hc)%elem_of_concat. apply (Hu (Z.of_nat k) c); [by rewrite table_of_lookup|done].
  - intros Hn h c Eh Hc. apply lookup_kmap_Some in Eh as (k & -> & Ek); [|apply _]. rewrite lookup_map_seq_0 in Ek.
    apply Hn, elem_of_concat. by exists k, c.
Qed.

(** ** The walk *)

Lemma walk_run m sl xs ins nr fuel : seg m sl xs None -> (length xs < fuel)%nat ->
  hlist_walk fuel (has_nr ins nr) (head xs) m = find_chain ins nr xs.
Proof.
  revert sl fuel. induction xs as [|x xs IH]; intros sl [|fuel] Hs Hf; cbn [length] in Hf; [lia|done|lia|]. cbn [head hlist_walk find_chain].
  unfold has_nr. destruct (deref (ins !! x)) as [i|e]; [|done]. cbn [mbind res_bind]. destruct (i_nr i =? nr); [done|].
  destruct Hs as (_ & _ & Hs). pose proof (seg_first _ _ _ _ Hs) as Ef. rewrite (load_Some _ _ _ Ef), bind_ret, first_or_head.
  apply (IH (SNext x)); [done|lia].
Qed.

(** A list has at most as many nodes as there are. *)
Lemma seg_length m T h xs : reps m T -> T !! h = Some xs -> (length xs <= size (pprevs m))%nat.
Proof.
  intros Hr Eh. rewrite <- size_dom, <- (size_list_to_set (C := gset Z) xs) by by apply (rp_nodup _ _ Hr h).
  apply subseteq_size. intros x Hx%elem_of_list_to_set. apply elem_of_dom. by apply (seg_node _ _ _ _ _ (rp_seg _ _ Hr _ _ Eh)).
Qed.

Lemma ret_pair {A B} (a a' : A) (b b' : B) : Ret (a, b) = Ret (a', b') -> b' = b.
Proof. by intros [= _ ->]. Qed.

Lemma set_chain_ret t nr c s u s' : set_chain t nr c s = Ret (u, s') -> s' = set_htable (Table (<[Z.to_nat (inode_hashfn nr) := c]> t)) s.
Proof. unfold set_chain. rewrite run_modify1. apply ret_pair. Qed.

Section calls.
Context (m : hmem) (t : list (list Z)) (s : fs).
Context (Hr : reps m (table_of t)) (Hl : length t = 256%nat) (Es : inode_hash_table s = Table t).

Lemma bucket nr : exists c, t !! Z.to_nat (inode_hashfn nr) = Some c.
Proof. apply lookup_lt_is_Some_2. pose proof (inode_hashfn_range nr). lia. Qed.

Lemma find_agrees nr : ptr_hash_find (inodes s) nr m = (r ← inode_hash_find nr s; Ret r.1).
Proof.
  destruct (bucket nr) as [c Ec]. pose proof Ec as Eh. rewrite <- table_of_hash in Eh. pose proof (rp_seg _ _ Hr _ _ Eh) as Hs.
  unfold ptr_hash_find, hlist_find, inode_hash_find. rewrite (run_chain_of nr t c _ s Es Ec). rewrite run_gets. unfold lift_res.
  rewrite (load_Some _ _ _ (seg_first _ _ _ _ Hs)), bind_ret, first_or_head.
  rewrite (walk_run m _ c _ _ _ Hs) by (pose proof (seg_length _ _ _ _ Hr Eh); lia). by destruct (find_chain _ _ _).
Qed.

Lemma insert_agrees a s' : is_Some (pprevs m !! a) -> (a ∉ concat t) -> inode_hash_insert a s = Ret (tt, s') ->
  exists m' t', ptr_hash_insert (inodes s) a m = Ret m' /\ reps m' (table_of t') /\ dom (pprevs m') = dom (pprevs m) /\
    length t' = length t /\ s' = set_htable (Table t') s.
Proof.
  intros Hp Ha E. apply table_of_unused in Ha. apply bind_inv in E as (i & s1 & Ei & E). unfold get_in in Ei.
  rewrite run_gets in Ei. destruct (inodes s !! a) as [i'|] eqn:Ea; [|done]. injection Ei as -> <-.
  destruct (bucket (i_nr i)) as [c Ec]. rewrite (run_chain_of _ t c _ s Es Ec) in E. apply set_chain_ret in E as ->.
  pose proof (inode_hashfn_range (i_nr i)) as Hrange. destruct (init_node_run m _ Hr a Hp Ha) as (m1 & E1 & Hr1 & Hd1).
  assert (Hp1 : is_Some (pprevs m1 !! a)) by (by rewrite <- elem_of_dom, Hd1, elem_of_dom).
  destruct (add_head_run m1 _ Hr1 a (inode_hashfn (i_nr i)) Hp1 Ha) as (m2 & E2 & Hr2 & Hd2); [by rewrite table_of_hash, Ec|].
  exists m2, (<[Z.to_nat (inode_hashfn (i_nr i)) := a :: c]> t). unfold ptr_hash_insert. rewrite Ea. cbn [deref]. rewrite bind_ret, E1, bind_ret.
  split_and!; [done| |congruence|by rewrite length_insert|done].
  replace (table_of _) with (abs_hop (AddHead a (inode_hashfn (i_nr i))) (table_of t)); [done|]. cbn [abs_hop].
  rewrite table_of_insert by (by eapply lookup_lt_Some). rewrite Z2Nat.id by lia. apply map_eq. intros k. rewrite lookup_insert.
  case_decide; subst; [by rewrite lookup_alter_eq, table_of_hash, Ec|by rewrite lookup_alter_ne].
Qed.

Lemma remove_agrees a s' : inode_hash_remove a s = Ret (tt, s') ->
  exists m' t', ptr_hash_remove a m = Ret m' /\ reps m' (table_of t') /\ dom (pprevs m') = dom (pprevs m) /\
    length t' = length t /\ s' = set_htable (Table t') s.
Proof.
  intros E. apply bind_inv in E as (i & s1 & Ei & E). unfold get_in in Ei.
  rewrite run_gets in Ei. destruct (inodes s !! a) as [i'|] eqn:Ea; [|done]. injection Ei as -> <-.
  destruct (bucket (i_nr i)) as [c Ec]. rewrite (run_chain_of _ t c _ s Es Ec) in E.
  destruct (rm_first (Z.eqb a) c) as [[b c']|] eqn:Erm; [|done]. apply set_chain_ret in E as ->.
  apply rm_first_Some in Erm as (l1 & l2 & -> & -> & Hb & _). apply Z.eqb_eq in Hb as <-.
  pose proof Ec as Eh. rewrite <- table_of_hash in Eh. pose proof (inode_hashfn_range (i_nr i)) as Hrange.
  destruct (del_run m _ Hr a) as (m' & E & Hr' & Hd & _).
  { exists (inode_hashfn (i_nr i)), (l1 ++ a :: l2). split; [done|]. apply elem_of_app. right. by left. }
  exists m', (<[Z.to_nat (inode_hashfn (i_nr i)) := l1 ++ l2]> t). split_and!; [done| |done|by rewrite length_insert|done].
  cbn [abs_hop] in Hr'. rewrite (subst_reps m _ _ a [] l1 l2 Hr Eh) in Hr'. cbn [app] in Hr'.
  rewrite table_of_insert by (by eapply lookup_lt_Some). by rewrite Z2Nat.id by lia.
Qed.

Lemma call_agrees c r s' : call_ok (dom (pprevs m)) c s -> seq_call c s = Ret (r, s') ->
  exists m' t', ptr_call (inodes s) c m = Ret (r, m') /\ reps m' (table_of t') /\ dom (pprevs m') = dom (pprevs m) /\
    length t' = length t /\ inode_hash_table s' = Table t' /\ inodes s' = inodes s.
Proof.
  destruct c as [nr|a|a]; cbn [seq_call ptr_call call_ok].
  - intros _ E. apply bind_inv in E as (x & s1 & E & [= <- <-]). assert (s1 = s) as ->.
    { unfold inode_hash_find in E. destruct (bucket nr) as [c Ec]. rewrite (run_chain_of nr t c _ s Es Ec), run_gets in E.
      unfold lift_res in E. destruct (find_chain _ _ _); [|done]. by injection E. }
    exists m, t. rewrite find_agrees, E. by split_and!.
  - rewrite Es, elem_of_dom. intros [Hp Ha] E. apply bind_inv in E as ([] & s1 & E & [= <- <-]).
    destruct (insert_agrees a s1 Hp Ha E) as (m' & t' & -> & ? & ? & ? & ->). by exists m', t'.
  - intros _ E. apply bind_inv in E as ([] & s1 & E & [= <- <-]).
    destruct (remove_agrees a s1 E) as (m' & t' & -> & ? & ? & ? & ->). by exists m', t'.
Qed.

End calls.

Lemma calls_agree cs : forall m t s rs s', reps m (table_of t) -> length t = 256%nat -> inode_hash_table s = Table t ->
  calls_ok (dom (pprevs m)) cs s -> seq_calls cs s = Ret (rs, s') ->
  exists m' t', ptr_calls (inodes s) cs m = Ret (rs, m') /\ reps m' (table_of t') /\ length t' = 256%nat /\ inode_hash_table s' = Table t'.
Proof.
  induction cs as [|c cs IH]; intros m t s rs s' Hr Hl Es Hok E; cbn [seq_calls ptr_calls] in *.
  { injection E as <- <-. by exists m, t. }
  destruct Hok as [Hc Hok]. apply bind_inv in E as (r & s1 & E1 & E). apply bind_inv in E as (rs1 & s2 & E2 & [= <- <-]). rewrite E1 in Hok.
  destruct (call_agrees m t s Hr Hl Es c r s1 Hc E1) as (m1 & t1 & Ep & Hr1 & Hd & Hl1 & Es1 & Ei).
  rewrite <- Hd in Hok. destruct (IH m1 t1 s1 rs1 s2 Hr1 ltac:(congruence) Es1 Hok E2) as (m2 & t2 & Ep2 & Hr2 & Hl2 & Es2).
  rewrite Ei in Ep2. exists m2, t2. rewrite Ep, bind_ret. by rewrite Ep2.
Qed.

(** inode_hash_init on malloced heads, while no node is in a list. *)
Lemma init_heads_run n : forall m k, reps m (table_of (replicate k [])) ->
  (forall i, 0 <= i < Z.of_nat (k + n) -> is_Some (cells m !! SFirst i)) ->
  exists m', init_heads n (Z.of_nat k) m = Ret m' /\ reps m' (table_of (replicate (k + n) [])) /\ pprevs m' = pprevs m.
Proof.
  induction n as [|n IH]; intros m k Hr Hc; cbn [init_heads].
  { exists m. by rewrite Nat.add_0_r. }
  assert (Hn : table_of (replicate k []) !! Z.of_nat k = None) by (rewrite table_of_lookup; apply lookup_ge_None_2; rewrite length_replicate; lia).
  destruct (new_head_run m _ Hr (Z.of_nat k) ltac:(apply Hc; lia) Hn) as (m1 & E1 & Hr1 & Hp & Hd). rewrite E1, bind_ret.
  replace (Z.of_nat k + 1) with (Z.of_nat (S k)) by lia. destruct (IH m1 (S k)) as (m2 & E2 & Hr2 & Hp2).
  - replace (table_of (replicate (S k) [])) with (<[Z.of_nat k := []]> (table_of (replicate k []))); [done|].
    apply map_eq. intros j. destruct (decide (0 <= j)) as [Hj|Hj].
    + replace j with (Z.of_nat (Z.to_nat j)) by lia. rewrite table_of_lookup, lookup_insert, table_of_lookup. case_decide as E.
      * symmetry. apply lookup_replicate_2. lia.
      * destruct (decide (Z.to_nat j < k)%nat); [by rewrite !lookup_replicate_2 by lia|]. by rewrite !lookup_ge_None_2 by (rewrite length_replicate; lia).
    + assert (Hneg : forall t, table_of t !! j = None).
      { intros t. unfold table_of. apply eq_None_not_Some. intros [x Hx]. apply lookup_kmap_Some in Hx as (i & -> & _); [lia|apply _]. }
      rewrite lookup_insert_ne by lia. by rewrite !Hneg.
  - intros i Hi. apply Hd, Hc. lia.
  - exists m2. replace (k + S n)%nat with (S k + n)%nat by lia. split_and!; [done|done|congruence].
Qed.

Lemma empty_heads_run m t n k : reps m (table_of t) -> length t = (k + n)%nat ->
  empty_heads n (Z.of_nat k) m = c_assert (forallb (fun c : list Z => match c with [] => true | _ => false end) (drop k t)).
Proof.
  intros Hr. revert k. induction n as [|n IH]; intros k Hl; cbn [empty_heads].
  { by rewrite drop_ge by lia. }
  destruct (lookup_lt_is_Some_2 t k ltac:(lia)) as [c Ec]. rewrite (drop_S _ _ _ Ec). cbn [forallb].
  pose proof (rp_seg _ _ Hr (Z.of_nat k) c ltac:(by rewrite table_of_lookup)) as Hs. unfold hlist_empty.
  rewrite (load_Some _ _ _ (seg_first _ _ _ _ Hs)), !bind_ret. replace (Z.of_nat k + 1) with (Z.of_nat (S k)) by lia.
  rewrite (IH (S k) ltac:(lia)). by destruct c.
Qed.

(** C19: The hash table of inode.c, with its pointers, answers what the table of
    chains as sequences answers: after inode_hash_init, any finds, insertions
    and removals that the sequences allow, with an inode inserted only while it
    is not in the table, return the same results, and inode_hash_destroy fails
    its assertion for both or for neither. *)
Theorem inode_hash_refined m s s1 cs rs s2 :
  (forall i, 0 <= i < 256 -> is_Some (cells m !! SFirst i)) -> (forall x, is_Some (cells m !! SNext x) <-> is_Some (pprevs m !! x)) ->
  inode_hash_init true s = Ret (tt, s1) -> calls_ok (dom (pprevs m)) cs s1 -> seq_calls cs s1 = Ret (rs, s2) ->
  exists m1 m2 t, ptr_hash_init m = Ret m1 /\ ptr_calls (inodes s) cs m1 = Ret (rs, m2) /\
    inode_hash_table s2 = Table t /\ reps m2 (table_of t) /\ ptr_hash_destroy m2 = ('(_, _) ← inode_hash_destroy s2; Ret tt).
Proof.
  intros Hc Hn E Hok Ecs. assert (H0 : reps m (table_of (replicate 0 []))).
  { split; [..|done]; intros h xs; unfold table_of; cbn; by rewrite kmap_empty, lookup_empty. }
  destruct (init_heads_run 256 m 0 H0) as (m1 & E1 & Hr1 & Hp1); [intros i Hi; apply Hc; lia|].
  unfold inode_hash_init in E. rewrite run_modify1 in E. injection E as <-. change (Z.to_nat inode_hash_size) with 256%nat in *.
  set (s1 := set_htable _ s) in *. rewrite <- Hp1 in Hok.
  destruct (calls_agree cs m1 _ s1 rs s2 Hr1 (length_replicate _ _) eq_refl Hok Ecs) as (m2 & t & E2 & Hr2 & Hl2 & Es2).
  exists m1, m2, t. split_and!; [exact E1|exact E2|done|done|].
  change (ptr_hash_destroy m2) with (empty_heads 256 (Z.of_nat 0) m2). rewrite (empty_heads_run m2 t 256 0 Hr2 Hl2), drop_0. unfold inode_hash_destroy.
  rewrite run_gets, Es2. unfold st_assert. by destruct (forallb _ t).
Qed.

(** Two inodes with the same hash, and heads that hold anything. *)
Definition demo_heads : hmem :=
  HMem (<[SNext 1 := None]> (<[SNext 2 := None]> (list_to_map ((fun i => (SFirst i, Some i)) <$> seqZ 0 256)))) {[1 := None; 2 := None]}.
Definition demo_inodes : gmap Z inode := {[1 := Inode zero_dinode 0 3 1; 2 := Inode zero_dinode 0 236 1]}.
Definition demo_fs (h : htable) : fs :=
  Fs (Super (dec_super []) (Disk 0 empty) None None) demo_inodes h 3.
Definition demo_calls : list call := [CInsert 1; CInsert 2; CFind 3; CFind 236; CRemove 1; CFind 3; CRemove 2].
Definition demo_rs : list (option (option Z)) := [None; None; Some (Some 1); Some (Some 2); None; Some None; None].

Lemma demo_heads_firsts i : 0 <= i < 256 -> is_Some (cells demo_heads !! SFirst i).
Proof.
  intros Hi. unfold demo_heads. cbn [cells]. rewrite !lookup_insert_ne by done.
  destruct (list_to_map _ !! _) eqn:E; [by eexists|]. apply not_elem_of_list_to_map_2 in E. exfalso. apply E.
  rewrite <- list_fmap_compose. apply list_elem_of_fmap. exists i. split; [done|]. apply elem_of_seqZ. lia.
Qed.

Lemma demo_heads_nodes x : is_Some (cells demo_heads !! SNext x) <-> is_Some (pprevs demo_heads !! x).
Proof.
  unfold demo_heads. cbn [cells pprevs]. rewrite !lookup_insert, lookup_singleton.
  rewrite (not_elem_of_list_to_map_1 _ (SNext x)); [repeat case_decide; simplify_eq; split; done|].
  rewrite <- list_fmap_compose. by intros (i & ? & _)%list_elem_of_fmap.
Qed.

Lemma inode_hash_refined_witness :
  exists m1 m2 t, ptr_hash_init demo_heads = Ret m1 /\ ptr_calls demo_inodes demo_calls m1 = Ret (demo_rs, m2) /\
    inode_hash_table (demo_fs (Table (replicate 256 []))) = Table t /\ reps m2 (table_of t) /\
    ptr_hash_destroy m2 = ('(_, _) ← inode_hash_destroy (demo_fs (Table (replicate 256 []))); Ret tt).
Proof.
  apply (inode_hash_refined demo_heads (demo_fs Null) (demo_fs (Table (replicate 256 []))) demo_calls demo_rs).
  - exact demo_heads_firsts.
  - exact demo_heads_nodes.
  - vm_compute. reflexivity.
  - apply (bool_decide_unpack _). vm_compute. exact I.
  - vm_compute. reflexivity.
Defined.
