(* ===== verification/ReadWrite.v ===== *)
(** * File data (fs/read_write.c, testfs_remove_inode)

    The blocks of a file are named by ten direct pointers and by the entries of
    one indirect block; [ptrs] lists them in logical order, [file_block] is the
    content of a logical block (zeros where nothing is allocated).

    The buffers the callers pass are never NULL; [cap] is the number of bytes
    a destination has. *)
From S2P Require Import Prelude Bytes Bitmap StateMonad Disk Super Inode.

#[local] Ltac Zify.zify_post_hook ::= Z.to_euclidean_division_equations.

(** Signed 64-bit addition, undefined when it overflows. *)
Definition add_s64 (a b : Z) : res Z :=
  if (- 2 ^ 63 <=? a + b) && (a + b <? 2 ^ 63) then Ret (a + b) else Fail Undef.

Section read_write.
Context `{Geometry}.

Definition NR_INDIRECT_BLOCKS : Z := BLOCK_SIZE / 4.

(** ((int * )block)[k] *)
Definition get_ptr (block : list Z) (k : Z) : Z := get_s32 (4 * k) block.
Definition set_ptr (block : list Z) (k p : Z) : list Z := splice (4 * k) (le_enc 4 p) block.

(** The end of testfs_read_block, once the physical block is known. *)
Definition read_phys (p : Z) : FS (Z * list Z) :=
  if 0 <? p then b ← on_sb (sb_read p 1); mret (p, b) else mret (p, zero).

(** The physical block number and the block; on -ENOSYS the caller's buffer is
    left alone and not used. *)
Definition testfs_read_block (a log_block_nr : Z) : FS (Z * list Z) :=
  _ ← st_assert (0 <=? log_block_nr);
  i ← get_in a;
  if log_block_nr <? NR_DIRECT_BLOCKS then
    p ← lift_res (deref (i_block_nr (din i) !! Z.to_nat log_block_nr)); read_phys p
  else
    let k := log_block_nr - NR_DIRECT_BLOCKS in
    if NR_INDIRECT_BLOCKS <=? k then mret (- ENOSYS, [])
    else if 0 <? i_indirect (din i) then
      block ← on_sb (sb_read (i_indirect (din i)) 1); read_phys (get_ptr block k)
    else read_phys 0.

(** The return value and the bytes copied to the buffer. *)
Definition testfs_read_data (a cap start size : Z) : FS (Z * list Z) :=
  let block_nr := Z.quot start BLOCK_SIZE in
  let block_ix := Z.rem start BLOCK_SIZE in
  i ← get_in a;
  last ← lift_res (add_s64 start (s64 size));
  let size := if i_size (din i) <? last then u64 (i_size (din i) - start) else size in
  if BLOCK_SIZE <? u64 (block_ix + size) then mret (- ENOSYS, [])
  else
    '(ret, block) ← testfs_read_block a (s32 block_nr);
    if ret <? 0 then mret (ret, [])
    else if (0 <=? block_ix) && (block_ix + size <=? BLOCK_SIZE) && (size <=? cap) then
      mret (s32 size, slice block_ix size block)
    else lift_res (Fail Undef).

(** testfs_allocate_block from the second allocation on. *)
Definition allocate_entry (a k : Z) (indirect : list Z) (indirect_allocated : bool) : FS Z :=
  _ ← st_assert (get_ptr indirect k =? 0);
  p ← testfs_alloc_block_for_inode a;
  i ← get_in a;
  if 0 <=? p then
    _ ← on_sb (sb_write (set_ptr indirect k p) (i_indirect (din i)) 1);
    mret p
  else if indirect_allocated then
    _ ← testfs_free_block_from_inode a (i_indirect (din i));
    _ ← upd_din a (set_i_indirect 0);
    mret p
  else mret p.

Definition testfs_allocate_block (a log_block_nr : Z) : FS (Z * list Z) :=
  _ ← st_assert (0 <=? log_block_nr);
  '(p, block) ← testfs_read_block a log_block_nr;
  if negb (p =? 0) then mret (p, block)
  else
    i ← get_in a;
    if log_block_nr <? NR_DIRECT_BLOCKS then
      x ← lift_res (deref (i_block_nr (din i) !! Z.to_nat log_block_nr));
      _ ← st_assert (x =? 0);
      p ← testfs_alloc_block_for_inode a;
      if 0 <=? p then
        _ ← upd_din a (fun d => set_i_block_nr (<[Z.to_nat log_block_nr := p]> (i_block_nr d)) d);
        mret (p, block)
      else mret (p, block)
    else
      let k := log_block_nr - NR_DIRECT_BLOCKS in
      if NR_INDIRECT_BLOCKS <=? k then mret (- ENOSYS, block)
      else if i_indirect (din i) =? 0 then
        p ← testfs_alloc_block_for_inode a;
        if p <? 0 then mret (p, block)
        else
          _ ← upd_din a (set_i_indirect p);
          p ← allocate_entry a k zero true;
          mret (p, block)
      else
        indirect ← on_sb (sb_read (i_indirect (din i)) 1);
        p ← allocate_entry a k indirect false;
        mret (p, block).

Definition testfs_write_data (a : Z) (buf : list Z) (start size : Z) : FS Z :=
  let block_nr := Z.quot start BLOCK_SIZE in
  let block_ix := Z.rem start BLOCK_SIZE in
  if BLOCK_SIZE <? u64 (block_ix + size) then mret (- ENOSYS)
  else
    '(ret, block) ← testfs_allocate_block a (s32 block_nr);
    if ret <? 0 then mret ret
    else if (0 <=? block_ix) && (block_ix + size <=? BLOCK_SIZE) && (size <=? zlen buf) then
      _ ← on_sb (sb_write (splice block_ix (slice 0 size buf) block) ret 1);
      _ ← (if 0 <? size then
             last ← lift_res (add_s64 start (s64 size));
             upd_din a (fun d => set_i_size (Z.max (i_size d) last) d)
           else mret tt);
      _ ← mark_dirty a;
      mret (s32 size)
    else lift_res (Fail Undef).

(** The loop over the direct blocks, [n] iterations left. *)
Fixpoint free_direct (n : nat) (a i : Z) : FS unit :=
  match n with
  | O => mret tt
  | S n =>
      d ← get_in a;
      p ← lift_res (deref (i_block_nr (din d) !! Z.to_nat i));
      if p =? 0 then free_direct n a (i + 1)
      else
        _ ← testfs_free_block_from_inode a p;
        _ ← upd_din a (fun d => set_i_block_nr (<[Z.to_nat i := 0]> (i_block_nr d)) d);
        free_direct n a (i + 1)
  end.

Fixpoint free_entries (n : nat) (a i : Z) (block : list Z) : FS unit :=
  match n with
  | O => mret tt
  | S n =>
      if get_ptr block i =? 0 then free_entries n a (i + 1) block
      else
        _ ← testfs_free_block_from_inode a (get_ptr block i);
        free_entries n a (i + 1) (set_ptr block i 0)
  end.

Definition testfs_free_blocks (a : Z) : FS Z :=
  d ← get_in a;
  sum ← lift_res (add_s64 (i_size (din d)) (BLOCK_SIZE - 1));
  let e_block_nr := s32 (Z.quot sum BLOCK_SIZE) in
  _ ← free_direct (Z.to_nat (Z.min e_block_nr NR_DIRECT_BLOCKS)) a 0;
  let e_block_nr := s32 (e_block_nr - NR_DIRECT_BLOCKS) in
  d ← get_in a;
  _ ← (if 0 <? i_indirect (din d) then
         _ ← st_assert (0 <? e_block_nr);
         block ← on_sb (sb_read (i_indirect (din d)) 1);
         _ ← free_entries (Z.to_nat (Z.min e_block_nr NR_INDIRECT_BLOCKS)) a 0 block;
         d ← get_in a;
         _ ← testfs_free_block_from_inode a (i_indirect (din d));
         upd_din a (set_i_indirect 0)
       else mret tt);
  let e_block_nr := s32 (e_block_nr - NR_INDIRECT_BLOCKS) in
  if 0 <? e_block_nr then mret (- ENOSYS)
  else
    _ ← upd_din a (set_i_size 0);
    _ ← mark_dirty a;
    mret 0.

(** inode.c: its return value is ignored. *)
Definition testfs_remove_inode (a : Z) : FS unit :=
  _ ← testfs_free_blocks a;
  i ← get_in a;
  _ ← st_assert (block_count (din i) =? 0);
  _ ← upd_din a (fun _ => zero_dinode);
  _ ← mark_dirty a;
  _ ← on_sb (testfs_put_inode_freemap (i_nr i));
  _ ← testfs_sync_inode a;
  testfs_put_inode a.

End read_write.
