(* ===== verification/FileBlocks.v ===== *)
(** * The blocks of the files

    What an inode [x] and a device [d] say about a file, without the code:
    [ptrs] are its physical block numbers in logical order, [file_blocks] all
    the blocks it owns, [file_block] the content of a logical block.
    [file_ok] is the well-formedness of one file.  [files_ok] is the invariant
    of a whole file system: every file is well formed, no block belongs to two
    files, and every block in use belongs to some file. *)
From S2P Require Import Prelude Bytes Bitmap StateMonad Disk Super Inode ReadWrite.

#[local] Ltac Zify.zify_post_hook ::= Z.to_euclidean_division_equations.

(** Setting a pointer that was zero. *)
Definition nonzero (l : list Z) : list Z := filter (fun p => p <> 0) l.

Lemma nonzero_app l l' : nonzero (l ++ l') = nonzero l ++ nonzero l'.
Proof. apply filter_app. Qed.
Lemma nonzero_cons p l : nonzero (p :: l) = if decide (p = 0) then nonzero l else p :: nonzero l.
Proof. unfold nonzero. rewrite filter_cons. repeat case_decide; done || lia. Qed.
Lemma nonzero_replicate n : nonzero (replicate n 0) = [].
Proof. induction n as [|n IH]; [done|]. cbn [replicate]. by rewrite nonzero_cons, decide_True. Qed.
Lemma elem_of_nonzero l b : b ∈ nonzero l <-> b ∈ l /\ b <> 0.
Proof. unfold nonzero. rewrite list_elem_of_filter. naive_solver. Qed.

Lemma nonzero_insert l k p : l !! k = Some 0 -> p <> 0 -> nonzero (<[k := p]> l) ≡ₚ p :: nonzero l.
Proof.
  intros Hk Hp. rewrite <- (take_drop_middle l k 0 Hk) at 2.
  rewrite insert_take_drop by (by eapply lookup_lt_Some).
  rewrite !nonzero_app, !nonzero_cons, decide_False, decide_True by done.
  by rewrite Permutation_middle.
Qed.

Lemma nonzero_clear l k p : l !! k = Some p -> p <> 0 -> nonzero l ≡ₚ p :: nonzero (<[k := 0]> l).
Proof.
  intros Hk Hp. rewrite <- (take_drop_middle l k p Hk) at 1.
  rewrite insert_take_drop by (by eapply lookup_lt_Some).
  rewrite !nonzero_app, !nonzero_cons, decide_False, decide_True by done.
  by rewrite Permutation_middle.
Qed.

Lemma nonzero_zeros l : (forall j p, l !! j = Some p -> p = 0) -> nonzero l = [] /\ l = replicate (length l) 0.
Proof.
  intros Hz. assert (E : l = replicate (length l) 0); [|split; [rewrite E; apply nonzero_replicate|done]].
  symmetry. apply replicate_as_Forall. split; [done|]. apply Forall_lookup. intros j p Hj. symmetry. by eapply Hz.
Qed.

(** A nonzero pointer occurs once. *)
Lemma nonzero_unique l i j p :
  NoDup (nonzero l) -> l !! i = Some p -> l !! j = Some p -> p <> 0 -> i = j.
Proof.
  intros Hnd Hi Hj Hp. destruct (decide (i = j)) as [|Hne]; [done|]. exfalso.
  rewrite (nonzero_clear l i p) in Hnd by done. apply NoDup_cons in Hnd as [Hnot _]. apply Hnot.
  apply elem_of_nonzero. split; [|done]. apply list_elem_of_lookup_2 with j. by rewrite list_lookup_insert_ne.
Qed.

Section files.
Context `{Geometry}.

(** The pointers of an indirect block. *)
Definition entries (block : list Z) : list Z := get_ptr block <$> seqZ 0 NR_INDIRECT_BLOCKS.

Definition ptrs (d : disk) (x : dinode) : list Z :=
  i_block_nr x ++ (if 0 <? i_indirect x then entries (block_at d (i_indirect x))
                   else replicate (Z.to_nat NR_INDIRECT_BLOCKS) 0).
Definition file_blocks (d : disk) (x : dinode) : list Z := nonzero (i_indirect x :: ptrs d x).
Definition ptr (d : disk) (x : dinode) (k : Z) : Z := default 0 (ptrs d x !! Z.to_nat k).
Definition file_block (d : disk) (x : dinode) (k : Z) : list Z :=
  if ptr d x k =? 0 then zero else block_at d (ptr d x k).
Definition MAX_BLOCKS : Z := NR_DIRECT_BLOCKS + NR_INDIRECT_BLOCKS.

Record file_ok (d : disk) (bm : bitmap) (x : dinode) : Prop := FileOk {
  fb_dinode : dinode_ok x;
  fb_nonneg : Forall (fun p => 0 <= p) (i_indirect x :: ptrs d x);
  fb_nodup : NoDup (file_blocks d x);
  fb_alloc b : b ∈ file_blocks d x -> allocated bm b /\ b < d_len d;
  fb_count : block_count x = zlen (file_blocks d x);
  fb_size : 0 <= i_size x <= MAX_BLOCKS * BLOCK_SIZE;
  fb_tail k : ptr d x k <> 0 -> k * BLOCK_SIZE < i_size x;
  fb_ind : i_indirect x <> 0 -> NR_DIRECT_BLOCKS * BLOCK_SIZE < i_size x
}.

Lemma geo_files :
  16 <= NR_INDIRECT_BLOCKS /\ 4 * NR_INDIRECT_BLOCKS = BLOCK_SIZE /\ MAX_BLOCKS = 10 + NR_INDIRECT_BLOCKS.
Proof. pose proof geo_block. unfold MAX_BLOCKS, NR_INDIRECT_BLOCKS, NR_DIRECT_BLOCKS. lia. Qed.

Lemma length_entries blk : length (entries blk) = Z.to_nat NR_INDIRECT_BLOCKS.
Proof. unfold entries. by rewrite length_fmap, length_seqZ. Qed.

Lemma length_ptrs d x : length (i_block_nr x) = 10%nat -> length (ptrs d x) = Z.to_nat MAX_BLOCKS.
Proof.
  intros Hl. pose proof geo_files. unfold ptrs. rewrite length_app, Hl.
  destruct (0 <? i_indirect x); rewrite ?length_entries, ?length_replicate; lia.
Qed.

Lemma lookup_entries blk k : 0 <= k < NR_INDIRECT_BLOCKS -> entries blk !! Z.to_nat k = Some (get_ptr blk k).
Proof.
  intros Hk. unfold entries. rewrite list_lookup_fmap, lookup_seqZ_lt by lia. simpl. f_equal. f_equal. lia.
Qed.

Lemma ptr_direct d x k : length (i_block_nr x) = 10%nat -> 0 <= k < 10 -> i_block_nr x !! Z.to_nat k = Some (ptr d x k).
Proof.
  intros Hl Hk. unfold ptr, ptrs. rewrite lookup_app_l by lia.
  destruct (lookup_lt_is_Some_2 (i_block_nr x) (Z.to_nat k)) as [p Hp]; [lia|]. by rewrite Hp.
Qed.

Lemma ptr_indirect d x k :
  length (i_block_nr x) = 10%nat -> 0 <= k < NR_INDIRECT_BLOCKS ->
  ptr d x (10 + k) = if 0 <? i_indirect x then get_ptr (block_at d (i_indirect x)) k else 0.
Proof.
  intros Hl Hk. unfold ptr, ptrs. rewrite lookup_app_r by lia.
  replace (Z.to_nat (10 + k) - length (i_block_nr x))%nat with (Z.to_nat k) by lia.
  destruct (0 <? i_indirect x).
  - by rewrite lookup_entries.
  - by rewrite lookup_replicate_2 by lia.
Qed.

Lemma get_set_ptr blk k j p :
  zlen blk = BLOCK_SIZE -> in_s32 p -> 0 <= k < NR_INDIRECT_BLOCKS -> 0 <= j < NR_INDIRECT_BLOCKS ->
  get_ptr (set_ptr blk k p) j = if decide (j = k) then p else get_ptr blk j.
Proof.
  intros Hl Hp Hk Hj. pose proof geo_files. unfold get_ptr, set_ptr, get_s32.
  pose proof (zlen_le_enc 4 p) as He. change (Z.of_nat 4) with 4 in He. case_decide as E.
  - pose proof (slice_splice (4 * k) (le_enc 4 p) blk) as Hs. rewrite He in Hs. subst j. rewrite Hs by lia.
    by apply dec_enc4_s.
  - rewrite slice_splice_other; [done|lia..].
Qed.

Lemma zlen_set_ptr blk k p : zlen blk = BLOCK_SIZE -> 0 <= k < NR_INDIRECT_BLOCKS -> zlen (set_ptr blk k p) = BLOCK_SIZE.
Proof.
  intros Hl Hk. pose proof geo_files. unfold set_ptr. pose proof (zlen_le_enc 4 p) as He.
  change (Z.of_nat 4) with 4 in He. rewrite zlen_splice by lia. done.
Qed.

Lemma set_ptr_bytes blk k p : Forall is_byte blk -> Forall is_byte (set_ptr blk k p).
Proof. intros. apply Forall_splice; [done|apply le_enc_bytes]. Qed.

Lemma entries_set blk k p :
  zlen blk = BLOCK_SIZE -> in_s32 p -> 0 <= k < NR_INDIRECT_BLOCKS ->
  entries (set_ptr blk k p) = <[Z.to_nat k := p]> (entries blk).
Proof.
  intros Hl Hp Hk. apply list_eq. intros j. destruct (decide (j < Z.to_nat NR_INDIRECT_BLOCKS)%nat) as [Hj|Hj].
  - replace j with (Z.to_nat (Z.of_nat j)) by lia. rewrite lookup_entries by lia. rewrite get_set_ptr by (done || lia).
    rewrite list_lookup_insert, length_entries. repeat case_decide; try lia; [done|]. by rewrite lookup_entries by lia.
  - rewrite !lookup_ge_None_2; [done|rewrite length_insert|]; rewrite length_entries; lia.
Qed.

Lemma entries_zero : entries zero = replicate (Z.to_nat NR_INDIRECT_BLOCKS) 0.
Proof.
  symmetry. apply replicate_as_Forall. split; [apply length_entries|]. apply Forall_forall.
  intros p (k & -> & _)%list_elem_of_fmap. unfold get_ptr, get_s32, slice, zero.
  rewrite drop_replicate, take_replicate.
  assert (Hz : forall n, le_dec (replicate n 0) = 0) by (induction n as [|n IH]; [done|cbn; by rewrite IH]). by rewrite Hz.
Qed.

(** A file is determined by its inode and its indirect block. *)
Lemma ptrs_same d d' x :
  (0 < i_indirect x -> block_at d' (i_indirect x) = block_at d (i_indirect x)) -> ptrs d' x = ptrs d x.
Proof. intros Hb. unfold ptrs. destruct (Z.ltb_spec 0 (i_indirect x)); [by rewrite Hb|done]. Qed.

Lemma elem_of_file_blocks d x b : b ∈ file_blocks d x <-> (b = i_indirect x \/ b ∈ ptrs d x) /\ b <> 0.
Proof. unfold file_blocks. by rewrite elem_of_nonzero, elem_of_cons. Qed.

Lemma ptr_in_blocks d x k : ptr d x k <> 0 -> ptr d x k ∈ file_blocks d x.
Proof.
  unfold ptr. destruct (ptrs d x !! Z.to_nat k) as [p|] eqn:E; simpl; [|done]. intros Hp.
  apply elem_of_file_blocks. split; [|done]. right. by eapply list_elem_of_lookup_2.
Qed.

(** Changing nothing a file owns. *)
Lemma file_same d d' x :
  Forall (fun p => 0 <= p) (i_indirect x :: ptrs d x) ->
  (forall b, b ∈ file_blocks d x -> block_at d' b = block_at d b) ->
  ptrs d' x = ptrs d x /\ file_blocks d' x = file_blocks d x /\ forall k, file_block d' x k = file_block d x k.
Proof.
  intros Hp Hb. assert (E : ptrs d' x = ptrs d x).
  { apply ptrs_same. intros Hi. apply Hb. apply elem_of_file_blocks. split; [by left|lia]. }
  split_and!; [done|unfold file_blocks; by rewrite E|]. intros k. unfold file_block.
  assert (Ek : ptr d' x k = ptr d x k) by (unfold ptr; by rewrite E). rewrite Ek.
  destruct (Z.eqb_spec (ptr d x k) 0); [done|]. by apply Hb, ptr_in_blocks.
Qed.

Lemma file_ok_same d d' bm bm' x :
  file_ok d bm x -> (forall b, b ∈ file_blocks d x -> block_at d' b = block_at d b /\ allocated bm' b) ->
  d_len d <= d_len d' -> file_ok d' bm' x.
Proof.
  intros [] Hb Hl. destruct (file_same d d' x fb_nonneg0) as (E1 & E2 & _); [intros; by apply Hb|].
  assert (Ek : forall k, ptr d' x k = ptr d x k) by (intros; unfold ptr; by rewrite E1).
  constructor; rewrite ?E1, ?E2; try done.
  - intros b Hin. split; [by apply Hb|]. destruct (fb_alloc0 b Hin). lia.
  - intros k. rewrite Ek. apply fb_tail0.
Qed.

(** ** The files of a file system *)

Record files_ok (d : disk) (bm : bitmap) (F : Z -> dinode) : Prop := FilesOk {
  fs_files nr : 0 <= nr < MAX_INODES -> file_ok d bm (F nr);
  fs_disjoint nr nr' b : 0 <= nr < MAX_INODES -> 0 <= nr' < MAX_INODES ->
    b ∈ file_blocks d (F nr) -> b ∈ file_blocks d (F nr') -> nr = nr';
  fs_no_leak b : allocated bm b -> exists nr, 0 <= nr < MAX_INODES /\ b ∈ file_blocks d (F nr)
}.

Definition upd_file (F : Z -> dinode) (nr : Z) (x : dinode) : Z -> dinode :=
  fun n => if decide (n = nr) then x else F n.

(** One file changes: its new blocks were free or its own, and nothing else
    that is in use is touched. *)
Lemma files_ok_step d bm F nr d' bm' x :
  files_ok d bm F -> 0 <= nr < MAX_INODES -> file_ok d' bm' x ->
  (forall b, b ∈ file_blocks d' x -> b ∈ file_blocks d (F nr) \/ ~ allocated bm b) ->
  (forall b, DATA_START <= b -> allocated bm b -> b ∉ file_blocks d (F nr) -> block_at d' b = block_at d b) ->
  (forall b, allocated bm' b <-> (allocated bm b /\ b ∉ file_blocks d (F nr)) \/ b ∈ file_blocks d' x) ->
  d_len d <= d_len d' ->
  files_ok d' bm' (upd_file F nr x) /\
  forall n, 0 <= n < MAX_INODES -> n <> nr -> forall k, file_block d' (F n) k = file_block d (F n) k.
Proof.
  intros HF Hnr Hx Hnew Hsame Hal Hlen. pose proof HF as [Hf Hdis Hleak].
  assert (Hother : forall n, 0 <= n < MAX_INODES -> n <> nr -> forall b, b ∈ file_blocks d (F n) ->
    block_at d' b = block_at d b /\ allocated bm' b /\ b ∉ file_blocks d (F nr)).
  { intros n Hn Hne b Hb. destruct (fb_alloc _ _ _ (Hf n Hn) b Hb) as [Hba _].
    assert (Hnot : b ∉ file_blocks d (F nr)) by (intros Hb'; apply Hne; by apply (Hdis n nr b)).
    pose proof Hba as [Hrange _]. split_and!; [apply Hsame; done || lia|apply Hal; by left|done]. }
  assert (Hblocks : forall n, 0 <= n < MAX_INODES -> n <> nr ->
    file_blocks d' (F n) = file_blocks d (F n) /\ forall k, file_block d' (F n) k = file_block d (F n) k).
  { intros n Hn Hne. destruct (file_same d d' (F n)) as (_ & ? & ?); [apply (fb_nonneg _ _ _ (Hf n Hn))| |done].
    intros b Hb. by destruct (Hother n Hn Hne b Hb). }
  split; [|intros n Hn Hne; by apply Hblocks]. unfold upd_file. constructor.
  - intros n Hn. case_decide as E; [done|]. eapply file_ok_same; [by apply Hf| |done].
    intros b Hb. by destruct (Hother n Hn E b Hb) as (? & ? & _).
  - assert (Hx' : forall n b, 0 <= n < MAX_INODES -> n <> nr -> b ∈ file_blocks d (F n) -> b ∈ file_blocks d' x -> False).
    { intros n b Hn Hne Hb Hb'. destruct (Hother n Hn Hne b Hb) as (_ & _ & Hnot).
      destruct (Hnew b Hb') as [?|Hna]; [done|]. apply Hna. by apply (fb_alloc _ _ _ (Hf n Hn)). }
    intros n n' b Hn Hn'. repeat case_decide; subst; [done|..].
    + rewrite (proj1 (Hblocks n' Hn' ltac:(done))). intros Hb Hb'. by destruct (Hx' n' b).
    + rewrite (proj1 (Hblocks n Hn ltac:(done))). intros Hb Hb'. by destruct (Hx' n b).
    + rewrite (proj1 (Hblocks n Hn ltac:(done))), (proj1 (Hblocks n' Hn' ltac:(done))). by apply Hdis.
  - intros b Hb. apply Hal in Hb as [[Hb Hnot]|Hb].
    + destruct (Hleak b Hb) as (n & Hn & Hin). exists n. split; [done|].
      rewrite decide_False by (intros ->; done). by rewrite (proj1 (Hblocks n Hn ltac:(intros ->; done))).
    + exists nr. split; [done|]. by rewrite decide_True.
Qed.

End files.
