(* ===== verification/ReadWriteSpec.v ===== *)
(** * What the file data operations do

    Every operation of ReadWrite.v works on one inode: its states are [on s a i t],
    the state [s] with the inode [i] at [a] and the super block [t]. *)
From S2P Require Import Prelude Bytes Bitmap StateMonad Disk Super Inode ReadWrite FileBlocks.

#[local] Ltac Zify.zify_post_hook ::= Z.to_euclidean_division_equations.

Definition on (s : fs) (a : Z) (i : inode) (t : super_block) : fs :=
  Fs t (<[a := i]> (inodes s)) (inode_hash_table s) (next_in s).

Section specs.
Context `{Geometry}.

Lemma on_id s a i : inodes s !! a = Some i -> on s a i (f_sb s) = s.
Proof. intros Ha. unfold on. rewrite insert_id by done. by destruct s. Qed.
Lemma on_lookup s a i t : inodes (on s a i t) !! a = Some i.
Proof. apply lookup_insert_eq. Qed.
Lemma on_on s a i t i' t' : on (on s a i t) a i' t' = on s a i' t'.
Proof. unfold on. cbn [inodes inode_hash_table next_in]. by rewrite insert_insert_eq. Qed.

Lemma on_get {B} s a i t (f : inode -> FS B) : (get_in a ≫= f) (on s a i t) = f i (on s a i t).
Proof. apply run_get_in, on_lookup. Qed.
Lemma on_upd_din {B} s a i t g (f : unit -> FS B) :
  (upd_din a g ≫= f) (on s a i t) = f tt (on s a (set_din (g (din i)) i) t).
Proof.
  unfold upd_din. rewrite (run_upd_in a i) by apply on_lookup. unfold set_inodes, on.
  cbn [f_sb inodes inode_hash_table next_in]. by rewrite insert_insert_eq.
Qed.
Lemma on_upd_din1 s a i t g : upd_din a g (on s a i t) = Ret (tt, on s a (set_din (g (din i)) i) t).
Proof.
  unfold upd_din. rewrite (run_upd_in1 a i) by apply on_lookup. unfold set_inodes, on.
  cbn [f_sb inodes inode_hash_table next_in]. by rewrite insert_insert_eq.
Qed.
Lemma on_dirty {B} s a i t (f : unit -> FS B) :
  (mark_dirty a ≫= f) (on s a i t) = f tt (on s a (set_i_flags (Z.lor (i_flags i) I_FLAGS_DIRTY) i) t).
Proof.
  unfold mark_dirty. rewrite (run_upd_in a i) by apply on_lookup. unfold set_inodes, on.
  cbn [f_sb inodes inode_hash_table next_in]. by rewrite insert_insert_eq.
Qed.
Lemma on_sb_run {A B} s a i t (m : SB A) (f : A -> FS B) x t' :
  m t = Ret (x, t') -> (on_sb m ≫= f) (on s a i t) = f x (on s a i t').
Proof. intros E. by rewrite (run_on_sb m f (on s a i t) x t'). Qed.

Lemma on_ok_data s im bm a i i' t :
  fs_ok (on s a i t) im bm -> inode_ok (dev t) i' -> i_nr i' = i_nr i -> fs_ok (on s a i' t) im bm.
Proof.
  intros Hs Hi Hnr. pose proof (fs_ok_update (on s a i t) im bm a i i' Hs (on_lookup s a i t) Hnr Hi) as Hok.
  unfold set_inodes, on in Hok. cbn [f_sb inodes inode_hash_table next_in] in Hok. by rewrite insert_insert_eq in Hok.
Qed.

Lemma on_ok_inode s im bm a i t : fs_ok (on s a i t) im bm -> inode_ok (dev t) i.
Proof. intros Hs. apply (fo_inode _ _ _ Hs a i), on_lookup. Qed.

Lemma on_ok_super s im bm a i t : fs_ok (on s a i t) im bm -> super_rep t im bm.
Proof. intros Hs. apply (fo_super _ _ _ Hs). Qed.

(** A write of a data block. *)
Lemma on_ok_write s im bm a i t b blk :
  fs_ok (on s a i t) im bm -> DATA_START <= b -> zlen blk = BLOCK_SIZE -> Forall is_byte blk ->
  fs_ok (on s a i (set_dev (write_block1 (dev t) b blk) t)) im bm.
Proof.
  intros Hs Hb Hl Hby. geo. apply (fs_ok_set_sb (on s a i t) im bm); [done| |].
  - apply super_rep_write; [by eapply on_ok_super|lia|done|done].
  - intros b' ?. cbn [set_dev dev on f_sb]. by rewrite write_block1_at, decide_False by lia.
Qed.

Lemma sb_write_run t b blk :
  0 <= b -> zlen blk = BLOCK_SIZE -> sb_write blk b 1 t = Ret (tt, set_dev (write_block1 (dev t) b blk) t).
Proof. intros. unfold sb_write. by rewrite write_blocks_one. Qed.

Lemma sb_read_run t b : 0 <= b < d_len (dev t) -> sb_read b 1 t = Ret (block_at (dev t) b, t).
Proof. intros. unfold sb_read. by rewrite read_blocks_one. Qed.

(** ** Allocation and release of blocks *)

Definition counted (n : Z) (i : inode) : inode := dirtied (fun d => set_block_count (s32 (block_count d + n)) d) i.

(** Why testfs_alloc_block refuses: the quota is used up or no block is free. *)
Definition no_room (bm : bitmap) (t : super_block) : Prop :=
  used_block_count (sb t) = max_fs_blocks (sb t) \/
  forall b, DATA_START <= b < DATA_START + BMAP_BITS -> allocated bm b.

Lemma on_alloc s im bm a i t :
  fs_ok (on s a i t) im bm ->
  (exists r bm' t', testfs_alloc_block_for_inode a (on s a i t) = Ret (r, on s a (counted 1 i) t') /\
     fs_ok (on s a (counted 1 i) t') im bm' /\
     (forall b, INODE_START <= b -> block_at (dev t') b = block_at (dev t) b) /\ d_len (dev t) <= d_len (dev t') /\
     DATA_START <= r < DATA_START + BMAP_BITS /\ ~ allocated bm r /\
     (forall b, allocated bm' b <-> allocated bm b \/ b = r) /\ nbits bm' = nbits bm) \/
  testfs_alloc_block_for_inode a (on s a i t) = Ret (- ENOSPC, on s a i t) /\ no_room bm t.
Proof.
  intros Hs. destruct (alloc_block_for_inode_ok _ im bm a i Hs (on_lookup s a i t))
    as [(r & bm' & t' & E & Hs' & Hb & Hl & Hr & Hna & Hn & Hal & _)|[E Hno]]; [left|by right].
  exists r, bm', t'. unfold set_inodes, set_f_sb, on in *. cbn [f_sb inodes inode_hash_table next_in] in *.
  rewrite insert_insert_eq in E, Hs'. split_and!; try done; lia.
Qed.

Lemma on_free s im bm a i t b :
  fs_ok (on s a i t) im bm -> allocated bm b ->
  exists bm' t', testfs_free_block_from_inode a b (on s a i t) = Ret (tt, on s a (counted (-1) i) t') /\
    fs_ok (on s a (counted (-1) i) t') im bm' /\
    (forall b', allocated bm' b' <-> allocated bm b' /\ b' <> b) /\
    (forall b', INODE_START <= b' -> b' <> b -> block_at (dev t') b' = block_at (dev t) b') /\
    d_len (dev t) <= d_len (dev t') /\ nbits bm' = nbits bm.
Proof.
  intros Hs Hb. destruct (free_block_from_inode_ok _ im bm a i b Hs (on_lookup s a i t) Hb)
    as (bm' & t' & E & Hs' & Hn & Hal & Hbl & _ & Hl & _).
  exists bm', t'. unfold set_inodes, set_f_sb, on in *. cbn [f_sb inodes inode_hash_table next_in] in *.
  rewrite insert_insert_eq in E, Hs'. split_and!; try done. lia.
Qed.

(** ** Reading *)

Lemma read_phys_run s a i t p :
  0 <= p -> (p <> 0 -> p < d_len (dev t)) ->
  read_phys p (on s a i t) = Ret ((p, if p =? 0 then zero else block_at (dev t) p), on s a i t).
Proof.
  intros Hp Hl. unfold read_phys. destruct (Z.ltb_spec 0 p); destruct (Z.eqb_spec p 0); try lia.
  - rewrite (on_sb_run _ _ _ _ _ _ _ _ (sb_read_run t p ltac:(lia))). done.
  - done.
Qed.

Section one_file.
Context (s : fs) (im bm : bitmap) (a : Z) (i : inode) (t : super_block).
Hypotheses (Hs : fs_ok (on s a i t) im bm) (Hf : file_ok (dev t) bm (din i)).

Lemma ptr_bounds k : 0 <= ptr (dev t) (din i) k /\ (ptr (dev t) (din i) k <> 0 -> ptr (dev t) (din i) k < d_len (dev t)).
Proof using Hf.
  split.
  - unfold ptr. destruct (ptrs (dev t) (din i) !! Z.to_nat k) as [p|] eqn:E; simpl; [|done].
    pose proof (fb_nonneg _ _ _ Hf) as [_ Hp]%Forall_cons. by eapply Forall_lookup in E.
  - intros Hne. by apply (fb_alloc _ _ _ Hf), ptr_in_blocks.
Qed.

Lemma indirect_bounds : 0 <= i_indirect (din i) /\ (i_indirect (din i) <> 0 ->
  DATA_START <= i_indirect (din i) < d_len (dev t) /\ allocated bm (i_indirect (din i))).
Proof using Hf.
  pose proof (fb_nonneg _ _ _ Hf) as [? _]%Forall_cons. split; [done|]. intros Hne.
  destruct (fb_alloc _ _ _ Hf (i_indirect (din i))) as [Hal Hl].
  { apply elem_of_file_blocks. split; [by left|done]. }
  pose proof Hal as [? _]. split; [lia|done].
Qed.

(** testfs_read_block reads the logical block. *)
Lemma read_block_run k :
  0 <= k < MAX_BLOCKS ->
  testfs_read_block a k (on s a i t) = Ret ((ptr (dev t) (din i) k, file_block (dev t) (din i) k), on s a i t).
Proof using Hf.
  intros Hk. pose proof geo_files. pose proof (di_len _ (fb_dinode _ _ _ Hf)) as Hlen. geo.
  destruct (ptr_bounds k) as [Hp Hpl]. destruct indirect_bounds as [Hi0 Hi]. unfold testfs_read_block.
  rewrite (proj2 (Z.leb_le 0 k)) by lia. st_run. rewrite on_get. unfold NR_DIRECT_BLOCKS in *.
  destruct (Z.ltb_spec k 10).
  { rewrite (run_lift (ptr (dev t) (din i) k)) by (by rewrite (ptr_direct (dev t)) by (done || lia)). by apply read_phys_run. }
  rewrite (proj2 (Z.leb_gt _ _)) by lia.
  pose proof (ptr_indirect (dev t) (din i) (k - 10) Hlen ltac:(lia)) as Ek. replace (10 + (k - 10)) with k in Ek by lia.
  destruct (Z.ltb_spec 0 (i_indirect (din i))).
  - destruct Hi as [? _]; [lia|].
    rewrite (on_sb_run _ _ _ _ _ _ _ _ (sb_read_run t (i_indirect (din i)) ltac:(lia))). rewrite <- Ek. by apply read_phys_run.
  - unfold file_block. rewrite Ek. done.
Qed.

Lemma read_block_too_big k :
  MAX_BLOCKS <= k -> testfs_read_block a k (on s a i t) = Ret ((- ENOSYS, []), on s a i t).
Proof using Type.
  intros Hk. pose proof geo_files. unfold testfs_read_block, NR_DIRECT_BLOCKS.
  rewrite (proj2 (Z.leb_le 0 k)) by lia. st_run. rewrite on_get.
  rewrite (proj2 (Z.ltb_ge _ _)) by lia. rewrite (proj2 (Z.leb_le _ _)) by lia. done.
Qed.

End one_file.

Lemma zlen_file_block d x k : disk_ok d -> zlen (file_block d x k) = BLOCK_SIZE /\ Forall is_byte (file_block d x k).
Proof.
  intros Hd. unfold file_block. destruct (ptr d x k =? 0); split;
    auto using zlen_zero, zlen_block_at, block_at_bytes, zero_bytes.
Qed.

Lemma s32_add x y : s32 (s32 x + y) = s32 (x + y).
Proof. unfold s32. replace ((x + 2 ^ 31) mod 2 ^ 32 - 2 ^ 31 + y + 2 ^ 31) with ((x + 2 ^ 31) mod 2 ^ 32 + y) by lia.
  rewrite Zplus_mod_idemp_l. f_equal. f_equal. lia. Qed.

(** A store to the dinode of an inode that is dirty already. *)
Lemma on_ok_set s im bm a i t f :
  fs_ok (on s a i t) im bm -> dirty i -> dinode_ok (f (din i)) -> fs_ok (on s a (set_din (f (din i)) i) t) im bm.
Proof.
  intros Hs Hd Hf. eapply on_ok_data; [done| |done]. destruct (on_ok_inode _ _ _ _ _ _ Hs).
  constructor; cbn; try done. unfold dirty in Hd. rewrite Hd. done.
Qed.

Lemma dinode_ok_indirect q d : dinode_ok d -> in_s32 q -> dinode_ok (set_i_indirect q d).
Proof. intros [] Hq. by constructor. Qed.
Lemma dinode_ok_block_nr k p d : dinode_ok d -> in_s32 p -> dinode_ok (set_i_block_nr (<[k := p]> (i_block_nr d)) d).
Proof.
  intros [] Hp. constructor; cbn; try done; [by rewrite length_insert|by apply Forall_insert].
Qed.
Lemma dinode_ok_size n d : dinode_ok d -> in_s64 n -> dinode_ok (set_i_size n d).
Proof. intros [] Hn. by constructor. Qed.

(** ** Allocating a block of a file *)

Lemma alloc_range r : DATA_START <= r < DATA_START + BMAP_BITS -> 0 < r /\ in_s32 r.
Proof. geo. unfold in_s32. lia. Qed.

(** The second half of testfs_allocate_block. *)
Lemma allocate_entry_ok s im bm a i t k ind ia :
  fs_ok (on s a i t) im bm -> 0 <= k < NR_INDIRECT_BLOCKS -> zlen ind = BLOCK_SIZE -> Forall is_byte ind ->
  get_ptr ind k = 0 -> allocated bm (i_indirect (din i)) ->
  (exists r bm' t', allocate_entry a k ind ia (on s a i t) = Ret (r, on s a (counted 1 i) t') /\
     fs_ok (on s a (counted 1 i) t') im bm' /\
     DATA_START <= r < DATA_START + BMAP_BITS /\ ~ allocated bm r /\ (forall b, allocated bm' b <-> allocated bm b \/ b = r) /\
     (forall b, INODE_START <= b -> b <> i_indirect (din i) -> block_at (dev t') b = block_at (dev t) b) /\
     block_at (dev t') (i_indirect (din i)) = set_ptr ind k r /\
     d_len (dev t) <= d_len (dev t') /\ i_indirect (din i) < d_len (dev t')) \/
  (if ia then
     exists bm' t', let i' := set_din (set_i_indirect 0 (din (counted (-1) i))) (counted (-1) i) in
     allocate_entry a k ind ia (on s a i t) = Ret (- ENOSPC, on s a i' t') /\
     fs_ok (on s a i' t') im bm' /\
     (forall b, allocated bm' b <-> allocated bm b /\ b <> i_indirect (din i)) /\
     (forall b, INODE_START <= b -> b <> i_indirect (din i) -> block_at (dev t') b = block_at (dev t) b) /\
     d_len (dev t) <= d_len (dev t')
   else allocate_entry a k ind ia (on s a i t) = Ret (- ENOSPC, on s a i t)).
Proof.
  intros Hs Hk Hl Hby Hz Hq. pose proof Hq as [Hqr _]. geo. unfold allocate_entry. rewrite Hz.
  change (0 =? 0) with true. st_run.
  destruct (on_alloc s im bm a i t Hs) as [(r & bm1 & t1 & E & Hs1 & Hb1 & Hl1 & Hr & Hna & Hal & Hn)|[E _]]; st_call E; rewrite on_get.
  - left. destruct (alloc_range r Hr) as [Hr0 _]. rewrite (proj2 (Z.leb_le 0 r)) by lia.
    change (i_indirect (din (counted 1 i))) with (i_indirect (din i)).
    pose proof (zlen_set_ptr ind k r Hl Hk) as Hzl.
    rewrite (on_sb_run _ _ _ _ _ _ _ _ (sb_write_run t1 (i_indirect (din i)) _ ltac:(lia) Hzl)). st_run.
    eexists r, bm1, _. split; [reflexivity|]. cbn [set_dev dev]. split_and!; try done; try lia.
    + apply on_ok_write; [done|lia|done|by apply set_ptr_bytes].
    + intros b Hb Hne. by rewrite write_block1_at, decide_False, Hb1 by lia.
    + by rewrite write_block1_at, decide_True.
    + cbn [write_block1 d_len]. lia.
    + cbn [write_block1 d_len]. lia.
  - right. change (0 <=? - ENOSPC) with false. cbv iota. destruct ia; [|done].
    destruct (on_free s im bm a i t _ Hs Hq) as (bm1 & t1 & E1 & Hs1 & Hal1 & Hb1 & Hl1 & _). st_call E1.
    rewrite on_upd_din. st_run. exists bm1, t1. split_and!; try done.
    eapply on_ok_data; [done| |done]. destruct (on_ok_inode _ _ _ _ _ _ Hs1) as [? ? Hdin ? ?]. constructor; cbn; try done.
    by destruct Hdin; constructor.
Qed.

(** Logical block [k] of the file [x] on [d] is physical block [p] in [x'] on [d'],
    where before it was [p] already or there was none. *)
Record alloc_post (d : disk) (bm : bitmap) (x : dinode) (k : Z) (d' : disk) (bm' : bitmap) (x' : dinode) (p : Z) : Prop := AllocPost {
  ap_ptrs : ptrs d' x' = <[Z.to_nat k := p]> (ptrs d x);
  ap_pos : DATA_START <= p;
  ap_old : ptr d x k = 0 \/ ptr d x k = p;
  ap_new : exists new, file_blocks d' x' ≡ₚ new ++ file_blocks d x /\ NoDup new /\
    (forall b, b ∈ new -> ~ allocated bm b) /\ (forall b, allocated bm' b <-> allocated bm b \/ b ∈ new) /\
    block_count x' = s32 (block_count x + zlen new) /\ (forall b, b ∈ new -> b <> p -> b < d_len d');
  ap_same b : INODE_START <= b -> b < DATA_START \/ allocated bm b -> b <> i_indirect x -> block_at d' b = block_at d b;
  ap_len : d_len d <= d_len d';
  ap_size : i_size x' = i_size x;
  ap_type : i_type x' = i_type x;
  ap_ind : i_indirect x' = i_indirect x \/ (i_indirect x = 0 /\ 0 < i_indirect x' /\ 10 <= k)
}.

Lemma ptrs_lookup d x k : 0 <= k < MAX_BLOCKS -> length (i_block_nr x) = 10%nat -> ptrs d x !! Z.to_nat k = Some (ptr d x k).
Proof.
  intros Hk Hl. unfold ptr. destruct (lookup_lt_is_Some_2 (ptrs d x) (Z.to_nat k)) as [p Hp]; [|by rewrite Hp].
  rewrite length_ptrs by done. lia.
Qed.

(** A block that is already there. *)
Lemma alloc_post_old d bm x k :
  file_ok d bm x -> 0 <= k < MAX_BLOCKS -> ptr d x k <> 0 -> alloc_post d bm x k d bm x (ptr d x k).
Proof.
  intros Hf Hk Hp. pose proof (di_len _ (fb_dinode _ _ _ Hf)) as Hlen.
  pose proof (ptrs_lookup d x k Hk Hlen) as Hlook.
  constructor; try done; [by rewrite list_insert_id| |by right| |by left].
  - destruct (fb_alloc _ _ _ Hf (ptr d x k)) as [[? _] _]; [by apply ptr_in_blocks|lia].
  - exists []. split_and!; try done; [constructor|set_solver|set_solver| |set_solver].
    change (zlen (@nil Z)) with 0. rewrite Z.add_0_r. symmetry. apply s32_small. by destruct (fb_dinode _ _ _ Hf).
Qed.

(** One new block, stored in an existing place. *)
Lemma alloc_post_one d bm x k d' bm' x' p :
  file_ok d bm x -> 0 <= k < MAX_BLOCKS -> ptr d x k = 0 -> DATA_START <= p -> ~ allocated bm p ->
  (forall b, allocated bm' b <-> allocated bm b \/ b = p) ->
  ptrs d' x' = <[Z.to_nat k := p]> (ptrs d x) -> i_indirect x' = i_indirect x ->
  block_count x' = s32 (block_count x + 1) -> i_size x' = i_size x -> i_type x' = i_type x ->
  (forall b, INODE_START <= b -> b < DATA_START \/ allocated bm b -> b <> i_indirect x -> block_at d' b = block_at d b) ->
  d_len d <= d_len d' -> alloc_post d bm x k d' bm' x' p.
Proof.
  intros Hf Hk Hp Hpos Hna Hal Hptrs Hind Hcnt Hsz Hty Hsame Hlen. geo.
  pose proof (di_len _ (fb_dinode _ _ _ Hf)) as Hl. pose proof (ptrs_lookup d x k Hk Hl) as Hlook. rewrite Hp in Hlook.
  constructor; try done; [by left| |by left].
  exists [p]. split_and!; try done.
  - unfold file_blocks. rewrite Hptrs, Hind, !nonzero_cons.
    pose proof (nonzero_insert _ _ p Hlook ltac:(lia)) as Hperm.
    case_decide; [by rewrite Hperm|]. rewrite Hperm. apply Permutation_swap.
  - apply NoDup_singleton.
  - by intros b ->%list_elem_of_singleton.
  - intros b. by rewrite list_elem_of_singleton, Hal.
  - intros b ->%list_elem_of_singleton. done.
Qed.

(** What a failed allocation leaves: the same file, and the same blocks in use. *)
Definition alloc_failed s im bm a i t (m : FS (Z * list Z)) : Prop :=
  exists blk fl bm' t', m (on s a i t) = Ret ((- ENOSPC, blk), on s a (set_i_flags fl i) t') /\
    fs_ok (on s a (set_i_flags fl i) t') im bm' /\ (forall b, allocated bm' b <-> allocated bm b) /\
    (forall b, INODE_START <= b -> b < DATA_START \/ allocated bm b -> block_at (dev t') b = block_at (dev t) b) /\
    d_len (dev t) <= d_len (dev t').
Definition alloc_done s im bm a i t k (m : FS (Z * list Z)) : Prop :=
  exists p i' bm' t', m (on s a i t) = Ret ((p, file_block (dev t) (din i) k), on s a i' t') /\
    fs_ok (on s a i' t') im bm' /\ i_nr i' = i_nr i /\ i_count i' = i_count i /\
    alloc_post (dev t) bm (din i) k (dev t') bm' (din i') p.

Lemma alloc_failed_nothing s im bm a i t m blk :
  fs_ok (on s a i t) im bm -> m (on s a i t) = Ret ((- ENOSPC, blk), on s a i t) -> alloc_failed s im bm a i t m.
Proof. intros Hs E. exists blk, (i_flags i), bm, t. assert (Hi : set_i_flags (i_flags i) i = i) by by destruct i. by rewrite Hi. Qed.

Section allocate.
Context (s : fs) (im bm : bitmap) (a : Z) (i : inode) (t : super_block) (k : Z).
Hypotheses (Hs : fs_ok (on s a i t) im bm) (Hf : file_ok (dev t) bm (din i)) (Hk : 0 <= k < MAX_BLOCKS)
  (Hnone : ptr (dev t) (din i) k = 0).

Lemma hypotheses_ok : dinode_ok (din i) /\ disk_ok (dev t) /\ length (i_block_nr (din i)) = 10%nat.
Proof using Hs Hf.
  split_and!; [apply (fb_dinode _ _ _ Hf)|apply (sr_disk _ _ _ (on_ok_super _ _ _ _ _ _ Hs))|].
  apply (di_len _ (fb_dinode _ _ _ Hf)).
Qed.

Lemma read_none : testfs_read_block a k (on s a i t) = Ret ((0, zero), on s a i t).
Proof using Hf Hk Hnone.
  rewrite (read_block_run s bm a i t Hf k Hk). unfold file_block. by rewrite Hnone.
Qed.

Lemma file_block_none : file_block (dev t) (din i) k = zero.
Proof using Hnone. unfold file_block. by rewrite Hnone. Qed.

Lemma allocate_direct :
  k < 10 -> alloc_done s im bm a i t k (testfs_allocate_block a k) \/
    alloc_failed s im bm a i t (testfs_allocate_block a k) /\ no_room bm t.
Proof using Hs Hf Hk Hnone.
  intros Hk10. destruct hypotheses_ok as (Hdi & Hdk & Hlen). geo.
  assert (Estart : forall Q, testfs_allocate_block a k (on s a i t) = Q <->
    (p ← testfs_alloc_block_for_inode a;
     if 0 <=? p then
       _ ← upd_din a (fun d => set_i_block_nr (<[Z.to_nat k := p]> (i_block_nr d)) d); mret (p, zero)
     else mret (p, zero)) (on s a i t) = Q).
  { intros Q. unfold testfs_allocate_block. rewrite (proj2 (Z.leb_le 0 k)) by lia. st_run. st_call read_none.
    change (negb (0 =? 0)) with false. cbv iota. rewrite on_get. unfold NR_DIRECT_BLOCKS.
    rewrite (proj2 (Z.ltb_lt k 10)) by lia. rewrite (ptr_direct (dev t)) by (done || lia). rewrite Hnone.
    cbn [deref]. rewrite (run_lift 0) by done. st_run. done. }
  destruct (on_alloc s im bm a i t Hs) as [(r & bm1 & t1 & E & Hs1 & Hb1 & Hl1 & Hr & Hna & Hal & Hn)|E].
  - left. destruct (alloc_range r Hr) as [Hr0 Hrs]. eexists r, _, bm1, t1. rewrite file_block_none.
    split; [apply Estart; st_call E; rewrite (proj2 (Z.leb_le 0 r)) by lia; rewrite on_upd_din; reflexivity|].
    split_and!; try done.
    + apply (on_ok_set s im bm1 a (counted 1 i)); [done..|]. apply dinode_ok_block_nr; [|done].
      by apply dinode_ok_count.
    + apply alloc_post_one; try done; [lia| |].
      * unfold ptrs. cbn [counted dirtied set_i_flags set_din din set_i_block_nr set_block_count i_block_nr i_indirect].
        rewrite insert_app_l by lia. f_equal. destruct (Z.ltb_spec 0 (i_indirect (din i))); [|done].
        f_equal. apply Hb1. destruct (indirect_bounds bm i t Hf) as [_ Hi]. lia.
      * intros b Hb _ _. by apply Hb1.
  - destruct E as [E Hno]. right. split; [|done]. eapply alloc_failed_nothing; [done|]. apply Estart. st_call E. change (0 <=? - ENOSPC) with false. reflexivity.
Qed.

Lemma start_indirect Q :
  10 <= k ->
  testfs_allocate_block a k (on s a i t) = Q <->
  (if i_indirect (din i) =? 0 then
     p ← testfs_alloc_block_for_inode a;
     if p <? 0 then mret (p, zero)
     else
       _ ← upd_din a (set_i_indirect p);
       p ← allocate_entry a (k - 10) zero true;
       mret (p, zero)
   else
     indirect ← on_sb (sb_read (i_indirect (din i)) 1);
     p ← allocate_entry a (k - 10) indirect false;
     mret (p, zero)) (on s a i t) = Q.
Proof using Hf Hk Hnone.
  intros Hk10. pose proof geo_files. unfold testfs_allocate_block.
  rewrite (proj2 (Z.leb_le 0 k)) by lia. st_run. st_call read_none.
  change (negb (0 =? 0)) with false. cbv iota. rewrite on_get. unfold NR_DIRECT_BLOCKS.
  rewrite (proj2 (Z.ltb_ge k 10)) by lia. by rewrite (proj2 (Z.leb_gt NR_INDIRECT_BLOCKS (k - 10))) by lia.
Qed.

Lemma ptrs_set_entry d x' blk r :
  i_block_nr x' = i_block_nr (din i) -> 0 < i_indirect x' -> 10 <= k -> in_s32 r -> zlen blk = BLOCK_SIZE ->
  block_at d (i_indirect x') = set_ptr blk (k - 10) r ->
  (if 0 <? i_indirect (din i) then entries (block_at (dev t) (i_indirect (din i)))
   else replicate (Z.to_nat NR_INDIRECT_BLOCKS) 0) = entries blk ->
  ptrs d x' = <[Z.to_nat k := r]> (ptrs (dev t) (din i)).
Proof using Hs Hf Hk.
  intros Eb Hi Hk10 Hr Hl Hd He. destruct hypotheses_ok as (_ & _ & Hlen). pose proof geo_files.
  unfold ptrs at 1. rewrite (proj2 (Z.ltb_lt _ _)) by done. rewrite Hd, entries_set, <- He, Eb by (done || lia).
  unfold ptrs. replace (Z.to_nat k) with (length (i_block_nr (din i)) + Z.to_nat (k - 10))%nat by lia.
  by rewrite insert_app_r.
Qed.

Lemma allocate_indirect :
  10 <= k -> i_indirect (din i) <> 0 ->
  alloc_done s im bm a i t k (testfs_allocate_block a k) \/ alloc_failed s im bm a i t (testfs_allocate_block a k).
Proof using Hs Hf Hk Hnone.
  intros Hk10 Hi. destruct hypotheses_ok as (Hdi & Hdk & Hlen). geo. pose proof geo_files.
  destruct (indirect_bounds bm i t Hf) as [Hi0 Hib]. destruct (Hib Hi) as [Hq Hqa].
  set (q := i_indirect (din i)) in *. set (ind := block_at (dev t) q).
  pose proof (zlen_block_at _ q Hdk) as Hzl. fold ind in Hzl.
  assert (Hz : get_ptr ind (k - 10) = 0).
  { pose proof (ptr_indirect (dev t) (din i) (k - 10) Hlen ltac:(lia)) as E. replace (10 + (k - 10)) with k in E by lia.
    rewrite Hnone in E. fold q in E. rewrite (proj2 (Z.ltb_lt 0 q)) in E by lia. by symmetry. }
  assert (Estart : forall Q, testfs_allocate_block a k (on s a i t) = Q <->
    (p ← allocate_entry a (k - 10) ind false; mret (p, zero)) (on s a i t) = Q).
  { intros Q. rewrite (start_indirect Q Hk10). fold q. rewrite (proj2 (Z.eqb_neq q 0)) by done.
    by rewrite (on_sb_run _ _ _ _ _ _ _ _ (sb_read_run t q ltac:(lia))). }
  destruct (allocate_entry_ok s im bm a i t (k - 10) ind false Hs ltac:(lia) Hzl (block_at_bytes _ _ Hdk) Hz Hqa)
    as [(r & bm1 & t1 & E & Hs1 & Hr & Hna & Hal & Hb & Hbq & Hl & _)|E].
  - left. destruct (alloc_range r Hr) as [Hr0 Hrs]. eexists r, _, bm1, t1. rewrite file_block_none.
    split; [apply Estart; st_call E; reflexivity|]. split_and!; try done.
    apply alloc_post_one; try done; [lia| |].
    + apply (ptrs_set_entry _ _ ind r); try done; [cbn; lia|]. fold q. by rewrite (proj2 (Z.ltb_lt 0 q)) by lia.
    + intros b Hb' _ Hne. by apply Hb.
  - right. eapply alloc_failed_nothing; [done|]. apply Estart. st_call E. reflexivity.
Qed.

Lemma allocate_indirect_new :
  10 <= k -> i_indirect (din i) = 0 ->
  alloc_done s im bm a i t k (testfs_allocate_block a k) \/ alloc_failed s im bm a i t (testfs_allocate_block a k).
Proof using Hs Hf Hk Hnone.
  intros Hk10 Hi. destruct hypotheses_ok as (Hdi & Hdk & Hlen). geo. pose proof geo_files.
  destruct (on_alloc s im bm a i t Hs) as [(q & bm1 & t1 & E & Hs1 & Hb1 & Hl1 & Hq & Hnaq & Hal1 & _)|[E _]].
  2:{ right. eapply alloc_failed_nothing; [done|]. apply start_indirect; [done|]. rewrite Hi.
      change (0 =? 0) with true. cbv iota. st_call E. reflexivity. }
  destruct (alloc_range q Hq) as [Hq0 Hqs]. set (i1 := set_din (set_i_indirect q (din (counted 1 i))) (counted 1 i)).
  assert (Hs1' : fs_ok (on s a i1 t1) im bm1).
  { apply (on_ok_set s im bm1 a (counted 1 i) t1 (set_i_indirect q)); [done..|].
    apply dinode_ok_indirect; [by apply dinode_ok_count|done]. }
  assert (Estart : forall Q, testfs_allocate_block a k (on s a i t) = Q <->
    (p ← allocate_entry a (k - 10) zero true; mret (p, zero)) (on s a i1 t1) = Q).
  { intros Q. rewrite (start_indirect Q Hk10), Hi. change (0 =? 0) with true. cbv iota. st_call E.
    rewrite (proj2 (Z.ltb_ge q 0)) by lia. by rewrite on_upd_din. }
  assert (Hqa : allocated bm1 (i_indirect (din i1))) by (apply Hal1; by right).
  assert (Hz : get_ptr zero (k - 10) = 0).
  { pose proof (lookup_entries zero (k - 10) ltac:(lia)) as E'. rewrite entries_zero, lookup_replicate_2 in E' by lia. by injection E'. }
  assert (Hent : (if 0 <? i_indirect (din i) then entries (block_at (dev t) (i_indirect (din i)))
     else replicate (Z.to_nat NR_INDIRECT_BLOCKS) 0) = entries zero) by (rewrite Hi; by rewrite entries_zero).
  destruct (allocate_entry_ok s im bm1 a i1 t1 (k - 10) zero true Hs1' ltac:(lia) zlen_zero zero_bytes Hz Hqa)
    as [(r & bm2 & t2 & E2 & Hs2 & Hr & Hnar & Hal2 & Hb2 & Hbq & Hl2 & Hql)|(bm2 & t2 & E2 & Hs2 & Hal2 & Hb2 & Hl2)];
    cbn [i1 set_din din set_i_indirect i_indirect] in *.
  - left. destruct (alloc_range r Hr) as [Hr0 Hrs]. eexists r, _, bm2, t2. rewrite file_block_none.
    split; [apply Estart; st_call E2; reflexivity|]. split_and!; try done.
    assert (Hptrs : ptrs (dev t2) (din (counted 1 i1)) = <[Z.to_nat k := r]> (ptrs (dev t) (din i))).
    { apply (ptrs_set_entry _ _ zero r); try done. apply zlen_zero. }
    assert (Hne : q <> r) by (intros ->; apply Hnar, Hal1; by right).
    constructor; try done; [lia|by left| | |lia|right; cbn; lia].
    + exists [r; q]. split_and!.
      * unfold file_blocks. rewrite Hptrs, Hi. change (i_indirect (din (counted 1 i1))) with q.
        rewrite !nonzero_cons, decide_False, decide_True by (done || lia).
        rewrite (nonzero_insert _ _ r) by (lia || (rewrite <- Hnone; by apply ptrs_lookup)). apply Permutation_swap.
      * apply NoDup_cons. rewrite list_elem_of_singleton. split; [done|apply NoDup_singleton].
      * intros b [->| ->%list_elem_of_singleton]%elem_of_cons; [|done]. intros Hb. apply Hnar, Hal1. by left.
      * intros b. rewrite Hal2, Hal1, !elem_of_cons, elem_of_nil. tauto.
      * cbn. rewrite s32_add. f_equal. change (zlen [r; q]) with 2. lia.
      * intros b [->| ->%list_elem_of_singleton]%elem_of_cons; done.
    + intros b Hb Hba Hbi. rewrite Hb2, Hb1; [done|done|done|]. intros ->. destruct Hba as [?|?]; [lia|done].
  - right. assert (Hii : set_din (set_i_indirect 0 (din (counted (-1) i1))) (counted (-1) i1) = set_i_flags I_FLAGS_DIRTY i).
    { unfold counted, dirtied, set_i_flags, set_din, i1. cbn. f_equal. unfold set_i_indirect, set_block_count. cbn.
      destruct Hdi. rewrite s32_add. destruct (din i). cbn in *. subst. f_equal.
      replace (block_count + 1 + -1) with block_count by lia. by apply s32_small. }
    cbv zeta in E2, Hs2. rewrite Hii in E2, Hs2.
    exists zero, I_FLAGS_DIRTY, bm2, t2. split_and!; try done.
    + apply Estart. st_call E2. reflexivity.
    + intros b. rewrite Hal2, Hal1. split; [tauto|]. intros Hb. split; [by left|]. intros ->. done.
    + intros b Hb Hba. rewrite Hb2, Hb1; [done|done|done|]. intros ->. destruct Hba as [?|?]; [lia|done].
    + lia.
Qed.

End allocate.

(** testfs_allocate_block, on every branch. *)
Lemma allocate_block_ok s im bm a i t k :
  fs_ok (on s a i t) im bm -> file_ok (dev t) bm (din i) -> 0 <= k < MAX_BLOCKS ->
  alloc_done s im bm a i t k (testfs_allocate_block a k) \/
  ptr (dev t) (din i) k = 0 /\ (k < 10 -> no_room bm t) /\ alloc_failed s im bm a i t (testfs_allocate_block a k).
Proof.
  intros Hs Hf Hk. destruct (decide (ptr (dev t) (din i) k = 0)) as [Hz|Hnz].
  - destruct (decide (k < 10)).
    { destruct (allocate_direct s im bm a i t k Hs Hf Hk Hz) as [?|[? ?]]; [done|by left|by right]. }
    assert (Hor : alloc_done s im bm a i t k (testfs_allocate_block a k) \/ alloc_failed s im bm a i t (testfs_allocate_block a k));
      [|destruct Hor; [by left|right; by split_and!; [|intros ?|]]].
    destruct (decide (i_indirect (din i) = 0)); [apply allocate_indirect_new|apply allocate_indirect]; done || lia.
  - left. exists (ptr (dev t) (din i) k), i, bm, t. split_and!; try done; [|by apply alloc_post_old].
    unfold testfs_allocate_block. rewrite (proj2 (Z.leb_le 0 k)) by lia. st_run.
    st_call (read_block_run s bm a i t Hf k Hk). by rewrite (proj2 (Z.eqb_neq _ 0)) by done.
Qed.

(** ** Writing *)

(** What a change of the file [x] does to the rest of the file system. *)
Record file_step (d : disk) (bm : bitmap) (x : dinode) (d' : disk) (bm' : bitmap) (x' : dinode) : Prop := FileStep {
  st_new b : b ∈ file_blocks d' x' -> b ∈ file_blocks d x \/ ~ allocated bm b;
  st_same b : INODE_START <= b -> b < DATA_START \/ allocated bm b -> b ∉ file_blocks d x -> block_at d' b = block_at d b;
  st_alloc b : allocated bm' b <-> (allocated bm b /\ b ∉ file_blocks d x) \/ b ∈ file_blocks d' x';
  st_len : d_len d <= d_len d'
}.

Lemma geo_max : MAX_BLOCKS * BLOCK_SIZE < 2 ^ 60 /\ MAX_BLOCKS < 2 ^ 30 /\ BLOCK_SIZE < 2 ^ 28.
Proof. geo. pose proof geo_files. unfold DATA_START in *. assert (BLOCK_SIZE < 2 ^ 28) by nia. nia. Qed.

(** The file after its block [k] has been written to [p]. *)
Lemma file_written d bm x k d' bm' x' p blk last :
  file_ok d bm x -> 0 <= k < MAX_BLOCKS -> alloc_post d bm x k d' bm' x' p -> dinode_ok x' ->
  k * BLOCK_SIZE < last <= MAX_BLOCKS * BLOCK_SIZE ->
  let d2 := write_block1 d' p blk in let x2 := set_i_size (Z.max (i_size x') last) x' in
  file_ok d2 bm' x2 /\ file_step d bm x d2 bm' x2 /\
  forall j, 0 <= j < MAX_BLOCKS -> file_block d2 x2 j = if decide (j = k) then blk else file_block d x j.
Proof.
  intros Hf Hk [] Hdi Hlast d2 x2. geo. pose proof geo_files. pose proof geo_max.
  pose proof (di_len _ (fb_dinode _ _ _ Hf)) as Hl. destruct ap_new0 as (new & Hperm & Hnd & Hfree & Hal & Hcnt & Hnl).
  assert (Hin : forall b, b ∈ file_blocks d x -> allocated bm b) by (intros b Hb; by apply (fb_alloc _ _ _ Hf)).
  assert (Hnd' : NoDup (file_blocks d' x')).
  { rewrite Hperm. apply NoDup_app. split_and!; [done| |apply (fb_nodup _ _ _ Hf)].
    intros b Hb Hb'. by apply (Hfree b Hb), Hin. }
  assert (Hlook : ptrs d' x' !! Z.to_nat k = Some p).
  { rewrite ap_ptrs0. apply list_lookup_insert_eq. rewrite length_ptrs by done. lia. }
  assert (Hind : i_indirect x' <> p).
  { intros E. assert (0%nat = S (Z.to_nat k)); [|done].
    apply (nonzero_unique (i_indirect x' :: ptrs d' x') _ _ p Hnd'); [by rewrite E|done|lia]. }
  assert (Hptrs : ptrs d2 x2 = <[Z.to_nat k := p]> (ptrs d x)).
  { rewrite <- ap_ptrs0. change (ptrs d2 x2) with (ptrs d2 x'). apply ptrs_same. intros _.
    subst d2. by rewrite write_block1_at, decide_False by done. }
  assert (Hfb : file_blocks d2 x2 = file_blocks d' x').
  { unfold file_blocks. by rewrite Hptrs, ap_ptrs0. }
  assert (Hptr : forall j, 0 <= j -> ptr d2 x2 j = if decide (j = k) then p else ptr d x j).
  { intros j Hj. unfold ptr. rewrite Hptrs, list_lookup_insert, length_ptrs by done.
    repeat case_decide; subst; done || lia. }
  assert (Hpin : p ∈ file_blocks d' x').
  { apply elem_of_file_blocks. split; [right; by eapply list_elem_of_lookup_2|lia]. }
  assert (Hother : forall b, b ∈ file_blocks d x -> b <> i_indirect x -> b <> p -> block_at d2 b = block_at d b).
  { intros b Hb Hne Hbp. subst d2. rewrite write_block1_at, decide_False by done.
    destruct (Hin b Hb) as [? ?] eqn:E. clear E. apply ap_same0; [lia|right; by apply Hin|done]. }
  assert (Hp_old : ptr d x k = 0 -> p ∉ file_blocks d x).
  { intros Hz Hb. destruct (decide (p ∈ new)) as [Hn|Hn]; [by apply (Hfree p Hn), Hin|].
    apply elem_of_file_blocks in Hb as [[E|(j & Hj)%list_elem_of_lookup] _].
    - destruct ap_ind0 as [E'|(E' & _)]; congruence || lia.
    - assert (Hjk : j <> Z.to_nat k).
      { intros ->. unfold ptr in Hz. rewrite Hj in Hz. simpl in Hz. lia. }
      apply Hjk. assert (S j = S (Z.to_nat k)); [|lia].
      apply (nonzero_unique (i_indirect x' :: ptrs d' x') _ _ p Hnd'); simpl; [|done|lia].
      by rewrite ap_ptrs0, list_lookup_insert_ne. }
  split_and!.
  - constructor; rewrite ?Hfb.
    + apply dinode_ok_size; [done|]. pose proof (fb_size _ _ _ Hf). unfold in_s64. rewrite ap_size0. lia.
    + rewrite Hptrs. pose proof (fb_nonneg _ _ _ Hf) as [Hn1 Hn2]%Forall_cons. apply Forall_cons.
      split; [cbn; destruct ap_ind0 as [->|]; lia|]. apply Forall_insert; [done|lia].
    + done.
    + intros b Hb. rewrite Hperm in Hb. split.
      * apply Hal. apply elem_of_app in Hb as [?|?]; [by right|left; by apply Hin].
      * subst d2. cbn [write_block1 d_len]. apply elem_of_app in Hb as [Hb|Hb].
        -- destruct (decide (b = p)) as [->|Hne]; [lia|]. specialize (Hnl b Hb Hne). lia.
        -- destruct (fb_alloc _ _ _ Hf b Hb). lia.
    + cbn. rewrite Hcnt. rewrite (fb_count _ _ _ Hf). unfold zlen. rewrite Hperm, length_app.
      assert (Hle : (length (file_blocks d' x') <= S (length (ptrs d' x')))%nat).
      { unfold file_blocks, nonzero. etrans; [apply length_filter|]. done. }
      rewrite Hperm, length_app, ap_ptrs0, length_insert, length_ptrs in Hle by done.
      rewrite s32_small by (unfold in_s32; lia). lia.
    + cbn. rewrite ap_size0. pose proof (fb_size _ _ _ Hf). lia.
    + intros j Hj. cbn. rewrite ap_size0. destruct (decide (0 <= j)) as [Hj0|]; [|pose proof (fb_size _ _ _ Hf); assert (j * BLOCK_SIZE < 0) by (apply Z.mul_neg_pos; lia); lia].
      rewrite Hptr in Hj by done. case_decide; [subst; lia|]. pose proof (fb_tail _ _ _ Hf j Hj). lia.
    + intros Hi. cbn in Hi |- *. rewrite ap_size0. unfold NR_DIRECT_BLOCKS. destruct ap_ind0 as [E|(E & _ & ?)].
      * rewrite E in Hi. pose proof (fb_ind _ _ _ Hf Hi). unfold NR_DIRECT_BLOCKS in *. lia.
      * assert (10 * BLOCK_SIZE <= k * BLOCK_SIZE) by (apply Z.mul_le_mono_nonneg_r; lia). lia.
  - constructor; rewrite ?Hfb.
    + intros b Hb. rewrite Hperm in Hb. apply elem_of_app in Hb as [?|?]; [right; by apply Hfree|by left].
    + intros b Hb Hba Hnot. assert (Hbp : b <> p).
      { intros ->. destruct Hba as [?|Hba]; [lia|]. rewrite Hperm in Hpin.
        apply elem_of_app in Hpin as [?|?]; [by apply (Hfree p)|done]. }
      subst d2. rewrite write_block1_at, decide_False by done. apply ap_same0; [done|done|]. intros ->.
      apply Hnot, elem_of_file_blocks. split; [by left|lia].
    + intros b. rewrite Hal, Hperm, elem_of_app. destruct (decide (b ∈ file_blocks d x)); [|tauto].
      split; [auto|]. intros _. left. by apply Hin.
    + subst d2. cbn [write_block1 d_len]. lia.
  - intros j Hj. unfold file_block. rewrite Hptr by lia. case_decide as E.
    + rewrite (proj2 (Z.eqb_neq p 0)) by lia. subst d2. by rewrite write_block1_at, decide_True.
    + destruct (Z.eqb_spec (ptr d x j) 0) as [|Hjz]; [done|]. apply Hother; [by apply ptr_in_blocks|..].
      * intros Ei. assert (0%nat = S (Z.to_nat j)); [|done].
        apply (nonzero_unique (i_indirect x :: ptrs d x) _ _ (ptr d x j) (fb_nodup _ _ _ Hf)); simpl; [by rewrite Ei|by apply ptrs_lookup|done].
      * intros Ep. destruct ap_old0 as [Hz|Hpk]; [apply (Hp_old Hz); rewrite <- Ep; by apply ptr_in_blocks|].
        apply E. assert (Z.to_nat j = Z.to_nat k); [|lia].
        assert (Hnd2 : NoDup (nonzero (ptrs d x))).
        { pose proof (fb_nodup _ _ _ Hf) as Hn. unfold file_blocks in Hn. rewrite nonzero_cons in Hn.
          case_decide; [done|]. by apply NoDup_cons in Hn as [_ ?]. }
        apply (nonzero_unique (ptrs d x) _ _ (ptr d x j) Hnd2); [by apply ptrs_lookup|rewrite Ep, <- Hpk; by apply ptrs_lookup|done].
Qed.

Lemma u64_neg x : - 2 ^ 64 <= x < 0 -> u64 x = 2 ^ 64 + x.
Proof. intros Hx. unfold u64. symmetry. apply (Z.mod_unique _ _ (- 1)); lia. Qed.

Lemma add_s64_run x y : 0 <= x -> 0 <= y -> x + y < 2 ^ 63 -> add_s64 x y = Ret (x + y).
Proof.
  intros. unfold add_s64. by rewrite (proj2 (Z.leb_le _ _)), (proj2 (Z.ltb_lt _ _)) by lia.
Qed.

(** An access that lies in one logical block of the files. *)
Record in_block (start size : Z) : Prop := InBlock {
  ib_start : 0 <= start;
  ib_size : 0 < size;
  ib_fits : start mod BLOCK_SIZE + size <= BLOCK_SIZE;
  ib_block : start / BLOCK_SIZE < MAX_BLOCKS
}.

Lemma in_block_bounds start size :
  in_block start size ->
  Z.quot start BLOCK_SIZE = start / BLOCK_SIZE /\ Z.rem start BLOCK_SIZE = start mod BLOCK_SIZE /\
  0 <= start / BLOCK_SIZE /\ s32 (start / BLOCK_SIZE) = start / BLOCK_SIZE /\ 0 <= start mod BLOCK_SIZE /\
  u64 (start mod BLOCK_SIZE + size) = start mod BLOCK_SIZE + size /\ s32 size = size /\ s64 size = size /\
  start / BLOCK_SIZE * BLOCK_SIZE < start + size <= MAX_BLOCKS * BLOCK_SIZE /\ start + size < 2 ^ 60.
Proof.
  intros [H0 H1 H2 H3]. assert (HB : 0 < BLOCK_SIZE) by (geo; lia). pose proof geo_max as (Hm & ? & ?).
  pose proof (Z.div_mod start BLOCK_SIZE (Z.neq_sym _ _ (Z.lt_neq _ _ HB))) as Hdm.
  pose proof (Z.mod_pos_bound start BLOCK_SIZE HB).
  assert (0 <= start / BLOCK_SIZE) by (apply Z.div_pos; lia).
  assert ((start / BLOCK_SIZE + 1) * BLOCK_SIZE <= MAX_BLOCKS * BLOCK_SIZE) by (apply Z.mul_le_mono_nonneg_r; lia).
  rewrite Z.quot_div_nonneg, Z.rem_mod_nonneg by lia.
  rewrite u64_small, !s32_small, s64_small by (unfold in_u64, in_s32, in_s64; lia). split_and!; done || lia.
Qed.

(** Storing [buf] at [off] in a block. *)
Lemma block_splice (blk buf : list Z) off :
  zlen blk = BLOCK_SIZE -> Forall is_byte blk -> Forall is_byte buf -> 0 <= off -> off + zlen buf <= BLOCK_SIZE ->
  zlen (splice off buf blk) = BLOCK_SIZE /\ Forall is_byte (splice off buf blk).
Proof. intros. split; [rewrite zlen_splice; lia|by apply Forall_splice]. Qed.

Lemma on_set_size_dirty {B} s a i t last (f : unit -> FS B) :
  (upd_din a (fun d => set_i_size (Z.max (i_size d) last) d) ≫= fun _ => mark_dirty a ≫= f) (on s a i t) =
  f tt (on s a (set_i_flags (Z.lor (i_flags i) I_FLAGS_DIRTY)
                  (set_din (set_i_size (Z.max (i_size (din i)) last) (din i)) i)) t).
Proof. by rewrite on_upd_din, on_dirty. Qed.

(** testfs_write_data once the logical block and the offset in it are known. *)
Definition write_core (a k ix : Z) (buf : list Z) (last : Z) : FS Z :=
  '(ret, block) ← testfs_allocate_block a k;
  if ret <? 0 then mret ret
  else
    _ ← on_sb (sb_write (splice ix buf block) ret 1);
    _ ← upd_din a (fun d => set_i_size (Z.max (i_size d) last) d);
    _ ← mark_dirty a; mret (zlen buf).

(** The block number is the one the offset has when it is cut to 32 bits. *)
Lemma write_data_core s a buf tl start :
  0 <= start -> 0 < zlen buf -> start mod BLOCK_SIZE + zlen buf <= BLOCK_SIZE -> start + zlen buf < 2 ^ 63 ->
  testfs_write_data a (buf ++ tl) start (zlen buf) s =
  write_core a (s32 (start / BLOCK_SIZE)) (start mod BLOCK_SIZE) buf (start + zlen buf) s.
Proof.
  intros H0 H1 H2 H3. assert (HB : 0 < BLOCK_SIZE) by (geo; lia). pose proof geo_max as (_ & _ & ?).
  pose proof (Z.mod_pos_bound start BLOCK_SIZE HB). unfold testfs_write_data, write_core.
  rewrite Z.quot_div_nonneg, Z.rem_mod_nonneg by lia. set (ix := start mod BLOCK_SIZE) in *. set (k := s32 (start / BLOCK_SIZE)).
  assert (Hsl : slice 0 (zlen buf) (buf ++ tl) = buf).
  { unfold slice, zlen. rewrite drop_0, Nat2Z.id. apply take_app_length. }
  assert (Htl : zlen buf <= zlen (buf ++ tl)) by (unfold zlen; rewrite length_app; lia).
  rewrite u64_small, Hsl by (unfold in_u64; lia). rewrite (s32_small (zlen buf)), s64_small by (unfold in_s32, in_s64; lia).
  rewrite (proj2 (Z.ltb_ge BLOCK_SIZE (ix + zlen buf))) by lia.
  rewrite (proj2 (Z.leb_le 0 ix)), (proj2 (Z.leb_le (ix + zlen buf) BLOCK_SIZE)), (proj2 (Z.leb_le (zlen buf) (zlen (buf ++ tl)))),
    (proj2 (Z.ltb_lt 0 (zlen buf))) by lia.
  rewrite add_s64_run by lia. cbn [andb]. apply bind_ext. intros [ret block] s1. destruct (ret <? 0); [done|].
  apply bind_ext. intros [] s2. st_run. by rewrite (run_lift (start + zlen buf)).
Qed.

Definition written (d : disk) (x : dinode) start (buf : list Z) (d' : disk) (x' : dinode) : Prop :=
  i_size x' = Z.max (i_size x) (start + zlen buf) /\ i_type x' = i_type x /\
  forall j, 0 <= j < MAX_BLOCKS -> file_block d' x' j =
    if decide (j = start / BLOCK_SIZE) then splice (start mod BLOCK_SIZE) buf (file_block d x j) else file_block d x j.

(** testfs_write_data within one block. *)
Lemma write_data_ok s im bm a i t buf tl start :
  fs_ok (on s a i t) im bm -> file_ok (dev t) bm (din i) -> in_block start (zlen buf) -> Forall is_byte buf ->
  (exists i' bm' t', testfs_write_data a (buf ++ tl) start (zlen buf) (on s a i t) = Ret (zlen buf, on s a i' t') /\
     fs_ok (on s a i' t') im bm' /\ i_nr i' = i_nr i /\ i_count i' = i_count i /\ dirty i' /\
     file_ok (dev t') bm' (din i') /\ file_step (dev t) bm (din i) (dev t') bm' (din i') /\
     written (dev t) (din i) start buf (dev t') (din i')) \/
  (exists fl bm' t', testfs_write_data a (buf ++ tl) start (zlen buf) (on s a i t) = Ret (- ENOSPC, on s a (set_i_flags fl i) t') /\
     fs_ok (on s a (set_i_flags fl i) t') im bm' /\ (forall b, allocated bm' b <-> allocated bm b) /\
     (forall b, INODE_START <= b -> b < DATA_START \/ allocated bm b -> block_at (dev t') b = block_at (dev t) b) /\
     d_len (dev t) <= d_len (dev t') /\ ptr (dev t) (din i) (start / BLOCK_SIZE) = 0 /\
     (start / BLOCK_SIZE < 10 -> no_room bm t)).
Proof.
  intros Hs Hf Hib Hby. destruct (in_block_bounds _ _ Hib) as (Eq & Er & Hk0 & Ek & Hix & Eu & Es & E64 & Hlast & Hmax).
  pose proof Hib as [H0 H1 H2 H3]. geo. set (k := start / BLOCK_SIZE) in *. set (ix := start mod BLOCK_SIZE) in *.
  pose proof (sr_disk _ _ _ (on_ok_super _ _ _ _ _ _ Hs)) as Hdk.
  rewrite write_data_core by (done || lia). fold k ix. rewrite Ek. unfold write_core.
  destruct (allocate_block_ok s im bm a i t k Hs Hf ltac:(lia)) as [(p & i1 & bm1 & t1 & E & Hs1 & Hnr & Hcnt & Hpost)|
    (Hptr & Hno & blk & fl & bm1 & t1 & E & Hs1 & Hal & Hsame & Hlen)].
  - left. pose proof (ap_pos _ _ _ _ _ _ _ _ Hpost) as Hp.
    destruct (zlen_file_block (dev t) (din i) k Hdk) as [Hbl Hbb].
    destruct (block_splice _ buf ix Hbl Hbb Hby Hix H2) as [Hzl Hzb]. set (blk := splice ix buf _) in *.
    pose proof (fs_ok_dinode _ _ _ _ _ Hs1 (on_lookup s a i1 t1)) as Hdi.
    destruct (file_written _ _ _ _ _ _ _ _ blk (start + zlen buf) Hf (conj Hk0 H3) Hpost Hdi Hlast) as (Hf2 & Hstep & Hblocks).
    st_call E. rewrite (proj2 (Z.ltb_ge p 0)) by lia. st_call (on_sb_run s a i1 t1 _ _ _ _ (sb_write_run t1 p blk ltac:(lia) Hzl)).
    rewrite on_set_size_dirty. st_run. pose proof (on_ok_inode _ _ _ _ _ _ Hs1) as Hio.
    rewrite lor_dirty by apply Hio. eexists _, bm1, _. split; [reflexivity|]. cbn [set_dev dev]. split_and!; try done.
    + eapply on_ok_data; [by apply on_ok_write| |done]. destruct Hio. constructor; cbn; try done; [|by right].
      apply Hf2.
    + split_and!; cbn.
      * by rewrite (ap_size _ _ _ _ _ _ _ _ Hpost).
      * apply (ap_type _ _ _ _ _ _ _ _ Hpost).
      * intros j Hj. cbn in Hblocks. rewrite Hblocks by done. fold k ix. case_decide as E'; [by rewrite E'|done].
  - right. exists fl, bm1, t1. st_call E. by split_and!.
Qed.

(** A write that needs a block past the indirect one, or that crosses a block
    boundary, is refused and changes nothing. *)
Lemma write_data_refused s a i t buf start size :
  0 <= start -> 0 <= size < 2 ^ 62 -> start / BLOCK_SIZE < 2 ^ 31 ->
  BLOCK_SIZE < start mod BLOCK_SIZE + size \/ MAX_BLOCKS <= start / BLOCK_SIZE ->
  testfs_write_data a buf start size (on s a i t) = Ret (- ENOSYS, on s a i t).
Proof.
  intros H0 H1 Hk Hbig. assert (HB : 0 < BLOCK_SIZE) by (geo; lia). pose proof geo_max as (_ & _ & ?). unfold testfs_write_data.
  rewrite Z.quot_div_nonneg, Z.rem_mod_nonneg by lia. pose proof (Z.mod_pos_bound start BLOCK_SIZE HB).
  assert (0 <= start / BLOCK_SIZE) by (apply Z.div_pos; lia).
  rewrite u64_small by (unfold in_u64; lia). destruct (Z.ltb_spec BLOCK_SIZE (start mod BLOCK_SIZE + size)); [done|].
  destruct Hbig as [?|Hbig]; [lia|]. rewrite (s32_small (start / BLOCK_SIZE)) by (unfold in_s32; lia).
  unfold testfs_allocate_block. rewrite (proj2 (Z.leb_le 0 (start / BLOCK_SIZE))) by lia. st_run.
  by st_call (read_block_too_big s a i t _ Hbig).
Qed.

(** testfs_read_data, on every branch.  The size is cut off at the end of the
    file; past the end it is negative, a huge size_t, and where the unsigned
    sum with the offset wraps around to a small number the memcpy has that
    size. *)
Lemma read_data_run s bm a i t cap start size (n := Z.min size (i_size (din i) - start)) :
  file_ok (dev t) bm (din i) -> disk_ok (dev t) -> 0 <= start -> 0 <= size -> start + size < 2 ^ 63 ->
  testfs_read_data a cap start size (on s a i t) =
  if decide (0 <= start mod BLOCK_SIZE + n <= BLOCK_SIZE /\ start / BLOCK_SIZE < MAX_BLOCKS) then
    if decide (0 <= n <= cap) then
      Ret ((n, slice (start mod BLOCK_SIZE) n (file_block (dev t) (din i) (start / BLOCK_SIZE))), on s a i t)
    else Fail Undef
  else Ret ((- ENOSYS, []), on s a i t).
Proof.
  intros Hf Hdk H0 H1 H2. assert (HB : 0 < BLOCK_SIZE) by (geo; lia). pose proof geo_max as (Hm & ? & ?).
  pose proof (Z.mod_pos_bound start BLOCK_SIZE HB) as Hix. set (ix := start mod BLOCK_SIZE) in *.
  pose proof (Z.div_mod start BLOCK_SIZE (Z.neq_sym _ _ (Z.lt_neq _ _ HB))) as Hdm. fold ix in Hdm.
  assert (Hk0 : 0 <= start / BLOCK_SIZE) by (apply Z.div_pos; lia). set (k := start / BLOCK_SIZE) in *.
  pose proof (fb_size _ _ _ Hf) as Hsz. unfold testfs_read_data.
  rewrite Z.quot_div_nonneg, Z.rem_mod_nonneg by lia. fold k ix. rewrite on_get, s64_small by (unfold in_s64; lia).
  rewrite (run_lift (start + size)) by (apply add_s64_run; lia).
  assert (En : (if i_size (din i) <? start + size then u64 (i_size (din i) - start) else size) = u64 n).
  { unfold n. destruct (Z.ltb_spec (i_size (din i)) (start + size)); [by rewrite Z.min_r by lia|].
    rewrite Z.min_l by lia. symmetry. apply u64_small. unfold in_u64. lia. }
  rewrite En. assert (Eu : u64 (ix + u64 n) = u64 (ix + n)) by (unfold u64; apply Z.add_mod_idemp_r; lia).
  rewrite Eu. assert (Hn : - 2 ^ 63 < n <= size) by lia.
  destruct (Z.ltb_spec (ix + n) 0) as [Hneg|Hpos].
  { rewrite decide_False by lia. rewrite u64_neg by lia. by rewrite (proj2 (Z.ltb_lt _ _)) by lia. }
  rewrite (u64_small (ix + n)) by (unfold in_u64; lia).
  destruct (Z.ltb_spec BLOCK_SIZE (ix + n)); [by rewrite decide_False by lia|].
  assert (Hk : k <= MAX_BLOCKS).
  { apply (Zmult_le_reg_r _ _ BLOCK_SIZE); [lia|]. unfold n in *. lia. }
  rewrite (s32_small k) by (unfold in_s32; lia). destruct (Z.ltb_spec k MAX_BLOCKS) as [Hk1|].
  2:{ rewrite decide_False by lia. by st_call (read_block_too_big s a i t k ltac:(lia)). }
  rewrite decide_True by lia. st_call (read_block_run s bm a i t Hf _ (conj Hk0 Hk1)).
  destruct (ptr_bounds bm i t Hf k) as [Hp _]. rewrite (proj2 (Z.ltb_ge _ 0)) by lia.
  rewrite (proj2 (Z.leb_le 0 ix)) by lia. cbn [andb]. destruct (Z.ltb_spec n 0) as [Hn0|Hn0].
  - rewrite decide_False by lia. rewrite u64_neg by lia. by rewrite (proj2 (Z.leb_gt _ _)) by lia.
  - rewrite (u64_small n) by (unfold in_u64; lia). rewrite (proj2 (Z.leb_le _ _)) by lia. cbn [andb].
    destruct (Z.leb_spec n cap); [|by rewrite decide_False by lia].
    rewrite decide_True by lia. by rewrite s32_small by (unfold in_s32; lia).
Qed.

(** testfs_read_data within one block of the file. *)
Lemma read_data_ok s bm a i t cap start size :
  file_ok (dev t) bm (din i) -> disk_ok (dev t) -> in_block start size -> start + size <= i_size (din i) -> size <= cap ->
  testfs_read_data a cap start size (on s a i t) =
  Ret ((size, slice (start mod BLOCK_SIZE) size (file_block (dev t) (din i) (start / BLOCK_SIZE))), on s a i t).
Proof.
  intros Hf Hdk Hib Hsz Hcap.
  destruct (in_block_bounds _ _ Hib) as (_ & _ & _ & _ & Hix & _ & _ & _ & _ & Hmax). destruct Hib as [H0 H1 H2 H3].
  rewrite (read_data_run s bm a i t cap start size) by (done || lia). rewrite Z.min_l by lia.
  by rewrite !decide_True by lia.
Qed.

(** ** Releasing the blocks of a file *)

(** The blocks of [seg] have been released from the inode. *)
Record freed (s : fs) (im : bitmap) (a : Z) (i : inode) (bm : bitmap) (t : super_block) (seg : list Z)
    (i' : inode) (bm' : bitmap) (t' : super_block) : Prop := Freed {
  fr_ok : fs_ok (on s a i' t') im bm';
  fr_alloc b : allocated bm' b <-> allocated bm b /\ b ∉ seg;
  fr_same b : INODE_START <= b -> b ∉ seg -> block_at (dev t') b = block_at (dev t) b;
  fr_len : d_len (dev t) <= d_len (dev t');
  fr_count : block_count (din i') = s32 (block_count (din i) - zlen seg);
  fr_ind : i_indirect (din i') = i_indirect (din i);
  fr_size : i_size (din i') = i_size (din i);
  fr_type : i_type (din i') = i_type (din i);
  fr_nr : i_nr i' = i_nr i;
  fr_refs : i_count i' = i_count i
}.

Lemma freed_nil s im a i bm t : fs_ok (on s a i t) im bm -> freed s im a i bm t [] i bm t.
Proof.
  intros Hs. constructor; try done; [set_solver|]. change (zlen (@nil Z)) with 0. rewrite Z.sub_0_r.
  symmetry. apply s32_small. destruct (on_ok_inode _ _ _ _ _ _ Hs) as [_ _ [] _ _]. done.
Qed.

Lemma freed_app s im a i bm t seg i1 bm1 t1 seg' i2 bm2 t2 :
  freed s im a i bm t seg i1 bm1 t1 -> freed s im a i1 bm1 t1 seg' i2 bm2 t2 ->
  freed s im a i bm t (seg ++ seg') i2 bm2 t2.
Proof.
  intros [] []. constructor; try done; try congruence.
  - intros b. rewrite fr_alloc1, fr_alloc0, elem_of_app. tauto.
  - intros b Hb Hnot. rewrite elem_of_app in Hnot. rewrite fr_same1, fr_same0 by tauto. done.
  - lia.
  - rewrite fr_count1, fr_count0. unfold zlen. rewrite length_app.
    rewrite <- Z.add_opp_r, s32_add. f_equal. lia.
Qed.

Lemma freed_one s im a i bm t p :
  fs_ok (on s a i t) im bm -> allocated bm p ->
  exists bm' t', testfs_free_block_from_inode a p (on s a i t) = Ret (tt, on s a (counted (-1) i) t') /\
    freed s im a i bm t [p] (counted (-1) i) bm' t'.
Proof.
  intros Hs Hp. destruct (on_free s im bm a i t p Hs Hp) as (bm' & t' & E & Hs' & Hal & Hb & Hl & _).
  exists bm', t'. split; [done|]. constructor; try done.
  - intros b. by rewrite Hal, list_elem_of_singleton.
  - intros b Hge Hnot. apply Hb; [done|]. by rewrite list_elem_of_singleton in Hnot.
Qed.

(** A store to the pointers keeps the rest. *)
Lemma freed_set s im a i bm t seg i' bm' t' l :
  freed s im a i bm t seg i' bm' t' -> dirty i' -> dinode_ok (set_i_block_nr l (din i')) ->
  freed s im a i bm t seg (set_din (set_i_block_nr l (din i')) i') bm' t'.
Proof. intros [] Hd Hok. constructor; try done. by apply (on_ok_set s im bm' a i' t' (set_i_block_nr l)). Qed.

Lemma free_direct_ok n s im a j i bm t :
  fs_ok (on s a i t) im bm -> (j + n <= 10)%nat ->
  let seg := nonzero (take n (drop j (i_block_nr (din i)))) in
  NoDup seg -> (forall p, p ∈ seg -> allocated bm p) ->
  exists i' bm' t', free_direct n a (Z.of_nat j) (on s a i t) = Ret (tt, on s a i' t') /\
    freed s im a i bm t seg i' bm' t' /\
    i_block_nr (din i') = take j (i_block_nr (din i)) ++ replicate n 0 ++ drop (j + n) (i_block_nr (din i)).
Proof.
  revert j i bm t. induction n as [|n IH]; intros j i bm t Hs Hjn seg Hnd Hal.
  { exists i, bm, t. split_and!; [done|by apply freed_nil|]. by rewrite Nat.add_0_r, app_nil_l, take_drop. }
  cbn [free_direct]. rewrite on_get. pose proof (on_ok_inode _ _ _ _ _ _ Hs) as [_ _ Hdi _ _].
  pose proof (di_len _ Hdi) as Hl. set (l := i_block_nr (din i)) in *.
  destruct (lookup_lt_is_Some_2 l j) as [p Hp]; [lia|]. rewrite Nat2Z.id, Hp. rewrite (run_lift p) by done.
  assert (Hseg : take (S n) (drop j l) = p :: take n (drop (S j) l)) by (by rewrite (drop_S l p j Hp)).
  replace (Z.of_nat j + 1) with (Z.of_nat (S j)) by lia. subst seg. rewrite Hseg, nonzero_cons in *.
  destruct (Z.eqb_spec p 0) as [->|Hp0].
  - rewrite decide_True in * by done. destruct (IH (S j) i bm t Hs ltac:(lia) Hnd Hal) as (i' & bm' & t' & E & Hfr & Hl').
    exists i', bm', t'. split_and!; [done|done|]. rewrite Hl'. fold l. rewrite (take_S_r l j 0 Hp).
    replace (S j + n)%nat with (j + S n)%nat by lia. by rewrite <- app_assoc.
  - rewrite decide_False in * by done. apply NoDup_cons in Hnd as [Hnot Hnd].
    destruct (freed_one s im a i bm t p Hs) as (bm1 & t1 & E1 & Hfr1); [by apply Hal; left|]. st_call E1. rewrite on_upd_din.
    set (i1 := set_din _ (counted (-1) i)).
    assert (Hfr1' : freed s im a i bm t [p] i1 bm1 t1).
    { apply freed_set; [done..|]. apply (dinode_ok_block_nr j 0); [by apply dinode_ok_count|done]. }
    assert (El : i_block_nr (din i1) = <[j := 0]> l) by done.
    destruct (IH (S j) i1 bm1 t1 (fr_ok _ _ _ _ _ _ _ _ _ _ Hfr1') ltac:(lia)) as (i' & bm' & t' & E & Hfr & Hl').
    { rewrite El, drop_insert_lt by lia. done. }
    { rewrite El, drop_insert_lt by lia. intros q Hq. apply (fr_alloc _ _ _ _ _ _ _ _ _ _ Hfr1').
      split; [apply Hal; by right|]. rewrite list_elem_of_singleton. by intros ->. }
    exists i', bm', t'. split_and!; [done| |].
    + rewrite El, drop_insert_lt in Hfr by lia. by apply (freed_app _ _ _ _ _ _ [p] _ _ _ _ _ _ _ Hfr1' Hfr).
    + rewrite Hl', El, drop_insert_lt by lia.
      rewrite (take_S_r _ j 0) by (apply list_lookup_insert_eq; lia). rewrite take_insert_ge by lia.
      replace (S j + n)%nat with (j + S n)%nat by lia. by rewrite <- app_assoc.
Qed.

Lemma free_entries_ok n s im a j blk i bm t :
  fs_ok (on s a i t) im bm -> 0 <= j -> j + Z.of_nat n <= NR_INDIRECT_BLOCKS -> zlen blk = BLOCK_SIZE ->
  let seg := nonzero (get_ptr blk <$> seqZ j (Z.of_nat n)) in
  NoDup seg -> (forall p, p ∈ seg -> allocated bm p) ->
  exists i' bm' t', free_entries n a j blk (on s a i t) = Ret (tt, on s a i' t') /\
    freed s im a i bm t seg i' bm' t' /\ i_block_nr (din i') = i_block_nr (din i).
Proof.
  revert j blk i bm t. induction n as [|n IH]; intros j blk i bm t Hs Hj Hjn Hl seg Hnd Hal.
  { exists i, bm, t. split_and!; [done|by apply freed_nil|done]. }
  cbn [free_entries]. subst seg. rewrite (seqZ_cons j) in * by lia. replace (Z.pred (Z.of_nat (S n))) with (Z.of_nat n) in * by lia.
  rewrite fmap_cons, nonzero_cons in *. replace (Z.succ j) with (j + 1) in * by lia.
  destruct (Z.eqb_spec (get_ptr blk j) 0) as [E0|Hp0].
  - rewrite decide_True in * by done. apply IH; done || lia.
  - rewrite decide_False in * by done. apply NoDup_cons in Hnd as [Hnot Hnd].
    destruct (freed_one s im a i bm t (get_ptr blk j) Hs) as (bm1 & t1 & E1 & Hfr1); [by apply Hal; left|]. st_call E1.
    assert (Eseg : get_ptr (set_ptr blk j 0) <$> seqZ (j + 1) (Z.of_nat n) = get_ptr blk <$> seqZ (j + 1) (Z.of_nat n)).
    { apply list_fmap_ext. intros k x Hk. apply lookup_seqZ in Hk as [-> Hk].
      rewrite get_set_ptr by (done || lia). by rewrite decide_False by lia. }
    destruct (IH (j + 1) (set_ptr blk j 0) _ bm1 t1 (fr_ok _ _ _ _ _ _ _ _ _ _ Hfr1)) as (i' & bm' & t' & E & Hfr & Hl');
      [lia|lia|apply zlen_set_ptr; done || lia|by rewrite Eseg| |].
    { rewrite Eseg. intros q Hq. apply (fr_alloc _ _ _ _ _ _ _ _ _ _ Hfr1). split; [apply Hal; by right|].
      rewrite list_elem_of_singleton. by intros ->. }
    rewrite Eseg in Hfr. exists i', bm', t'. split_and!; [done| |done].
    by apply (freed_app _ _ _ _ _ _ [get_ptr blk j] _ _ _ _ _ _ _ Hfr1 Hfr).
Qed.

(** What testfs_free_blocks leaves of a file. *)
Record file_freed (s : fs) (im : bitmap) (a : Z) (i : inode) (bm : bitmap) (t : super_block)
    (i' : inode) (bm' : bitmap) (t' : super_block) : Prop := FileFreed {
  ff_ok : fs_ok (on s a i' t') im bm';
  ff_alloc b : allocated bm' b <-> allocated bm b /\ b ∉ file_blocks (dev t) (din i);
  ff_same b : INODE_START <= b -> b ∉ file_blocks (dev t) (din i) -> block_at (dev t') b = block_at (dev t) b;
  ff_len : d_len (dev t) <= d_len (dev t');
  ff_empty : i_block_nr (din i') = replicate 10 0 /\ i_indirect (din i') = 0 /\ i_size (din i') = 0 /\ block_count (din i') = 0;
  ff_type : i_type (din i') = i_type (din i);
  ff_dirty : dirty i';
  ff_nr : i_nr i' = i_nr i;
  ff_refs : i_count i' = i_count i
}.

(** The number of logical blocks of a file. *)
Lemma last_block d bm x :
  file_ok d bm x ->
  exists e, (sum ← add_s64 (i_size x) (BLOCK_SIZE - 1); Ret (s32 (Z.quot sum BLOCK_SIZE))) = Ret e /\
    add_s64 (i_size x) (BLOCK_SIZE - 1) = Ret (i_size x + (BLOCK_SIZE - 1)) /\
    s32 (Z.quot (i_size x + (BLOCK_SIZE - 1)) BLOCK_SIZE) = e /\
    0 <= e <= MAX_BLOCKS /\ (forall k, k * BLOCK_SIZE < i_size x -> k < e).
Proof.
  intros Hf. pose proof (fb_size _ _ _ Hf) as [Hs0 Hs1]. assert (HB : 0 < BLOCK_SIZE) by (geo; lia). pose proof geo_max as (? & ? & ?).
  assert (Ea : add_s64 (i_size x) (BLOCK_SIZE - 1) = Ret (i_size x + (BLOCK_SIZE - 1))) by (apply add_s64_run; lia).
  rewrite Ea. cbn [mbind res_bind]. rewrite Z.quot_div_nonneg by lia. set (e := (i_size x + (BLOCK_SIZE - 1)) / BLOCK_SIZE).
  pose proof (Z.div_mod (i_size x + (BLOCK_SIZE - 1)) BLOCK_SIZE ltac:(lia)) as Hdm. fold e in Hdm.
  pose proof (Z.mod_pos_bound (i_size x + (BLOCK_SIZE - 1)) BLOCK_SIZE HB).
  assert (0 <= e) by (apply Z.div_pos; lia).
  assert (e <= MAX_BLOCKS).
  { apply Z.lt_succ_r. apply Z.div_lt_upper_bound; lia. }
  exists e. rewrite s32_small by (unfold in_s32; lia). split_and!; try done. intros k Hk. nia.
Qed.

Lemma file_freed_intro s im a i bm t seg i1 bm1 t1 y :
  freed s im a i bm t seg i1 bm1 t1 -> file_ok (dev t) bm (din i) -> seg ≡ₚ file_blocks (dev t) (din i) ->
  dinode_ok y -> i_block_nr y = replicate 10 0 -> i_indirect y = 0 -> block_count y = block_count (din i1) ->
  i_type y = i_type (din i1) ->
  file_freed s im a i bm t (set_i_flags I_FLAGS_DIRTY (set_din (set_i_size 0 y) i1)) bm1 t1.
Proof.
  intros [] Hf Hseg Hy El Ei Ec Et.
  assert (Hmem : forall b, b ∈ seg <-> b ∈ file_blocks (dev t) (din i)) by (intros b; by rewrite Hseg).
  constructor; cbn; try done.
  - eapply on_ok_data; [done| |done]. destruct (on_ok_inode _ _ _ _ _ _ fr_ok0) as [? ? Hdi ? ?].
    constructor; cbn; try done; [|by right]. by apply (dinode_ok_size 0).
  - intros b. by rewrite fr_alloc0, Hmem.
  - intros b Hb Hnot. apply fr_same0; [done|by rewrite Hmem].
  - split_and!; try done. rewrite Ec, fr_count0, (fb_count _ _ _ Hf). unfold zlen. rewrite Hseg, Z.sub_diag. done.
  - congruence.
Qed.

(** The end of testfs_free_blocks. *)
Lemma free_blocks_end s a i t e :
  e - NR_INDIRECT_BLOCKS <= 0 -> - 2 ^ 30 < e ->
  (if 0 <? s32 (e - NR_INDIRECT_BLOCKS) then mret (- ENOSYS)
   else _ ← upd_din a (set_i_size 0); _ ← mark_dirty a; mret 0) (on s a i t) =
  Ret (0, on s a (set_i_flags (Z.lor (i_flags i) I_FLAGS_DIRTY) (set_din (set_i_size 0 (din i)) i)) t).
Proof.
  intros H1 H2. pose proof geo_files. pose proof geo_max as (_ & ? & ?). rewrite s32_small by (unfold in_s32; lia).
  rewrite (proj2 (Z.ltb_ge 0 _)) by lia. by rewrite on_upd_din, on_dirty.
Qed.

Section free.
Context (s : fs) (im bm : bitmap) (a : Z) (i : inode) (t : super_block).
Hypotheses (Hs : fs_ok (on s a i t) im bm) (Hf : file_ok (dev t) bm (din i)).

(** The pointers past the last block are zero. *)
Lemma ptrs_tail e k : (forall k, k * BLOCK_SIZE < i_size (din i) -> k < e) -> e <= k -> ptr (dev t) (din i) k = 0.
Proof using Hf.
  intros He Hk. destruct (decide (ptr (dev t) (din i) k = 0)) as [|Hne]; [done|].
  pose proof (He k (fb_tail _ _ _ Hf k Hne)). lia.
Qed.

Lemma direct_seg e :
  0 <= e -> (forall k, k * BLOCK_SIZE < i_size (din i) -> k < e) ->
  let n := Z.to_nat (Z.min e NR_DIRECT_BLOCKS) in let l := i_block_nr (din i) in
  (n <= 10)%nat /\ nonzero (take n l) = nonzero l /\ replicate n 0 ++ drop n l = replicate 10 0.
Proof using Hf.
  intros He0 He n l. pose proof (di_len _ (fb_dinode _ _ _ Hf)) as Hl. fold l in Hl. unfold NR_DIRECT_BLOCKS in n.
  assert (Hn : (n <= 10)%nat) by lia.
  destruct (nonzero_zeros (drop n l)) as [Hz1 Hz2].
  { intros j p Hj. rewrite lookup_drop in Hj. pose proof (lookup_lt_Some _ _ _ Hj).
    pose proof (ptr_direct (dev t) (din i) (Z.of_nat (n + j)) Hl ltac:(lia)) as E. fold l in E.
    rewrite Nat2Z.id, Hj in E. injection E as ->. apply (ptrs_tail e); [done|lia]. }
  split_and!; [done| |].
  - rewrite <- (take_drop n l) at 2. by rewrite nonzero_app, Hz1, app_nil_r.
  - rewrite Hz2, length_drop, Hl, <- replicate_add. f_equal. lia.
Qed.

Lemma entries_seg e :
  0 < i_indirect (din i) -> (forall k, k * BLOCK_SIZE < i_size (din i) -> k < e) -> 0 < e - 10 ->
  let n := Z.to_nat (Z.min (e - 10) NR_INDIRECT_BLOCKS) in let blk := block_at (dev t) (i_indirect (din i)) in
  nonzero (get_ptr blk <$> seqZ 0 (Z.of_nat n)) = nonzero (entries blk) /\ 0 + Z.of_nat n <= NR_INDIRECT_BLOCKS.
Proof using Hf.
  intros Hi He He0 n blk. pose proof (di_len _ (fb_dinode _ _ _ Hf)) as Hl. pose proof geo_files.
  assert (Hn : Z.of_nat n = Z.min (e - 10) NR_INDIRECT_BLOCKS) by lia. clearbody n. split; [|lia].
  unfold entries. replace NR_INDIRECT_BLOCKS with (Z.of_nat n + (NR_INDIRECT_BLOCKS - Z.of_nat n)) by lia.
  rewrite seqZ_app by lia. rewrite fmap_app, nonzero_app.
  destruct (nonzero_zeros (get_ptr blk <$> seqZ (0 + Z.of_nat n) (NR_INDIRECT_BLOCKS - Z.of_nat n))) as [-> _]; [|by rewrite app_nil_r].
  intros j p Hj. rewrite list_lookup_fmap in Hj. apply fmap_Some in Hj as (x & Hj & ->). apply lookup_seqZ in Hj as [-> Hj].
  assert (Hr : 0 <= Z.of_nat n + Z.of_nat j < NR_INDIRECT_BLOCKS). { lia. }
  pose proof (ptr_indirect (dev t) (din i) (0 + Z.of_nat n + Z.of_nat j) Hl ltac:(lia)) as E.
  rewrite (proj2 (Z.ltb_lt 0 _)) in E by done. fold blk in E. rewrite <- E. apply (ptrs_tail e); [done|lia].
Qed.

(** The blocks in the order in which they are released. *)
Lemma file_blocks_order :
  file_blocks (dev t) (din i) ≡ₚ nonzero (i_block_nr (din i)) ++
    (if 0 <? i_indirect (din i) then nonzero (entries (block_at (dev t) (i_indirect (din i)))) ++ [i_indirect (din i)] else []).
Proof using Hf.
  pose proof (fb_nonneg _ _ _ Hf) as [Hi _]%Forall_cons. unfold file_blocks, ptrs. rewrite nonzero_cons, nonzero_app.
  destruct (Z.ltb_spec 0 (i_indirect (din i))) as [Hp|Hz].
  - rewrite decide_False by lia. rewrite app_assoc. apply Permutation_cons_append.
  - rewrite decide_True by lia. by rewrite nonzero_replicate.
Qed.

Lemma free_blocks_ok :
  exists i' bm' t', testfs_free_blocks a (on s a i t) = Ret (0, on s a i' t') /\ file_freed s im a i bm t i' bm' t'.
Proof using Hs Hf.
  destruct (last_block _ _ _ Hf) as (e & _ & Ea & Ee & [He0 He1] & He).
  pose proof geo_files as (HN1 & HN2 & HM). pose proof geo_max as (_ & Hm2 & Hm3).
  destruct (direct_seg e He0 He) as (Hn & Hseg1 & Hrep). set (n := Z.to_nat (Z.min e NR_DIRECT_BLOCKS)) in *.
  pose proof (fb_nodup _ _ _ Hf) as Hnd. rewrite file_blocks_order in Hnd. apply NoDup_app in Hnd as (Hnd1 & Hdis & Hnd2).
  assert (Hal : forall b, b ∈ file_blocks (dev t) (din i) -> allocated bm b) by (intros b Hb; by apply (fb_alloc _ _ _ Hf)).
  assert (Hal1 : forall b, b ∈ nonzero (i_block_nr (din i)) -> allocated bm b).
  { intros b Hb. apply Hal. rewrite file_blocks_order. apply elem_of_app. by left. }
  destruct (free_direct_ok n s im a 0 i bm t Hs ltac:(lia)) as (i1 & bm1 & t1 & E1 & Hfr1 & Hl1).
  { rewrite drop_0, Hseg1. done. }
  { rewrite drop_0, Hseg1. done. }
  rewrite drop_0, Hseg1 in Hfr1. cbn [take app Nat.add] in Hl1. rewrite Hrep in Hl1.
  unfold testfs_free_blocks. rewrite on_get, Ea. rewrite (run_lift (i_size (din i) + (BLOCK_SIZE - 1))) by done.
  rewrite Ee. fold n. change (Z.of_nat 0) with 0 in E1. st_call E1. unfold NR_DIRECT_BLOCKS in *.
  rewrite (s32_small (e - 10)) by (unfold in_s32; lia). rewrite on_get. rewrite (fr_ind _ _ _ _ _ _ _ _ _ _ Hfr1).
  destruct (Z.ltb_spec 0 (i_indirect (din i))) as [Hi|Hi].
  2:{ st_run. rewrite free_blocks_end by lia. pose proof (on_ok_inode _ _ _ _ _ _ (fr_ok _ _ _ _ _ _ _ _ _ _ Hfr1)) as Hio.
      rewrite lor_dirty by apply Hio. eexists _, bm1, t1. split; [reflexivity|].
      assert (i_indirect (din i) = 0) by (pose proof (fb_nonneg _ _ _ Hf) as [? _]%Forall_cons; lia).
      eapply file_freed_intro; [done..| |by destruct Hio|done|by rewrite (fr_ind _ _ _ _ _ _ _ _ _ _ Hfr1)|done|done].
      rewrite file_blocks_order, (proj2 (Z.ltb_ge 0 _)), app_nil_r by lia. done. }
  destruct (indirect_bounds bm i t Hf) as [_ Hib]. destruct Hib as [Hq Hqa]; [lia|].
  pose proof (fb_ind _ _ _ Hf ltac:(lia)) as Hbig. unfold NR_DIRECT_BLOCKS in Hbig. pose proof (He 10 Hbig).
  destruct (entries_seg e Hi He ltac:(lia)) as (Hseg2 & Hn2). set (n2 := Z.to_nat (Z.min (e - 10) NR_INDIRECT_BLOCKS)) in *.
  set (q := i_indirect (din i)) in *. set (blk := block_at (dev t) q) in *.
  assert (Hblk : block_at (dev t1) q = blk).
  { apply (fr_same _ _ _ _ _ _ _ _ _ _ Hfr1); [geo; lia|]. intros Hin. apply (Hdis q Hin). set_solver. }
  rewrite (proj2 (Z.ltb_lt 0 (e - 10))) by lia. st_run.
  pose proof (fr_len _ _ _ _ _ _ _ _ _ _ Hfr1) as Hlen1.
  rewrite (on_sb_run _ _ _ _ _ _ _ _ (sb_read_run t1 q ltac:(lia))). rewrite Hblk.
  apply NoDup_app in Hnd2 as (Hnd2 & Hdis2 & _).
  pose proof (zlen_block_at (dev t) q (sr_disk _ _ _ (on_ok_super _ _ _ _ _ _ Hs))) as Hzl. fold blk in Hzl.
  assert (Hal2 : forall b, b ∈ nonzero (entries blk) -> allocated bm1 b).
  { intros b Hb. apply (fr_alloc _ _ _ _ _ _ _ _ _ _ Hfr1). split; [|intros Hin; by apply (Hdis b Hin), elem_of_app; left].
    apply Hal. rewrite file_blocks_order. fold q blk. rewrite (proj2 (Z.ltb_lt 0 q)) by done. rewrite !elem_of_app. tauto. }
  destruct (free_entries_ok n2 s im a 0 blk i1 bm1 t1 (fr_ok _ _ _ _ _ _ _ _ _ _ Hfr1)) as (i2 & bm2 & t2 & E2 & Hfr2 & Hl2);
    [lia|lia|done|by rewrite Hseg2|by rewrite Hseg2|]. rewrite Hseg2 in Hfr2. st_run. st_call E2. rewrite on_get.
  rewrite (fr_ind _ _ _ _ _ _ _ _ _ _ Hfr2), (fr_ind _ _ _ _ _ _ _ _ _ _ Hfr1). fold q.
  destruct (freed_one s im a i2 bm2 t2 q (fr_ok _ _ _ _ _ _ _ _ _ _ Hfr2)) as (bm3 & t3 & E3 & Hfr3).
  { apply (fr_alloc _ _ _ _ _ _ _ _ _ _ Hfr2). split; [apply (fr_alloc _ _ _ _ _ _ _ _ _ _ Hfr1); split; [done|]|].
    - intros Hin. apply (Hdis q Hin). set_solver.
    - intros Hin. apply (Hdis2 q Hin). set_solver. }
  st_run. st_call E3. rewrite on_upd_din. st_run. rewrite free_blocks_end by lia.
  pose proof (on_ok_inode _ _ _ _ _ _ (fr_ok _ _ _ _ _ _ _ _ _ _ Hfr3)) as Hio.
  eexists _, bm3, t3. split; [reflexivity|].
  eapply (file_freed_intro _ _ _ _ _ _ _ (counted (-1) i2)); [|done|..].
  - eapply freed_app; [done|]. by eapply freed_app.
  - rewrite file_blocks_order. fold q blk. by rewrite (proj2 (Z.ltb_lt 0 q)) by done.
  - apply dinode_ok_indirect; [by destruct Hio|]. by unfold in_s32.
  - cbn. by rewrite Hl2.
  - done.
  - done.
  - done.
Qed.

End free.

(** An offset 2^32 blocks further on is written to the same block: only the
    size recorded differs. *)
Lemma write_data_wraps s im bm a i t buf tl start :
  fs_ok (on s a i t) im bm -> file_ok (dev t) bm (din i) -> in_block start (zlen buf) -> Forall is_byte buf ->
  let far := start + 2 ^ 32 * BLOCK_SIZE in
  (exists i' bm' t', testfs_write_data a (buf ++ tl) far (zlen buf) (on s a i t) = Ret (zlen buf, on s a i' t') /\
     fs_ok (on s a i' t') im bm' /\ i_size (din i') = far + zlen buf /\
     forall j, 0 <= j < MAX_BLOCKS -> file_block (dev t') (din i') j =
       if decide (j = start / BLOCK_SIZE) then splice (start mod BLOCK_SIZE) buf (file_block (dev t) (din i) j)
       else file_block (dev t) (din i) j) \/
  (exists fl t', testfs_write_data a (buf ++ tl) far (zlen buf) (on s a i t) = Ret (- ENOSPC, on s a (set_i_flags fl i) t')).
Proof.
  intros Hs Hf Hib Hby far. destruct (in_block_bounds _ _ Hib) as (_ & _ & Hk0 & Ek & Hix & _ & _ & _ & Hlast & Hmax).
  pose proof Hib as [H0 H1 H2 H3]. geo. pose proof geo_max as (Hmax1 & Hmax2 & ?).
  assert (Efar : far / BLOCK_SIZE = start / BLOCK_SIZE + 2 ^ 32) by (apply Z.div_add; lia).
  assert (Emod : far mod BLOCK_SIZE = start mod BLOCK_SIZE) by (apply Z.mod_add; lia).
  assert (Hfar : start < far /\ far + zlen buf < 2 ^ 63).
  { subst far. split; [|change (2 ^ 63) with (2 ^ 60 + 7 * 2 ^ 60)]; lia. }
  rewrite write_data_core by (rewrite ?Emod; lia). rewrite Efar, Emod.
  set (k := start / BLOCK_SIZE) in *. set (ix := start mod BLOCK_SIZE) in *.
  assert (Ek' : s32 (k + 2 ^ 32) = k).
  { rewrite <- Ek at 2. unfold s32. replace (k + 2 ^ 32 + 2 ^ 31) with (k + 2 ^ 31 + 1 * 2 ^ 32) by lia. by rewrite Z.mod_add. }
  rewrite Ek'. unfold write_core. pose proof (sr_disk _ _ _ (on_ok_super _ _ _ _ _ _ Hs)) as Hdk.
  destruct (allocate_block_ok s im bm a i t k Hs Hf (conj Hk0 H3)) as [(p & i1 & bm1 & t1 & E & Hs1 & Hnr & Hcnt & Hpost)|
    (_ & _ & blk & fl & bm1 & t1 & E & _)].
  - left. pose proof (ap_pos _ _ _ _ _ _ _ _ Hpost) as Hp.
    destruct (zlen_file_block (dev t) (din i) k Hdk) as [Hbl Hbb].
    destruct (block_splice _ buf ix Hbl Hbb Hby Hix H2) as [Hzl Hzb]. set (blk := splice ix buf _) in *.
    pose proof (fs_ok_dinode _ _ _ _ _ Hs1 (on_lookup s a i1 t1)) as Hdi.
    destruct (file_written _ _ _ _ _ _ _ _ blk (start + zlen buf) Hf (conj Hk0 H3) Hpost Hdi Hlast) as (_ & _ & Hblocks).
    st_call E. rewrite (proj2 (Z.ltb_ge p 0)) by lia. st_call (on_sb_run s a i1 t1 _ _ _ _ (sb_write_run t1 p blk ltac:(lia) Hzl)).
    rewrite on_set_size_dirty. st_run. pose proof (on_ok_inode _ _ _ _ _ _ Hs1) as Hio.
    pose proof (ap_size _ _ _ _ _ _ _ _ Hpost) as Esz. pose proof (fb_size _ _ _ Hf).
    assert (MAX_BLOCKS * BLOCK_SIZE <= 2 ^ 30 * BLOCK_SIZE) by (apply Z.mul_le_mono_nonneg_r; lia).
    assert (Emax : Z.max (i_size (din i1)) (far + zlen buf) = far + zlen buf) by (subst far; lia). rewrite Emax.
    rewrite lor_dirty by apply Hio. eexists _, bm1, _. split; [reflexivity|]. cbn [set_dev dev]. split_and!; try done.
    + eapply on_ok_data; [by apply on_ok_write| |done]. destruct Hio. constructor; cbn; try done; [|by right].
      apply (dinode_ok_size (far + zlen buf)); [done|]. unfold in_s64. lia.
    + intros j Hj. cbn in Hblocks. specialize (Hblocks j Hj). fold k ix.
      etrans; [exact Hblocks|]. case_decide as E'; [by rewrite E'|done].
  - right. exists fl, t1. by st_call E.
Qed.

End specs.
