(* ===== verification/World.v ===== *)
(** * The file system as a whole

    [file_of s nr] is inode number [nr] as the program sees it: the in-memory
    copy when there is one, the device otherwise.  [world_ok] is the invariant
    of a mounted file system: the layers below are well formed, every file is,
    no block belongs to two files, no block in use is lost, and a free inode
    number names an empty inode.  The theorems say that each operation keeps
    it, does to its own file what it should and nothing to the others. *)
From S2P Require Import Prelude Bytes Bitmap StateMonad Disk Super Inode ReadWrite FileBlocks ReadWriteSpec.

#[local] Ltac Zify.zify_post_hook ::= Z.to_euclidean_division_equations.

Definition loaded (m : gmap Z inode) (nr : Z) : option inode :=
  snd <$> head (filter (fun ai => i_nr ai.2 = nr) (map_to_list m)).

Lemma loaded_Some m nr i : loaded m nr = Some i -> exists a, m !! a = Some i /\ i_nr i = nr.
Proof.
  unfold loaded. destruct (filter _ _) as [|[a j] l] eqn:E; [done|]. intros [= ->]. exists a.
  assert (Hin : (a, i) ∈ filter (fun ai : Z * inode => i_nr ai.2 = nr) (map_to_list m)) by (rewrite E; by left).
  apply list_elem_of_filter in Hin as [Hnr Hin]. by apply elem_of_map_to_list in Hin.
Qed.

Lemma loaded_None m nr : loaded m nr = None -> forall a i, m !! a = Some i -> i_nr i <> nr.
Proof.
  unfold loaded. destruct (filter _ _) as [|[a j] l] eqn:E; [|done]. intros _ b i Hb Hnr.
  assert (Hin : (b, i) ∈ filter (fun ai : Z * inode => i_nr ai.2 = nr) (map_to_list m)).
  { apply list_elem_of_filter. split; [done|]. by apply elem_of_map_to_list. }
  rewrite E in Hin. by apply elem_of_nil in Hin.
Qed.

Section world.
Context `{Geometry}.

Definition file_of (s : fs) (nr : Z) : dinode :=
  match loaded (inodes s) nr with Some i => din i | None => disk_inode (dev (f_sb s)) nr end.

Record world_ok (s : fs) (im bm : bitmap) : Prop := WorldOk {
  wo_fs : fs_ok s im bm;
  wo_files : files_ok (dev (f_sb s)) bm (file_of s);
  wo_free nr : 0 <= nr < MAX_INODES -> bit im nr = false -> file_of s nr = zero_dinode
}.

Lemma file_of_loaded s im bm a i : fs_ok s im bm -> inodes s !! a = Some i -> file_of s (i_nr i) = din i.
Proof.
  intros Hs Ha. destruct (fo_hash _ _ _ Hs) as (t & _ & Hh). unfold file_of.
  destruct (loaded (inodes s) (i_nr i)) as [j|] eqn:E.
  - apply loaded_Some in E as (b & Hb & Hnr). pose proof (ht_uniq _ _ Hh _ _ _ _ Hb Ha Hnr). by simplify_eq.
  - exfalso. by eapply loaded_None in E.
Qed.

Lemma file_of_unloaded s nr :
  (forall a i, inodes s !! a = Some i -> i_nr i <> nr) -> file_of s nr = disk_inode (dev (f_sb s)) nr.
Proof.
  intros Hn. unfold file_of. destruct (loaded _ _) as [j|] eqn:E; [|done].
  apply loaded_Some in E as (b & Hb & Hnr). by destruct (Hn _ _ Hb).
Qed.

(** The view after inode [i] has become [i'] and the super block [t']. *)
Lemma file_of_on s im bm im' bm' a i i' t' n :
  fs_ok s im bm -> inodes s !! a = Some i -> fs_ok (on s a i' t') im' bm' -> i_nr i' = i_nr i ->
  (forall b, INODE_START <= b < DATA_START -> block_at (dev t') b = block_at (dev (f_sb s)) b) ->
  0 <= n < MAX_INODES -> file_of (on s a i' t') n = upd_file (file_of s) (i_nr i) (din i') n.
Proof.
  intros Hs Ha Hs' Hnr Hb Hn. unfold upd_file. case_decide as E.
  - subst n. rewrite <- Hnr. by rewrite (file_of_loaded _ _ _ a i' Hs') by apply on_lookup.
  - destruct (loaded (inodes s) n) as [j|] eqn:Ej.
    + apply loaded_Some in Ej as (b & Hbj & Hj).
      assert (b <> a) by (intros ->; simplify_eq; congruence). subst n.
      rewrite (file_of_loaded s _ _ b j Hs Hbj). apply (file_of_loaded _ _ _ b j Hs').
      unfold on. cbn [inodes]. by rewrite lookup_insert_ne.
    + pose proof (loaded_None _ _ Ej) as Hnone. rewrite (file_of_unloaded s) by done. rewrite file_of_unloaded.
      * cbn [on f_sb]. apply disk_inode_same. apply Hb. by destruct (inode_place n) as (_ & _ & _ & _ & ?).
      * intros b j. unfold on. cbn [inodes]. rewrite lookup_insert. case_decide; [intros [= <-]; congruence|apply Hnone].
Qed.

Lemma files_ok_ext d bm F F' : (forall n, 0 <= n < MAX_INODES -> F n = F' n) -> files_ok d bm F -> files_ok d bm F'.
Proof.
  intros HF [Hf Hdis Hleak]. constructor.
  - intros nr Hnr. rewrite <- HF by done. by apply Hf.
  - intros nr nr' b Hn Hn'. rewrite <- !HF by done. by apply Hdis.
  - intros b Hb. destruct (Hleak b Hb) as (n & Hn & Hin). exists n. by rewrite <- HF.
Qed.

(** The files other than [nr] are the same. *)
Definition other_files (s s' : fs) (nr : Z) : Prop :=
  forall n, 0 <= n < MAX_INODES -> n <> nr -> file_of s' n = file_of s n /\
    forall k, file_block (dev (f_sb s')) (file_of s' n) k = file_block (dev (f_sb s)) (file_of s n) k.

(** One step on the file of inode [i]; its number may become free when it is empty. *)
Lemma world_step s im bm a i i' im' bm' t' :
  world_ok s im bm -> inodes s !! a = Some i ->
  (forall n, 0 <= n < MAX_INODES -> bit im' n = false ->
     if decide (n = i_nr i) then din i' = zero_dinode else bit im n = false) ->
  fs_ok (on s a i' t') im' bm' -> i_nr i' = i_nr i ->
  file_ok (dev t') bm' (din i') -> file_step (dev (f_sb s)) bm (din i) (dev t') bm' (din i') ->
  (forall b, INODE_START <= b < DATA_START -> block_at (dev t') b = block_at (dev (f_sb s)) b) ->
  world_ok (on s a i' t') im' bm' /\ other_files s (on s a i' t') (i_nr i).
Proof.
  intros [Hs Hfiles Hfree] Ha Hbit Hs' Hnr Hf [Hnew Hsame Hal Hlen] Hb.
  pose proof (io_nr _ _ (fo_inode _ _ _ Hs _ _ Ha)) as Hr. pose proof (file_of_loaded _ _ _ _ _ Hs Ha) as Ei.
  geo. destruct (files_ok_step (dev (f_sb s)) bm (file_of s) (i_nr i) (dev t') bm' (din i') Hfiles Hr Hf) as [Hok Hoth].
  { rewrite Ei. exact Hnew. }
  { rewrite Ei. intros b Hge Hba Hnot. apply Hsame; [lia|by right|done]. }
  { rewrite Ei. exact Hal. }
  { exact Hlen. }
  assert (Hview : forall n, 0 <= n < MAX_INODES -> file_of (on s a i' t') n = upd_file (file_of s) (i_nr i) (din i') n).
  { intros n Hn. by eapply file_of_on. }
  split; [constructor|].
  - done.
  - eapply files_ok_ext; [|exact Hok]. intros n Hn. by rewrite Hview.
  - intros n Hn Hfn. specialize (Hbit n Hn Hfn). rewrite Hview by done. unfold upd_file. case_decide; [done|by apply Hfree].
  - intros n Hn Hne. rewrite Hview by done. unfold upd_file. rewrite decide_False by done. split; [done|]. by apply Hoth.
Qed.

(** A step that changes no file. *)
Lemma world_same s im bm a i i' bm' t' :
  world_ok s im bm -> inodes s !! a = Some i -> fs_ok (on s a i' t') im bm' -> i_nr i' = i_nr i -> din i' = din i ->
  (forall b, allocated bm' b <-> allocated bm b) ->
  (forall b, INODE_START <= b -> b < DATA_START \/ allocated bm b -> block_at (dev t') b = block_at (dev (f_sb s)) b) ->
  d_len (dev (f_sb s)) <= d_len (dev t') ->
  world_ok (on s a i' t') im bm' /\
  forall n, 0 <= n < MAX_INODES -> file_of (on s a i' t') n = file_of s n /\
    forall k, file_block (dev t') (file_of s n) k = file_block (dev (f_sb s)) (file_of s n) k.
Proof.
  intros [Hs Hfiles Hfree] Ha Hs' Hnr Hdin Hal Hb Hlen. geo.
  pose proof (file_of_loaded _ _ _ _ _ Hs Ha) as Ei. pose proof Hfiles as [Hf Hdis Hleak].
  assert (Hview : forall n, 0 <= n < MAX_INODES -> file_of (on s a i' t') n = file_of s n).
  { intros n Hn. rewrite (file_of_on s im bm im bm' a i i' t' n); [|done..|intros b Hb'; apply Hb; lia|done].
    unfold upd_file. case_decide; [|done]. subst n. by rewrite Ei. }
  assert (Hblk : forall n b, 0 <= n < MAX_INODES -> b ∈ file_blocks (dev (f_sb s)) (file_of s n) ->
    block_at (dev t') b = block_at (dev (f_sb s)) b /\ allocated bm' b).
  { intros n b Hn Hin. destruct (fb_alloc _ _ _ (Hf n Hn) b Hin) as [Hba _]. pose proof Hba as [? _].
    split; [apply Hb; [lia|by right]|by apply Hal]. }
  assert (Hsame : forall n, 0 <= n < MAX_INODES ->
    file_blocks (dev t') (file_of s n) = file_blocks (dev (f_sb s)) (file_of s n) /\
    forall k, file_block (dev t') (file_of s n) k = file_block (dev (f_sb s)) (file_of s n) k).
  { intros n Hn. destruct (file_same (dev (f_sb s)) (dev t') (file_of s n)) as (_ & ? & ?); [apply (fb_nonneg _ _ _ (Hf n Hn))| |done].
    intros b Hin. by apply (Hblk n b Hn Hin). }
  split; [|intros n Hn; split; [by apply Hview|by apply Hsame]]. constructor; [done| |].
  - eapply files_ok_ext; [intros n Hn; symmetry; by apply Hview|]. constructor.
    + intros n Hn. eapply file_ok_same; [by apply Hf|by intros b Hin; apply (Hblk n)|done].
    + intros n n' b Hn Hn'. cbn [on f_sb]. rewrite (proj1 (Hsame n Hn)), (proj1 (Hsame n' Hn')). by apply Hdis.
    + intros b Hba. apply Hal in Hba. destruct (Hleak b Hba) as (n & Hn & Hin). exists n. split; [done|].
      cbn [on f_sb]. by rewrite (proj1 (Hsame n Hn)).
  - intros n Hn Hfn. rewrite Hview by done. by apply Hfree.
Qed.

(** A write, in the whole file system. *)
Lemma write_world s im bm a i buf tl start :
  world_ok s im bm -> inodes s !! a = Some i -> bit im (i_nr i) = true -> in_block start (zlen buf) -> Forall is_byte buf ->
  (exists s' bm' i', testfs_write_data a (buf ++ tl) start (zlen buf) s = Ret (zlen buf, s') /\ world_ok s' im bm' /\
     inodes s' = <[a := i']> (inodes s) /\ i_nr i' = i_nr i /\ i_count i' = i_count i /\ dirty i' /\
     written (dev (f_sb s)) (din i) start buf (dev (f_sb s')) (din i') /\ other_files s s' (i_nr i)) \/
  (exists s' bm', testfs_write_data a (buf ++ tl) start (zlen buf) s = Ret (- ENOSPC, s') /\ world_ok s' im bm' /\
     (exists fl, inodes s' = <[a := set_i_flags fl i]> (inodes s)) /\ ptr (dev (f_sb s)) (din i) (start / BLOCK_SIZE) = 0 /\
     (start / BLOCK_SIZE < 10 -> no_room bm (f_sb s)) /\
     forall n, 0 <= n < MAX_INODES -> file_of s' n = file_of s n /\
       forall k, file_block (dev (f_sb s')) (file_of s n) k = file_block (dev (f_sb s)) (file_of s n) k).
Proof.
  intros Hw Ha Hbit Hib Hby. pose proof Hw as [Hs Hfiles _]. geo.
  pose proof (io_nr _ _ (fo_inode _ _ _ Hs _ _ Ha)) as Hr.
  pose proof (fs_files _ _ _ Hfiles _ Hr) as Hf. rewrite (file_of_loaded _ _ _ _ _ Hs Ha) in Hf.
  pose proof (on_id s a i Ha) as Eon. pose proof Hs as Hs1. rewrite <- Eon in Hs1.
  destruct (write_data_ok s im bm a i (f_sb s) buf tl start Hs1 Hf Hib Hby) as
    [(i' & bm' & t' & E & Hs' & Hnr & Hc & Hd & Hf' & Hstep & Hwr)|(fl & bm' & t' & E & Hs' & Hal & Hb & Hl & Hptr & Hno)]; rewrite Eon in E.
  - left. exists (on s a i' t'), bm', i'.
    destruct (world_step s im bm a i i' im bm' t') as [Hw' Hoth]; try done.
    { intros n Hn Hfn. case_decide; [subst; congruence|done]. }
    { intros b Hb. apply (st_same _ _ _ _ _ _ Hstep); [lia|left; lia|]. intros Hin.
      destruct (fb_alloc _ _ _ Hf b Hin) as [[? _] _]. lia. }
  - right. exists (on s a (set_i_flags fl i) t'), bm'.
    destruct (world_same s im bm a i (set_i_flags fl i) bm' t') as [Hw' Hview]; try done.
    split_and!; try done. by exists fl.
Qed.

(** ** The cache of inodes does not change the files *)

(** The same files, seen from both states. *)
Definition same_files (s s' : fs) : Prop :=
  (forall n, 0 <= n < MAX_INODES -> file_of s' n = file_of s n) /\ same_data s s'.

Lemma same_files_refl s : same_files s s.
Proof. split; [done|]. split; [done|lia]. Qed.
Lemma same_files_trans s1 s2 s3 : same_files s1 s2 -> same_files s2 s3 -> same_files s1 s3.
Proof.
  intros [H1 [H2 H3]] [H4 [H5 H6]]. split; [|split; [|lia]].
  - intros n Hn. by rewrite H4, H1.
  - intros b Hb. by rewrite H5, H2.
Qed.

Lemma same_files_blocks s s' im bm n :
  same_files s s' -> world_ok s im bm -> 0 <= n < MAX_INODES ->
  forall k, file_block (dev (f_sb s')) (file_of s' n) k = file_block (dev (f_sb s)) (file_of s n) k.
Proof.
  intros [Hv [Hb _]] [_ [Hf _ _] _] Hn k. rewrite Hv by done. geo.
  destruct (file_same (dev (f_sb s)) (dev (f_sb s')) (file_of s n)) as (_ & _ & E); [apply (fb_nonneg _ _ _ (Hf n Hn))| |apply E].
  intros b Hin. apply Hb. destruct (fb_alloc _ _ _ (Hf n Hn) b Hin) as [[? _] _]. lia.
Qed.

Lemma world_view s s' im bm : world_ok s im bm -> fs_ok s' im bm -> same_files s s' -> world_ok s' im bm.
Proof.
  intros Hw Hs' Hsf. pose proof Hw as [Hs [Hf Hdis Hleak] Hfree]. pose proof Hsf as [Hv [Hb [Hl _]]]. geo.
  assert (Hblk : forall n b, 0 <= n < MAX_INODES -> b ∈ file_blocks (dev (f_sb s)) (file_of s n) ->
    block_at (dev (f_sb s')) b = block_at (dev (f_sb s)) b).
  { intros n b Hn Hin. apply Hb. destruct (fb_alloc _ _ _ (Hf n Hn) b Hin) as [[? _] _]. lia. }
  assert (Hsame : forall n, 0 <= n < MAX_INODES ->
    file_blocks (dev (f_sb s')) (file_of s n) = file_blocks (dev (f_sb s)) (file_of s n)).
  { intros n Hn. destruct (file_same (dev (f_sb s)) (dev (f_sb s')) (file_of s n)) as (_ & E & _);
      [apply (fb_nonneg _ _ _ (Hf n Hn))|by intros b Hin; apply (Hblk n)|done]. }
  constructor; [done| |intros n Hn; rewrite Hv by done; by apply Hfree].
  eapply files_ok_ext; [intros n Hn; symmetry; by apply Hv|]. constructor.
  - intros n Hn. eapply file_ok_same; [by apply Hf| |done]. intros b Hin. split; [by apply (Hblk n)|].
    by apply (fb_alloc _ _ _ (Hf n Hn)).
  - intros n n' b Hn Hn'. rewrite !Hsame by done. by apply Hdis.
  - intros b Hba. destruct (Hleak b Hba) as (n & Hn & Hin). exists n. by rewrite Hsame.
Qed.

(** The view after the in-memory copies have changed. *)
Lemma same_files_intro s im bm s' im' bm' :
  fs_ok s im bm -> fs_ok s' im' bm' -> same_data s s' ->
  (forall n, 0 <= n < MAX_INODES -> file_of s' n = file_of s n) -> same_files s s'.
Proof. by split. Qed.

Lemma sync_view s im bm a i :
  fs_ok s im bm -> inodes s !! a = Some i ->
  exists s', testfs_sync_inode a s = Ret (tt, s') /\ fs_ok s' im bm /\ same_files s s' /\
    inodes s' = <[a := set_i_flags 0 i]> (inodes s) /\
    disk_inode (dev (f_sb s')) (i_nr i) = din i.
Proof.
  intros Hs Ha. pose proof (io_nr _ _ (fo_inode _ _ _ Hs _ _ Ha)) as Hr.
  destruct (sync_inode_ok s im bm a i Hs Ha) as (s' & E & Hs' & Hin & _ & _ & _ & Hd & Hdi).
  exists s'. split_and!; try done; [|by rewrite Hdi, decide_True].
  split; [|done]. intros n Hn. destruct (loaded (inodes s) n) as [j|] eqn:Ej.
  - apply loaded_Some in Ej as (b & Hbj & Hj). subst n. rewrite (file_of_loaded s _ _ b j Hs Hbj).
    destruct (decide (b = a)) as [->|Hne].
    + simplify_eq. apply (file_of_loaded s' im bm a (set_i_flags 0 i) Hs'). rewrite Hin. apply lookup_insert_eq.
    + apply (file_of_loaded s' im bm b j Hs'). by rewrite Hin, lookup_insert_ne.
  - pose proof (loaded_None _ _ Ej) as Hnone. rewrite (file_of_unloaded s) by done. rewrite file_of_unloaded.
    + rewrite Hdi by done. rewrite decide_False; [done|]. intros ->. by apply (Hnone a i).
    + intros b j. rewrite Hin, lookup_insert. case_decide; [intros [= <-]; subst; by apply (Hnone b i)|apply Hnone].
Qed.

Lemma put_view s im bm a i :
  fs_ok s im bm -> inodes s !! a = Some i -> i_flags i = 0 ->
  exists s', testfs_put_inode a s = Ret (tt, s') /\ fs_ok s' im bm /\ same_files s s' /\ f_sb s' = f_sb s /\
    inodes s' = if decide (i_count i = 1) then delete a (inodes s) else <[a := set_i_count (i_count i - 1) i]> (inodes s).
Proof.
  intros Hs Ha Hfl. destruct (put_inode_ok s im bm a i Hs Ha Hfl) as (s' & E & Hs' & Hsb & _ & Hin).
  exists s'. split_and!; try done. split; [|split; [by rewrite Hsb|rewrite Hsb; lia]].
  intros n Hn. destruct (loaded (inodes s) n) as [j|] eqn:Ej.
  - apply loaded_Some in Ej as (b & Hbj & Hj). subst n. rewrite (file_of_loaded s _ _ b j Hs Hbj).
    destruct (decide (b = a)) as [->|Hne].
    + simplify_eq. case_decide.
      * rewrite file_of_unloaded, Hsb; [symmetry; by apply (io_clean _ _ (fo_inode _ _ _ Hs _ _ Ha))|].
        intros b j. rewrite Hin, lookup_delete. case_decide as Eb; [done|]. intros Hj Hnr.
        destruct (fo_hash _ _ _ Hs) as (t & _ & Hh). by apply Eb, (ht_uniq _ _ Hh a b i j).
      * apply (file_of_loaded s' im bm a (set_i_count (i_count i - 1) i) Hs'). rewrite Hin. apply lookup_insert_eq.
    + apply (file_of_loaded s' im bm b j Hs'). rewrite Hin. case_decide; [by rewrite lookup_delete_ne|by rewrite lookup_insert_ne].
  - pose proof (loaded_None _ _ Ej) as Hnone. rewrite (file_of_unloaded s) by done. rewrite file_of_unloaded, Hsb; [done|].
    intros b j. rewrite Hin. case_decide.
    + rewrite lookup_delete. case_decide; [done|apply Hnone].
    + rewrite lookup_insert. case_decide; [intros [= <-]; subst; by apply (Hnone b i)|apply Hnone].
Qed.

Lemma get_view s im bm nr :
  fs_ok s im bm -> 0 <= nr < MAX_INODES -> (forall a i, inodes s !! a = Some i -> i_count i < 2 ^ 31 - 1) ->
  exists a s' i', testfs_get_inode true nr s = Ret (a, s') /\ fs_ok s' im bm /\ same_files s s' /\ f_sb s' = f_sb s /\
    inodes s' = <[a := i']> (inodes s) /\ i_nr i' = nr /\ din i' = file_of s nr /\
    match inodes s !! a with Some i => i_nr i = nr /\ i' = set_i_count (i_count i + 1) i | None => i_flags i' = 0 /\ i_count i' = 1 end.
Proof.
  intros Hs Hnr Hcnt. destruct (get_inode_ok s im bm nr Hs Hnr Hcnt) as (a & s' & i' & E & Hs' & Hsb & Hin & Hi & Hcase).
  exists a, s', i'. assert (Ha' : inodes s' !! a = Some i') by (rewrite Hin; apply lookup_insert_eq).
  assert (Hdin : din i' = file_of s nr).
  { destruct (inodes s !! a) as [i|] eqn:Ea.
    - destruct Hcase as [Hir ->]. rewrite <- Hir. by rewrite (file_of_loaded s _ _ a i Hs Ea).
    - destruct Hcase as (Hnone & -> & _). by rewrite file_of_unloaded. }
  split_and!; try done.
  - split; [|split; [by rewrite Hsb|rewrite Hsb; lia]]. intros n Hn.
    destruct (decide (n = nr)) as [->|Hne].
    { rewrite <- Hdin, <- Hi. by apply (file_of_loaded s' im bm a i' Hs'). }
    destruct (loaded (inodes s) n) as [j|] eqn:Ej.
    + apply loaded_Some in Ej as (b & Hbj & Hj). rewrite <- Hj. rewrite (file_of_loaded s _ _ b j Hs Hbj).
      apply (file_of_loaded s' im bm b j Hs'). rewrite Hin, lookup_insert_ne; [done|]. intros ->.
      rewrite Hbj in Hcase. destruct Hcase as [? _]. congruence.
    + pose proof (loaded_None _ _ Ej) as Hnone. rewrite (file_of_unloaded s) by done. rewrite file_of_unloaded, Hsb; [done|].
      intros b j. rewrite Hin, lookup_insert. case_decide; [intros [= <-]; congruence|apply Hnone].
  - destruct (inodes s !! a); [done|]. by destruct Hcase as (_ & -> & _).
Qed.

(** ** Creating and removing *)

Lemma file_ok_empty d bm x :
  dinode_ok x -> i_block_nr x = replicate 10 0 -> i_indirect x = 0 -> block_count x = 0 -> i_size x = 0 ->
  file_ok d bm x /\ file_blocks d x = [].
Proof.
  intros Hx El Ei Ec Ez. pose proof geo_files. geo.
  assert (Ep : ptrs d x = replicate 10 0 ++ replicate (Z.to_nat NR_INDIRECT_BLOCKS) 0) by (unfold ptrs; by rewrite El, Ei).
  assert (Eb : file_blocks d x = []).
  { unfold file_blocks. rewrite Ep, Ei, nonzero_cons, decide_True by done. by rewrite nonzero_app, !nonzero_replicate. }
  assert (Ek : forall k, ptr d x k = 0).
  { intros k. unfold ptr. rewrite Ep, <- replicate_add. destruct (replicate _ 0 !! _) as [p|] eqn:E; [|done].
    by apply lookup_replicate in E as [-> _]. }
  split; [|done]. constructor; rewrite ?Eb, ?Ec, ?Ez; try done.
  - rewrite Ei, Ep, <- replicate_add. apply Forall_cons. split; [done|]. by apply Forall_replicate.
  - constructor.
  - intros b Hb. by apply elem_of_nil in Hb.
  - unfold MAX_BLOCKS in *. nia.
  - intros k Hk. by rewrite Ek in Hk.
Qed.

Lemma zero_dinode_ok : dinode_ok zero_dinode.
Proof. constructor; cbn; try done. by repeat constructor. Qed.

(** Removing an inode that nobody else holds gives all its blocks and its
    number back. *)
Lemma remove_world s im bm a i :
  world_ok s im bm -> inodes s !! a = Some i -> bit im (i_nr i) = true -> i_count i = 1 ->
  exists s' im' bm', testfs_remove_inode a s = Ret (tt, s') /\ world_ok s' im' bm' /\
    inodes s' = delete a (inodes s) /\ bit_clear im (i_nr i) im' /\
    (forall b, allocated bm' b <-> allocated bm b /\ b ∉ file_blocks (dev (f_sb s)) (din i)) /\
    file_of s' (i_nr i) = zero_dinode /\ other_files s s' (i_nr i).
Proof.
  intros Hw Ha Hbit Hcnt. pose proof Hw as [Hs Hfiles Hfree]. geo. pose proof geo_inode.
  pose proof (io_nr _ _ (fo_inode _ _ _ Hs _ _ Ha)) as Hr.
  pose proof (fs_files _ _ _ Hfiles _ Hr) as Hf. rewrite (file_of_loaded _ _ _ _ _ Hs Ha) in Hf.
  pose proof (on_id s a i Ha) as Eon. pose proof Hs as Hs0. rewrite <- Eon in Hs0.
  destruct (free_blocks_ok s im bm a i (f_sb s) Hs0 Hf) as (i1 & bm1 & t1 & E1 & [Hs1 Hal Hsame Hlen (El & Ei & Ez & Ec) _ Hd Hnr Href]).
  rewrite Eon in E1. unfold testfs_remove_inode. st_call E1. rewrite on_get, Ec. change (0 =? 0) with true. st_run.
  rewrite on_upd_din, on_dirty. st_run.
  assert (Efl : Z.lor (i_flags (set_din zero_dinode i1)) I_FLAGS_DIRTY = I_FLAGS_DIRTY) by (apply lor_dirty; by right).
  rewrite Efl. set (i2 := set_i_flags I_FLAGS_DIRTY (set_din zero_dinode i1)).
  assert (Hs2 : fs_ok (on s a i2 t1) im bm1).
  { eapply on_ok_data; [done| |done]. destruct (on_ok_inode _ _ _ _ _ _ Hs1). constructor; cbn; try done; [apply zero_dinode_ok|by right]. }
  destruct (put_inode_freemap_ok t1 im bm1 (i_nr i) (on_ok_super _ _ _ _ _ _ Hs1)) as (im' & E2 & Ht2 & Hsb2 & Hcl & Hl2 & _); [lia|done|].
  set (t2 := imap_changed t1 im' (i_nr i)) in *. rewrite Hnr.
  rewrite (on_sb_run s a i2 t1 _ _ _ _ E2).
  destruct (super_same_data (on s a i2 t1) t2 Hsb2) as [[Hsd2 _] Hib2]. cbn [on set_f_sb f_sb] in Hsd2, Hib2.
  assert (Hs3 : fs_ok (on s a i2 t2) im' bm1) by (by apply (fs_ok_set_sb (on s a i2 t1) im bm1)).
  assert (Hempty : file_ok (dev t2) bm1 zero_dinode /\ file_blocks (dev t2) zero_dinode = [])
    by (apply file_ok_empty; try done; apply zero_dinode_ok).
  destruct Hempty as [Hf2 Hb2].
  assert (Hin : forall b, b ∈ file_blocks (dev (f_sb s)) (din i) -> DATA_START <= b).
  { intros b Hb. destruct (fb_alloc _ _ _ Hf b Hb) as [[? _] _]. lia. }
  destruct (world_step s im bm a i i2 im' bm1 t2) as [Hw3 Hoth3]; try done.
  { intros n Hn Hbn. case_decide as En; [done|]. destruct Hcl as (_ & _ & Hb). rewrite Hb, bool_decide_false, andb_true_r in Hbn by (done || lia). done. }
  { change (din i2) with zero_dinode. constructor; rewrite ?Hb2.
    - intros b Hb. by apply elem_of_nil in Hb.
    - intros b Hge Hba Hnot. destruct (decide (b < DATA_START)); [rewrite Hib2 by lia|rewrite Hsd2 by lia]; by apply Hsame.
    - intros b. rewrite Hal, elem_of_nil. tauto.
    - lia. }
  { intros b Hb. rewrite Hib2 by done. apply Hsame; [lia|]. intros Hin'. apply Hin in Hin'. lia. }
  destruct (sync_view (on s a i2 t2) im' bm1 a i2 Hs3 (on_lookup s a i2 t2)) as (s4 & E4 & Hs4 & Hv4 & Hin4 & Hdi4). st_call E4.
  destruct (put_view s4 im' bm1 a (set_i_flags 0 i2) Hs4) as (s5 & E5 & Hs5 & Hv5 & Hsb5 & Hin5); [by rewrite Hin4, lookup_insert_eq|done|].
  rewrite E5. cbn [i2 set_i_flags i_count set_din] in Hin5. rewrite Href, Hcnt, decide_True in Hin5 by done.
  pose proof (same_files_trans _ _ _ Hv4 Hv5) as Hv. exists s5, im', bm1. split_and!; try done.
  - by eapply world_view.
  - rewrite Hin5, Hin4. unfold on. cbn [inodes]. by rewrite !delete_insert_eq.
  - destruct Hv as [Hv _]. rewrite Hv by done. rewrite <- Hnr. apply (file_of_loaded _ _ _ a i2 Hs3), on_lookup.
  - intros n Hn Hne. destruct (Hoth3 n Hn Hne) as [Ev Eb]. pose proof (same_files_blocks _ _ _ _ n Hv Hw3 Hn) as Ek.
    destruct Hv as [Hv _]. rewrite Hv, Ev by done. split; [done|]. intros k. rewrite <- Eb, Ev.
    specialize (Ek k). rewrite Hv, Ev in Ek by done. done.
Qed.

(** The view after one inode has been loaded or changed. *)
Lemma view_insert s im bm s' im' bm' a i' n :
  fs_ok s im bm -> fs_ok s' im' bm' -> inodes s' = <[a := i']> (inodes s) ->
  match inodes s !! a with
  | Some i => i_nr i = i_nr i'
  | None => forall b j, inodes s !! b = Some j -> i_nr j <> i_nr i'
  end ->
  (forall b, INODE_START <= b < DATA_START -> block_at (dev (f_sb s')) b = block_at (dev (f_sb s)) b) ->
  0 <= n < MAX_INODES -> file_of s' n = upd_file (file_of s) (i_nr i') (din i') n.
Proof.
  intros Hs Hs' Hin Hcase Hb Hn. unfold upd_file. case_decide as E.
  - subst n. apply (file_of_loaded s' im' bm' a i' Hs'). rewrite Hin. apply lookup_insert_eq.
  - destruct (loaded (inodes s) n) as [j|] eqn:Ej.
    + apply loaded_Some in Ej as (b & Hbj & Hj). rewrite <- Hj. rewrite (file_of_loaded s _ _ b j Hs Hbj).
      apply (file_of_loaded s' im' bm' b j Hs'). rewrite Hin, lookup_insert_ne; [done|]. intros ->.
      rewrite Hbj in Hcase. congruence.
    + pose proof (loaded_None _ _ Ej) as Hnone. rewrite (file_of_unloaded s) by done. rewrite file_of_unloaded.
      * apply disk_inode_same, Hb. by destruct (inode_place n) as (_ & _ & _ & _ & ?).
      * intros b j. rewrite Hin, lookup_insert. case_decide; [intros [= <-]; congruence|apply Hnone].
Qed.

(** A new inode is empty, has the type asked for and a number nobody used. *)
Lemma create_world s im bm type :
  world_ok s im bm -> in_s32 type -> (forall a i, inodes s !! a = Some i -> i_count i < 2 ^ 31 - 1) ->
  (exists a s' i' im', testfs_create_inode true type s = Ret (inr a, s') /\ world_ok s' im' bm /\
     inodes s' = <[a := i']> (inodes s) /\ 0 <= i_nr i' < MAX_INODES /\ bit im (i_nr i') = false /\
     bit_set im (i_nr i') im' /\ din i' = set_i_type type zero_dinode /\ dirty i' /\ other_files s s' (i_nr i') /\
     match inodes s !! a with Some i => i_nr i = i_nr i' | None => i_count i' = 1 end /\
     (forall n, 0 <= n < i_nr i' -> bit im n = true) /\
     max_fs_blocks (sb (f_sb s')) = max_fs_blocks (sb (f_sb s))) \/
  (exists s', testfs_create_inode true type s = Ret (inl (- ENOSPC), s') /\ world_ok s' im bm /\ same_files s s' /\
     inodes s' = inodes s /\ forall n, 0 <= n < MAX_INODES -> bit im n = true).
Proof.
  intros Hw Hty Hcnt. pose proof Hw as [Hs Hfiles Hfree]. geo.
  destruct (create_inode_ok s im bm type Hs Hty Hcnt) as
    [(a & s' & i' & im' & nr & E & Hs' & Hib & Hd & Hin & Hnr & Hit & Hdi & Hr & Hbit & Hlow & Hset & Hcase)|
     (s' & E & Hs' & Hib & Hd & Hin & Hsb & Hall)].
  - left. subst nr.
    assert (Ezero : file_of s (i_nr i') = zero_dinode) by (by apply Hfree).
    assert (Hdin : din i' = set_i_type type zero_dinode).
    { rewrite <- Ezero. destruct (inodes s !! a) as [i|] eqn:Ea.
      - destruct Hcase as [Hi ->]. by rewrite <- Hi, (file_of_loaded s _ _ a i Hs Ea).
      - destruct Hcase as (Hnone & _ & ->). by rewrite file_of_unloaded. }
    assert (Hview : forall n, 0 <= n < MAX_INODES -> file_of s' n = upd_file (file_of s) (i_nr i') (din i') n).
    { intros n Hn. eapply (view_insert s im bm s' im' bm a i'); try done.
      destruct (inodes s !! a); [by destruct Hcase|]. by destruct Hcase as [? _]. }
    pose proof Hd as (Hdb & Hdl & Hdm).
    destruct (file_ok_empty (dev (f_sb s)) bm zero_dinode) as [_ Hz]; [apply zero_dinode_ok|done..|].
    destruct (file_ok_empty (dev (f_sb s')) bm (din i')) as [Hf' Hb']; try (by rewrite Hdin).
    { rewrite Hdin. constructor; cbn; try done. by repeat constructor. }
    destruct (files_ok_step (dev (f_sb s)) bm (file_of s) (i_nr i') (dev (f_sb s')) bm (din i') Hfiles Hr Hf') as [Hok Hoth].
    { intros b. rewrite Hb'. by intros ?%elem_of_nil. }
    { intros b Hge _ _. by apply Hdb. }
    { intros b. rewrite Ezero, Hz, Hb', elem_of_nil. tauto. }
    { done. }
    exists a, s', i', im'. split_and!; try done; try lia.
    + constructor; [done| |].
      * eapply files_ok_ext; [|exact Hok]. intros n Hn. by rewrite Hview.
      * intros n Hn Hbn. destruct Hset as (_ & _ & Hset). rewrite Hset in Hbn by lia.
        apply orb_false_iff in Hbn as [Hbn Hne%bool_decide_eq_false]. rewrite Hview by done. unfold upd_file.
        rewrite decide_False by done. by apply Hfree.
    + intros n Hn Hne. rewrite Hview by done. unfold upd_file. rewrite decide_False by done. split; [done|]. by apply Hoth.
    + destruct (inodes s !! a); [by destruct Hcase|]. by destruct Hcase as (_ & ? & _).
  - right. exists s'. assert (Hsf : same_files s s').
    { split; [|done]. intros n Hn. unfold file_of. rewrite Hin. destruct (loaded _ _); [done|].
      apply disk_inode_same, Hib. by destruct (inode_place n) as (_ & _ & _ & _ & ?). }
    split_and!; try done. by eapply world_view.
Qed.

(** ** A fresh file system *)

Lemma hash_init_ok : hash_ok ∅ (replicate (Z.to_nat inode_hash_size) []).
Proof.
  constructor; [done|..].
  - intros k c [-> _]%lookup_replicate. constructor.
  - intros k c a [-> _]%lookup_replicate. rewrite elem_of_nil. split; [done|]. by intros (i & ? & _).
  - intros a b i j. by rewrite lookup_empty.
Qed.

(** testfs_init_super_block on a formatted device. *)
Definition mounted (s : super_block) : fs := Fs s ∅ (Table (replicate (Z.to_nat inode_hash_size) [])) 0.

Lemma mounted_ok s im bm : super_rep s im bm -> fs_ok (mounted s) im bm.
Proof.
  intros Hs. constructor; cbn [mounted f_sb inodes inode_hash_table next_in]; [done|..].
  - eexists. split; [reflexivity|]. apply hash_init_ok.
  - intros a i. by rewrite lookup_empty.
  - intros a i. by rewrite lookup_empty.
Qed.

Lemma dec_zero l : Forall (fun b => b = 0) l -> dec_dinode l = zero_dinode.
Proof.
  intros Hl. assert (Hz : forall off n, le_dec (slice off n l) = 0).
  { intros off n. assert (Hs : Forall (fun b => b = 0) (slice off n l)) by (by apply Forall_slice).
    induction Hs as [|b l' -> _ IH]; [done|]. cbn. lia. }
  unfold dec_dinode, zero_dinode, get_s32, get_s64. rewrite !Hz. f_equal.
  symmetry. apply replicate_as_Forall. split; [done|]. apply Forall_forall. intros p (k & -> & _)%list_elem_of_fmap. by rewrite Hz.
Qed.

Lemma mkfs_world max :
  in_u64 max ->
  exists s im bm, mkfs (fun _ => true) max = Ret (inr s) /\ world_ok (mounted s) im bm /\
    used im = [] /\ used bm = [] /\ max_fs_blocks (sb s) = max.
Proof.
  intros Hmax. destruct (mkfs_run max Hmax) as (s & im & bm & E & Hs & Hui & Hub & Hm & _ & Hz).
  exists s, im, bm. split_and!; try done. geo.
  assert (Hfile : forall n, 0 <= n < MAX_INODES -> file_of (mounted s) n = zero_dinode).
  { intros n Hn. rewrite file_of_unloaded by (intros a i; cbn [mounted inodes]; by rewrite lookup_empty). cbn [mounted f_sb]. unfold disk_inode.
    apply dec_zero. rewrite Hz by (destruct (inode_place n Hn) as (_ & _ & _ & _ & ?); lia).
    apply Forall_slice. by apply Forall_replicate. }
  constructor; [by apply mounted_ok| |intros n Hn _; by apply Hfile].
  destruct (file_ok_empty (dev s) bm zero_dinode) as [Hf Hb]; [apply zero_dinode_ok|done..|]. constructor; cbn [mounted f_sb].
  - intros n Hn. by rewrite Hfile.
  - intros n n' b Hn Hn'. rewrite Hfile, Hb by done. by intros ?%elem_of_nil.
  - intros b [Hr Hbit]. exfalso. assert (Hin : b - DATA_START ∈ used bm).
    { apply elem_of_used. split; [lia|done]. }
    rewrite Hub in Hin. by apply elem_of_nil in Hin.
Qed.

End world.
