(* ===== verification/Dir.v ===== *)
(** * Directories (fs/dir.c)

    A directory is a file whose data is a sequence of entries: the length of
    the name with its NUL, the inode number (negative: the entry is free) and
    the name.  A C string is the list of its bytes without the NUL; the name
    buffer of a [dirent] has the bytes that were read from the directory.

    [malloc_ok n] tells whether an allocation of [n] bytes succeeds.  The loops
    over a directory are bounded by the size of the directory, for every entry
    takes more than eight bytes ([dir_fuel]). *)
From S2P Require Import Prelude Bytes Bitmap StateMonad Disk Super Inode ReadWrite.

Record dirent := Dirent { d_name_len : Z; d_inode_nr : Z; d_name : list Z }.

Definition sizeof_dirent : Z := 8.
Definition sizeof_inode : Z := 104.
Definition INVALID_INODE_NR : Z := -1.

(** The C string at the start of a buffer; reading past the buffer is undefined. *)
Fixpoint cstr (buf : list Z) : res (list Z) :=
  match buf with
  | [] => Fail Undef
  | c :: buf => if c =? 0 then Ret [] else s ← cstr buf; Ret (c :: s)
  end.

(** strcmp(buf, s) == 0 *)
Definition streq (buf s : list Z) : res bool := t ← cstr buf; Ret (bool_decide (t = s)).

Definition str_dot : list Z := [46].
Definition str_dotdot : list Z := [46; 46].

Definition enc_dirent (len nr : Z) (name : list Z) : list Z := le_enc 4 len ++ le_enc 4 nr ++ name.

Section dir.
Context `{Geometry} (malloc_ok : Z -> bool).

Definition dir_type (a : Z) : FS Z := i ← get_in a; mret (testfs_inode_get_type i).
Definition dir_size (a : Z) : FS Z := i ← get_in a; mret (testfs_inode_get_size i).
(** assert(testfs_inode_get_type(dir) == I_DIR) *)
Definition assert_dir (a : Z) : FS unit := t ← dir_type a; st_assert (t =? I_DIR).
Definition get_inode (nr : Z) : FS Z := testfs_get_inode (malloc_ok sizeof_inode) nr.

(** The entry at the offset and the next offset; NULL at the end and on errors. *)
Definition testfs_next_dirent (a offset : Z) : FS (option dirent * Z) :=
  _ ← assert_dir a;
  size ← dir_size a;
  if size <=? offset then mret (None, offset)
  else
    '(ret, d) ← testfs_read_data a sizeof_dirent offset sizeof_dirent;
    if ret <? 0 then mret (None, offset)
    else if zlen d <? sizeof_dirent then lift_res (Fail Undef)
    else
      let len := get_s32 0 d in
      _ ← st_assert (0 <? len);
      if negb (malloc_ok (sizeof_dirent + len)) then mret (None, offset)
      else
        let offset := offset + sizeof_dirent in
        '(ret, name) ← testfs_read_data a len offset len;
        if ret <? 0 then mret (None, offset)
        else mret (Some (Dirent len (get_s32 4 d) name), offset + len).

(** Enough iterations for a loop over the entries of directory [a]. *)
Definition dir_fuel (a : Z) : FS nat := size ← dir_size a; mret (S (Z.to_nat size)).

Fixpoint find_dirent_loop (fuel : nat) (a nr offset : Z) : FS (option dirent) :=
  match fuel with
  | O => lift_res (Fail Diverge)
  | S fuel =>
      '(d, offset) ← testfs_next_dirent a offset;
      match d with
      | None => mret None
      | Some d => if d_inode_nr d =? nr then mret (Some d) else find_dirent_loop fuel a nr offset
      end
  end.
Definition testfs_find_dirent (a nr : Z) : FS (option dirent) :=
  _ ← assert_dir a;
  _ ← st_assert (0 <=? nr);
  fuel ← dir_fuel a;
  find_dirent_loop fuel a nr 0.

Definition testfs_write_dirent (a : Z) (name : list Z) (len nr offset : Z) : FS Z :=
  if negb (malloc_ok (sizeof_dirent + len)) then mret (- ENOMEM)
  else
    _ ← st_assert (0 <=? nr);
    if len <? zlen name + 1 then lift_res (Fail Undef)
    else
      let rest := replicate (Z.to_nat (len - (zlen name + 1))) 0 in
      testfs_write_data a (enc_dirent len nr (name ++ [0] ++ rest)) (s32 offset) (sizeof_dirent + len).

(** The search of testfs_add_dirent: [ret], [found] and [p_offset]. *)
Fixpoint add_dirent_loop (fuel : nat) (a : Z) (name : list Z) (len offset : Z) : FS (Z * bool * Z) :=
  match fuel with
  | O => lift_res (Fail Diverge)
  | S fuel =>
      '(d, next) ← testfs_next_dirent a offset;
      match d with
      | None => mret (0, false, offset)
      | Some d =>
          same ← (if 0 <=? d_inode_nr d then lift_res (streq (d_name d) name) else mret false);
          if same : bool then mret (- EEXIST, false, offset)
          else if (0 <=? d_inode_nr d) || negb (d_name_len d =? len) then add_dirent_loop fuel a name len next
          else mret (0, true, offset)
      end
  end.
Definition testfs_add_dirent (a : Z) (name : list Z) (nr : Z) : FS Z :=
  let len := zlen name + 1 in
  _ ← assert_dir a;
  fuel ← dir_fuel a;
  '(ret, found, p_offset) ← add_dirent_loop fuel a name len 0;
  if ret <? 0 then mret ret
  else
    size ← dir_size a;
    _ ← st_assert (found || (p_offset =? size));
    testfs_write_dirent a name len nr p_offset.

Fixpoint remove_allowed_loop (fuel : nat) (a offset : Z) : FS Z :=
  match fuel with
  | O => lift_res (Fail Diverge)
  | S fuel =>
      '(d, offset) ← testfs_next_dirent a offset;
      match d with
      | None => mret 0
      | Some d =>
          skip ← (if d_inode_nr d <? 0 then mret true
                  else lift_res (b ← streq (d_name d) str_dot; if b : bool then Ret true else streq (d_name d) str_dotdot));
          if skip : bool then remove_allowed_loop fuel a offset else mret (- ENOTEMPTY)
      end
  end.
Definition testfs_remove_dirent_allowed (nr : Z) : FS Z :=
  a ← get_inode nr;
  t ← dir_type a;
  ret ← (if negb (t =? I_DIR) then mret 0 else fuel ← dir_fuel a; remove_allowed_loop fuel a 0);
  _ ← testfs_put_inode a;
  mret ret.

Fixpoint remove_dirent_loop (fuel : nat) (a : Z) (name : list Z) (offset : Z) : FS Z :=
  match fuel with
  | O => lift_res (Fail Diverge)
  | S fuel =>
      '(d, next) ← testfs_next_dirent a offset;
      match d with
      | None => mret (- ENOENT)
      | Some d =>
          same ← (if d_inode_nr d <? 0 then mret false else lift_res (streq (d_name d) name));
          if negb same then remove_dirent_loop fuel a name next
          else
            let nr := d_inode_nr d in
            ret ← testfs_remove_dirent_allowed nr;
            if ret <? 0 then mret ret
            else
              ret ← testfs_write_data a (enc_dirent (d_name_len d) INVALID_INODE_NR (d_name d)) offset
                      (sizeof_dirent + d_name_len d);
              mret (if 0 <=? ret then nr else ret)
      end
  end.
Definition testfs_remove_dirent (a : Z) (name : list Z) : FS Z :=
  if bool_decide (name = str_dot) || bool_decide (name = str_dotdot) then mret (- EINVAL)
  else fuel ← dir_fuel a; remove_dirent_loop fuel a name 0.

Definition testfs_create_empty_dir (p_inode_nr cdir : Z) : FS Z :=
  _ ← assert_dir cdir;
  nr ← (i ← get_in cdir; mret (testfs_inode_get_nr i));
  ret ← testfs_add_dirent cdir str_dot nr;
  if ret <? 0 then mret ret
  else
    ret ← testfs_add_dirent cdir str_dotdot p_inode_nr;
    if ret <? 0 then _ ← testfs_remove_dirent cdir str_dot; mret ret
    else mret 0.

Fixpoint name_loop (fuel : nat) (a : Z) (name : list Z) (offset : Z) : FS Z :=
  match fuel with
  | O => lift_res (Fail Diverge)
  | S fuel =>
      '(d, offset) ← testfs_next_dirent a offset;
      match d with
      | None => mret (- ENOENT)
      | Some d =>
          same ← (if d_inode_nr d <? 0 then mret false else lift_res (streq (d_name d) name));
          if same : bool then mret (d_inode_nr d) else name_loop fuel a name offset
      end
  end.
Definition testfs_dir_name_to_inode_nr (a : Z) (name : list Z) : FS Z :=
  _ ← assert_dir a;
  fuel ← dir_fuel a;
  name_loop fuel a name 0.

(** The part of testfs_create_file_or_dir after the inode [a] has been made. *)
Definition link_new_inode (dir : option (Z * list Z)) (type a : Z) : FS Z :=
  inode_nr ← (i ← get_in a; mret (testfs_inode_get_nr i));
  ret ← (if type =? I_DIR then
           p_inode_nr ← match dir with
                        | Some (dir, _) => i ← get_in dir; mret (testfs_inode_get_nr i)
                        | None => mret inode_nr
                        end;
           testfs_create_empty_dir p_inode_nr a
         else mret 0);
  if ret <? 0 then _ ← testfs_remove_inode a; mret ret
  else
    ret ← match dir with
          | Some (dir, name) =>
              ret ← testfs_add_dirent dir name inode_nr;
              if ret <? 0 then mret ret else _ ← testfs_sync_inode dir; mret 0
          | None => mret 0
          end;
    if ret <? 0 then _ ← testfs_remove_inode a; mret ret
    else
      _ ← testfs_sync_inode a;
      _ ← testfs_put_inode a;
      mret 0.

(** The parent directory and the name in it; None makes the root directory. *)
Definition testfs_create_file_or_dir (dir : option (Z * list Z)) (type : Z) : FS Z :=
  nr ← match dir with Some (dir, name) => testfs_dir_name_to_inode_nr dir name | None => mret (-1) end;
  if 0 <=? nr then mret (- EEXIST)
  else
    r ← testfs_create_inode (malloc_ok sizeof_inode) type;
    match r with
    | inl e => mret e
    | inr a => link_new_inode dir type a
    end.

Definition testfs_make_root_dir : FS Z := testfs_create_file_or_dir None I_DIR.

(** The return value and what is printed; [fuel] bounds the depth. *)
Fixpoint testfs_pwd (fuel : nat) (a : Z) : FS (Z * list Z) :=
  match fuel with
  | O => lift_res (Fail Diverge)
  | S fuel =>
      i ← get_in a;
      let nr := testfs_inode_get_nr i in
      _ ← st_assert (0 <=? nr);
      p_inode_nr ← testfs_dir_name_to_inode_nr a str_dotdot;
      _ ← st_assert (0 <=? p_inode_nr);
      if p_inode_nr =? nr then mret (1, [47])
      else
        p ← get_inode p_inode_nr;
        d ← testfs_find_dirent p nr;
        match d with
        | None => lift_res (Fail Assert)
        | Some d =>
            '(ret, out) ← testfs_pwd fuel p;
            _ ← testfs_put_inode p;
            name ← lift_res (cstr (d_name d));
            mret (0, out ++ (if ret =? 1 then [] else [47]) ++ name)
        end
  end.

(** What is printed; [fuel] bounds the entries visited and the depth. *)
Fixpoint testfs_ls (fuel : nat) (recursive : bool) (a offset : Z) : FS (list Z) :=
  match fuel with
  | O => lift_res (Fail Diverge)
  | S fuel =>
      '(d, offset) ← testfs_next_dirent a offset;
      match d with
      | None => mret []
      | Some d =>
          if d_inode_nr d <? 0 then testfs_ls fuel recursive a offset
          else
            cin ← get_inode (d_inode_nr d);
            name ← lift_res (cstr (d_name d));
            t ← dir_type cin;
            sub ← (if recursive && (t =? I_DIR) && negb (bool_decide (name = str_dot)) &&
                       negb (bool_decide (name = str_dotdot))
                   then testfs_ls fuel recursive cin 0 else mret []);
            _ ← testfs_put_inode cin;
            rest ← testfs_ls fuel recursive a offset;
            mret (name ++ (if t =? I_DIR then [47] else []) ++ [10] ++ sub ++ rest)
      end
  end.

(** ** The commands

    A command gets its arguments (the command's name first) and the current
    directory, and returns its value, what it prints and the current directory. *)
Definition reply : Type := Z * list Z * Z.
Definition bad_args (args : list (list Z)) (n : Z) : bool := negb (zlen args =? n).
Definition arg (args : list (list Z)) (k : Z) : FS (list Z) := lift_res (deref (args !! Z.to_nat k)).

Definition cmd_ls_internal (fuel : nat) (recursive : bool) (args : list (list Z)) (cur : Z) : FS reply :=
  if bad_args args 2 then mret (- EINVAL, [], cur)
  else
    cdir ← arg args 1;
    inode_nr ← testfs_dir_name_to_inode_nr cur cdir;
    if inode_nr <? 0 then mret (inode_nr, [], cur)
    else
      a ← get_inode inode_nr;
      t ← dir_type a;
      if t =? I_DIR then
        out ← testfs_ls fuel recursive a 0;
        _ ← testfs_put_inode a;
        mret (0, out, cur)
      else mret (- ENOTDIR, [], cur).
Definition cmd_ls (fuel : nat) := cmd_ls_internal fuel false.
Definition cmd_lsr (fuel : nat) := cmd_ls_internal fuel true.

Definition cmd_cd (args : list (list Z)) (cur : Z) : FS reply :=
  if bad_args args 2 then mret (- EINVAL, [], cur)
  else
    name ← arg args 1;
    inode_nr ← testfs_dir_name_to_inode_nr cur name;
    if inode_nr <? 0 then mret (inode_nr, [], cur)
    else
      a ← get_inode inode_nr;
      t ← dir_type a;
      if negb (t =? I_DIR) then _ ← testfs_put_inode a; mret (- ENOTDIR, [], cur)
      else _ ← testfs_put_inode cur; mret (0, [], a).

Definition cmd_pwd (fuel : nat) (args : list (list Z)) (cur : Z) : FS reply :=
  if bad_args args 1 then mret (- EINVAL, [], cur)
  else '(_, out) ← testfs_pwd fuel cur; mret (0, out ++ [10], cur).

Definition cmd_create (args : list (list Z)) (cur : Z) : FS reply :=
  if bad_args args 2 then mret (- EINVAL, [], cur)
  else name ← arg args 1; ret ← testfs_create_file_or_dir (Some (cur, name)) I_FILE; mret (ret, [], cur).

Definition cmd_mkdir (args : list (list Z)) (cur : Z) : FS reply :=
  if bad_args args 2 then mret (- EINVAL, [], cur)
  else name ← arg args 1; ret ← testfs_create_file_or_dir (Some (cur, name)) I_DIR; mret (ret, [], cur).

Definition cmd_rm (args : list (list Z)) (cur : Z) : FS reply :=
  if bad_args args 2 then mret (- EINVAL, [], cur)
  else
    name ← arg args 1;
    inode_nr ← testfs_remove_dirent cur name;
    if inode_nr <? 0 then mret (inode_nr, [], cur)
    else
      a ← get_inode inode_nr;
      _ ← testfs_remove_inode a;
      _ ← testfs_sync_inode cur;
      mret (0, [], cur).

(** The number, type, size and block count cmd_stat prints. *)
Definition cmd_stat (args : list (list Z)) (cur : Z) : FS (Z * option (Z * Z * Z * Z)) :=
  if bad_args args 2 then mret (- EINVAL, None)
  else
    name ← arg args 1;
    inode_nr ← testfs_dir_name_to_inode_nr cur name;
    if inode_nr <? 0 then mret (inode_nr, None)
    else
      a ← get_inode inode_nr;
      i ← get_in a;
      _ ← testfs_put_inode a;
      mret (0, Some (testfs_inode_get_nr i, testfs_inode_get_type i, testfs_inode_get_size i,
                     testfs_inode_get_block_count i)).

End dir.
