(* ===== verification/DirSpec.v ===== *)
(** * What the directory operations do

    The data of a directory spells a list of entries, each in one block
    ([is_dir]).  The operations of dir.c are compared with functions on that
    list: [dlookup], [dadd] and [dremove].  Memory allocation succeeds here. *)
From S2P Require Import Prelude Bytes Bitmap StateMonad Disk Super Inode ReadWrite FileBlocks ReadWriteSpec World Dir.

#[local] Ltac Zify.zify_post_hook ::= Z.to_euclidean_division_equations.

Record entry := Entry { e_nr : Z; e_name : list Z }.

(** A name: bytes other than NUL, of a length an int can hold with its NUL. *)
Record name_ok (n : list Z) : Prop := NameOk {
  nm_bytes : Forall (fun c => 0 < c < 256) n;
  nm_len : zlen n < 2 ^ 31 - 1
}.

Definition live (e : entry) : bool := 0 <=? e_nr e.
Definition esize (e : entry) : Z := sizeof_dirent + (zlen (e_name e) + 1).
Definition dsize (es : list entry) : Z := foldr (fun e n => esize e + n) 0 es.
Definition enc_entry (e : entry) : list Z := enc_dirent (zlen (e_name e) + 1) (e_nr e) (e_name e ++ [0]).

Record entry_ok (e : entry) : Prop := EntryOk {
  en_nr : in_s32 (e_nr e);
  en_name : name_ok (e_name e)
}.

(** ** The operations on lists of entries *)

(** The number of the first entry in use with the name. *)
Fixpoint dlookup (es : list entry) (name : list Z) : option Z :=
  match es with
  | [] => None
  | e :: es => if live e && bool_decide (e_name e = name) then Some (e_nr e) else dlookup es name
  end.

(** A new entry takes the place of the first free entry with a name of the
    same length, or comes last; a name found in use before it is refused. *)
Fixpoint dadd (es : list entry) (name : list Z) (nr : Z) : option (list entry) :=
  match es with
  | [] => Some [Entry nr name]
  | e :: es =>
      if live e && bool_decide (e_name e = name) then None
      else if live e || negb (zlen (e_name e) =? zlen name) then cons e <$> dadd es name nr
      else Some (Entry nr name :: es)
  end.

(** The first entry in use with the name becomes free. *)
Fixpoint dremove (es : list entry) (name : list Z) : list entry :=
  match es with
  | [] => []
  | e :: es =>
      if live e && bool_decide (e_name e = name) then Entry INVALID_INODE_NR (e_name e) :: es
      else e :: dremove es name
  end.

(** No two entries in use have the same name. *)
Definition names_unique (es : list entry) : Prop := NoDup (e_name <$> filter (fun e => live e = true) es).

Definition is_dot (n : list Z) : bool := bool_decide (n = str_dot) || bool_decide (n = str_dotdot).
(** A directory that can be removed: nothing in use but "." and "..". *)
Definition dempty (es : list entry) : bool := forallb (fun e => negb (live e) || is_dot (e_name e)) es.

Lemma dlookup_Some es name nr : dlookup es name = Some nr -> 0 <= nr /\ exists e, e ∈ es /\ live e = true /\ e_name e = name /\ e_nr e = nr.
Proof.
  induction es as [|e es IH]; [done|]. cbn [dlookup]. destruct (live e) eqn:El; cbn [andb].
  - case_bool_decide as En.
    + intros [= <-]. unfold live in El. split; [lia|]. exists e. by split_and!; [left|..].
    + intros (? & e' & ? & ?)%IH. split; [done|]. exists e'. by split; [right|].
  - intros (? & e' & ? & ?)%IH. split; [done|]. exists e'. by split; [right|].
Qed.

Lemma dlookup_None es name : dlookup es name = None <-> forall e, e ∈ es -> live e = true -> e_name e <> name.
Proof.
  induction es as [|e es IH]; cbn [dlookup].
  - split; [|done]. intros _ e He. by apply elem_of_nil in He.
  - destruct (live e) eqn:El; cbn [andb]; [case_bool_decide as En|].
    + split; [done|]. intros Hall. exfalso. apply (Hall e); [apply list_elem_of_here|done|done].
    + rewrite IH. split; [intros Hall e' [->|He']%elem_of_cons; auto|intros Hall e' He'; apply Hall; by right].
    + rewrite IH. split; [intros Hall e' [->|He']%elem_of_cons; [congruence|auto]|intros Hall e' He'; apply Hall; by right].
Qed.

Lemma dlookup_app es es' name :
  dlookup (es ++ es') name = match dlookup es name with Some nr => Some nr | None => dlookup es' name end.
Proof. induction es as [|e es IH]; [done|]. cbn [app dlookup]. by destruct (live e && _). Qed.

(** Where [dadd] puts the entry. *)
Lemma dadd_place es name nr es' :
  dadd es name nr = Some es' ->
  exists es1 old es2, es = es1 ++ old ++ es2 /\ es' = es1 ++ Entry nr name :: es2 /\
    match old with [] => es2 = [] | [e] => live e = false /\ zlen (e_name e) = zlen name | _ => False end.
Proof.
  revert es'. induction es as [|e es IH]; intros es'; cbn [dadd].
  - intros [= <-]. by exists [], [], [].
  - destruct (live e && _); [done|]. destruct (live e) eqn:El; cbn [orb].
    + destruct (dadd es name nr) as [l|]; [|done]. intros [= <-].
      destruct (IH l eq_refl) as (es1 & old & es2 & -> & -> & Hold). by exists (e :: es1), old, es2.
    + destruct (Z.eqb_spec (zlen (e_name e)) (zlen name)); cbn [negb].
      * intros [= <-]. by exists [], [e], es.
      * destruct (dadd es name nr) as [l|]; [|done]. intros [= <-].
        destruct (IH l eq_refl) as (es1 & old & es2 & -> & -> & Hold). by exists (e :: es1), old, es2.
Qed.

Lemma dadd_fresh es name nr : dlookup es name = None -> is_Some (dadd es name nr).
Proof.
  induction es as [|e es IH]; [by eexists|]. cbn [dlookup dadd]. destruct (live e && _); [done|].
  intros (l & ->)%IH. by destruct (_ || _); eexists.
Qed.

(** Adding a name changes the lookup of that name only. *)
Lemma dlookup_dadd es name nr es' n :
  0 <= nr -> dlookup es name = None -> dadd es name nr = Some es' ->
  dlookup es' n = if decide (n = name) then Some nr else dlookup es n.
Proof.
  intros Hnr Hnone (es1 & old & es2 & -> & -> & Hold)%dadd_place.
  rewrite dlookup_app in Hnone. rewrite !dlookup_app. cbn [dlookup].
  assert (Hl : live (Entry nr name) = true) by (unfold live; cbn; lia). rewrite Hl. cbn [andb e_name e_nr].
  assert (Eold : dlookup old n = None).
  { destruct old as [|e [|]]; [done| |done]. cbn [dlookup]. by destruct Hold as [-> _]. }
  rewrite Eold. case_decide as En.
  - subst n. destruct (dlookup es1 name); [done|]. by rewrite bool_decide_true.
  - by rewrite bool_decide_false.
Qed.

Lemma live_names_app es es' :
  e_name <$> filter (fun e => live e = true) (es ++ es') =
  (e_name <$> filter (fun e => live e = true) es) ++ (e_name <$> filter (fun e => live e = true) es').
Proof. by rewrite filter_app, fmap_app. Qed.

Lemma elem_of_live_names es n : n ∈ e_name <$> filter (fun e => live e = true) es <-> dlookup es n <> None.
Proof.
  rewrite list_elem_of_fmap. split.
  - intros (e & -> & [Hl He]%list_elem_of_filter) Hn. by apply (proj1 (dlookup_None _ _) Hn e).
  - destruct (dlookup es n) as [nr|] eqn:E; [|done]. intros _. apply dlookup_Some in E as (_ & e & He & Hl & <- & _).
    exists e. split; [done|]. by apply list_elem_of_filter.
Qed.

(** Names stay distinct. *)
Lemma names_unique_dadd es name nr es' :
  0 <= nr -> names_unique es -> dlookup es name = None -> dadd es name nr = Some es' -> names_unique es'.
Proof.
  unfold names_unique. intros Hnr Hu Hnone (es1 & old & es2 & -> & -> & Hold)%dadd_place.
  assert (Eold : filter (fun e => live e = true) old = []).
  { destruct old as [|e [|]]; [done| |done]. destruct Hold as [Hf _]. by rewrite filter_cons, decide_False by (rewrite Hf; done). }
  rewrite live_names_app, live_names_app, Eold in Hu. cbn [fmap list_fmap app] in Hu.
  rewrite live_names_app, filter_cons, decide_True by (unfold live; cbn; lia). cbn [fmap list_fmap e_name].
  rewrite <- Permutation_middle. apply NoDup_cons. split; [|done].
  rewrite <- live_names_app, elem_of_live_names. rewrite dlookup_app in Hnone. rewrite dlookup_app.
  destruct (dlookup es1 name); [done|]. rewrite dlookup_app in Hnone. destruct (dlookup old name); [done|]. intros Hx. by apply Hx.
Qed.

Lemma dremove_place es name nr :
  dlookup es name = Some nr ->
  exists es1 e es2, es = es1 ++ e :: es2 /\ dremove es name = es1 ++ Entry INVALID_INODE_NR (e_name e) :: es2 /\
    dlookup es1 name = None /\ live e = true /\ e_name e = name /\ e_nr e = nr.
Proof.
  induction es as [|e es IH]; [done|]. cbn [dlookup dremove]. destruct (live e && _) eqn:E.
  - apply andb_true_iff in E as [El En]. apply bool_decide_eq_true in En. intros [= <-]. by exists [], e, es.
  - intros (es1 & e' & es2 & -> & -> & Hn & Hl & En & Er)%IH. exists (e :: es1), e', es2. cbn [dlookup app].
    by rewrite E.
Qed.

(** Removing a name changes the lookup of that name only. *)
Lemma dlookup_dremove es name nr n :
  names_unique es -> dlookup es name = Some nr ->
  dlookup (dremove es name) n = if decide (n = name) then None else dlookup es n.
Proof.
  intros Hu (es1 & e & es2 & -> & -> & Hn & Hl & <- & _)%dremove_place. rewrite !dlookup_app. cbn [dlookup].
  rewrite Hl. cbn [andb e_name]. case_decide as E.
  - subst n. rewrite Hn. apply dlookup_None. intros e' He' Hl' En.
    unfold names_unique in Hu. rewrite live_names_app, filter_cons, decide_True in Hu by done.
    apply NoDup_app in Hu as (_ & _ & Hu2). cbn [fmap list_fmap] in Hu2. apply NoDup_cons in Hu2 as [Hnot _].
    apply Hnot, list_elem_of_fmap. exists e'. split; [done|]. by apply list_elem_of_filter.
  - by rewrite (bool_decide_false (e_name e = n)) by done.
Qed.

Lemma names_unique_dremove es name nr : names_unique es -> dlookup es name = Some nr -> names_unique (dremove es name).
Proof.
  unfold names_unique. intros Hu (es1 & e & es2 & -> & -> & _ & Hl & _)%dremove_place.
  rewrite live_names_app, filter_cons, decide_False by done.
  rewrite live_names_app, filter_cons, decide_True in Hu by done. cbn [fmap list_fmap] in Hu.
  rewrite <- Permutation_middle in Hu. by apply NoDup_cons in Hu as [_ ?].
Qed.

(** ** Entries in a file *)

Lemma slice_slice {A} (l : list A) o m p n : 0 <= o -> 0 <= p -> 0 <= n -> p + n <= m -> slice p n (slice o m l) = slice (o + p) n l.
Proof.
  intros. apply list_eq. intros i. rewrite !lookup_slice by lia. repeat case_decide; try lia; try done. f_equal. lia.
Qed.

Lemma zlen_enc_dirent len nr name : zlen (enc_dirent len nr name) = 8 + zlen name.
Proof. unfold enc_dirent. rewrite !zlen_app, !zlen_le_enc. lia. Qed.

Lemma zlen_enc_entry e : zlen (enc_entry e) = esize e.
Proof. unfold enc_entry, esize, sizeof_dirent. by rewrite zlen_enc_dirent, zlen_app. Qed.

Lemma esize_pos e : 9 <= esize e.
Proof. unfold esize, sizeof_dirent. pose proof (zlen_nonneg (e_name e)). lia. Qed.

Lemma dsize_app es es' : dsize (es ++ es') = dsize es + dsize es'.
Proof. induction es as [|e es IH]; [done|]. cbn [dsize foldr app] in *. unfold dsize in *. lia. Qed.

Lemma dsize_ge es : 9 * zlen es <= dsize es.
Proof.
  induction es as [|e es IH]; [done|]. cbn [dsize foldr]. fold (dsize es). pose proof (esize_pos e).
  unfold zlen in *. cbn [length]. lia.
Qed.

(** The fields of an encoded entry. *)
Lemma enc_dirent_fields len nr name :
  in_s32 len -> in_s32 nr ->
  get_s32 0 (slice 0 8 (enc_dirent len nr name)) = len /\ get_s32 4 (slice 0 8 (enc_dirent len nr name)) = nr /\
  slice 8 (zlen name) (enc_dirent len nr name) = name.
Proof.
  intros Hl Hn. assert (E4 : forall z, le_dec (le_enc 4 z) = z mod 2 ^ 32) by (intros z; rewrite dec_enc4; done).
  unfold get_s32. rewrite !slice_slice by lia. unfold enc_dirent.
  split_and!.
  - change (slice (0 + 0) 4 (le_enc 4 len ++ le_enc 4 nr ++ name)) with (le_enc 4 len). rewrite E4, s32_u32. by apply s32_small.
  - change (slice (0 + 4) 4 (le_enc 4 len ++ le_enc 4 nr ++ name)) with (le_enc 4 nr). rewrite E4, s32_u32. by apply s32_small.
  - change (slice 8 (zlen name) (le_enc 4 len ++ le_enc 4 nr ++ name)) with (take (Z.to_nat (zlen name)) name).
    unfold zlen. rewrite Nat2Z.id. apply firstn_all.
Qed.

Lemma cstr_name n tl : Forall (fun c => 0 < c < 256) n -> cstr (n ++ 0 :: tl) = Ret n.
Proof.
  induction 1 as [|c n Hc Hn IH]; [done|]. cbn [app cstr]. rewrite (proj2 (Z.eqb_neq c 0)) by lia.
  by rewrite IH.
Qed.

Lemma streq_name n name : name_ok n -> streq (n ++ [0]) name = Ret (bool_decide (n = name)).
Proof. intros [Hb _]. unfold streq. by rewrite cstr_name. Qed.

Lemma is_dot_streq n :
  name_ok n ->
  (b ← streq (n ++ [0]) str_dot; if b : bool then Ret true else streq (n ++ [0]) str_dotdot) = Ret (is_dot n).
Proof.
  intros Hn. rewrite !streq_name by done. cbn [mbind res_bind]. unfold is_dot.
  by destruct (bool_decide (n = str_dot)).
Qed.

Section dirs.
Context `{Geometry} (malloc_ok : Z -> bool) (malloc_all : forall n, malloc_ok n = true).
Implicit Types (d : disk) (x : dinode) (es : list entry).

(** [n] bytes of the file at offset [o], in one block. *)
Definition fslice d x o n : list Z := slice (o mod BLOCK_SIZE) n (file_block d x (o / BLOCK_SIZE)).

(** The entries from offset [o] on. *)
Fixpoint dir_at d x o es : Prop :=
  match es with
  | [] => i_size x = o
  | e :: es => entry_ok e /\ in_block o (esize e) /\ fslice d x o (esize e) = enc_entry e /\ dir_at d x (o + esize e) es
  end.

Record is_dir d x es : Prop := IsDir {
  id_type : i_type x = I_DIR;
  id_entries : dir_at d x 0 es
}.

Lemma dir_at_size d x o es : dir_at d x o es -> i_size x = o + dsize es.
Proof.
  revert o. induction es as [|e es IH]; intros o; cbn [dir_at dsize foldr]; [lia|]. fold (dsize es).
  intros (_ & _ & _ & ->%IH). lia.
Qed.

Lemma dir_at_app d x o es1 es2 : dir_at d x o (es1 ++ es2) -> dir_at d x (o + dsize es1) es2.
Proof.
  revert o. induction es1 as [|e es1 IH]; intros o; cbn [app dir_at dsize foldr]; [by rewrite Z.add_0_r|].
  fold (dsize es1). intros (_ & _ & _ & Hd%IH). by rewrite Z.add_assoc.
Qed.

Lemma dir_at_ok d x o es : dir_at d x o es -> Forall entry_ok es.
Proof. revert o. induction es as [|e es IH]; intros o; [done|]. intros (? & _ & _ & ?). constructor; eauto. Qed.

(** The same bytes spell the same entries. *)
Lemma dir_at_same d x d' x' o es :
  i_size x' = i_size x -> (forall k, file_block d' x' k = file_block d x k) -> dir_at d x o es -> dir_at d' x' o es.
Proof.
  intros Hs Hk. revert o. induction es as [|e es IH]; intros o; cbn [dir_at]; [congruence|].
  intros (? & ? & ? & ?). split_and!; [done|done| |by apply IH]. unfold fslice in *. by rewrite Hk.
Qed.

Lemma is_dir_same d x d' es : (forall k, file_block d' x k = file_block d x k) -> is_dir d x es -> is_dir d' x es.
Proof. intros Hk [Ht He]. split; [done|]. by eapply dir_at_same. Qed.

(** An access in a block and a part of it. *)
Lemma in_block_sub o n p m : in_block o n -> 0 <= p -> 0 < m -> p + m <= n ->
  in_block (o + p) m /\ (o + p) mod BLOCK_SIZE = o mod BLOCK_SIZE + p /\ (o + p) / BLOCK_SIZE = o / BLOCK_SIZE.
Proof.
  intros [H0 H1 H2 H3] Hp Hm Hle. assert (HB : 0 < BLOCK_SIZE) by (geo; lia).
  pose proof (Z.mod_pos_bound o BLOCK_SIZE HB). pose proof (Z.div_mod o BLOCK_SIZE ltac:(lia)) as Hdm.
  assert (Eq : (o + p) / BLOCK_SIZE = o / BLOCK_SIZE).
  { symmetry. apply (Z.div_unique _ _ _ (o mod BLOCK_SIZE + p)); [left; lia|lia]. }
  assert (Er : (o + p) mod BLOCK_SIZE = o mod BLOCK_SIZE + p).
  { symmetry. apply (Z.mod_unique _ _ (o / BLOCK_SIZE)); [left; lia|lia]. }
  split_and!; [constructor; rewrite ?Er, ?Eq; lia|done|done].
Qed.

Lemma fslice_sub d x o n p m : in_block o n -> 0 <= p -> 0 < m -> p + m <= n ->
  fslice d x (o + p) m = slice p m (fslice d x o n).
Proof.
  intros Hib Hp Hm Hle. destruct (in_block_sub o n p m Hib Hp Hm Hle) as (_ & Er & Eq). unfold fslice. rewrite Er, Eq.
  assert (HB : 0 < BLOCK_SIZE) by (geo; lia). pose proof (Z.mod_pos_bound o BLOCK_SIZE HB). by rewrite slice_slice by lia.
Qed.

(** ** Reading entries *)

Lemma read_world s im bm a i cap start size :
  world_ok s im bm -> inodes s !! a = Some i -> in_block start size -> start + size <= i_size (din i) -> size <= cap ->
  testfs_read_data a cap start size s = Ret ((size, fslice (dev (f_sb s)) (din i) start size), s).
Proof.
  intros [Hs Hfiles _] Ha Hib Hsz Hcap. pose proof (io_nr _ _ (fo_inode _ _ _ Hs _ _ Ha)) as Hr.
  pose proof (fs_files _ _ _ Hfiles _ Hr) as Hf. rewrite (file_of_loaded _ _ _ _ _ Hs Ha) in Hf.
  rewrite <- (on_id s a i Ha). apply (read_data_ok s bm); try done. apply (sr_disk _ _ _ (fo_super _ _ _ Hs)).
Qed.

Lemma dir_field {A} s a i (f : inode -> A) : inodes s !! a = Some i -> (i ← get_in a; mret (f i)) s = Ret (f i, s).
Proof. intros Ha. unfold get_in. st_run. by rewrite Ha. Qed.

Lemma get_in_run {B} s a i (f : inode -> FS B) : inodes s !! a = Some i -> (get_in a ≫= f) s = f i s.
Proof. intros Ha. unfold get_in. st_run. by rewrite Ha. Qed.

Lemma assert_dir_run s a i : inodes s !! a = Some i -> i_type (din i) = I_DIR -> assert_dir a s = Ret (tt, s).
Proof.
  intros Ha Ht. unfold assert_dir, dir_type. st_call (dir_field s a i testfs_inode_get_type Ha).
  unfold testfs_inode_get_type. by rewrite Ht.
Qed.

Section reading.
Context (s : fs) (im bm : bitmap) (a : Z) (i : inode).
Context (Hw : world_ok s im bm) (Ha : inodes s !! a = Some i) (Ht : i_type (din i) = I_DIR).

(** testfs_next_dirent steps through the entries. *)
Lemma next_dirent_run o es :
  dir_at (dev (f_sb s)) (din i) o es ->
  testfs_next_dirent malloc_ok a o s =
  Ret (match es with
       | [] => (None, o)
       | e :: _ => (Some (Dirent (zlen (e_name e) + 1) (e_nr e) (e_name e ++ [0])), o + esize e)
       end, s).
Proof.
  intros Hd. unfold testfs_next_dirent. st_call (assert_dir_run s a i Ha Ht).
  unfold dir_size. st_call (dir_field s a i testfs_inode_get_size Ha). unfold testfs_inode_get_size.
  pose proof (dir_at_size _ _ _ _ Hd) as Hsz. destruct es as [|e es]; cbn [dir_at dsize foldr] in *.
  { by rewrite (proj2 (Z.leb_le _ _)) by lia. }
  fold (dsize es) in Hsz. pose proof (dsize_ge es). pose proof (zlen_nonneg es). pose proof (esize_pos e) as Hpos.
  destruct Hd as ([Hnr [Hnb Hnl]] & Hib & Hsl & _). pose proof (zlen_nonneg (e_name e)) as Hn0.
  rewrite (proj2 (Z.leb_gt _ _)) by lia.
  assert (El : zlen (e_name e ++ [0]) = zlen (e_name e) + 1) by by rewrite zlen_app.
  destruct (in_block_sub o (esize e) 0 8 Hib) as (Hib8 & _); [lia..|]. rewrite Z.add_0_r in Hib8.
  destruct (in_block_sub o (esize e) 8 (zlen (e_name e) + 1) Hib) as (Hibn & _);
    [unfold esize, sizeof_dirent in *; lia..|].
  st_call (read_world s im bm a i sizeof_dirent o 8 Hw Ha Hib8 ltac:(lia) ltac:(done)).
  rewrite (proj2 (Z.ltb_ge 8 0)) by lia.
  assert (Eh : fslice (dev (f_sb s)) (din i) o 8 = slice 0 8 (enc_entry e)).
  { rewrite <- Hsl, <- (Z.add_0_r o) at 1. apply fslice_sub; [done|lia..]. }
  rewrite Eh. destruct (enc_dirent_fields (zlen (e_name e) + 1) (e_nr e) (e_name e ++ [0])) as (E0 & E4 & E8);
    [unfold in_s32; lia|done|]. fold (enc_entry e) in E0, E4, E8. rewrite E0, E4.
  rewrite zlen_slice by (rewrite ?zlen_enc_entry; lia). change (8 <? sizeof_dirent) with false. cbv iota.
  rewrite (proj2 (Z.ltb_lt 0 _)) by lia. st_run. rewrite malloc_all. cbn [negb].
  unfold sizeof_dirent at 1. unfold sizeof_dirent at 2.
  st_call (read_world s im bm a i (zlen (e_name e) + 1) (o + 8) (zlen (e_name e) + 1) Hw Ha Hibn
             ltac:(unfold esize, sizeof_dirent in *; lia) ltac:(lia)).
  rewrite (proj2 (Z.ltb_ge (zlen (e_name e) + 1) 0)) by lia. st_run. do 2 f_equal.
  rewrite (fslice_sub _ _ _ _ _ _ Hib) by (unfold esize, sizeof_dirent in *; lia). rewrite Hsl, <- El, E8.
  f_equal. unfold esize, sizeof_dirent. lia.
Qed.

Lemma dir_fuel_enough o es : dir_at (dev (f_sb s)) (din i) o es -> 0 <= o -> (length es < S (Z.to_nat (i_size (din i))))%nat.
Proof. intros Hd Ho. pose proof (dir_at_size _ _ _ _ Hd). pose proof (dsize_ge es). unfold zlen in *. lia. Qed.

Lemma name_loop_run name fuel o es :
  dir_at (dev (f_sb s)) (din i) o es -> (length es < fuel)%nat ->
  name_loop malloc_ok fuel a name o s = Ret (default (- ENOENT) (dlookup es name), s).
Proof.
  revert o fuel. induction es as [|e es IH]; intros o [|fuel] Hd Hf; cbn [length] in Hf; [lia| |lia|];
    cbn [name_loop dlookup]; st_call (next_dirent_run _ _ Hd); [done|]. cbn [d_inode_nr d_name].
  destruct Hd as ([Hnr Hname] & _ & _ & Hd). unfold live. rewrite Z.leb_antisym.
  destruct (e_nr e <? 0); cbn [negb andb]; st_run; [apply IH; [done|lia]|].
  rewrite (run_lift _ _ _ _ (streq_name _ name Hname)). case_bool_decide; [done|]. apply IH; [done|lia].
Qed.

(** The search for the place of a new entry. *)
Lemma add_loop_run name nr fuel o es :
  dir_at (dev (f_sb s)) (din i) o es -> (length es < fuel)%nat ->
  (dadd es name nr = None /\
   exists p, add_dirent_loop malloc_ok fuel a name (zlen name + 1) o s = Ret ((- EEXIST, false, p), s)) \/
  (exists es1 old es2, es = es1 ++ old ++ es2 /\ dadd es name nr = Some (es1 ++ Entry nr name :: es2) /\
     match old with [] => es2 = [] | [e] => zlen (e_name e) = zlen name | _ => False end /\
     add_dirent_loop malloc_ok fuel a name (zlen name + 1) o s =
     Ret ((0, bool_decide (old <> []), o + dsize es1), s)).
Proof.
  revert o fuel. induction es as [|e es IH]; intros o [|fuel] Hd Hf; cbn [length] in Hf; [lia| |lia|];
    cbn [add_dirent_loop dadd]; st_call (next_dirent_run _ _ Hd).
  { right. exists [], [], []. cbn. by rewrite Z.add_0_r. }
  cbn [d_inode_nr d_name d_name_len]. destruct Hd as ([Hnr Hname] & _ & _ & Hd). unfold live.
  assert (Hrec : forall es', es' = e :: es -> dadd es name nr = None /\
      (exists p, add_dirent_loop malloc_ok fuel a name (zlen name + 1) (o + esize e) s = Ret ((- EEXIST, false, p), s)) \/
    (exists es1 old es2, es' = es1 ++ old ++ es2 /\ cons e <$> dadd es name nr = Some (es1 ++ Entry nr name :: es2) /\
     match old with [] => es2 = [] | [e] => zlen (e_name e) = zlen name | _ => False end /\
     add_dirent_loop malloc_ok fuel a name (zlen name + 1) (o + esize e) s = Ret ((0, bool_decide (old <> []), o + dsize es1), s))).
  { intros es' ->. destruct (IH (o + esize e) fuel Hd ltac:(lia)) as [?|(es1 & old & es2 & -> & Ea & Hold & E)]; [by left|].
    right. exists (e :: es1), old, es2. rewrite Ea. split_and!; try done. rewrite E. cbn [dsize foldr]. fold (dsize es1).
    do 3 f_equal. lia. }
  specialize (Hrec _ eq_refl).
  destruct (0 <=? e_nr e); cbn [andb orb].
  - rewrite (run_lift _ _ _ _ (streq_name _ name Hname)). case_bool_decide as En; st_run; [left; eauto|].
    destruct Hrec as [[Ha0 Hex]|?]; [left; by rewrite Ha0|by right].
  - st_run. replace (zlen (e_name e) + 1 =? zlen name + 1) with (zlen (e_name e) =? zlen name)
      by (destruct (Z.eqb_spec (zlen (e_name e)) (zlen name)), (Z.eqb_spec (zlen (e_name e) + 1) (zlen name + 1)); lia || done).
    destruct (Z.eqb_spec (zlen (e_name e)) (zlen name)); cbn [negb].
    + right. exists [], [e], es. cbn. by rewrite Z.add_0_r.
    + destruct Hrec as [[Ha0 Hex]|?]; [left; by rewrite Ha0|by right].
Qed.

End reading.

(** ** Writing an entry *)

(** [es] are in place from offset [o] on. *)
Fixpoint placed d x o es : Prop :=
  match es with
  | [] => True
  | e :: es => entry_ok e /\ in_block o (esize e) /\ fslice d x o (esize e) = enc_entry e /\ placed d x (o + esize e) es
  end.

Lemma dir_at_placed d x o es : dir_at d x o es <-> placed d x o es /\ i_size x = o + dsize es.
Proof.
  revert o. induction es as [|e es IH]; intros o; cbn [dir_at placed dsize foldr]; [rewrite Z.add_0_r; tauto|].
  fold (dsize es). rewrite IH, Z.add_assoc. tauto.
Qed.

Lemma placed_app d x o es es' : placed d x o (es ++ es') <-> placed d x o es /\ placed d x (o + dsize es) es'.
Proof.
  revert o. induction es as [|e es IH]; intros o; cbn [app placed dsize foldr]; [rewrite Z.add_0_r; tauto|].
  fold (dsize es). rewrite IH, Z.add_assoc. tauto.
Qed.

Lemma in_block_index o n : in_block o n -> 0 <= o / BLOCK_SIZE < MAX_BLOCKS /\ 0 <= o mod BLOCK_SIZE /\ o mod BLOCK_SIZE + n <= BLOCK_SIZE
  /\ o = BLOCK_SIZE * (o / BLOCK_SIZE) + o mod BLOCK_SIZE.
Proof.
  intros [H0 H1 H2 H3]. assert (HB : 0 < BLOCK_SIZE) by (geo; lia). pose proof (Z.mod_pos_bound o BLOCK_SIZE HB).
  pose proof (Z.div_pos o BLOCK_SIZE H0 HB). pose proof (Z.div_mod o BLOCK_SIZE ltac:(lia)). lia.
Qed.

(** The bytes written, and the bytes elsewhere. *)
Lemma fslice_written d x p buf d' x' :
  disk_ok d -> in_block p (zlen buf) -> written d x p buf d' x' -> fslice d' x' p (zlen buf) = buf.
Proof.
  intros Hdk Hib (_ & _ & Hblk). destruct (in_block_index _ _ Hib) as (Hk & Hm & Hfit & _). unfold fslice.
  rewrite Hblk, decide_True by done. destruct (zlen_file_block d x (p / BLOCK_SIZE) Hdk) as [Hl _].
  apply slice_splice; lia.
Qed.

Lemma fslice_elsewhere d x p buf d' x' o n :
  disk_ok d -> in_block p (zlen buf) -> written d x p buf d' x' -> in_block o n -> o + n <= p \/ p + zlen buf <= o ->
  fslice d' x' o n = fslice d x o n.
Proof.
  intros Hdk Hib (_ & _ & Hblk) Hio Hdis. destruct (in_block_index _ _ Hib) as (Hk & Hm & Hfit & Ep).
  destruct (in_block_index _ _ Hio) as (Hk' & Hm' & Hfit' & Eo). unfold fslice. rewrite Hblk by done. case_decide as E; [|done].
  destruct (zlen_file_block d x (o / BLOCK_SIZE) Hdk) as [Hl _]. rewrite E in Eo. destruct Hio.
  apply slice_splice_other; lia.
Qed.

Lemma placed_written d x p buf d' x' o es :
  disk_ok d -> in_block p (zlen buf) -> written d x p buf d' x' -> 0 <= o -> o + dsize es <= p \/ p + zlen buf <= o ->
  placed d x o es -> placed d' x' o es.
Proof.
  intros Hdk Hib Hwr. revert o. induction es as [|e es IH]; intros o Ho Hdis; cbn [placed dsize foldr] in *; [done|].
  fold (dsize es) in Hdis. pose proof (dsize_ge es). pose proof (zlen_nonneg es). pose proof (esize_pos e). intros (? & Hi & ? & ?). split_and!; try done; [|apply IH; [lia|lia|done]].
  rewrite (fslice_elsewhere d x p buf d' x' o (esize e) Hdk Hib Hwr Hi); [done|]. lia.
Qed.

(** Where a new entry goes: over a free one of its size, or at the end. *)
Definition slot (e : entry) (old es2 : list entry) : Prop :=
  match old with [] => es2 = [] | [e0] => esize e0 = esize e | _ => False end.

Lemma dir_store d x es1 old es2 e d' x' :
  disk_ok d -> is_dir d x (es1 ++ old ++ es2) -> slot e old es2 -> entry_ok e -> in_block (dsize es1) (esize e) ->
  written d x (dsize es1) (enc_entry e) d' x' -> is_dir d' x' (es1 ++ e :: es2).
Proof.
  intros Hdk [Ht Hat] Hslot He Hib Hwr. pose proof (dsize_ge es1). pose proof (zlen_nonneg es1). pose proof (esize_pos e).
  rewrite dir_at_placed, !placed_app, !dsize_app in Hat. destruct Hat as [(Hp1 & _ & Hp2) Hsz]. rewrite !Z.add_0_l in *.
  assert (Hib' : in_block (dsize es1) (zlen (enc_entry e))) by by rewrite zlen_enc_entry.
  pose proof Hwr as (Hsz' & Hty & _). rewrite zlen_enc_entry in Hsz'. split; [congruence|].
  apply dir_at_placed. rewrite placed_app, dsize_app. cbn [placed dsize foldr]. fold (dsize es2). rewrite !Z.add_0_l.
  pose proof (dsize_ge es2). pose proof (zlen_nonneg es2).
  assert (Hend : es2 = [] /\ dsize old = 0 \/ dsize old = esize e).
  { destruct old as [|e0 [|]]; [by left|right; cbn in *; lia|done]. }
  split_and!; try done.
  - eapply placed_written; try done. lia.
  - rewrite <- zlen_enc_entry. by eapply fslice_written.
  - destruct Hend as [[-> _]|Hend]; [done|]. rewrite Hend in Hp2. eapply placed_written; try done; [lia|].
    rewrite zlen_enc_entry. lia.
  - destruct Hend as [[-> Hz]|Hend]; cbn [dsize foldr] in *; lia.
Qed.

End dirs.
