(* ===== verification/DirOps.v ===== *)
(** * The operations on directories, in the whole file system

    Each operation of dir.c on a directory whose data spells [es], in a well
    formed file system: its answer, the entries it leaves and the files it
    changes. *)
From S2P Require Import Prelude Bytes Bitmap StateMonad Disk Super Inode ReadWrite FileBlocks ReadWriteSpec World Dir DirSpec.

#[local] Ltac Zify.zify_post_hook ::= Z.to_euclidean_division_equations.

Section ops.
Context `{Geometry} (malloc_ok : Z -> bool) (malloc_all : forall n, malloc_ok n = true).
Implicit Types (s : fs) (es : list entry).

(** File [n] has the same inode and the same bytes. *)
Definition same_file s s' n : Prop :=
  file_of s' n = file_of s n /\
  forall k, file_block (dev (f_sb s')) (file_of s' n) k = file_block (dev (f_sb s)) (file_of s n) k.
Definition all_same s s' : Prop := forall n, 0 <= n < MAX_INODES -> same_file s s' n.

Lemma all_same_refl s : all_same s s.
Proof. by intros n Hn. Qed.
Lemma same_file_trans s1 s2 s3 n : same_file s1 s2 n -> same_file s2 s3 n -> same_file s1 s3 n.
Proof. intros [E1 B1] [E2 B2]. split; [congruence|]. intros k. by rewrite B2. Qed.
Lemma all_same_trans s1 s2 s3 : all_same s1 s2 -> all_same s2 s3 -> all_same s1 s3.
Proof. intros H1 H2 n Hn. eapply same_file_trans; auto. Qed.
Lemma same_files_all s s' im bm : same_files s s' -> world_ok s im bm -> all_same s s'.
Proof. intros Hsf Hw n Hn. split; [by apply Hsf|]. by eapply same_files_blocks. Qed.

(** An inode in memory and the file it stands for. *)
Lemma loaded_file s im bm a i : world_ok s im bm -> inodes s !! a = Some i -> file_of s (i_nr i) = din i /\ 0 <= i_nr i < MAX_INODES.
Proof. intros [Hs _ _] Ha. split; [by eapply file_of_loaded|]. by apply (io_nr _ _ (fo_inode _ _ _ Hs _ _ Ha)). Qed.

Lemma is_dir_file s s' n es : same_file s s' n -> is_dir (dev (f_sb s)) (file_of s n) es -> is_dir (dev (f_sb s')) (file_of s' n) es.
Proof. intros [E B] Hd. rewrite E in *. eapply is_dir_same; [|exact Hd]. intros k. rewrite <- B. done. Qed.

(** The directory at [a] has got the entries [es']; nothing else has changed. *)
Record dir_updated s im a i s' es' : Prop := DirUpdated {
  du_world : exists bm', world_ok s' im bm';
  du_inode : exists i', inodes s' = <[a := i']> (inodes s) /\ i_nr i' = i_nr i /\ i_count i' = i_count i /\
               is_dir (dev (f_sb s')) (din i') es';
  du_other : other_files s s' (i_nr i)
}.

(** Nothing has changed but the dirty flag of the inode at [a]. *)
Record dir_kept s im a i s' : Prop := DirKept {
  dk_world : exists bm', world_ok s' im bm';
  dk_inode : exists fl, inodes s' = <[a := set_i_flags fl i]> (inodes s);
  dk_same : all_same s s'
}.

Lemma dir_kept_refl s im bm a i : world_ok s im bm -> inodes s !! a = Some i -> dir_kept s im a i s.
Proof.
  intros Hw Ha. constructor; [by exists bm| |apply all_same_refl]. exists (i_flags i).
  rewrite insert_id; [done|]. rewrite Ha. by destruct i.
Qed.

Section one_dir.
Context (s : fs) (im bm : bitmap) (a : Z) (i : inode) (es : list entry).
Context (Hw : world_ok s im bm) (Ha : inodes s !! a = Some i) (Hu : bit im (i_nr i) = true).
Context (Hd : is_dir (dev (f_sb s)) (din i) es).

Lemma dir_fuel_run {B} (f : nat -> FS B) : (dir_fuel a ≫= f) s = f (S (Z.to_nat (i_size (din i)))) s.
Proof. unfold dir_fuel, dir_size. rewrite run_assoc. by st_call (dir_field s a i testfs_inode_get_size Ha). Qed.

Lemma fuel_ok : (length es < S (Z.to_nat (i_size (din i))))%nat.
Proof. eapply (dir_fuel_enough s i 0); [exact (id_entries _ _ _ Hd)|lia]. Qed.

(** testfs_dir_name_to_inode_nr *)
Lemma name_to_nr_run name :
  testfs_dir_name_to_inode_nr malloc_ok a name s = Ret (default (- ENOENT) (dlookup es name), s).
Proof.
  unfold testfs_dir_name_to_inode_nr. st_call (assert_dir_run s a i Ha (id_type _ _ _ Hd)). rewrite dir_fuel_run.
  eapply name_loop_run; [done|exact Hw|exact Ha|exact (id_type _ _ _ Hd)|exact (id_entries _ _ _ Hd)|apply fuel_ok].
Qed.

(** Storing an entry in its slot. *)
Lemma store_entry es1 old es2 e tl :
  es = es1 ++ old ++ es2 -> slot e old es2 -> entry_ok e -> in_block (dsize es1) (esize e) ->
  (exists s', testfs_write_data a (enc_entry e ++ tl) (dsize es1) (esize e) s = Ret (esize e, s') /\
     dir_updated s im a i s' (es1 ++ e :: es2)) \/
  (exists s', testfs_write_data a (enc_entry e ++ tl) (dsize es1) (esize e) s = Ret (- ENOSPC, s') /\ dir_kept s im a i s' /\
     ptr (dev (f_sb s)) (din i) (dsize es1 / BLOCK_SIZE) = 0 /\ (dsize es1 / BLOCK_SIZE < 10 -> no_room bm (f_sb s))).
Proof.
  intros -> Hslot He Hib. rewrite <- zlen_enc_entry in *. pose proof He as [Hnr [Hnb Hnl]].
  assert (Hby : Forall is_byte (enc_entry e)).
  { unfold enc_entry, enc_dirent. rewrite !Forall_app. split_and!; try apply le_enc_bytes; [|by repeat constructor].
    eapply Forall_impl; [exact Hnb|]. intros c Hc. cbn beta in Hc. unfold is_byte. lia. }
  destruct (write_world s im bm a i (enc_entry e) tl (dsize es1) Hw Ha Hu Hib Hby) as
    [(s' & bm' & i' & E & Hw' & Hin & Hnr' & Hc & _ & Hwr & Hoth)|(s' & bm' & E & Hw' & Hfl & Hptr & Hno & Hsame)].
  - left. exists s'. split; [done|]. constructor; [by exists bm'| |done]. exists i'. split_and!; try done.
    eapply dir_store; try done; [apply (sr_disk _ _ _ (fo_super _ _ _ (wo_fs _ _ _ Hw)))|]. by rewrite <- zlen_enc_entry.
  - right. exists s'. split_and!; [done| |done|done]. constructor; [by exists bm'|done|]. intros n Hn. destruct (Hsame n Hn) as [E1 E2].
    split; [done|]. intros k. by rewrite E1.
Qed.

(** The end of a directory is where a block starts or inside one. *)
Lemma dir_end_bound : 0 <= dsize es <= MAX_BLOCKS * BLOCK_SIZE.
Proof.
  pose proof (id_entries _ _ _ Hd) as Hat. apply dir_at_placed in Hat as [Hp _].
  assert (Hgen : forall o es0, 0 <= o <= MAX_BLOCKS * BLOCK_SIZE -> placed (dev (f_sb s)) (din i) o es0 ->
    o <= o + dsize es0 <= MAX_BLOCKS * BLOCK_SIZE).
  { intros o es0. revert o. induction es0 as [|e es0 IH]; intros o Ho Hpl; cbn [placed dsize foldr] in *; [lia|].
    fold (dsize es0). destruct Hpl as (_ & Hib & _ & Hpl). destruct (in_block_bounds _ _ Hib) as (_ & _ & _ & _ & _ & _ & _ & _ & ? & _).
    pose proof (esize_pos e). specialize (IH (o + esize e) ltac:(lia) Hpl). lia. }
  assert (0 <= MAX_BLOCKS * BLOCK_SIZE).
  { pose proof geo_files as (? & ? & ?). apply Z.mul_nonneg_nonneg; [lia|geo; lia]. }
  specialize (Hgen 0 es ltac:(lia) Hp). lia.
Qed.

Lemma dir_offset_int n : 0 <= n <= MAX_BLOCKS * BLOCK_SIZE -> s32 n = n.
Proof.
  intros Hn. pose proof geo_file as Hg. apply s32_small. unfold in_s32. unfold MAX_BLOCKS, NR_DIRECT_BLOCKS, NR_INDIRECT_BLOCKS in Hn. lia.
Qed.

(** Why the entry [name] found no place after the entries [es1]: no block for
    it, or it crosses the end of a block. *)
Definition no_place es1 (name : list Z) e : Prop :=
  (e = ENOSPC /\ ptr (dev (f_sb s)) (din i) (dsize es1 / BLOCK_SIZE) = 0 /\ (dsize es1 / BLOCK_SIZE < 10 -> no_room bm (f_sb s))) \/
  (e = ENOSYS /\ ~ (dsize es1 mod BLOCK_SIZE + (sizeof_dirent + (zlen name + 1)) <= BLOCK_SIZE /\ dsize es1 / BLOCK_SIZE < MAX_BLOCKS)).

(** testfs_add_dirent against [dadd]. *)
Lemma add_dirent_run name nr :
  name_ok name -> 0 <= nr < 2 ^ 31 ->
  (dadd es name nr = None /\ testfs_add_dirent malloc_ok a name nr s = Ret (- EEXIST, s)) \/
  (exists es' n s', dadd es name nr = Some es' /\ testfs_add_dirent malloc_ok a name nr s = Ret (n, s') /\ 0 <= n /\
     dir_updated s im a i s' es') \/
  (exists e s', (e = ENOSPC \/ e = ENOSYS) /\ testfs_add_dirent malloc_ok a name nr s = Ret (- e, s') /\ dir_kept s im a i s' /\
     exists es1 es2, es = es1 ++ es2 /\ no_place es1 name e).
Proof.
  intros Hname Hnr. pose proof Hname as [Hnb Hnl]. pose proof (zlen_nonneg name) as Hn0.
  pose proof (id_entries _ _ _ Hd) as Hat. pose proof (dir_at_size _ _ _ _ Hat) as Hsz.
  unfold testfs_add_dirent. st_call (assert_dir_run s a i Ha (id_type _ _ _ Hd)). rewrite dir_fuel_run.
  destruct (add_loop_run malloc_ok malloc_all s im bm a i Hw Ha (id_type _ _ _ Hd) name nr _ 0 es Hat fuel_ok) as
    [(Hno & p & E)|(es1 & old & es2 & Ees & Ha' & Hold & E)]; st_call E; [left; done|].
  right. change (0 <? 0) with false. cbv iota. unfold dir_size. st_call (dir_field s a i testfs_inode_get_size Ha). unfold testfs_inode_get_size.
  set (e := Entry nr name). assert (Hslot : slot e old es2).
  { destruct old as [|e0 [|]]; [done| |done]. unfold slot, esize. cbn [e_name e]. lia. }
  assert (Hfound : bool_decide (old <> []) || (0 + dsize es1 =? i_size (din i)) = true).
  { destruct old as [|e0 old]; [|done]. cbn in Hslot, Ees. subst es2. rewrite app_nil_r in Ees. subst es.
    apply orb_true_iff. right. lia. }
  rewrite Hfound. st_run. unfold testfs_write_dirent. rewrite malloc_all. cbn [negb].
  rewrite (proj2 (Z.leb_le 0 nr)) by lia. st_run. rewrite (proj2 (Z.ltb_ge _ _)) by lia.
  rewrite Z.sub_diag. change (replicate (Z.to_nat 0) 0) with (@nil Z).
  assert (Hend : dsize es1 <= dsize es) by (subst es; rewrite !dsize_app; pose proof (dsize_ge (old ++ es2)); rewrite dsize_app in *; pose proof (zlen_nonneg (old ++ es2)); lia).
  pose proof dir_end_bound as Hbound. pose proof (dsize_ge es1). pose proof (zlen_nonneg es1).
  rewrite Z.add_0_l, dir_offset_int by lia.
  change (enc_dirent (zlen name + 1) nr (name ++ [0] ++ [])) with (enc_entry e).
  change (sizeof_dirent + (zlen name + 1)) with (esize e). rewrite <- (app_nil_r (enc_entry e)).
  destruct (decide (dsize es1 mod BLOCK_SIZE + esize e <= BLOCK_SIZE /\ dsize es1 / BLOCK_SIZE < MAX_BLOCKS)) as [[Hf Hb]|Hno].
  - assert (Hib : in_block (dsize es1) (esize e)) by (pose proof (esize_pos e); constructor; lia).
    destruct (store_entry es1 old es2 e [] Ees Hslot) as [(s' & E' & Hup)|(s' & E' & Hk & Hptr & Hroom)]; try done.
    { constructor; [unfold in_s32; cbn; lia|done]. }
    + left. exists (es1 ++ e :: es2), (esize e), s'. split_and!; try done. pose proof (esize_pos e). lia.
    + right. exists ENOSPC, s'. split_and!; try done; [by left|]. exists es1, (old ++ es2). split; [done|by left].
  - right. exists ENOSYS, s. split_and!; [by right| |by eapply dir_kept_refl|exists es1, (old ++ es2); split; [done|by right]].
    rewrite <- (on_id s a i Ha). apply write_data_refused; [lia|unfold esize, sizeof_dirent; cbn; lia| |lia].
    pose proof geo_max as (? & ? & ?). assert (dsize es1 / BLOCK_SIZE <= MAX_BLOCKS); [|lia].
    apply Z.div_le_upper_bound; [geo; lia|]. rewrite Z.mul_comm. lia.
Qed.

(** The block of an entry is allocated. *)
Lemma entry_block es1 e es2 : es = es1 ++ e :: es2 -> ptr (dev (f_sb s)) (din i) (dsize es1 / BLOCK_SIZE) <> 0.
Proof.
  intros Ees Hz. pose proof (id_entries _ _ _ Hd) as Hat. rewrite Ees in Hat. apply dir_at_app in Hat.
  destruct Hat as ([_ [_ Hl]] & Hib & Hsl & _). rewrite Z.add_0_l in *. destruct (in_block_index _ _ Hib) as (_ & Hm & Hfit & _).
  pose proof (zlen_nonneg (e_name e)) as Hn0. pose proof (esize_pos e) as Hp.
  unfold fslice, file_block in Hsl. rewrite Hz in Hsl. cbn [Z.eqb] in Hsl.
  assert (Hall : Forall (fun b => b = 0) (enc_entry e)) by (rewrite <- Hsl; apply Forall_slice, Forall_replicate; done).
  unfold enc_entry, enc_dirent in Hall. apply Forall_app in Hall as [Hall _].
  pose proof (dec_enc4 (zlen (e_name e) + 1)) as E4. rewrite (u32_small (zlen (e_name e) + 1)) in E4 by (unfold in_u32; lia).
  assert (Hzero : forall l, Forall (fun b => b = 0) l -> le_dec l = 0) by (induction 1 as [|b l -> _ IH]; cbn [le_dec]; lia).
  rewrite Hzero in E4 by done. lia.
Qed.

(** Marking an entry as free. *)
Lemma free_entry es1 e es2 :
  es = es1 ++ e :: es2 ->
  exists s', testfs_write_data a (enc_entry (Entry INVALID_INODE_NR (e_name e))) (dsize es1) (esize e) s = Ret (esize e, s') /\
    dir_updated s im a i s' (es1 ++ Entry INVALID_INODE_NR (e_name e) :: es2).
Proof.
  intros Ees. pose proof (id_entries _ _ _ Hd) as Hat. rewrite Ees in Hat. apply dir_at_app in Hat.
  destruct Hat as ([_ Hname] & Hib & _ & _). rewrite Z.add_0_l in Hib. set (e' := Entry INVALID_INODE_NR (e_name e)).
  change (esize e) with (esize e'). change (esize e) with (esize e') in Hib.
  destruct (store_entry es1 [e] es2 e' [] Ees) as [(s' & E & Hup)|(s' & _ & _ & Hz & _)]; try done.
  - exists s'. by rewrite app_nil_r in E.
  - by destruct (entry_block es1 e es2 Ees).
Qed.

End one_dir.

(** ** Looking at another inode *)

(** Between commands no inode in memory is dirty. *)
Definition calm s : Prop := forall a i, inodes s !! a = Some i -> i_count i < 2 ^ 31 - 1 /\ i_flags i = 0.

Lemma same_state_files s s' im bm :
  fs_ok s im bm -> fs_ok s' im bm -> inodes s' = inodes s -> f_sb s' = f_sb s -> all_same s s'.
Proof. intros _ _ Hin Hsb n Hn. split; [|intros k]; unfold file_of; by rewrite Hin, Hsb. Qed.

Lemma world_same_state s s' im bm :
  world_ok s im bm -> fs_ok s' im bm -> inodes s' = inodes s -> f_sb s' = f_sb s -> world_ok s' im bm.
Proof.
  intros Hw Hs' Hin Hsb. eapply world_view; [exact Hw|done|]. split; [|split; [|rewrite Hsb; lia]].
  - intros n Hn. unfold file_of. by rewrite Hin, Hsb.
  - intros b Hb. by rewrite Hsb.
Qed.

(** testfs_get_inode, and testfs_put_inode undoing it. *)
Lemma visit_inode s im bm nr :
  world_ok s im bm -> calm s -> 0 <= nr < MAX_INODES ->
  exists b s1 i1 s2, get_inode malloc_ok nr s = Ret (b, s1) /\ world_ok s1 im bm /\ inodes s1 !! b = Some i1 /\ i_nr i1 = nr /\
    din i1 = file_of s nr /\ f_sb s1 = f_sb s /\ inodes s1 = <[b := i1]> (inodes s) /\
    (inodes s !! b = None -> i_count i1 = 1) /\
    testfs_put_inode b s1 = Ret (tt, s2) /\ world_ok s2 im bm /\ inodes s2 = inodes s /\ f_sb s2 = f_sb s.
Proof.
  intros Hw Hcalm Hnr. pose proof Hw as [Hs _ _].
  destruct (get_view s im bm nr Hs Hnr) as (b & s1 & i1 & E & Hs1 & Hv & Hsb & Hin & Hi & Hdin & Hcase).
  { intros a i Ha. by apply (Hcalm a i). }
  pose proof (world_view s s1 im bm Hw Hs1 Hv) as Hw1.
  assert (Hb : inodes s1 !! b = Some i1) by (rewrite Hin; apply lookup_insert_eq).
  assert (Hfl : i_flags i1 = 0).
  { destruct (inodes s !! b) as [i|] eqn:Eb; [|by destruct Hcase]. destruct Hcase as [_ ->]. by apply (Hcalm b i). }
  destruct (put_view s1 im bm b i1 Hs1 Hb Hfl) as (s2 & E2 & Hs2 & Hv2 & Hsb2 & Hin2).
  assert (Hback : inodes s2 = inodes s).
  { rewrite Hin2, Hin. destruct (inodes s !! b) as [i|] eqn:Eb.
    - destruct Hcase as [_ ->]. cbn [set_i_count i_count]. pose proof (io_count _ _ (fo_inode _ _ _ Hs _ _ Eb)).
      rewrite decide_False by lia. rewrite insert_insert_eq. apply insert_id. rewrite Eb. f_equal. destruct i. unfold set_i_count. cbn. f_equal. lia.
    - destruct Hcase as [_ ->]. rewrite decide_True by done. by rewrite delete_insert_id. }
  assert (Hsb' : f_sb s2 = f_sb s) by congruence.
  exists b, s1, i1, s2. split_and!; try done; [by unfold get_inode; rewrite malloc_all|by destruct (inodes s !! b); [|destruct Hcase]|].
  by apply (world_same_state s s2).
Qed.

(** ** Removing an entry *)

Lemma remove_allowed_loop_run s im bm a i fuel o es :
  world_ok s im bm -> inodes s !! a = Some i -> i_type (din i) = I_DIR ->
  dir_at (dev (f_sb s)) (din i) o es -> (length es < fuel)%nat ->
  remove_allowed_loop malloc_ok fuel a o s = Ret (if dempty es then 0 else - ENOTEMPTY, s).
Proof.
  intros Hw Ha Ht. revert o fuel. induction es as [|e es IH]; intros o [|fuel] Hat Hf; cbn [length] in Hf; [lia| |lia|];
    cbn [remove_allowed_loop]; st_call (next_dirent_run malloc_ok malloc_all s im bm a i Hw Ha Ht _ _ Hat); [done|].
  cbn [d_inode_nr d_name]. destruct Hat as ([Hnr Hname] & _ & _ & Hat). unfold dempty. cbn [forallb]. unfold live.
  rewrite <- Z.ltb_antisym. destruct (e_nr e <? 0); cbn [orb]; st_run; [apply IH; [done|lia]|].
  rewrite (run_lift _ _ _ _ (is_dot_streq _ Hname)). destruct (is_dot (e_name e)); cbn [andb]; [apply IH; [done|lia]|done].
Qed.

(** Whether the file may be removed: it is no directory, or an empty one. *)
Definition removable (x : dinode) es : bool := negb (i_type x =? I_DIR) || dempty es.

Lemma remove_allowed_run s im bm nr es :
  world_ok s im bm -> calm s -> 0 <= nr < MAX_INODES ->
  (i_type (file_of s nr) = I_DIR -> is_dir (dev (f_sb s)) (file_of s nr) es) ->
  exists s', testfs_remove_dirent_allowed malloc_ok nr s =
             Ret (if removable (file_of s nr) es then 0 else - ENOTEMPTY, s') /\
    world_ok s' im bm /\ inodes s' = inodes s /\ f_sb s' = f_sb s.
Proof.
  intros Hw Hcalm Hnr Hdir.
  destruct (visit_inode s im bm nr Hw Hcalm Hnr) as (b & s1 & i1 & s2 & E1 & Hw1 & Hb & Hi & Hdin & Hsb1 & _ & _ & E2 & Hw2 & Hin2 & Hsb2).
  exists s2. split_and!; try done. unfold testfs_remove_dirent_allowed. st_call E1.
  unfold dir_type. st_call (dir_field s1 b i1 testfs_inode_get_type Hb). unfold testfs_inode_get_type, removable. rewrite Hdin.
  destruct (Z.eqb_spec (i_type (file_of s nr)) I_DIR) as [Ht|Ht]; cbn [negb orb]; st_run.
  - pose proof (Hdir Ht) as Hd. rewrite <- Hdin, <- Hsb1 in Hd.
    rewrite (dir_fuel_run s1 b i1 Hb). pose proof (id_type _ _ _ Hd) as Ht1. pose proof (id_entries _ _ _ Hd) as Hat.
    st_call (remove_allowed_loop_run s1 im bm b i1 _ 0 es Hw1 Hb Ht1 Hat (dir_fuel_enough s1 i1 0 es Hat ltac:(lia))).
    by st_call E2.
  - by st_call E2.
Qed.

Lemma dir_updated_from s s1 im a i s' es' :
  inodes s1 = inodes s -> f_sb s1 = f_sb s -> dir_updated s1 im a i s' es' -> dir_updated s im a i s' es'.
Proof.
  intros Hin Hsb [Hw Hi Ho]. constructor; [done|by rewrite <- Hin|].
  intros n Hn Hne. specialize (Ho n Hn Hne). unfold file_of in *. by rewrite Hin, Hsb in Ho.
Qed.

(** What testfs_remove_dirent may answer. *)
Definition remove_answer s im bm a i es ces name (o : res (Z * fs)) : Prop :=
  match dlookup es name with
  | None => o = Ret (- ENOENT, s)
  | Some nr =>
      if removable (file_of s nr) ces
      then exists s', o = Ret (nr, s') /\ dir_updated s im a i s' (dremove es name)
      else exists s', o = Ret (- ENOTEMPTY, s') /\ world_ok s' im bm /\ inodes s' = inodes s /\ f_sb s' = f_sb s
  end.

Lemma dlookup_skip es0 es name : dlookup es0 name = None -> dlookup (es0 ++ es) name = dlookup es name.
Proof. intros E. by rewrite dlookup_app, E. Qed.
Lemma dremove_skip es0 es name : dlookup es0 name = None -> dremove (es0 ++ es) name = es0 ++ dremove es name.
Proof.
  induction es0 as [|e es0 IH]; [done|]. cbn [dlookup dremove app]. destruct (live e && _); [done|].
  intros Hn. by rewrite IH.
Qed.

Section removing.
Context (s : fs) (im bm : bitmap) (a : Z) (i : inode) (es ces : list entry) (name : list Z).
Context (Hw : world_ok s im bm) (Ha : inodes s !! a = Some i) (Hu : bit im (i_nr i) = true) (Hcalm : calm s).
Context (Hd : is_dir (dev (f_sb s)) (din i) es).
Context (Hchild : forall nr, dlookup es name = Some nr ->
  nr < MAX_INODES /\ (i_type (file_of s nr) = I_DIR -> is_dir (dev (f_sb s)) (file_of s nr) ces)).

Lemma remove_loop_run fuel es0 rest :
  es = es0 ++ rest -> dlookup es0 name = None -> (length rest < fuel)%nat ->
  remove_answer s im bm a i es ces name (remove_dirent_loop malloc_ok fuel a name (dsize es0) s).
Proof.
  revert fuel es0. induction rest as [|e rest IH]; intros [|fuel] es0 Ees Hno Hf; cbn [length] in Hf; [lia| |lia|];
    pose proof (id_entries _ _ _ Hd) as Hat; rewrite Ees in Hat; apply dir_at_app in Hat; rewrite Z.add_0_l in Hat;
    cbn [remove_dirent_loop]; st_call (next_dirent_run malloc_ok malloc_all s im bm a i Hw Ha (id_type _ _ _ Hd) _ _ Hat).
  { unfold remove_answer. rewrite Ees, app_nil_r, Hno. done. }
  cbn [d_inode_nr d_name d_name_len]. destruct Hat as ([Hnr Hname] & _ & _ & _).
  assert (Hskip : live e && bool_decide (e_name e = name) = false ->
    remove_answer s im bm a i es ces name (remove_dirent_loop malloc_ok fuel a name (dsize es0 + esize e) s)).
  { intros Hf'. replace (dsize es0 + esize e) with (dsize (es0 ++ [e])) by (rewrite dsize_app; cbn; lia).
    apply IH; [by rewrite <- app_assoc|rewrite dlookup_skip by done; cbn [dlookup]; by rewrite Hf'|lia]. }
  unfold live in Hskip. rewrite Z.leb_antisym in Hskip. destruct (e_nr e <? 0) eqn:El; cbn [negb andb] in *; st_run; [by apply Hskip|].
  rewrite (run_lift _ _ _ _ (streq_name _ name Hname)). case_bool_decide as En; cbn [negb] in *; st_run; [|by apply Hskip].
  assert (El' : live e = true) by (unfold live; lia).
  assert (Hlook : dlookup es name = Some (e_nr e)).
  { rewrite Ees, dlookup_skip by done. cbn [dlookup]. by rewrite El', bool_decide_true. }
  assert (Hrem : dremove es name = es0 ++ Entry INVALID_INODE_NR (e_name e) :: rest).
  { rewrite Ees, dremove_skip by done. cbn [dremove]. by rewrite El', bool_decide_true. }
  destruct (Hchild _ Hlook) as [Hmax Hdir]. unfold remove_answer. rewrite Hlook, Hrem.
  destruct (remove_allowed_run s im bm (e_nr e) ces Hw Hcalm ltac:(lia) Hdir) as (s1 & E1 & Hw1 & Hin1 & Hsb1).
  st_call E1. destruct (removable _ _).
  - change (0 <? 0) with false. cbv iota. rewrite <- Hin1 in Ha. rewrite <- Hsb1 in Hd.
    destruct (free_entry s1 im bm a i es Hw1 Ha Hu Hd es0 e rest Ees) as (s' & E' & Hup).
    change (enc_dirent (zlen (e_name e) + 1) INVALID_INODE_NR (e_name e ++ [0]))
      with (enc_entry (Entry INVALID_INODE_NR (e_name e))).
    change (sizeof_dirent + (zlen (e_name e) + 1)) with (esize e). st_call E'. pose proof (esize_pos e).
    rewrite (proj2 (Z.leb_le 0 (esize e))) by lia. exists s'. split; [done|]. by apply (dir_updated_from s s1).
  - change (- ENOTEMPTY <? 0) with true. cbv iota. by exists s1.
Qed.

(** testfs_remove_dirent against [dremove]. *)
Lemma remove_dirent_run :
  is_dot name = false -> remove_answer s im bm a i es ces name (testfs_remove_dirent malloc_ok a name s).
Proof.
  intros Hdot. unfold testfs_remove_dirent. unfold is_dot in Hdot. rewrite Hdot. rewrite (dir_fuel_run s a i Ha).
  apply (remove_loop_run _ [] es); [done|done|]. by eapply fuel_ok.
Qed.

End removing.

Lemma remove_dot_refused a name s : is_dot name = true -> testfs_remove_dirent malloc_ok a name s = Ret (- EINVAL, s).
Proof. intros Hdot. unfold testfs_remove_dirent. unfold is_dot in Hdot. by rewrite Hdot. Qed.

(** ** The command rm *)

Definition others_same s s' (n1 n2 : Z) : Prop :=
  forall n, 0 <= n < MAX_INODES -> n <> n1 -> n <> n2 -> same_file s s' n.

Lemma other_same s s' nr n : other_files s s' nr -> 0 <= n < MAX_INODES -> n <> nr -> same_file s s' n.
Proof. intros Ho Hn Hne. by apply Ho. Qed.

(** The entry [es'] of the directory at [a] and the file [nr], after a command. *)
Record command_done s a i s' im' es' nr (x : dinode -> disk -> Prop) : Prop := CommandDone {
  cd_world : exists bm', world_ok s' im' bm';
  cd_inode : exists i', inodes s' = <[a := i']> (inodes s) /\ i_nr i' = i_nr i /\ i_count i' = i_count i /\ i_flags i' = 0 /\
               is_dir (dev (f_sb s')) (din i') es';
  cd_file : x (file_of s' nr) (dev (f_sb s'));
  cd_other : others_same s s' (i_nr i) nr
}.

Lemma sync_dir s im bm a i :
  world_ok s im bm -> inodes s !! a = Some i ->
  exists s', testfs_sync_inode a s = Ret (tt, s') /\ world_ok s' im bm /\ all_same s s' /\
    inodes s' = <[a := set_i_flags 0 i]> (inodes s).
Proof.
  intros Hw Ha. destruct (sync_view s im bm a i (wo_fs _ _ _ Hw) Ha) as (s' & E & Hs' & Hv & Hin & _).
  exists s'. split_and!; [done|by eapply world_view|by eapply same_files_all|done].
Qed.

(** Removing the file of an entry, once the entry is gone. *)
Lemma drop_file s im bm nr :
  world_ok s im bm -> bit im nr = true -> 0 <= nr < MAX_INODES ->
  (forall b j, inodes s !! b = Some j -> i_nr j <> nr /\ i_count j < 2 ^ 31 - 1) ->
  exists b s1 s2 im' bm', get_inode malloc_ok nr s = Ret (b, s1) /\ testfs_remove_inode b s1 = Ret (tt, s2) /\
    world_ok s2 im' bm' /\ bit_clear im nr im' /\ inodes s2 = inodes s /\ file_of s2 nr = zero_dinode /\ other_files s s2 nr.
Proof.
  intros Hw Hbit Hnr Hno. pose proof Hw as [Hs _ _].
  destruct (get_view s im bm nr Hs Hnr) as (b & s1 & i1 & E & Hs1 & Hv & Hsb & Hin & Hi & Hdin & Hcase).
  { intros c j Hc. by apply (Hno c j). }
  pose proof (world_view s s1 im bm Hw Hs1 Hv) as Hw1.
  assert (Hb : inodes s1 !! b = Some i1) by (rewrite Hin; apply lookup_insert_eq).
  destruct (inodes s !! b) as [j|] eqn:Eb; [destruct Hcase as [Hj _]; by destruct (Hno b j Eb)|].
  destruct Hcase as [_ Hc]. rewrite <- Hi in Hbit.
  destruct (remove_world s1 im bm b i1 Hw1 Hb Hbit Hc) as (s2 & im' & bm' & E2 & Hw2 & Hin2 & Hclr & _ & Hz & Hoth).
  exists b, s1, s2, im', bm'. rewrite Hi in *. split_and!; try done.
  - unfold get_inode. by rewrite malloc_all.
  - by rewrite Hin2, Hin, delete_insert_id.
  - intros n Hn Hne. eapply same_file_trans; [by apply (same_files_all s s1 im bm)|by apply Hoth].
Qed.

Section rm.
Context (s : fs) (im bm : bitmap) (a : Z) (i : inode) (es ces : list entry) (c name : list Z).
Context (Hw : world_ok s im bm) (Ha : inodes s !! a = Some i) (Hu : bit im (i_nr i) = true) (Hcalm : calm s).
Context (Hd : is_dir (dev (f_sb s)) (din i) es) (Hdot : is_dot name = false).
Context (Hchild : forall nr, dlookup es name = Some nr ->
  nr < MAX_INODES /\ (i_type (file_of s nr) = I_DIR -> is_dir (dev (f_sb s)) (file_of s nr) ces)).

Lemma rm_refused :
  match dlookup es name with
  | None => cmd_rm malloc_ok [c; name] a s = Ret ((- ENOENT, [], a), s)
  | Some nr =>
      removable (file_of s nr) ces = false ->
      exists s', cmd_rm malloc_ok [c; name] a s = Ret ((- ENOTEMPTY, [], a), s') /\ world_ok s' im bm /\
        inodes s' = inodes s /\ f_sb s' = f_sb s
  end.
Proof.
  pose proof (remove_dirent_run s im bm a i es ces name Hw Ha Hu Hcalm Hd Hchild Hdot) as Hans. unfold remove_answer in Hans.
  unfold cmd_rm, arg. cbn [bad_args]. change (bad_args [c; name] 2) with false. cbv iota. st_run.
  change ([c; name] !! Z.to_nat 1) with (Some name). cbn [deref]. rewrite (run_lift name) by done.
  destruct (dlookup es name) as [nr|].
  - intros Hr. rewrite Hr in Hans. destruct Hans as (s' & E & Hs'). exists s'. split; [by st_call E|done].
  - by st_call Hans.
Qed.

Lemma rm_done nr :
  dlookup es name = Some nr -> removable (file_of s nr) ces = true -> bit im nr = true ->
  (forall b j, inodes s !! b = Some j -> i_nr j <> nr) ->
  exists s' im', cmd_rm malloc_ok [c; name] a s = Ret ((0, [], a), s') /\ bit_clear im nr im' /\
    command_done s a i s' im' (dremove es name) nr (fun x _ => x = zero_dinode).
Proof.
  intros Hlook Hr Hbit Hno. pose proof (remove_dirent_run s im bm a i es ces name Hw Ha Hu Hcalm Hd Hchild Hdot) as Hans.
  unfold remove_answer in Hans. rewrite Hlook, Hr in Hans. destruct Hans as (s1 & E1 & [(bm1 & Hw1) (i1 & Hin1 & Hnr1 & Hc1 & Hd1) Ho1]).
  pose proof (dlookup_Some _ _ _ Hlook) as [Hnr0 _]. destruct (Hchild nr Hlook) as [Hnr1' _].
  destruct (drop_file s1 im bm1 nr Hw1 Hbit ltac:(lia)) as (b & s2 & s3 & im' & bm' & E2 & E3 & Hw3 & Hclr & Hin3 & Hz & Ho3).
  { intros b j. rewrite Hin1, lookup_insert. case_decide; [intros [= <-]|intros Hj].
    - split; [rewrite Hnr1; by apply (Hno a)|rewrite Hc1; by apply (Hcalm a)].
    - split; [by apply (Hno b)|by apply (Hcalm b)]. }
  assert (Ha3 : inodes s3 !! a = Some i1) by (rewrite Hin3, Hin1; apply lookup_insert_eq).
  destruct (sync_dir s3 im' bm' a i1 Hw3 Ha3) as (s4 & E4 & Hw4 & Hs4 & Hin4).
  destruct (loaded_file s im bm a i Hw Ha) as [_ Hri]. pose proof (Hno a i Ha) as Hne.
  exists s4, im'. split_and!; [|done|].
  - unfold cmd_rm, arg. change (bad_args [c; name] 2) with false. cbv iota. st_run.
    change ([c; name] !! Z.to_nat 1) with (Some name). cbn [deref]. rewrite (run_lift name) by done.
    st_call E1. rewrite (proj2 (Z.ltb_ge nr 0)) by lia. st_call E2. st_call E3. by st_call E4.
  - constructor.
    + by exists bm'.
    + exists (set_i_flags 0 i1). split_and!; try done.
      * by rewrite Hin4, Hin3, Hin1, insert_insert_eq.
      * cbn [set_i_flags din].
        assert (Hf1 : file_of s1 (i_nr i) = din i1).
        { rewrite <- Hnr1. apply (loaded_file s1 im bm1 a i1 Hw1). rewrite Hin1. apply lookup_insert_eq. }
        pose proof (same_file_trans _ _ _ _ (other_same _ _ _ _ Ho3 Hri Hne) (Hs4 _ Hri)) as Hsame.
        assert (Hf4 : file_of s4 (i_nr i) = din i1).
        { destruct Hsame as [-> _]. done. }
        rewrite <- Hf4. eapply is_dir_file; [exact Hsame|]. by rewrite Hf1.
    + destruct (Hs4 nr ltac:(lia)) as [-> _]. done.
    + intros n Hn Hni Hnn. eapply same_file_trans; [by apply (other_same _ _ _ _ Ho1)|].
      eapply same_file_trans; [by apply (other_same _ _ _ _ Ho3)|by apply Hs4].
Qed.

End rm.

End ops.
