(* ===== verification/DirCreate.v ===== *)
(** * Creating files and directories (testfs_create_file_or_dir of dir.c) *)
From S2P Require Import Prelude Bytes Bitmap StateMonad Disk Super Inode ReadWrite FileBlocks ReadWriteSpec World Dir DirSpec DirOps.

#[local] Ltac Zify.zify_post_hook ::= Z.to_euclidean_division_equations.

Section create.
Context `{Geometry} (malloc_ok : Z -> bool) (malloc_all : forall n, malloc_ok n = true).
Implicit Types (s : fs) (es : list entry).

Lemma dots_ok : name_ok str_dot /\ name_ok str_dotdot.
Proof. split; (constructor; [by repeat constructor|done]). Qed.

(** A step that concerns only the inode at [b]: its content satisfies [Q]. *)
Record one_inode s im b j s' (Q : disk -> dinode -> Prop) : Prop := OneInode {
  oi_world : exists bm', world_ok s' im bm';
  oi_inode : exists j', inodes s' = <[b := j']> (inodes s) /\ i_nr j' = i_nr j /\ i_count j' = i_count j /\
               Q (dev (f_sb s')) (din j');
  oi_other : other_files s s' (i_nr j)
}.

Lemma updated_one s im b j s' es' : dir_updated s im b j s' es' -> one_inode s im b j s' (fun d x => is_dir d x es').
Proof. by intros []. Qed.

Lemma kept_one s im b j s' : dir_kept s im b j s' -> one_inode s im b j s' (fun _ _ => True).
Proof.
  intros [Hw (fl & Hin) Hs]. constructor; [done|by exists (set_i_flags fl j)|]. intros n Hn _. by apply Hs.
Qed.

Lemma one_inode_weaken s im b j s' (Q Q' : disk -> dinode -> Prop) :
  (forall d x, Q d x -> Q' d x) -> one_inode s im b j s' Q -> one_inode s im b j s' Q'.
Proof. intros HQ [? (j' & ? & ? & ? & ?) ?]. constructor; [done| |done]. exists j'. split_and!; auto. Qed.

Lemma one_inode_trans s1 im b j1 s2 j2 s3 Q :
  inodes s2 = <[b := j2]> (inodes s1) -> i_nr j2 = i_nr j1 -> i_count j2 = i_count j1 -> other_files s1 s2 (i_nr j1) ->
  one_inode s2 im b j2 s3 Q -> one_inode s1 im b j1 s3 Q.
Proof.
  intros Hin Hnr Hc Ho [Hw (j3 & Hin3 & Hnr3 & Hc3 & HQ) Ho3]. constructor; [done| |].
  - exists j3. split_and!; [by rewrite Hin3, Hin, insert_insert_eq|congruence|congruence|done].
  - intros n Hn Hne. rewrite Hnr in Ho3. eapply same_file_trans; [by apply Ho|by apply Ho3].
Qed.

(** The entries of a new directory are both in its first block. *)
Lemma dots_no_room s bm (j : inode) es nm e :
  (exists es1 es2, es = es1 ++ es2 /\ no_place s bm j es1 nm e) ->
  (es = [] /\ nm = str_dot) \/ (exists nr, es = [Entry nr str_dot]) /\ nm = str_dotdot ->
  ptr (dev (f_sb s)) (din j) 0 = 0 /\ no_room bm (f_sb s).
Proof.
  intros (es1 & es2 & Ees & Hno) Hes. geo. pose proof geo_files.
  assert (Hsmall : 0 <= dsize es1 <= 10 /\ zlen nm <= 2).
  { destruct Hes as [[-> ->]|[(nr & ->) ->]].
    - symmetry in Ees. apply app_eq_nil in Ees as [-> _]. done.
    - destruct es1 as [|e1 es1]; [done|]. injection Ees as <- Ees. symmetry in Ees. apply app_eq_nil in Ees as [-> _]. done. }
  unfold no_place, sizeof_dirent in Hno. rewrite (Z.div_small (dsize es1)), (Z.mod_small (dsize es1)) in Hno by lia.
  destruct Hno as [(_ & Hz & Hno)|[_ Hno]]; [split; [done|apply Hno; lia]|lia].
Qed.

(** testfs_create_empty_dir in a new directory. *)
Lemma empty_dir_run s im bm b j p :
  world_ok s im bm -> inodes s !! b = Some j -> bit im (i_nr j) = true -> is_dir (dev (f_sb s)) (din j) [] ->
  0 <= p < 2 ^ 31 ->
  (exists s', testfs_create_empty_dir malloc_ok p b s = Ret (0, s') /\
     one_inode s im b j s' (fun d x => is_dir d x [Entry (i_nr j) str_dot; Entry p str_dotdot])) \/
  (exists e s', (e = ENOSPC \/ e = ENOSYS) /\ testfs_create_empty_dir malloc_ok p b s = Ret (- e, s') /\
     one_inode s im b j s' (fun _ _ => True) /\ no_room bm (f_sb s)).
Proof.
  intros Hw Hb Hu Hd Hp. destruct dots_ok as [Hn1 Hn2]. destruct (loaded_file s im bm b j Hw Hb) as [_ Hr].
  assert (Hr' : 0 <= i_nr j < 2 ^ 31) by (pose proof geo_inode; geo; lia).
  unfold testfs_create_empty_dir. st_call (assert_dir_run s b j Hb (id_type _ _ _ Hd)).
  rewrite (get_in_run s b j _ Hb). st_run. unfold testfs_inode_get_nr.
  destruct (add_dirent_run malloc_ok malloc_all s im bm b j [] Hw Hb Hu Hd str_dot (i_nr j) Hn1 Hr') as
    [[Hno _]|[(es1 & n & s1 & Ea & E & Hn & Hup)|(e & s1 & He & E & Hk & Hwhy)]]; [done| |].
  2:{ st_call E. right. exists e, s1. assert ((- e <? 0) = true) as -> by (destruct He; subst e; done).
      split_and!; [done|done|by apply kept_one|by apply (dots_no_room _ _ _ _ str_dot e Hwhy); left]. }
  injection Ea as <-. st_call E. rewrite (proj2 (Z.ltb_ge n 0)) by lia.
  destruct Hup as [(bm1 & Hw1) (j1 & Hin1 & Hnr1 & Hc1 & Hd1) Ho1].
  assert (Hb1 : inodes s1 !! b = Some j1) by (rewrite Hin1; apply lookup_insert_eq).
  rewrite <- Hnr1 in Hu.
  destruct (add_dirent_run malloc_ok malloc_all s1 im bm1 b j1 _ Hw1 Hb1 Hu Hd1 str_dotdot p Hn2 Hp) as
    [[Hno _]|[(es2 & n2 & s2 & Ea & E2 & Hn2' & Hup)|(e & s2 & He & E2 & Hk & Hwhy)]].
  - cbn [dadd] in Hno. destruct (live _); done.
  - left. st_call E2. rewrite (proj2 (Z.ltb_ge n2 0)) by lia. exists s2. split; [done|].
    cbn [dadd] in Ea. assert (Hl : live (Entry (i_nr j) str_dot) = true) by (unfold live; cbn; lia).
    rewrite Hl in Ea. cbn in Ea. injection Ea as <-.
    eapply one_inode_trans; [done..|]. by apply updated_one.
  - exfalso. destruct (dots_no_room _ _ _ _ str_dotdot e Hwhy) as [Hz _]; [right; by split; [eexists|]|].
    by eapply (entry_block s1 j1 _ Hd1 [] (Entry (i_nr j) str_dot) []).
Qed.

(** ** Linking a new inode into a directory *)

(** What the new file holds: nothing, or the two entries of an empty directory. *)
Definition new_content (type nr p : Z) (d : disk) (x : dinode) : Prop :=
  if type =? I_DIR then is_dir d x [Entry nr str_dot; Entry p str_dotdot] else x = set_i_type type zero_dinode.

Section link.
Context (s : fs) (im bm : bitmap) (a b : Z) (i j : inode) (es : list entry) (name : list Z) (type : Z).
Context (Hw : world_ok s im bm) (Ha : inodes s !! a = Some i) (Hb : inodes s !! b = Some j).
Context (Hua : bit im (i_nr i) = true) (Hub : bit im (i_nr j) = true) (Hne : i_nr i <> i_nr j) (Hc : i_count j = 1).
Context (Hd : is_dir (dev (f_sb s)) (din i) es) (Hname : name_ok name) (Hnew : dlookup es name = None).
Context (Hj : din j = set_i_type type zero_dinode).

Lemma a_not_b : a <> b.
Proof. intros E. apply Hne. rewrite E, Hb in Ha. congruence. Qed.

Lemma nr_range : 0 <= i_nr i < 2 ^ 31 /\ 0 <= i_nr j < 2 ^ 31 /\ i_nr i < MAX_INODES /\ i_nr j < MAX_INODES.
Proof.
  destruct (loaded_file s im bm a i Hw Ha) as [_ ?]. destruct (loaded_file s im bm b j Hw Hb) as [_ ?].
  pose proof geo_inode. geo. lia.
Qed.

Definition fill : FS Z :=
  if type =? I_DIR then
    p_inode_nr ← (i ← get_in a; mret (testfs_inode_get_nr i)); testfs_create_empty_dir malloc_ok p_inode_nr b
  else mret 0.

Lemma fill_run :
  (exists s', fill s = Ret (0, s') /\ one_inode s im b j s' (new_content type (i_nr j) (i_nr i))) \/
  (exists e s', (e = ENOSPC \/ e = ENOSYS) /\ fill s = Ret (- e, s') /\ one_inode s im b j s' (fun _ _ => True)).
Proof.
  destruct nr_range as (Hri & Hrj & _). unfold fill, new_content. destruct (Z.eqb_spec type I_DIR) as [Ht|Ht].
  - rewrite run_assoc, (get_in_run s a i _ Ha). st_run.
    destruct (empty_dir_run s im bm b j (i_nr i) Hw Hb Hub) as [?|(e & s' & ? & ? & ? & _)]; [rewrite Hj, Ht; by split|done|by left|right].
    by exists e, s'.
  - left. exists s. split; [done|]. constructor; [by exists bm| |done]. exists j. by rewrite insert_id.
Qed.

(** Undoing the creation. *)
Lemma undo_run s1 :
  one_inode s im b j s1 (fun _ _ => True) ->
  forall fl s2 bm2, dir_kept s1 im a i s2 \/ s2 = s1 /\ fl = i_flags i -> world_ok s2 im bm2 ->
  exists s' im' bm', testfs_remove_inode b s2 = Ret (tt, s') /\ world_ok s' im' bm' /\ bit_clear im (i_nr j) im' /\
    (exists fl, inodes s' = <[a := set_i_flags fl i]> (delete b (inodes s))) /\
    file_of s' (i_nr j) = zero_dinode /\ other_files s s' (i_nr j).
Proof.
  intros [(bm1 & Hw1) (j1 & Hin1 & Hnr1 & Hc1 & _) Ho1] fl s2 bm2 Hs2 Hw2. pose proof a_not_b as Hab.
  assert (Hk : (exists fl, inodes s2 = <[a := set_i_flags fl i]> (inodes s1)) /\ all_same s1 s2).
  { destruct Hs2 as [[_ ? ?]|[-> ->]]; [done|]. split; [|apply all_same_refl]. exists (i_flags i).
    rewrite insert_id; [done|]. rewrite Hin1, lookup_insert_ne by done. rewrite Ha. by destruct i. }
  destruct Hk as [(fl' & Hin2) Hsame]. rewrite <- Hnr1 in *.
  assert (Hb2 : inodes s2 !! b = Some j1) by (rewrite Hin2, lookup_insert_ne, Hin1 by done; apply lookup_insert_eq).
  destruct (remove_world s2 im bm2 b j1 Hw2 Hb2 Hub) as (s' & im' & bm' & E & Hw' & Hin' & Hclr & _ & Hz & Ho'); [congruence|].
  exists s', im', bm'. split_and!; try done.
  - exists fl'. rewrite Hin', Hin2, Hin1. rewrite delete_insert_ne by done. f_equal. apply delete_insert_eq.
  - intros n Hn Hne'. eapply same_file_trans; [by apply Ho1|]. eapply same_file_trans; [by apply Hsame|by apply Ho'].
Qed.

(** The last steps: both inodes are written and the new one is released. *)
Lemma finish_run s1 s2 es' :
  one_inode s im b j s1 (new_content type (i_nr j) (i_nr i)) -> dir_updated s1 im a i s2 es' ->
  exists s3 s4 s5, testfs_sync_inode a s2 = Ret (tt, s3) /\ testfs_sync_inode b s3 = Ret (tt, s4) /\
    testfs_put_inode b s4 = Ret (tt, s5) /\
    (exists bm', world_ok s5 im bm') /\
    (exists i', inodes s5 = <[a := i']> (delete b (inodes s)) /\ i_nr i' = i_nr i /\ i_count i' = i_count i /\ i_flags i' = 0 /\
       is_dir (dev (f_sb s5)) (din i') es') /\
    new_content type (i_nr j) (i_nr i) (dev (f_sb s5)) (file_of s5 (i_nr j)) /\
    others_same s s5 (i_nr i) (i_nr j).
Proof.
  intros [(bm1 & Hw1) (j1 & Hin1 & Hnr1 & Hc1 & Hcont) Ho1] [(bm2 & Hw2) (i2 & Hin2 & Hnr2 & Hc2 & Hd2) Ho2].
  pose proof a_not_b as Hab. destruct nr_range as (_ & _ & Hmi & Hmj).
  assert (Ha2 : inodes s2 !! a = Some i2) by (rewrite Hin2; apply lookup_insert_eq).
  destruct (sync_dir s2 im bm2 a i2 Hw2 Ha2) as (s3 & E3 & Hw3 & Hs3 & Hin3).
  assert (Hb3 : inodes s3 !! b = Some j1).
  { rewrite Hin3, lookup_insert_ne, Hin2, lookup_insert_ne, Hin1 by done. apply lookup_insert_eq. }
  destruct (sync_dir s3 im bm2 b j1 Hw3 Hb3) as (s4 & E4 & Hw4 & Hs4 & Hin4).
  assert (Hb4 : inodes s4 !! b = Some (set_i_flags 0 j1)) by (rewrite Hin4; apply lookup_insert_eq).
  destruct (put_view s4 im bm2 b (set_i_flags 0 j1) (wo_fs _ _ _ Hw4) Hb4 eq_refl) as (s5 & E5 & Hs5 & Hv5 & Hsb5 & Hin5).
  cbn [set_i_flags i_count] in Hin5. rewrite decide_True in Hin5 by congruence.
  pose proof (world_view s4 s5 im bm2 Hw4 Hs5 Hv5) as Hw5.
  pose proof (same_files_all s4 s5 im bm2 Hv5 Hw4) as Hs45.
  pose proof (all_same_trans _ _ _ Hs3 (all_same_trans _ _ _ Hs4 Hs45)) as Hs25.
  destruct (loaded_file s2 im bm2 a i2 Hw2 Ha2) as [Hfa Hra].
  assert (Hfa5 : file_of s5 (i_nr i) = din i2) by (destruct (Hs25 _ Hra) as [E _]; rewrite Hnr2 in E, Hfa; congruence).
  exists s3, s4, s5. split_and!; try done.
  - by exists bm2.
  - exists (set_i_flags 0 i2). split_and!; try done.
    + rewrite Hin5, Hin4, delete_insert_eq, Hin3, Hin2, Hin1, insert_insert_eq, delete_insert_ne by done.
      f_equal. apply delete_insert_eq.
    + cbn [set_i_flags din]. rewrite <- Hfa5, <- Hnr2. eapply is_dir_file; [exact (Hs25 _ Hra)|]. by rewrite Hfa.
  - assert (Hb1 : inodes s1 !! b = Some j1) by (rewrite Hin1; apply lookup_insert_eq).
    destruct (loaded_file s1 im bm1 b j1 Hw1 Hb1) as [Hfb Hrb]. rewrite Hnr1 in *.
    assert (Hs15 : same_file s1 s5 (i_nr j)) by (eapply same_file_trans; [by apply Ho2|by apply Hs25]).
    unfold new_content in *. destruct (type =? I_DIR).
    + eapply is_dir_file; [exact Hs15|]. by rewrite Hfb.
    + destruct Hs15 as [-> _]. congruence.
  - intros n Hn Hni Hnj. eapply same_file_trans; [by apply Ho1|]. eapply same_file_trans; [by apply Ho2|by apply Hs25].
Qed.

End link.

Lemma zero_file_block d k : file_block d zero_dinode k = zero.
Proof.
  unfold file_block. assert (ptr d zero_dinode k = 0) as ->; [|done]. unfold ptr, ptrs. cbn [zero_dinode i_block_nr i_indirect Z.eqb].
  destruct (_ !! Z.to_nat k) as [p|] eqn:E; [|done]. apply list_elem_of_lookup_2 in E. apply elem_of_app in E as [E|E];
    by apply elem_of_replicate in E as [-> _].
Qed.

Lemma zero_same s s' n : file_of s n = zero_dinode -> file_of s' n = zero_dinode -> same_file s s' n.
Proof. intros E1 E2. split; [congruence|]. intros k. by rewrite E1, E2, !zero_file_block. Qed.

(** ** testfs_create_file_or_dir *)

Section create_in.
Context (s : fs) (im bm : bitmap) (a : Z) (i : inode) (es : list entry) (name : list Z) (type : Z).
Context (Hw : world_ok s im bm) (Ha : inodes s !! a = Some i) (Hu : bit im (i_nr i) = true).
Context (Hd : is_dir (dev (f_sb s)) (din i) es) (Hname : name_ok name) (Hty : type = I_FILE \/ type = I_DIR).
Context (Hused : forall c j, inodes s !! c = Some j -> bit im (i_nr j) = true /\ i_count j < 2 ^ 31 - 1).

Lemma create_exists nr :
  dlookup es name = Some nr -> testfs_create_file_or_dir malloc_ok (Some (a, name)) type s = Ret (- EEXIST, s).
Proof.
  intros Hl. unfold testfs_create_file_or_dir. st_call (name_to_nr_run malloc_ok malloc_all s im bm a i es Hw Ha Hd name).
  rewrite Hl. change (default (- ENOENT) (Some nr)) with nr. apply dlookup_Some in Hl as [Hnr _]. by rewrite (proj2 (Z.leb_le 0 nr)) by lia.
Qed.

Lemma create_new :
  dlookup es name = None ->
  (exists nr s' im' es', testfs_create_file_or_dir malloc_ok (Some (a, name)) type s = Ret (0, s') /\
     0 <= nr < MAX_INODES /\ bit im nr = false /\ bit_set im nr im' /\ dadd es name nr = Some es' /\
     command_done s a i s' im' es' nr (fun x d => new_content type nr (i_nr i) d x)) \/
  (exists e s' im', (e = ENOSPC \/ e = ENOSYS) /\
     testfs_create_file_or_dir malloc_ok (Some (a, name)) type s = Ret (- e, s') /\
     (exists bm', world_ok s' im' bm') /\ (forall n, 0 <= n < MAX_INODES -> bit im' n = bit im n) /\
     (exists fl, inodes s' = <[a := set_i_flags fl i]> (inodes s)) /\ all_same s s').
Proof.
  intros Hl. pose proof Hw as [_ _ Hfree]. destruct (loaded_file s im bm a i Hw Ha) as [_ Hri].
  assert (Hcreate : forall r s1, testfs_create_inode true type s = Ret (r, s1) ->
    testfs_create_file_or_dir malloc_ok (Some (a, name)) type s =
    match r with inl e => Ret (e, s1) | inr b => link_new_inode malloc_ok (Some (a, name)) type b s1 end).
  { intros r s1 E. unfold testfs_create_file_or_dir. st_call (name_to_nr_run malloc_ok malloc_all s im bm a i es Hw Ha Hd name).
    rewrite Hl. change (0 <=? default (- ENOENT) None) with false. cbv iota. rewrite malloc_all. st_call E. by destruct r. }
  destruct (create_world s im bm type Hw) as
    [(b & s1 & j & im1 & E1 & Hw1 & Hin1 & Hr & Hbit & Hset & Hdin & _ & Ho1 & Hcase & _)|(s1 & E1 & Hw1 & Hv & Hin1 & _)].
  { by destruct Hty as [-> | ->]. }
  { intros c k Hk. by apply (Hused c k). }
  2:{ right. exists ENOSPC, s1, im. rewrite (Hcreate _ _ E1). split_and!; try done; [by left|by exists bm| |by apply (same_files_all s s1 im bm)].
      exists (i_flags i). rewrite insert_id; [done|]. rewrite Ha. by destruct i. }
  assert (Hfresh : inodes s !! b = None).
  { destruct (inodes s !! b) as [k|] eqn:Eb; [|done]. destruct (Hused b k Eb) as [Hk _]. congruence. }
  rewrite Hfresh in Hcase. assert (Hab : a <> b) by congruence.
  assert (Ha1 : inodes s1 !! a = Some i) by by rewrite Hin1, lookup_insert_ne.
  assert (Hb1 : inodes s1 !! b = Some j) by (rewrite Hin1; apply lookup_insert_eq).
  assert (Hne : i_nr i <> i_nr j) by congruence.
  destruct Hset as (Hnb & Hlb & Hset). assert (Hset' : bit_set im (i_nr j) im1) by done.
  assert (Hu1 : bit im1 (i_nr i) = true) by (rewrite Hset by lia; by rewrite Hu).
  assert (Hub : bit im1 (i_nr j) = true) by (rewrite Hset, bool_decide_true by lia; apply orb_true_r).
  destruct (loaded_file s im bm a i Hw Ha) as [Hfa _]. destruct (loaded_file s1 im1 bm a i Hw1 Ha1) as [Hfa1 _].
  assert (Hd1 : is_dir (dev (f_sb s1)) (din i) es).
  { rewrite <- Hfa1. eapply is_dir_file; [by apply Ho1|]. by rewrite Hfa. }
  assert (Hz : file_of s (i_nr j) = zero_dinode) by (by apply Hfree).
  assert (Hdel : delete b (inodes s1) = inodes s) by (rewrite Hin1; by apply delete_insert_id).
  (* a failure after the inode has been made *)
  assert (Hundo : forall fl e s2 s3 bm3, (e = ENOSPC \/ e = ENOSYS) -> one_inode s1 im1 b j s2 (fun _ _ => True) ->
    dir_kept s2 im1 a i s3 \/ s3 = s2 /\ fl = i_flags i -> world_ok s3 im1 bm3 ->
    link_new_inode malloc_ok (Some (a, name)) type b s1 = (_ ← testfs_remove_inode b; mret (- e)) s3 ->
    exists e s' im', (e = ENOSPC \/ e = ENOSYS) /\
     testfs_create_file_or_dir malloc_ok (Some (a, name)) type s = Ret (- e, s') /\
     (exists bm', world_ok s' im' bm') /\ (forall n, 0 <= n < MAX_INODES -> bit im' n = bit im n) /\
     (exists fl, inodes s' = <[a := set_i_flags fl i]> (inodes s)) /\ all_same s s').
  { intros fl e s2 s3 bm3 He Hone Hkept Hw3 E.
    destruct (undo_run s1 im1 a b i j es Ha1 Hb1 Hu1 Hub Hne Hcase Hd1 s2 Hone fl s3 bm3 Hkept Hw3) as
      (s' & im' & bm' & E' & Hw' & Hclr & Hin' & Hz' & Ho').
    exists e, s', im'. rewrite (Hcreate _ _ E1), E. split_and!; try done; [by st_call E'|by exists bm'| |by rewrite <- Hdel|].
    - intros n Hn. destruct Hclr as (_ & _ & Hclr). rewrite Hclr, Hset by lia. case_bool_decide; [subst; by rewrite Hbit|].
      by rewrite orb_false_r, andb_true_r.
    - intros n Hn. destruct (decide (n = i_nr j)) as [->|Hnj]; [by apply zero_same|].
      eapply same_file_trans; [by apply Ho1|by apply Ho']. }
  (* the run *)
  assert (Elink : link_new_inode malloc_ok (Some (a, name)) type b s1 =
    (ret ← fill a b type;
     if ret <? 0 then _ ← testfs_remove_inode b; mret ret
     else
       ret ← (ret ← testfs_add_dirent malloc_ok a name (i_nr j);
              if ret <? 0 then mret ret else _ ← testfs_sync_inode a; mret 0);
       if ret <? 0 then _ ← testfs_remove_inode b; mret ret
       else _ ← testfs_sync_inode b; _ ← testfs_put_inode b; mret 0) s1).
  { unfold link_new_inode. rewrite run_assoc, (get_in_run s1 b j _ Hb1). reflexivity. }
  assert (Hneg : forall e, e = ENOSPC \/ e = ENOSYS -> (- e <? 0) = true) by (intros e [-> | ->]; done).
  destruct (fill_run s1 im1 bm a b i j type Hw1 Ha1 Hb1 Hub Hne Hdin) as
    [(s2 & E2 & Hone)|(e & s2 & He & E2 & Hone)].
  2:{ right. pose proof Hone as [(bm2 & Hw2) _ _]. apply (Hundo (i_flags i) e s2 s2 bm2); try done; [by right|].
      rewrite Elink. st_call E2. by rewrite Hneg. }
  pose proof Hone as [(bm2 & Hw2) (j2 & Hin2 & Hnr2 & _) Ho2].
  assert (Ha2 : inodes s2 !! a = Some i) by by rewrite Hin2, lookup_insert_ne.
  destruct (loaded_file s2 im1 bm2 a i Hw2 Ha2) as [Hfa2 _].
  assert (Hd2 : is_dir (dev (f_sb s2)) (din i) es).
  { rewrite <- Hfa2. eapply is_dir_file; [by apply Ho2|]. by rewrite Hfa1. }
  assert (Hrj : 0 <= i_nr j < 2 ^ 31) by (pose proof geo_inode; geo; lia).
  destruct (add_dirent_run malloc_ok malloc_all s2 im1 bm2 a i es Hw2 Ha2 Hu1 Hd2 name (i_nr j) Hname Hrj) as
    [[Hno _]|[(es' & n & s3 & Ea & E3 & Hn & Hup)|(e & s3 & He & E3 & Hk & _)]].
  { destruct (dadd_fresh es name (i_nr j) Hl). congruence. }
  - left. destruct (finish_run s1 im1 bm a b i j type Hw1 Ha1 Hb1 Hne Hcase s2 s3 es' Hone Hup) as
      (s4 & s5 & s6 & E4 & E5 & E6 & Hw6 & Hi6 & Hnew6 & Ho6).
    exists (i_nr j), s6, im1, es'. rewrite (Hcreate _ _ E1), Elink. split_and!; try done; try lia.
    + st_call E2. change (0 <? 0) with false. cbv iota. st_run. st_call E3. rewrite (proj2 (Z.ltb_ge n 0)) by lia. st_run.
      st_call E4. change (0 <? 0) with false. cbv iota. st_call E5. by st_call E6.
    + constructor; [done| |done|].
      * destruct Hi6 as (i' & Hin6 & ?). exists i'. by rewrite Hin6, Hdel.
      * intros m Hm Hmi Hmj. eapply same_file_trans; [by apply Ho1|by apply Ho6].
  - right. pose proof Hk as [(bm3 & Hw3) _ _]. apply (Hundo (i_flags i) e s2 s3 bm3); try done.
    + eapply one_inode_weaken; [|exact Hone]. done.
    + by left.
    + rewrite Elink. st_call E2. change (0 <? 0) with false. cbv iota. st_run. st_call E3. rewrite Hneg by done. st_run.
      by rewrite Hneg.
Qed.

End create_in.

(** ** The root directory *)

(** The count of used blocks is that of the map. *)
Lemma no_room_same s s' im im' bm :
  fs_ok s im bm -> fs_ok s' im' bm -> max_fs_blocks (sb (f_sb s')) = max_fs_blocks (sb (f_sb s)) ->
  no_room bm (f_sb s') -> no_room bm (f_sb s).
Proof.
  intros Hs Hs' Hm [Hu|Hall]; [left|by right]. pose proof (sr_used_b _ _ _ (fo_super _ _ _ Hs)).
  pose proof (sr_used_b _ _ _ (fo_super _ _ _ Hs')). congruence.
Qed.

Lemma root_run s im bm :
  world_ok s im bm -> (forall c j, inodes s !! c = Some j -> bit im (i_nr j) = true /\ i_count j < 2 ^ 31 - 1) ->
  (exists nr s' im' bm', testfs_make_root_dir malloc_ok s = Ret (0, s') /\
     0 <= nr < MAX_INODES /\ bit im nr = false /\ (forall n, 0 <= n < nr -> bit im n = true) /\ bit_set im nr im' /\
     world_ok s' im' bm' /\ inodes s' = inodes s /\
     is_dir (dev (f_sb s')) (file_of s' nr) [Entry nr str_dot; Entry nr str_dotdot]) \/
  (exists e s', (e = ENOSPC \/ e = ENOSYS) /\ testfs_make_root_dir malloc_ok s = Ret (- e, s') /\
     (no_room bm (f_sb s) \/ forall n, 0 <= n < MAX_INODES -> bit im n = true)).
Proof.
  intros Hw Hused.
  assert (Hcreate : forall r s1, testfs_create_inode true I_DIR s = Ret (r, s1) ->
    testfs_make_root_dir malloc_ok s = match r with inl e => Ret (e, s1) | inr b => link_new_inode malloc_ok None I_DIR b s1 end).
  { intros r s1 E. unfold testfs_make_root_dir, testfs_create_file_or_dir. st_run. change (0 <=? -1) with false. cbv iota.
    rewrite malloc_all. st_call E. by destruct r. }
  destruct (create_world s im bm I_DIR Hw) as
    [(b & s1 & j & im1 & E1 & Hw1 & Hin1 & Hr & Hbit & Hset & Hdin & _ & Ho1 & Hcase & Hlow & Hmax1)|(s1 & E1 & _ & _ & _ & Hall)]; [done|intros c k Hk; by apply (Hused c k)| |].
  2:{ right. exists ENOSPC, s1. rewrite (Hcreate _ _ E1). split_and!; [by left|done|by right]. }
  rewrite (Hcreate _ _ E1). clear Hcreate.
  assert (Hfresh : inodes s !! b = None).
  { destruct (inodes s !! b) as [k|] eqn:Eb; [|done]. destruct (Hused b k Eb) as [Hk _]. congruence. }
  rewrite Hfresh in Hcase. assert (Hb1 : inodes s1 !! b = Some j) by (rewrite Hin1; apply lookup_insert_eq).
  assert (Hset' : bit_set im (i_nr j) im1) by done. destruct Hset as (_ & _ & Hset).
  assert (Hub : bit im1 (i_nr j) = true) by (rewrite Hset, bool_decide_true by lia; apply orb_true_r).
  assert (Hd1 : is_dir (dev (f_sb s1)) (din j) []) by (rewrite Hdin; by split).
  assert (Hrj : 0 <= i_nr j < 2 ^ 31) by (pose proof geo_inode; geo; lia).
  unfold link_new_inode. rewrite run_assoc, (get_in_run s1 b j _ Hb1). st_run. change (I_DIR =? I_DIR) with true. cbv iota. st_run.
  unfold testfs_inode_get_nr.
  destruct (empty_dir_run s1 im1 bm b j (i_nr j) Hw1 Hb1 Hub Hd1 Hrj) as
    [(s2 & E2 & [(bm2 & Hw2) (j2 & Hin2 & Hnr2 & Hc2 & Hd2) Ho2])|(e & s2 & He & E2 & [(bm2 & Hw2) (j2 & Hin2 & Hnr2 & Hc2 & _) Ho2] & Hno)].
  - left. st_call E2. change (0 <? 0) with false. cbv iota. st_run. change (0 <? 0) with false. cbv iota.
    assert (Hb2 : inodes s2 !! b = Some j2) by (rewrite Hin2; apply lookup_insert_eq).
    destruct (sync_dir s2 im1 bm2 b j2 Hw2 Hb2) as (s3 & E3 & Hw3 & Hs3 & Hin3).
    assert (Hb3 : inodes s3 !! b = Some (set_i_flags 0 j2)) by (rewrite Hin3; apply lookup_insert_eq).
    destruct (put_view s3 im1 bm2 b (set_i_flags 0 j2) (wo_fs _ _ _ Hw3) Hb3 eq_refl) as (s4 & E4 & Hs4 & Hv4 & Hsb4 & Hin4).
    cbn [set_i_flags i_count] in Hin4. rewrite decide_True in Hin4 by congruence.
    pose proof (all_same_trans _ _ _ Hs3 (same_files_all s3 s4 im1 bm2 Hv4 Hw3)) as Hs24.
    destruct (loaded_file s2 im1 bm2 b j2 Hw2 Hb2) as [Hf2 _]. rewrite Hnr2 in Hf2.
    exists (i_nr j), s4, im1, bm2. split_and!; try done; try lia.
    + st_call E3. by st_call E4.
    + by eapply world_view.
    + by rewrite Hin4, Hin3, delete_insert_eq, Hin2, delete_insert_eq, Hin1, delete_insert_id.
    + eapply is_dir_file; [exact (Hs24 _ Hr)|]. by rewrite Hf2.
  - right. st_call E2. assert ((- e <? 0) = true) as -> by (by destruct He as [-> | ->]).
    assert (Hb2 : inodes s2 !! b = Some j2) by (rewrite Hin2; apply lookup_insert_eq). rewrite <- Hnr2 in Hub.
    destruct (remove_world s2 im1 bm2 b j2 Hw2 Hb2 Hub) as (s3 & im3 & bm3 & E3 & _); [congruence|].
    exists e, s3. split_and!; [done|by st_call E3|left].
    eapply (no_room_same s s1); [apply (wo_fs _ _ _ Hw)|apply (wo_fs _ _ _ Hw1)|done|done].
Qed.

End create.
