(* ===== verification/DirTheorems.v ===== *)
(** * Properties of directories

    The operations of dir.c against functions on lists of entries, on every
    branch, and what they compose to. *)
From S2P Require Import Prelude Bytes Bitmap StateMonad Disk Super Inode ReadWrite FileBlocks ReadWriteSpec World Dir DirSpec DirOps DirCreate.

#[local] Ltac Zify.zify_post_hook ::= Z.to_euclidean_division_equations.

Section properties.
Context `{Geometry} (malloc_ok : Z -> bool).

(** A mounted file system between two commands: it is well formed, the
    directory at [a] holds [es], no inode in memory is dirty, and the inodes in
    memory are in use. *)
Record ready (s : fs) (im bm : bitmap) (a : Z) (i : inode) (es : list entry) : Prop := Ready {
  rd_world : world_ok s im bm;
  rd_inode : inodes s !! a = Some i;
  rd_dir : is_dir (dev (f_sb s)) (din i) es;
  rd_names : names_unique es;
  rd_used c j : inodes s !! c = Some j -> bit im (i_nr j) = true;
  rd_calm : calm s
}.

Lemma ready_use s im bm a i es : ready s im bm a i es -> bit im (i_nr i) = true.
Proof. intros []. by eapply rd_used0. Qed.

Lemma ready_refs s im bm a i es : ready s im bm a i es ->
  forall c j, inodes s !! c = Some j -> bit im (i_nr j) = true /\ i_count j < 2 ^ 31 - 1.
Proof. intros [] c j Hc. split; [by eapply rd_used0|]. by apply (rd_calm0 c j). Qed.

(** A command keeps the file system ready. *)
Lemma command_ready s im bm a i es s' im' es' nr x :
  ready s im bm a i es -> command_done s a i s' im' es' nr x -> names_unique es' ->
  (forall c j, inodes s !! c = Some j -> bit im' (i_nr j) = true) ->
  exists bm' i', ready s' im' bm' a i' es' /\ i_nr i' = i_nr i /\ inodes s' = <[a := i']> (inodes s).
Proof.
  intros Hrd [(bm' & Hw') (i' & Hin & Hnr & Hc & Hfl & Hd) _ _] Hu Hbit. pose proof Hrd as [_ Ha _ _ _ Hcalm].
  exists bm', i'. split_and!; [|done|done]. constructor; try done.
  - rewrite Hin. apply lookup_insert_eq.
  - intros c j. rewrite Hin, lookup_insert. case_decide; [|by apply Hbit]. intros [= <-]. rewrite Hnr. by apply (Hbit a).
  - intros c j. rewrite Hin, lookup_insert. case_decide; [|by apply Hcalm]. intros [= <-]. rewrite Hc. split; [|done]. by apply (Hcalm a).
Qed.

(** Looking up a name in a directory gives the number of the entry in use
    with that name, or -ENOENT, and changes nothing. *)
Theorem dir_lookup_spec s im bm a i es name
    (Hm : forall n, malloc_ok n = true) (Hw : world_ok s im bm) (Ha : inodes s !! a = Some i)
    (Hd : is_dir (dev (f_sb s)) (din i) es) :
  testfs_dir_name_to_inode_nr malloc_ok a name s = Ret (default (- ENOENT) (dlookup es name), s).
Proof. by apply (name_to_nr_run malloc_ok Hm s im bm a i). Qed.

(** Adding an entry refines [dadd]: over the list of entries the directory
    spells, a name found in use is answered with -EEXIST; otherwise the entry
    takes the place of the first free one with a name of the same length or
    the end of the directory; when the device is full or the entry would cross
    a block boundary the answer is -ENOSPC or -ENOSYS and no file changes. *)
Theorem add_dirent_refines s im bm a i es name nr
    (Hm : forall n, malloc_ok n = true) (Hw : world_ok s im bm) (Ha : inodes s !! a = Some i)
    (Hu : bit im (i_nr i) = true) (Hd : is_dir (dev (f_sb s)) (din i) es) (Hname : name_ok name) (Hnr : 0 <= nr < 2 ^ 31) :
  (dadd es name nr = None /\ testfs_add_dirent malloc_ok a name nr s = Ret (- EEXIST, s)) \/
  (exists es' n s', dadd es name nr = Some es' /\ testfs_add_dirent malloc_ok a name nr s = Ret (n, s') /\ 0 <= n /\
     dir_updated s im a i s' es') \/
  (exists e s', (e = ENOSPC \/ e = ENOSYS) /\ testfs_add_dirent malloc_ok a name nr s = Ret (- e, s') /\ dir_kept s im a i s').
Proof.
  destruct (add_dirent_run malloc_ok Hm s im bm a i es Hw Ha Hu Hd name nr) as [?|[?|(e & s' & ? & ? & ? & _)]]; [done..|by left|by right; left|].
  right; right. by exists e, s'.
Qed.

(** The file an entry names, as far as rm needs to know: its number is in use
    and not in memory, and if it is a directory it spells [ces]. *)
Record child_ok (s : fs) (im : bitmap) (nr : Z) (ces : list entry) : Prop := ChildOk {
  ch_range : nr < MAX_INODES;
  ch_bit : bit im nr = true;
  ch_away b j : inodes s !! b = Some j -> i_nr j <> nr;
  ch_dir : i_type (file_of s nr) = I_DIR -> is_dir (dev (f_sb s)) (file_of s nr) ces
}.

(** After a creation: the new entry can be removed again. *)
Lemma create_ready s im bm a i es name type nr s1 im1 es1
    (Hm : forall n, malloc_ok n = true) (Hrd : ready s im bm a i es) (Hty : type = I_FILE \/ type = I_DIR)
    (El : dlookup es name = None) (Hr : 0 <= nr < MAX_INODES) (Hbit : bit im nr = false) (Hset : bit_set im nr im1)
    (Ea : dadd es name nr = Some es1)
    (Hdone : command_done s a i s1 im1 es1 nr (fun x d => new_content type nr (i_nr i) d x)) :
  let ces := [Entry nr str_dot; Entry (i_nr i) str_dotdot] in
  exists bm1 i1, ready s1 im1 bm1 a i1 es1 /\ i_nr i1 = i_nr i /\ i_nr i <> nr /\ dlookup es1 name = Some nr /\
    child_ok s1 im1 nr ces /\ removable (file_of s1 nr) ces = true.
Proof.
  intros ces. pose proof Hrd as [Hw Ha Hd Hnm Hus Hca]. pose proof Hset as (_ & _ & Hset').
  assert (Hus1 : forall d j, inodes s !! d = Some j -> bit im1 (i_nr j) = true).
  { intros d j Hc. destruct (loaded_file s im bm d j Hw Hc) as [_ ?]. rewrite Hset' by lia. by rewrite (Hus d j Hc). }
  destruct (command_ready _ _ _ _ _ _ _ _ _ _ _ Hrd Hdone) as (bm1 & i1 & Hrd1 & Hnr1 & Hin1);
    [by apply (names_unique_dadd es name nr); [lia|..]|done|].
  destruct Hdone as [_ _ Hf Ho]. unfold new_content in Hf.
  exists bm1, i1. split_and!; try done.
  - intros E'. pose proof (Hus a i Ha). congruence.
  - rewrite (dlookup_dadd es name nr es1) by (done || lia). by rewrite decide_True.
  - constructor; [lia|rewrite Hset', bool_decide_true by lia; apply orb_true_r| |].
    + intros b j. rewrite Hin1, lookup_insert. case_decide; [intros [= <-]; rewrite Hnr1; pose proof (Hus a i Ha)|intros Hb E'; pose proof (Hus b j Hb)]; congruence.
    + destruct (type =? I_DIR) eqn:Et; [done|]. rewrite Hf. cbn [set_i_type i_type]. intros Ht. by rewrite Ht in Et.
  - unfold removable. destruct (Z.eqb_spec type I_DIR) as [->|]; [|rewrite Hf; by destruct Hty as [-> | ->]].
    apply orb_true_iff. right. cbn. by rewrite !orb_true_r.
Qed.

(** C7: Creating a file or a directory in a directory.  A name in use is
    answered with -EEXIST.  Otherwise the new name is found with a number that
    was free, every other name as before and names stay distinct, the new file
    is empty or holds "." and "..", and every other file is as it was; or the
    answer is -ENOSPC or -ENOSYS, and then every file and every inode number
    is as before. *)
Theorem create_spec s im bm a i es name type
    (Hm : forall n, malloc_ok n = true) (Hrd : ready s im bm a i es) (Hname : name_ok name)
    (Hty : type = I_FILE \/ type = I_DIR) :
  match dlookup es name with
  | Some _ => testfs_create_file_or_dir malloc_ok (Some (a, name)) type s = Ret (- EEXIST, s)
  | None =>
      (exists nr s' im' bm' i' es', testfs_create_file_or_dir malloc_ok (Some (a, name)) type s = Ret (0, s') /\
         0 <= nr < MAX_INODES /\ bit im nr = false /\ bit_set im nr im' /\ ready s' im' bm' a i' es' /\
         (forall n, dlookup es' n = if decide (n = name) then Some nr else dlookup es n) /\
         new_content type nr (i_nr i) (dev (f_sb s')) (file_of s' nr) /\ others_same s s' (i_nr i) nr) \/
      (exists e s' im', (e = ENOSPC \/ e = ENOSYS) /\
         testfs_create_file_or_dir malloc_ok (Some (a, name)) type s = Ret (- e, s') /\
         (exists bm', world_ok s' im' bm') /\ (forall n, 0 <= n < MAX_INODES -> bit im' n = bit im n) /\ all_same s s')
  end.
Proof.
  pose proof Hrd as [Hw Ha Hd Hnm Hus Hca]. pose proof (ready_refs _ _ _ _ _ _ Hrd) as Hrefs.
  destruct (dlookup es name) as [nr|] eqn:El; [by apply (create_exists malloc_ok Hm s im bm a i es name type Hw Ha Hd nr)|].
  destruct (create_new malloc_ok Hm s im bm a i es name type Hw Ha (ready_use _ _ _ _ _ _ Hrd) Hd Hname Hty Hrefs El) as
    [(nr & s' & im' & es' & E & Hr & Hbit & Hset & Ea & Hdone)|(e & s' & im' & He & E & Hw' & Hb' & _ & Hs')];
    [left|right; by exists e, s', im'].
  destruct (command_ready _ _ _ _ _ _ _ _ _ _ _ Hrd Hdone) as (bm' & i' & Hrd' & _).
  { by apply (names_unique_dadd es name nr); [lia|..]. }
  { intros c j Hc. destruct (loaded_file s im bm c j Hw Hc) as [_ ?]. destruct Hset as (_ & _ & Hset). rewrite Hset by lia.
    by rewrite (Hus c j Hc). }
  destruct Hdone as [_ _ Hf Ho]. exists nr, s', im', bm', i', es'. split_and!; try done; try lia.
  intros n. apply dlookup_dadd; [lia|done|done].
Qed.

(** C10: The command rm.  "." and ".." are refused with -EINVAL, a name that is
    not in the directory with -ENOENT, a directory with an entry in use other
    than these two with -ENOTEMPTY, all without a change.  Any other file is
    removed: its name is no longer found, every other name is as before, its
    number is free and its inode empty, and every other file is as it was. *)
Theorem rm_spec s im bm a i es ces c name
    (Hm : forall n, malloc_ok n = true) (Hrd : ready s im bm a i es)
    (Hch : forall nr, dlookup es name = Some nr -> child_ok s im nr ces) :
  if is_dot name then cmd_rm malloc_ok [c; name] a s = Ret ((- EINVAL, [], a), s)
  else
    match dlookup es name with
    | None => cmd_rm malloc_ok [c; name] a s = Ret ((- ENOENT, [], a), s)
    | Some nr =>
        if removable (file_of s nr) ces then
          exists s' im' bm' i' es', cmd_rm malloc_ok [c; name] a s = Ret ((0, [], a), s') /\ ready s' im' bm' a i' es' /\
            (forall n, dlookup es' n = if decide (n = name) then None else dlookup es n) /\
            bit_clear im nr im' /\ file_of s' nr = zero_dinode /\ others_same s s' (i_nr i) nr
        else exists s', cmd_rm malloc_ok [c; name] a s = Ret ((- ENOTEMPTY, [], a), s') /\ world_ok s' im bm /\
               inodes s' = inodes s /\ f_sb s' = f_sb s
    end.
Proof.
  pose proof Hrd as [Hw Ha Hd Hnm Hus Hca]. destruct (is_dot name) eqn:Hdot.
  { unfold cmd_rm, arg. change (bad_args [c; name] 2) with false. cbv iota. st_run.
    change ([c; name] !! Z.to_nat 1) with (Some name). rewrite (run_lift name) by done.
    by st_call (remove_dot_refused malloc_ok a name s Hdot). }
  assert (Hch' : forall nr, dlookup es name = Some nr ->
    nr < MAX_INODES /\ (i_type (file_of s nr) = I_DIR -> is_dir (dev (f_sb s)) (file_of s nr) ces)).
  { intros nr E. by destruct (Hch nr E). }
  pose proof (ready_use _ _ _ _ _ _ Hrd) as Hu.
  pose proof (rm_refused malloc_ok Hm s im bm a i es ces c name Hw Ha Hu Hca Hd Hdot Hch') as Hrefused.
  destruct (dlookup es name) as [nr|] eqn:El; [|done]. destruct (Hch nr eq_refl) as [Hmax Hbit Haway _].
  destruct (removable (file_of s nr) ces) eqn:Er; [|by apply Hrefused].
  rewrite <- El in Hch'.
  destruct (rm_done malloc_ok Hm s im bm a i es ces c name Hw Ha Hu Hca Hd Hdot Hch' nr El Er Hbit Haway) as
    (s' & im' & E & Hclr & Hdone).
  destruct (command_ready _ _ _ _ _ _ _ _ _ _ _ Hrd Hdone) as (bm' & i' & Hrd' & _).
  { by eapply names_unique_dremove. }
  { intros b j Hb. destruct (loaded_file s im bm b j Hw Hb) as [_ ?]. destruct Hclr as (_ & _ & Hclr). rewrite Hclr by lia.
    rewrite (Hus b j Hb), bool_decide_false by (by apply (Haway b)). done. }
  destruct Hdone as [_ _ Hf Ho]. exists s', im', bm', i', (dremove es name). split_and!; try done.
  intros n. by apply (dlookup_dremove es name nr).
Qed.

(** C21: Making a file or a directory and removing it again leaves every name,
    every inode number and every other file as they were. *)
Theorem create_rm_roundtrip s im bm a i es name type s1 c
    (Hm : forall n, malloc_ok n = true) (Hrd : ready s im bm a i es) (Hname : name_ok name) (Hdot : is_dot name = false)
    (Hty : type = I_FILE \/ type = I_DIR)
    (Hmade : testfs_create_file_or_dir malloc_ok (Some (a, name)) type s = Ret (0, s1)) :
  exists s2 im2 bm2 i2 es2, cmd_rm malloc_ok [c; name] a s1 = Ret ((0, [], a), s2) /\ ready s2 im2 bm2 a i2 es2 /\
    (forall n, dlookup es2 n = dlookup es n) /\ (forall n, 0 <= n < MAX_INODES -> bit im2 n = bit im n) /\
    forall n, 0 <= n < MAX_INODES -> n <> i_nr i -> same_file s s2 n.
Proof.
  pose proof Hrd as [Hw Ha Hd Hnm Hus Hca]. pose proof (ready_refs _ _ _ _ _ _ Hrd) as Hrefs.
  destruct (dlookup es name) as [nr|] eqn:El.
  { rewrite (create_exists malloc_ok Hm s im bm a i es name type Hw Ha Hd nr El) in Hmade. discriminate. }
  destruct (create_new malloc_ok Hm s im bm a i es name type Hw Ha (ready_use _ _ _ _ _ _ Hrd) Hd Hname Hty Hrefs El) as
    [(nr & s1' & im1 & es1 & E & Hr & Hbit & Hset & Ea & Hdone)|(e & s' & im' & He & E & _)]; rewrite E in Hmade.
  2:{ exfalso. injection Hmade as He0 _. destruct He; subst e; discriminate. }
  injection Hmade as ->. pose proof Hset as (_ & _ & Hset').
  destruct (create_ready s im bm a i es name type nr s1 im1 es1 Hm Hrd Hty El Hr Hbit Hset Ea Hdone) as
    (bm1 & i1 & Hrd1 & Hnr1 & Hne & Hl1 & [Hmax Hb1 Haway Hdir] & Hrem).
  destruct Hdone as [_ _ _ Ho]. pose proof Hrd1 as [Hw1 Ha1 Hd1 Hnm1 Hus1 Hca1].
  destruct (rm_done malloc_ok Hm s1 im1 bm1 a i1 es1 _ c name Hw1 Ha1 (ready_use _ _ _ _ _ _ Hrd1) Hca1 Hd1 Hdot
              ltac:(intros nr' E'; rewrite Hl1 in E'; by injection E' as <-) nr Hl1 Hrem Hb1 Haway) as
    (s2 & im2 & E2 & Hclr & Hdone2). pose proof Hclr as (_ & _ & Hclr').
  destruct (command_ready _ _ _ _ _ _ _ _ _ _ _ Hrd1 Hdone2) as (bm2 & i2 & Hrd2 & _).
  { by eapply names_unique_dremove. }
  { intros b j Hb. destruct (loaded_file s1 im1 bm1 b j Hw1 Hb) as [_ ?]. rewrite Hclr' by lia.
    rewrite (Hus1 b j Hb), bool_decide_false by (by apply (Haway b)). done. }
  destruct Hdone2 as [_ _ Hf2 Ho2]. exists s2, im2, bm2, i2, (dremove es1 name). split_and!; try done.
  - intros n. rewrite (dlookup_dremove es1 name nr) by done. case_decide as En; [by rewrite En|].
    rewrite (dlookup_dadd es name nr es1) by (done || lia). by rewrite decide_False.
  - intros n Hn. rewrite Hclr', Hset' by lia. case_bool_decide as En; [subst n; by rewrite Hbit|]. by rewrite orb_false_r, andb_true_r.
  - intros n Hn Hni. destruct (decide (n = nr)) as [->|Hnn].
    + apply zero_same; [by apply (wo_free _ _ _ Hw)|done].
    + eapply same_file_trans; [by apply Ho|]. apply Ho2; [done|congruence|done].
Qed.

(** [root_dir_spec], for the witnesses too. *)
Lemma root_ready max
    (Hm : forall n, malloc_ok n = true) (Hmax : in_u64 max) :
  exists s, mkfs (fun _ => true) max = Ret (inr s) /\
  ((exists s1 a s2 im bm i, testfs_make_root_dir malloc_ok (mounted s) = Ret (0, s1) /\
      get_inode malloc_ok 0 s1 = Ret (a, s2) /\ i_nr i = 0 /\ inodes s2 = {[a := i]} /\
      ready s2 im bm a i [Entry 0 str_dot; Entry 0 str_dotdot]) \/
   (max = 0 /\ exists e s1, (e = ENOSPC \/ e = ENOSYS) /\ testfs_make_root_dir malloc_ok (mounted s) = Ret (- e, s1))).
Proof.
  destruct (mkfs_world max Hmax) as (s & im & bm & E & Hw & Hui & Hub & Em). exists s. split; [done|].
  pose proof (fo_super _ _ _ (wo_fs _ _ _ Hw)) as Hsup.
  assert (Hfree : forall n, 0 <= n < MAX_INODES -> bit im n = false).
  { intros n Hn. destruct (bit im n) eqn:Eb; [|done]. assert (Hin : n ∈ used im); [|rewrite Hui in Hin; by apply elem_of_nil in Hin].
    apply elem_of_used. split; [|done]. rewrite (map_bits _ _ _ _ (sr_im _ _ _ Hsup)).
    pose proof geo_inodes. unfold MAX_INODES, INODES_PER_BLOCK in Hn. lia. }
  destruct (root_run malloc_ok Hm (mounted s) im bm Hw) as
    [(nr & s1 & im1 & bm1 & E1 & Hr & Hbit & Hlow & Hset & Hw1 & Hin1 & Hd1)|(e & s1 & He & E1 & Hwhy)]; [by intros c j|left|right].
  2:{ split; [|by exists e, s1]. geo. pose proof geo_inode. destruct Hwhy as [[Hq|Hall]|Hall].
    - rewrite (sr_used_b _ _ _ Hsup), Hub in Hq. change (sb (f_sb (mounted s))) with (sb s) in Hq. rewrite Em in Hq. by symmetry.
    - destruct (Hall DATA_START) as [Hr Hb]; [lia|]. exfalso.
      assert (Hin : 0 ∈ used bm); [|rewrite Hub in Hin; by apply elem_of_nil in Hin].
      apply elem_of_used. rewrite Z.sub_diag in Hb. split; [lia|done].
    - pose proof (Hall 0 ltac:(lia)) as Hx. rewrite Hfree in Hx by lia. discriminate. }
  assert (nr = 0) as ->.
  { destruct (decide (nr = 0)); [done|]. pose proof (Hlow 0 ltac:(lia)) as H0. rewrite Hfree in H0 by lia. discriminate. }
  destruct Hset as (_ & _ & Hset). assert (Hb0 : bit im1 0 = true) by (rewrite Hset by lia; apply orb_true_r).
  destruct (get_view s1 im1 bm1 0 (wo_fs _ _ _ Hw1) Hr) as (a & s2 & i & E2 & Hs2 & Hv & Hsb & Hin & Hi & Hdin & Hcase).
  { intros c j. by rewrite Hin1. }
  pose proof (world_view s1 s2 im1 bm1 Hw1 Hs2 Hv) as Hw2. assert (Hin0 : inodes s1 = ∅) by done. rewrite Hin1 in Hcase. destruct Hcase as [Hfl Hc].
  exists s1, a, s2, im1, bm1, i. split_and!; try done; [unfold get_inode; by rewrite Hm|by rewrite Hin, Hin1|].
  constructor; [done|rewrite Hin; apply lookup_insert_eq|by rewrite Hsb, Hdin| | |].
  - unfold names_unique. cbn. repeat constructor; set_solver.
  - intros c j. rewrite Hin, Hin0, insert_empty. intros [_ <-]%lookup_singleton_Some. by rewrite Hi.
  - intros c j. rewrite Hin, Hin0, insert_empty. intros [_ <-]%lookup_singleton_Some. rewrite Hc. done.
Qed.

(** C34: A device that has just been formatted gets its root directory as inode
    0, with "." and ".." both naming it, and opening inode 0 gives a file
    system ready for commands; the one exception is a file system made for no
    block at all ([max] = 0), where the answer may be -ENOSPC or -ENOSYS. *)
Theorem root_dir_spec max
    (Hm : forall n, malloc_ok n = true) (Hmax : in_u64 max) :
  exists s, mkfs (fun _ => true) max = Ret (inr s) /\
  ((exists s1 a s2 im bm i, testfs_make_root_dir malloc_ok (mounted s) = Ret (0, s1) /\
      get_inode malloc_ok 0 s1 = Ret (a, s2) /\ i_nr i = 0 /\ inodes s2 = {[a := i]} /\
      ready s2 im bm a i [Entry 0 str_dot; Entry 0 str_dotdot]) \/
   (max = 0 /\ exists e s1, (e = ENOSPC \/ e = ENOSYS) /\ testfs_make_root_dir malloc_ok (mounted s) = Ret (- e, s1))).
Proof. by apply root_ready. Qed.

End properties.

(** ** Witnesses on the small geometry *)

Definition all_malloc (n : Z) : bool := true.
Definition name_f : list Z := [102].
Definition root_entries : list entry := [Entry 0 str_dot; Entry 0 str_dotdot].

(** The file system with its root directory, opened; then with a directory f. *)
Definition tiny_root : res (Z * fs) :=
  '(_, s) ← @testfs_make_root_dir tiny all_malloc (mounted tiny_fs); @get_inode tiny all_malloc 0 s.
Definition tiny_made : res (Z * (Z * fs)) :=
  '(a, s) ← tiny_root; '(r, s) ← @testfs_create_file_or_dir tiny all_malloc (Some (a, name_f)) I_DIR s; Ret (r, (a, s)).

Lemma tiny_root_ok : exists s im bm a i, tiny_root = Ret (a, s) /\ @ready tiny s im bm a i root_entries /\ i_nr i = 0.
Proof.
  destruct (@root_ready tiny all_malloc 20) as (s & E & Hcase); [done|done|].
  assert (Efs : tiny_fs = s) by (unfold tiny_fs; by rewrite E).
  destruct Hcase as [(s1 & a & s2 & im & bm & i & E1 & E2 & Hi & _ & Hrd)|[Hz _]]; [|done].
  exists s2, im, bm, a, i. split; [|done]. unfold tiny_root. rewrite Efs, E1. exact E2.
Qed.

Lemma name_f_ok : name_ok name_f.
Proof. constructor; [by repeat constructor|done]. Qed.

Definition code_of (r : res (Z * (Z * fs))) : Z := match r with Ret (r, _) => r | Fail _ => 1 end.

Lemma tiny_made_ok : exists s im bm a i nr s1 im1 bm1 i1 es1,
  @ready tiny s im bm a i root_entries /\
  @testfs_create_file_or_dir tiny all_malloc (Some (a, name_f)) I_DIR s = Ret (0, s1) /\
  @ready tiny s1 im1 bm1 a i1 es1 /\ dlookup es1 name_f = Some nr /\
  @child_ok tiny s1 im1 nr [Entry nr str_dot; Entry (i_nr i) str_dotdot] /\
  @removable (@file_of tiny s1 nr) [Entry nr str_dot; Entry (i_nr i) str_dotdot] = true.
Proof.
  destruct tiny_root_ok as (s & im & bm & a & i & Er & Hrd & Hi). pose proof Hrd as [Hw Ha Hd _ _ _].
  pose proof (ready_refs _ _ _ _ _ _ Hrd) as Hrefs. pose proof (ready_use _ _ _ _ _ _ Hrd) as Hu.
  assert (Hc : code_of tiny_made = 0) by (vm_compute; reflexivity). unfold code_of, tiny_made in Hc. rewrite Er in Hc.
  cbn [mbind res_bind] in Hc.
  destruct (@create_new tiny all_malloc (fun _ => eq_refl) s im bm a i root_entries name_f I_DIR Hw Ha Hu Hd name_f_ok (or_intror eq_refl) Hrefs eq_refl) as
    [(nr & s1 & im1 & es1 & E & Hr & Hbit & Hset & Ea & Hdone)|(e & s1 & im1 & He & E & _)]; rewrite E in Hc.
  - destruct (@create_ready tiny all_malloc s im bm a i root_entries name_f I_DIR nr s1 im1 es1 (fun _ => eq_refl) Hrd (or_intror eq_refl) eq_refl Hr Hbit Hset Ea Hdone)
      as (bm1 & i1 & Hrd1 & _ & _ & Hl & Hch & Hrem).
    exists s, im, bm, a, i, nr, s1, im1, bm1, i1, es1. split_and!; [exact Hrd|exact E|exact Hrd1|exact Hl|exact Hch|exact Hrem].
  - exfalso. cbn in Hc. destruct He; subst e; discriminate Hc.
Qed.

Lemma dir_lookup_spec_witness :
  exists s im bm a i, @ready tiny s im bm a i root_entries /\
    @testfs_dir_name_to_inode_nr tiny all_malloc a str_dotdot s = Ret (0, s) /\
    @testfs_dir_name_to_inode_nr tiny all_malloc a name_f s = Ret (- ENOENT, s).
Proof.
  destruct tiny_root_ok as (s & im & bm & a & i & _ & Hrd & _). exists s, im, bm, a, i. split; [exact Hrd|].
  destruct Hrd as [Hw Ha Hd _ _ _].
  split; [apply (@dir_lookup_spec tiny all_malloc s im bm a i root_entries str_dotdot)|apply (@dir_lookup_spec tiny all_malloc s im bm a i root_entries name_f)];
    first [exact (fun _ => eq_refl)|exact Hw|exact Ha|exact Hd].
Defined.

Lemma add_dirent_refines_witness :
  exists s im bm a i, @ready tiny s im bm a i root_entries /\
  ((dadd root_entries name_f 3 = None /\ @testfs_add_dirent tiny all_malloc a name_f 3 s = Ret (- EEXIST, s)) \/
  (exists es' n s', dadd root_entries name_f 3 = Some es' /\ @testfs_add_dirent tiny all_malloc a name_f 3 s = Ret (n, s') /\ 0 <= n /\
     @dir_updated tiny s im a i s' es') \/
  (exists e s', (e = ENOSPC \/ e = ENOSYS) /\ @testfs_add_dirent tiny all_malloc a name_f 3 s = Ret (- e, s') /\ @dir_kept tiny s im a i s')).
Proof.
  destruct tiny_root_ok as (s & im & bm & a & i & _ & Hrd & _). exists s, im, bm, a, i. split; [exact Hrd|].
  pose proof (ready_use _ _ _ _ _ _ Hrd) as Hu. destruct Hrd as [Hw Ha Hd _ _ _].
  apply (@add_dirent_refines tiny all_malloc s im bm a i root_entries name_f 3 (fun _ => eq_refl) Hw Ha Hu Hd name_f_ok). lia.
Defined.

Lemma create_spec_witness :
  exists s im bm a i, @ready tiny s im bm a i root_entries /\
  ((exists nr s' im' bm' i' es', @testfs_create_file_or_dir tiny all_malloc (Some (a, name_f)) I_FILE s = Ret (0, s') /\
      0 <= nr < @MAX_INODES tiny /\ bit im nr = false /\ bit_set im nr im' /\ @ready tiny s' im' bm' a i' es' /\
      (forall n, dlookup es' n = if decide (n = name_f) then Some nr else dlookup root_entries n) /\
      @new_content tiny I_FILE nr (i_nr i) (dev (f_sb s')) (@file_of tiny s' nr) /\ @others_same tiny s s' (i_nr i) nr) \/
   (exists e s' im', (e = ENOSPC \/ e = ENOSYS) /\
      @testfs_create_file_or_dir tiny all_malloc (Some (a, name_f)) I_FILE s = Ret (- e, s') /\
      (exists bm', @world_ok tiny s' im' bm') /\ (forall n, 0 <= n < @MAX_INODES tiny -> bit im' n = bit im n) /\ @all_same tiny s s')).
Proof.
  destruct tiny_root_ok as (s & im & bm & a & i & _ & Hrd & _). exists s, im, bm, a, i. split; [exact Hrd|].
  exact (@create_spec tiny all_malloc s im bm a i root_entries name_f I_FILE (fun _ => eq_refl) Hrd name_f_ok (or_introl eq_refl)).
Defined.

Lemma rm_spec_witness :
  exists s im bm a i es nr, @ready tiny s im bm a i es /\ dlookup es name_f = Some nr /\
  exists s' im' bm' i' es', @cmd_rm tiny all_malloc [name_f; name_f] a s = Ret ((0, [], a), s') /\ @ready tiny s' im' bm' a i' es' /\
    (forall n, dlookup es' n = if decide (n = name_f) then None else dlookup es n) /\
    bit_clear im nr im' /\ @file_of tiny s' nr = zero_dinode /\ @others_same tiny s s' (i_nr i) nr.
Proof.
  destruct tiny_made_ok as (_ & _ & _ & a & i0 & nr & s & im & bm & i & es & _ & _ & Hrd & Hl & Hch & Hrem).
  exists s, im, bm, a, i, es, nr. split; [exact Hrd|]. split; [exact Hl|].
  pose proof (@rm_spec tiny all_malloc s im bm a i es [Entry nr str_dot; Entry (i_nr i0) str_dotdot] name_f name_f (fun _ => eq_refl) Hrd) as Hrm.
  rewrite Hl in Hrm. cbv beta iota in Hrm. change (is_dot name_f) with false in Hrm. cbv iota in Hrm. rewrite Hrem in Hrm.
  apply Hrm. intros nr' E. injection E as <-. exact Hch.
Defined.

Lemma create_rm_roundtrip_witness :
  exists s im bm a i s1, @ready tiny s im bm a i root_entries /\
    @testfs_create_file_or_dir tiny all_malloc (Some (a, name_f)) I_DIR s = Ret (0, s1) /\
  exists s2 im2 bm2 i2 es2, @cmd_rm tiny all_malloc [name_f; name_f] a s1 = Ret ((0, [], a), s2) /\ @ready tiny s2 im2 bm2 a i2 es2 /\
    (forall n, dlookup es2 n = dlookup root_entries n) /\ (forall n, 0 <= n < @MAX_INODES tiny -> bit im2 n = bit im n) /\
    forall n, 0 <= n < @MAX_INODES tiny -> n <> i_nr i -> @same_file tiny s s2 n.
Proof.
  destruct tiny_made_ok as (s & im & bm & a & i & nr & s1 & im1 & bm1 & i1 & es1 & Hrd & E & _).
  exists s, im, bm, a, i, s1. split; [exact Hrd|]. split; [exact E|].
  exact (@create_rm_roundtrip tiny all_malloc s im bm a i root_entries name_f I_DIR s1 name_f (fun _ => eq_refl) Hrd name_f_ok eq_refl
           (or_intror eq_refl) E).
Defined.

Lemma root_dir_spec_witness :
  exists s, @mkfs testfs (fun _ => true) 131072 = Ret (inr s) /\
  exists s1 a s2 im bm i, @testfs_make_root_dir testfs all_malloc (mounted s) = Ret (0, s1) /\
      @get_inode testfs all_malloc 0 s1 = Ret (a, s2) /\ i_nr i = 0 /\ inodes s2 = {[a := i]} /\
      @ready testfs s2 im bm a i [Entry 0 str_dot; Entry 0 str_dotdot].
Proof.
  destruct (@root_dir_spec testfs all_malloc 131072 (fun _ => eq_refl)) as (s & E & [H|[H _]]); [done| |discriminate H].
  exists s. split; [exact E|exact H].
Defined.
