(* ===== verification/FsCmd.v ===== *)
(** * The file system shell (fs/file.c, fs/common.c, fs/testfs.c, fs/mktestfs.c)

    [shell] is the state of testfs: the file system, the current directory,
    what has been printed, and whether quit has been called.  A line is parsed
    with strtok_r as in the source, looked up in the command table and run. *)
From S2P Require Import Prelude Bytes Text Bitmap StateMonad Disk Super Inode ReadWrite Dir.

(** ** Numbers (common.c) *)

(** strtoll and strtoull in base 10: the value and the rest of the string. *)
Definition strtoll (s : list Z) : Z * list Z :=
  match scan_number s with
  | Some (neg, n, rest) => (if neg : bool then Z.max (- n) (- 2 ^ 63) else Z.min n (2 ^ 63 - 1), rest)
  | None => (0, s)
  end.
Definition strtoull (s : list Z) : Z * list Z :=
  match scan_number s with
  | Some (neg, n, rest) =>
      (if 2 ^ 64 <=? n then 2 ^ 64 - 1 else if neg : bool then u64 (- n) else n, rest)
  | None => (0, s)
  end.

Definition str_to_offset (str : list Z) : Z + Z :=
  let '(val, rest) := strtoll str in if 0 <? zlen rest then inl (- EINVAL) else inr val.
Definition str_to_size (str : list Z) : Z + Z :=
  let '(val, rest) := strtoull str in if 0 <? zlen rest then inl (- EINVAL) else inr val.

(** ** strtok_r *)

Definition in_delim (delim : list Z) (c : Z) : bool := bool_decide (c ∈ delim).
Fixpoint token (delim s : list Z) : list Z * list Z :=
  match s with
  | c :: s => if in_delim delim c then ([], s) else let '(t, rest) := token delim s in (c :: t, rest)
  | [] => ([], [])
  end.
(** With a NULL string it goes on from [save]; a NULL [save] gives NULL. *)
Definition strtok_r (s : option (list Z)) (delim : list Z) (save : option (list Z)) : option (list Z) * option (list Z) :=
  match (match s with Some s => Some s | None => save end) with
  | None => (None, None)
  | Some s =>
      match skip_while (in_delim delim) s with
      | [] => (None, Some [])
      | s => let '(t, rest) := token delim s in (Some t, Some rest)
      end
  end.

Definition blanks : list Z := [32; 9; 13; 10].
Definition line_ends : list Z := [13; 10].

(** The words after the name of a command that takes [n] more of them, then
    the rest of the line if there is one. *)
Fixpoint parse_words (n : nat) (args save : option (list Z)) : list (list Z) :=
  match n with
  | O => match strtok_r args line_ends save with (Some t, _) => [t] | (None, _) => [] end
  | S n =>
      match strtok_r args blanks save with
      | (Some t, save) => t :: parse_words n None save
      | (None, save) => match strtok_r args line_ends save with (Some t, _) => [t] | (None, _) => [] end
      end
  end.
Definition parse_command (max_args : Z) (name : list Z) (args : option (list Z)) : list (list Z) :=
  name :: parse_words (Z.to_nat (max_args - 1)) args None.

(** ** The shell *)

Inductive command :=
| CHelp | CCd | CPwd | CLs | CLsr | CCreate | CStat | CRm | CMkdir | CRead | CWrite | CFsstat | CQuit.

Inductive output :=
| OText (s : list Z)
| OHelp
| OBye
| OStat (name : list Z) (nr type size blocks : Z)
| OFsstat (nr_inodes nr_blocks : Z)
| OError (name : list Z) (errno : Z) (usage : command)
| ONotFound (name : list Z).

Record shell := Shell { sh_fs : fs; cur_dir : Z; printed : list output; can_quit : bool }.
Definition set_fs x s := Shell x (cur_dir s) (printed s) (can_quit s).
Definition set_cur_dir x s := Shell (sh_fs s) x (printed s) (can_quit s).
Definition set_can_quit s := Shell (sh_fs s) (cur_dir s) (printed s) true.
Abbreviation SH := (ST shell).
Definition on_fs {A} (m : FS A) : SH A := zoom sh_fs set_fs m.
Definition print (o : output) : SH unit := modify (fun s => Shell (sh_fs s) (cur_dir s) (printed s ++ [o]) (can_quit s)).

Definition cmdtable : list (list Z * command * Z) :=
  [(chars "help", CHelp, 1); (chars "cd", CCd, 2); (chars "pwd", CPwd, 1); (chars "ls", CLs, 2);
   (chars "lsr", CLsr, 2); (chars "create", CCreate, 2); (chars "stat", CStat, 2); (chars "rm", CRm, 2);
   (chars "mkdir", CMkdir, 2); (chars "read", CRead, 4); (chars "write", CWrite, 4);
   (chars "fsstat", CFsstat, 1); (chars "quit", CQuit, 1)].

Section shell.
Context `{Geometry} (malloc_ok : Z -> bool) (fuel : nat).

(** ** Files (file.c) *)

Definition testfs_get_file_inode (dir : Z) (name : list Z) : FS (Z + Z) :=
  inode_nr ← testfs_dir_name_to_inode_nr malloc_ok dir name;
  if inode_nr <? 0 then mret (inl inode_nr)
  else
    a ← get_inode malloc_ok inode_nr;
    t ← dir_type a;
    if t =? I_DIR then _ ← testfs_put_inode a; mret (inl (- EISDIR)) else mret (inr a).

(** cmd_read once the arguments have been converted: the value and the text. *)
Definition read_file (cur : Z) (filename : list Z) (offset size : Z) : FS (Z * option (list Z)) :=
  r ← testfs_get_file_inode cur filename;
  match r with
  | inl e => mret (e, None)
  | inr a =>
      file_size ← dir_size a;
      last ← lift_res (add_s64 offset (s64 size));
      '(ret, text) ←
        (if file_size <? last then mret (- EINVAL, None)
         else if negb (malloc_ok (u64 (size + 1))) then mret (- ENOMEM, None)
         else
           '(ret, data) ← testfs_read_data a (u64 (size + 1)) offset size;
           if ret <? 0 then mret (ret, None)
           else if u64 (size + 1) <=? size then lift_res (Fail Undef)
           else if zlen data <? size then lift_res (Fail Undef)
           else text ← lift_res (cstr (data ++ [0])); mret (ret, Some (text ++ [10])));
      _ ← testfs_put_inode a;
      mret (ret, text)
  end.

Definition cmd_read (args : list (list Z)) (cur : Z) : FS (Z * option (list Z)) :=
  if bad_args args 4 then mret (- EINVAL, None)
  else
    filename ← arg args 1;
    off ← arg args 2;
    match str_to_offset off with
    | inl e => mret (e, None)
    | inr offset =>
        if offset <? 0 then mret (- EINVAL, None)
        else
          sz ← arg args 3;
          match str_to_size sz with
          | inl e => mret (e, None)
          | inr size => read_file cur filename offset size
          end
    end.

Definition cmd_write (args : list (list Z)) (cur : Z) : FS Z :=
  if bad_args args 4 then mret (- EINVAL)
  else
    filename ← arg args 1;
    off ← arg args 2;
    match str_to_offset off with
    | inl e => mret e
    | inr offset =>
        if offset <? 0 then mret (- EINVAL)
        else
          buf ← arg args 3;
          r ← testfs_get_file_inode cur filename;
          match r with
          | inl e => mret e
          | inr a =>
              ret ← testfs_write_data a (buf ++ [0]) offset (zlen buf);
              _ ← testfs_sync_inode a;
              _ ← testfs_put_inode a;
              mret ret
          end
    end.

(** ** Commands (testfs.c) *)

Definition cmd_help : SH Z := _ ← print OHelp; mret 0.
Definition cmd_quit : SH Z := _ ← print OBye; _ ← modify set_can_quit; mret 0.

Definition run_reply (m : Z -> FS reply) : SH Z :=
  cur ← gets cur_dir;
  '(ret, out, cur) ← on_fs (m cur);
  _ ← (match out with [] => mret tt | _ => print (OText out) end);
  _ ← modify (set_cur_dir cur);
  mret ret.

Definition run_command (c : command) (args : list (list Z)) : SH Z :=
  cur ← gets cur_dir;
  match c with
  | CHelp => cmd_help
  | CQuit => cmd_quit
  | CCd => run_reply (cmd_cd malloc_ok args)
  | CPwd => run_reply (cmd_pwd malloc_ok fuel args)
  | CLs => run_reply (cmd_ls malloc_ok fuel args)
  | CLsr => run_reply (cmd_lsr malloc_ok fuel args)
  | CCreate => run_reply (cmd_create malloc_ok args)
  | CMkdir => run_reply (cmd_mkdir malloc_ok args)
  | CRm => run_reply (cmd_rm malloc_ok args)
  | CStat =>
      '(ret, o) ← on_fs (cmd_stat malloc_ok args cur);
      match o with
      | Some (nr, type, size, blocks) =>
          name ← lift_res (deref (args !! 1%nat)); _ ← print (OStat name nr type size blocks); mret ret
      | None => mret ret
      end
  | CRead =>
      '(ret, o) ← on_fs (cmd_read args cur);
      match o with Some text => _ ← print (OText text); mret ret | None => mret ret end
  | CWrite => on_fs (cmd_write args cur)
  | CFsstat =>
      r ← on_fs (on_sb (cmd_fsstat (zlen args)));
      match r with
      | inl e => mret e
      | inr (ni, nb) => _ ← print (OFsstat ni nb); mret 0
      end
  end.

Fixpoint find_command (name : list Z) (t : list (list Z * command * Z)) : option (command * Z) :=
  match t with
  | [] => None
  | (n, c, max_args) :: t => if bool_decide (name = n) then Some (c, max_args) else find_command name t
  end.

Definition handle_command (name args : option (list Z)) : SH unit :=
  match name with
  | None => mret tt
  | Some name =>
      match find_command name cmdtable with
      | Some (c, max_args) =>
          ret ← run_command c (parse_command max_args name args);
          if ret <? 0 then print (OError name (- ret) c) else mret tt
      | None => print (ONotFound name)
      end
  end.

(** One turn of main's loop. *)
Definition handle_line (line : list Z) : SH unit :=
  match line with
  | 35 :: _ => mret tt
  | _ =>
      let '(cname, save) := strtok_r (Some line) blanks None in
      let '(pargs, _) := strtok_r None line_ends save in
      handle_command cname pargs
  end.
Fixpoint main_loop (lines : list (list Z)) : SH unit :=
  match lines with
  | [] => mret tt
  | line :: lines =>
      _ ← handle_line line;
      q ← gets can_quit;
      if q : bool then mret tt else main_loop lines
  end.

(** ** Mounting with the inode table (super.c), and the two programs *)

Definition testfs_make_super_block (max : Z) : res fs :=
  s ← make_super_block max;
  '(_, f) ← inode_hash_init true (Fs s ∅ Null 0);
  Ret f.

(** The table is initialised last; a program mounts once more after closing. *)
Definition testfs_init_super_block (m : nat -> bool) (d : disk) : res (Z + fs) :=
  r ← init_super_block m d;
  match r with
  | inl e => Ret (inl e)
  | inr s => '(_, f) ← inode_hash_init (m 5%nat) (Fs s ∅ Null 0); Ret (inr f)
  end.

Definition testfs_close_super_block : FS unit :=
  _ ← on_sb testfs_write_super_block;
  _ ← inode_hash_destroy;
  on_sb close_maps.

(** testfs: the device and what was printed. *)
Definition testfs_main (m : nat -> bool) (d : disk) (lines : list (list Z)) : res (disk * list output) :=
  r ← testfs_init_super_block m d;
  match r with
  | inl _ => Fail (Exit 1)
  | inr f =>
      '(root, f) ← get_inode malloc_ok 0 f;
      '(_, s) ← main_loop lines (Shell f root [] false);
      '(_, f) ← (_ ← testfs_put_inode (cur_dir s); testfs_close_super_block) (sh_fs s);
      Ret (dev (f_sb f), printed s)
  end.

(** mktestfs once the size is known: the device it leaves. *)
Definition mktestfs_run (m : nat -> bool) (max_fs_blocks : Z) : res disk :=
  f ← testfs_make_super_block max_fs_blocks;
  '(_, f) ← (_ ← on_sb testfs_make_inode_freemap; _ ← on_sb testfs_make_block_freemap;
             _ ← on_sb testfs_make_inode_blocks; testfs_close_super_block) f;
  r ← testfs_init_super_block m (dev (f_sb f));
  match r with
  | inl _ => Fail (Exit 1)
  | inr f =>
      '(_, f) ← (_ ← testfs_make_root_dir malloc_ok; testfs_close_super_block) f;
      Ret (dev (f_sb f))
  end.

(** mktestfs with the size in MB. *)
Definition mktestfs_main (m : nat -> bool) (fs_size_mb : Z) : res disk :=
  let max_fs_blocks := u64 (u64 (BLOCK_FREEMAP_SIZE * BLOCK_SIZE) * 8) in
  let max_fs_size_mb := Z.shiftr (u64 (max_fs_blocks * BLOCK_SIZE)) 20 in
  if fs_size_mb <? 1 then Fail (Exit 1)
  else if max_fs_size_mb <? fs_size_mb then Fail (Exit 1)
  else mktestfs_run m (u64 (Z.shiftl fs_size_mb 20) / BLOCK_SIZE).

End shell.
