(* ===== verification/FsTheorems.v ===== *)
(** * Properties of the file system

    The main properties of fs/, over any geometry; the witnesses run on a
    small one, and the two runs of the shell at the end are on it too. *)
From S2P Require Import Prelude Bytes Text Bitmap StateMonad Disk Super Inode ReadWrite FileBlocks ReadWriteSpec World Dir FsCmd.

#[local] Ltac Zify.zify_post_hook ::= Z.to_euclidean_division_equations.

Section properties.
Context `{Geometry}.

(** No inode is close to having its reference count overflow. *)
Definition few_refs (s : fs) : Prop := forall a i, inodes s !! a = Some i -> i_count i < 2 ^ 31 - 1.

(** C4: Writing to a file.  In a well-formed file system a write of a
    non-empty buffer that lies in one block of an inode in use either returns
    the number of bytes, and then that logical block has the new bytes, every
    other block of the file and every other file have the content they had,
    the size is the larger of the old one and the end of the write and the
    inode is dirty; or it returns -ENOSPC and no file changes.  -ENOSPC is only
    returned for a block that is not allocated yet, and for one of the first
    ten only when the quota is used up or no data block is free.  In both cases
    the file system stays well formed: no block is shared and none is lost. *)
Theorem write_data_spec s im bm a i buf tl start
    (Hw : world_ok s im bm) (Ha : inodes s !! a = Some i) (Hu : bit im (i_nr i) = true)
    (Hib : in_block start (zlen buf)) (Hby : Forall is_byte buf) :
  (exists s' bm' i', testfs_write_data a (buf ++ tl) start (zlen buf) s = Ret (zlen buf, s') /\ world_ok s' im bm' /\
     inodes s' = <[a := i']> (inodes s) /\ i_nr i' = i_nr i /\ dirty i' /\
     written (dev (f_sb s)) (din i) start buf (dev (f_sb s')) (din i') /\ other_files s s' (i_nr i)) \/
  (exists s' bm', testfs_write_data a (buf ++ tl) start (zlen buf) s = Ret (- ENOSPC, s') /\ world_ok s' im bm' /\
     ptr (dev (f_sb s)) (din i) (start / BLOCK_SIZE) = 0 /\ (start / BLOCK_SIZE < 10 -> no_room bm (f_sb s)) /\
     forall n, 0 <= n < MAX_INODES -> file_of s' n = file_of s n /\
       forall k, file_block (dev (f_sb s')) (file_of s n) k = file_block (dev (f_sb s)) (file_of s n) k).
Proof.
  destruct (write_world s im bm a i buf tl start Hw Ha Hu Hib Hby) as
    [(s' & bm' & i' & E & Hw' & Hin & Hnr & _ & Hd & Hwr & Hoth)|(s' & bm' & E & Hw' & _ & Hptr & Hno & Hsame)].
  - left. exists s', bm', i'. by split_and!.
  - right. exists s', bm'. by split_and!.
Qed.

(** C20: What was written is read: after a successful write of [buf] at
    [start], reading as many bytes at [start] returns [buf]. *)
Theorem write_read_roundtrip s im bm a i buf tl start s'
    (Hw : world_ok s im bm) (Ha : inodes s !! a = Some i) (Hu : bit im (i_nr i) = true)
    (Hib : in_block start (zlen buf)) (Hby : Forall is_byte buf)
    (Hrun : testfs_write_data a (buf ++ tl) start (zlen buf) s = Ret (zlen buf, s')) :
  testfs_read_data a (zlen buf) start (zlen buf) s' = Ret ((zlen buf, buf), s').
Proof.
  destruct (write_world s im bm a i buf tl start Hw Ha Hu Hib Hby) as
    [(s1 & bm' & i' & E & Hw' & Hin & Hnr & _ & _ & (Hsz & _ & Hblk) & _)|(s1 & bm' & E & _)]; rewrite E in Hrun; simplify_eq.
  2:{ destruct Hib. unfold ENOSPC in *. lia. }
  pose proof Hib as [H0 H1 H2 H3]. pose proof Hw' as [Hs' Hfiles _].
  assert (Ha' : inodes s' !! a = Some i') by (rewrite Hin; apply lookup_insert_eq).
  pose proof (io_nr _ _ (fo_inode _ _ _ Hs' _ _ Ha')) as Hr.
  pose proof (fs_files _ _ _ Hfiles _ Hr) as Hf. rewrite (file_of_loaded _ _ _ _ _ Hs' Ha') in Hf.
  pose proof (sr_disk _ _ _ (fo_super _ _ _ Hs')) as Hdk.
  pose proof (sr_disk _ _ _ (fo_super _ _ _ (wo_fs _ _ _ Hw))) as Hdk0.
  rewrite <- (on_id s' a i' Ha'). rewrite (read_data_ok s' bm' a i' (f_sb s')) by (done || lia). do 3 f_equal.
  assert (HB : 0 < BLOCK_SIZE) by (geo; lia). pose proof (Z.mod_pos_bound start BLOCK_SIZE HB).
  rewrite Hblk by (split; [apply Z.div_pos; lia|done]). rewrite decide_True by done.
  destruct (zlen_file_block (dev (f_sb s)) (din i) (start / BLOCK_SIZE) Hdk0) as [Hl _].
  apply slice_splice; lia.
Qed.


(** C13: Removing a file.  testfs_remove_inode on the only reference to an
    inode in use gives back its number and exactly the blocks it owned, makes
    the inode empty, in memory and on the device, and leaves every other file
    as it was, in a well-formed file system. *)
Theorem remove_inode_spec s im bm a i
    (Hw : world_ok s im bm) (Ha : inodes s !! a = Some i) (Hu : bit im (i_nr i) = true) (Hc : i_count i = 1) :
  exists s' im' bm', testfs_remove_inode a s = Ret (tt, s') /\ world_ok s' im' bm' /\
    inodes s' = delete a (inodes s) /\ bit_clear im (i_nr i) im' /\
    (forall b, allocated bm' b <-> allocated bm b /\ b ∉ file_blocks (dev (f_sb s)) (din i)) /\
    file_of s' (i_nr i) = zero_dinode /\ other_files s s' (i_nr i).
Proof. by apply remove_world. Qed.

(** Creating an inode gives an empty inode of the requested type whose
    number was free, and changes no other file; when every usable number is
    taken it returns -ENOSPC and changes nothing. *)
Theorem create_inode_spec s im bm type
    (Hw : world_ok s im bm) (Hty : in_s32 type) (Hc : few_refs s) :
  (exists a s' i' im', testfs_create_inode true type s = Ret (inr a, s') /\ world_ok s' im' bm /\
     inodes s' = <[a := i']> (inodes s) /\ 0 <= i_nr i' < MAX_INODES /\ bit im (i_nr i') = false /\
     bit_set im (i_nr i') im' /\ din i' = set_i_type type zero_dinode /\ dirty i' /\ other_files s s' (i_nr i')) \/
  (exists s', testfs_create_inode true type s = Ret (inl (- ENOSPC), s') /\ world_ok s' im bm /\ same_files s s' /\
     forall n, 0 <= n < MAX_INODES -> bit im n = true).
Proof.
  destruct (create_world s im bm type Hw Hty Hc) as
    [(a & s' & i' & im' & E & Hw' & Hin & Hr & Hb & Hs & Hd & Hdi & Ho & _)|(s' & E & Hw' & Hs & _ & Hall)];
    [left; by exists a, s', i', im'|right; by exists s'].
Qed.

(** C15: An inode that is synchronised and released is found again as it was:
    testfs_get_inode reads it back from the device. *)
Theorem inode_persists s im bm a i
    (Hw : world_ok s im bm) (Ha : inodes s !! a = Some i) (Hc : i_count i = 1) (Hr : few_refs s) :
  exists s1 s2 b s3, testfs_sync_inode a s = Ret (tt, s1) /\ testfs_put_inode a s1 = Ret (tt, s2) /\
    inodes s2 = delete a (inodes s) /\
    testfs_get_inode true (i_nr i) s2 = Ret (b, s3) /\ inodes s3 !! b = Some (Inode (din i) 0 (i_nr i) 1) /\
    world_ok s3 im bm.
Proof.
  pose proof Hw as [Hs _ _]. pose proof (io_nr _ _ (fo_inode _ _ _ Hs _ _ Ha)) as Hn.
  destruct (sync_view s im bm a i Hs Ha) as (s1 & E1 & Hs1 & Hv1 & Hin1 & Hd1).
  destruct (put_view s1 im bm a (set_i_flags 0 i) Hs1) as (s2 & E2 & Hs2 & Hv2 & Hsb2 & Hin2);
    [by rewrite Hin1, lookup_insert_eq|done|].
  cbn [set_i_flags i_count] in Hin2. rewrite Hc, decide_True in Hin2 by done.
  rewrite Hin1, delete_insert_eq in Hin2.
  destruct (get_inode_ok s2 im bm (i_nr i) Hs2 Hn) as (b & s3 & i3 & E3 & Hs3 & Hsb3 & Hin3 & Hnr3 & Hcase).
  { intros c j. rewrite Hin2, lookup_delete. case_decide; [done|]. apply Hr. }
  destruct (get_view s2 im bm (i_nr i) Hs2 Hn) as (b' & s3' & i3' & E3' & _ & Hv3 & _).
  { intros c j. rewrite Hin2, lookup_delete. case_decide; [done|]. apply Hr. }
  rewrite E3 in E3'. injection E3' as <- <-.
  exists s1, s2, b, s3. split_and!; try done.
  - rewrite Hin3, lookup_insert_eq. f_equal. destruct (inodes s2 !! b) as [j|] eqn:Eb.
    + exfalso. destruct Hcase as [Hj _]. rewrite Hin2, lookup_delete in Eb. case_decide as Ec; [done|].
      destruct (fo_hash _ _ _ Hs) as (t & _ & Hh). by apply Ec, (ht_uniq _ _ Hh a b i j).
    + destruct Hcase as (_ & -> & _). by rewrite Hsb2, Hd1.
  - eapply world_view; [done|done|]. eapply same_files_trans; [done|]. by eapply same_files_trans.
Qed.

(** An inode is the same after it has been written to the device and
    read back: the decoding of the on-disk structure inverts its encoding, for
    every inode whose fields are in range. *)
Theorem dinode_roundtrip d (Hd : dinode_ok d) : dec_dinode (enc_dinode d) = d.
Proof. by apply dec_enc_dinode. Qed.

(** A file system that has just been made and mounted is well formed, with
    no inode and no block in use. *)
Theorem fresh_world_ok max (Hmax : in_u64 max) :
  exists s im bm, mkfs (fun _ => true) max = Ret (inr s) /\ world_ok (mounted s) im bm /\ used im = [] /\ used bm = [].
Proof. destruct (mkfs_world max Hmax) as (s & im & bm & ? & ? & ? & ? & _). by exists s, im, bm. Qed.

(** A write that crosses a block boundary, or that starts past the blocks
    an inode can name, is answered with -ENOSYS and changes nothing. *)
Theorem write_refused s a i buf start size
    (Ha : inodes s !! a = Some i) (H0 : 0 <= start) (H1 : 0 <= size < 2 ^ 62) (Hk : start / BLOCK_SIZE < 2 ^ 31)
    (Hbig : BLOCK_SIZE < start mod BLOCK_SIZE + size \/ MAX_BLOCKS <= start / BLOCK_SIZE) :
  testfs_write_data a buf start size s = Ret (- ENOSYS, s).
Proof. rewrite <- (on_id s a i Ha). by apply write_data_refused. Qed.

(** The block number of an offset is cut to 32 bits.  A write at an offset
    2^32 blocks past the place [start] is not refused: it overwrites the block
    of [start] and records the huge size, unless no block can be allocated. *)
Theorem write_offset_wraps s im bm a i buf tl start
    (Hw : world_ok s im bm) (Ha : inodes s !! a = Some i) (Hib : in_block start (zlen buf)) (Hby : Forall is_byte buf) :
  let far := start + 2 ^ 32 * BLOCK_SIZE in
  (exists s' i', testfs_write_data a (buf ++ tl) far (zlen buf) s = Ret (zlen buf, s') /\ inodes s' !! a = Some i' /\
     i_size (din i') = far + zlen buf /\
     forall j, 0 <= j < MAX_BLOCKS -> file_block (dev (f_sb s')) (din i') j =
       if decide (j = start / BLOCK_SIZE) then splice (start mod BLOCK_SIZE) buf (file_block (dev (f_sb s)) (din i) j)
       else file_block (dev (f_sb s)) (din i) j) \/
  (exists s', testfs_write_data a (buf ++ tl) far (zlen buf) s = Ret (- ENOSPC, s')).
Proof.
  intros far. pose proof Hw as [Hs Hfiles _]. pose proof (io_nr _ _ (fo_inode _ _ _ Hs _ _ Ha)) as Hr.
  pose proof (fs_files _ _ _ Hfiles _ Hr) as Hf. rewrite (file_of_loaded _ _ _ _ _ Hs Ha) in Hf.
  pose proof (on_id s a i Ha) as Eon. pose proof Hs as Hs1. rewrite <- Eon in Hs1.
  destruct (write_data_wraps s im bm a i (f_sb s) buf tl start Hs1 Hf Hib Hby) as [(i' & bm' & t' & E & _ & Hsz & Hblk)|(fl & t' & E)];
    rewrite Eon in E.
  - left. exists (on s a i' t'), i'. split_and!; try done. apply on_lookup.
  - right. by eexists.
Qed.

End properties.

(** ** Witnesses on the small geometry *)

(** The small file system with a file made in it: its state, the address of
    the inode. *)
Definition tiny_file : res (Z * fs) :=
  '(r, s) ← @testfs_create_inode tiny true I_FILE (mounted tiny_fs);
  match r with inr a => Ret (a, s) | inl _ => Fail Undef end.

Lemma tiny_file_ok :
  exists s im bm i, tiny_file = Ret (0, s) /\ @world_ok tiny s im bm /\ inodes s !! 0 = Some i /\
    bit im (i_nr i) = true /\ i_count i = 1 /\ in_s32 (i_nr i) /\ used bm = [] /\
    din i = set_i_type I_FILE zero_dinode /\ inodes s = {[0 := i]}.
Proof.
  destruct (@mkfs_world tiny 20) as (sb0 & im & bm & E & Hw & Hui & Hub & _); [done|].
  assert (Efs : tiny_fs = sb0) by (unfold tiny_fs; by rewrite E).
  destruct (@create_world tiny (mounted sb0) im bm I_FILE Hw) as
    [(a & s & i & im' & Ec & Hw' & Hin & Hr & Hb & Hset & Hd & _)|(s & _ & _ & _ & _ & Hall)]; [done|by intros a i| |].
  - assert (Ht : tiny_file = Ret (a, s)) by (unfold tiny_file; rewrite Efs, Ec; reflexivity).
    assert (Hvm : match tiny_file with Ret (a, s) => (a, i_count <$> inodes s !! 0) | Fail _ => (1, None) end = (0, Some 1))
      by (vm_compute; reflexivity).
    rewrite Ht in Hvm. injection Hvm as -> Hc.
    assert (Hi : inodes s !! 0 = Some i) by (rewrite Hin; apply lookup_insert_eq). rewrite Hi in Hc. injection Hc as Hc.
    exists s, im', bm, i. destruct Hset as (_ & _ & Hset). split_and!; [exact Ht|exact Hw'|exact Hi| |exact Hc| |exact Hub|exact Hd|exact Hin].
    + rewrite Hset, bool_decide_true by lia. apply orb_true_r.
    + pose proof (@geo_inode tiny). pose proof (@geo_limits tiny). unfold in_s32. lia.
  - exfalso. specialize (Hall 0). assert (0 ∈ used im) as Hin.
    { apply elem_of_used. split; [|apply Hall; by vm_compute].
      rewrite (map_bits _ _ _ _ (sr_im _ _ _ (fo_super _ _ _ (wo_fs _ _ _ Hw)))). by vm_compute. }
    rewrite Hui in Hin. by apply elem_of_nil in Hin.
Qed.

Lemma tiny_in_block : @in_block tiny 3 (zlen [104; 105]).
Proof. by constructor. Qed.
Lemma hi_bytes : Forall is_byte [104; 105].
Proof. by repeat constructor. Qed.

Lemma write_data_spec_witness :
  exists s im bm i, tiny_file = Ret (0, s) /\ @world_ok tiny s im bm /\
  ((exists s' bm' i', @testfs_write_data tiny 0 ([104; 105] ++ []) 3 (zlen [104; 105]) s = Ret (zlen [104; 105], s') /\
     @world_ok tiny s' im bm' /\
     inodes s' = <[0 := i']> (inodes s) /\ i_nr i' = i_nr i /\ dirty i' /\
     @written tiny (dev (f_sb s)) (din i) 3 [104; 105] (dev (f_sb s')) (din i') /\ @other_files tiny s s' (i_nr i)) \/
  (exists s' bm', @testfs_write_data tiny 0 ([104; 105] ++ []) 3 (zlen [104; 105]) s = Ret (- ENOSPC, s') /\ @world_ok tiny s' im bm' /\
     @ptr tiny (dev (f_sb s)) (din i) (3 / 64) = 0 /\ (3 / 64 < 10 -> @no_room tiny bm (f_sb s)) /\
     forall n, 0 <= n < @MAX_INODES tiny -> @file_of tiny s' n = @file_of tiny s n /\
       forall k, @file_block tiny (dev (f_sb s')) (@file_of tiny s n) k = @file_block tiny (dev (f_sb s)) (@file_of tiny s n) k)).
Proof.
  destruct tiny_file_ok as (s & im & bm & i & E & Hw & Hi & Hb & _). exists s, im, bm, i. split_and!; [done..|].
  apply (@write_data_spec tiny s im bm 0 i [104; 105] [] 3 Hw Hi Hb tiny_in_block hi_bytes).
Defined.

(** The same file with two bytes written at offset 3. *)
Definition tiny_hi : res (Z * fs) :=
  '(_, s) ← tiny_file; @testfs_write_data tiny 0 ([104; 105] ++ []) 3 (zlen [104; 105]) s.

Lemma tiny_hi_ok :
  exists s im bm i s' bm' i', tiny_file = Ret (0, s) /\ @world_ok tiny s im bm /\ inodes s !! 0 = Some i /\
    bit im (i_nr i) = true /\
    @testfs_write_data tiny 0 ([104; 105] ++ []) 3 (zlen [104; 105]) s = Ret (zlen [104; 105], s') /\
    @world_ok tiny s' im bm' /\ inodes s' !! 0 = Some i' /\ i_size (din i') = 5.
Proof.
  destruct tiny_file_ok as (s & im & bm & i & E & Hw & Hi & Hb & _ & _ & _ & Hd & _).
  assert (Hvm : match tiny_hi with Ret (r, _) => r | Fail _ => -1 end = 2) by (vm_compute; reflexivity).
  destruct (@write_world tiny s im bm 0 i [104; 105] [] 3 Hw Hi Hb tiny_in_block hi_bytes) as
    [(s' & bm' & i' & Er & Hw' & Hin & _ & _ & _ & (Hsz & _) & _)|(s' & bm' & Er & _)].
  - exists s, im, bm, i, s', bm', i'. rewrite Hd in Hsz.
    split_and!; [exact E|exact Hw|exact Hi|exact Hb|exact Er|exact Hw'|rewrite Hin; apply lookup_insert_eq|exact Hsz].
  - exfalso. unfold tiny_hi in Hvm. rewrite E in Hvm. cbn [mbind res_bind] in Hvm. rewrite Er in Hvm. discriminate Hvm.
Qed.

Lemma write_read_roundtrip_witness :
  exists s s', tiny_file = Ret (0, s) /\
    @testfs_write_data tiny 0 ([104; 105] ++ []) 3 (zlen [104; 105]) s = Ret (zlen [104; 105], s') /\
    @testfs_read_data tiny 0 (zlen [104; 105]) 3 (zlen [104; 105]) s' = Ret ((zlen [104; 105], [104; 105]), s').
Proof.
  destruct tiny_hi_ok as (s & im & bm & i & s' & bm' & i' & E & Hw & Hi & Hb & Er & _). exists s, s'.
  split_and!; [exact E|exact Er|].
  apply (@write_read_roundtrip tiny s im bm 0 i [104; 105] [] 3 s' Hw Hi Hb tiny_in_block hi_bytes Er).
Defined.


Lemma remove_inode_spec_witness :
  exists s im bm i, tiny_file = Ret (0, s) /\ @world_ok tiny s im bm /\
  exists s' im' bm', @testfs_remove_inode tiny 0 s = Ret (tt, s') /\ @world_ok tiny s' im' bm' /\
    inodes s' = delete 0 (inodes s) /\ bit_clear im (i_nr i) im' /\
    (forall b, @allocated tiny bm' b <-> @allocated tiny bm b /\ b ∉ @file_blocks tiny (dev (f_sb s)) (din i)) /\
    @file_of tiny s' (i_nr i) = zero_dinode /\ @other_files tiny s s' (i_nr i).
Proof.
  destruct tiny_file_ok as (s & im & bm & i & E & Hw & Hi & Hb & Hc & _). exists s, im, bm, i.
  split_and!; [exact E|exact Hw|]. apply (@remove_inode_spec tiny s im bm 0 i Hw Hi Hb Hc).
Defined.

Lemma tiny_few_refs : forall s i, inodes s = {[0 := i]} -> i_count i = 1 -> few_refs s.
Proof. intros s i E Hc a j. rewrite E. intros [_ <-]%lookup_singleton_Some. rewrite Hc. done. Qed.

Lemma create_inode_spec_witness :
  exists s im bm, tiny_file = Ret (0, s) /\ @world_ok tiny s im bm /\
  ((exists a s' i' im', @testfs_create_inode tiny true I_DIR s = Ret (inr a, s') /\ @world_ok tiny s' im' bm /\
     inodes s' = <[a := i']> (inodes s) /\ 0 <= i_nr i' < @MAX_INODES tiny /\ bit im (i_nr i') = false /\
     bit_set im (i_nr i') im' /\ din i' = set_i_type I_DIR zero_dinode /\ dirty i' /\ @other_files tiny s s' (i_nr i')) \/
  (exists s', @testfs_create_inode tiny true I_DIR s = Ret (inl (- ENOSPC), s') /\ @world_ok tiny s' im bm /\ @same_files tiny s s' /\
     forall n, 0 <= n < @MAX_INODES tiny -> bit im n = true)).
Proof.
  destruct tiny_file_ok as (s & im & bm & i & E & Hw & Hi & Hb & Hc & _ & _ & _ & Hin). exists s, im, bm.
  split_and!; [exact E|exact Hw|].
  assert (Hty : in_s32 I_DIR) by (unfold in_s32, I_DIR; lia).
  exact (@create_inode_spec tiny s im bm I_DIR Hw Hty (tiny_few_refs s i Hin Hc)).
Defined.

Lemma inode_persists_witness :
  exists s im bm i, tiny_file = Ret (0, s) /\
  exists s1 s2 b s3, @testfs_sync_inode tiny 0 s = Ret (tt, s1) /\ testfs_put_inode 0 s1 = Ret (tt, s2) /\
    inodes s2 = delete 0 (inodes s) /\
    @testfs_get_inode tiny true (i_nr i) s2 = Ret (b, s3) /\ inodes s3 !! b = Some (Inode (din i) 0 (i_nr i) 1) /\
    @world_ok tiny s3 im bm.
Proof.
  destruct tiny_file_ok as (s & im & bm & i & E & Hw & Hi & Hb & Hc & _ & _ & _ & Hin). exists s, im, bm, i.
  split; [exact E|]. apply (@inode_persists tiny s im bm 0 i Hw Hi Hc). by eapply tiny_few_refs.
Defined.

Lemma dinode_roundtrip_witness :
  let d := DInode 1 [200; 0; 0; 0; 0; 0; 0; 0; 0; 201] 202 0 3 81000 in dec_dinode (enc_dinode d) = d.
Proof.
  intros d. apply (dinode_roundtrip d). constructor; try done. by repeat constructor.
Defined.

Lemma fresh_world_ok_witness :
  exists s im bm, @mkfs testfs (fun _ => true) 131072 = Ret (inr s) /\ @world_ok testfs (mounted s) im bm /\
    used im = [] /\ used bm = [].
Proof. apply (@fresh_world_ok testfs 131072). done. Defined.

Lemma write_refused_witness :
  exists s, tiny_file = Ret (0, s) /\ @testfs_write_data tiny 0 [104; 105; 0] 63 2 s = Ret (- ENOSYS, s).
Proof.
  destruct tiny_file_ok as (s & im & bm & i & E & _ & Hi & _). exists s. split; [exact E|].
  assert (H0 : 0 <= 63) by lia. assert (H1 : 0 <= 2 < 2 ^ 62) by lia.
  assert (Hk : 63 / @BLOCK_SIZE tiny < 2 ^ 31) by (vm_compute; reflexivity).
  assert (Hbig : @BLOCK_SIZE tiny < 63 mod @BLOCK_SIZE tiny + 2 \/ @MAX_BLOCKS tiny <= 63 / @BLOCK_SIZE tiny) by (left; vm_compute; reflexivity).
  exact (@write_refused tiny s 0 i [104; 105; 0] 63 2 Hi H0 H1 Hk Hbig).
Defined.

Lemma write_offset_wraps_witness :
  exists s im bm i, tiny_file = Ret (0, s) /\ @world_ok tiny s im bm /\ inodes s !! 0 = Some i /\
  ((exists s' i', @testfs_write_data tiny 0 ([104; 105] ++ []) (3 + 2 ^ 32 * 64) (zlen [104; 105]) s = Ret (zlen [104; 105], s') /\
     inodes s' !! 0 = Some i' /\ i_size (din i') = 3 + 2 ^ 32 * 64 + zlen [104; 105] /\
     forall j, 0 <= j < @MAX_BLOCKS tiny -> @file_block tiny (dev (f_sb s')) (din i') j =
       if decide (j = 3 / 64) then splice (3 mod 64) [104; 105] (@file_block tiny (dev (f_sb s)) (din i) j)
       else @file_block tiny (dev (f_sb s)) (din i) j) \/
  (exists s', @testfs_write_data tiny 0 ([104; 105] ++ []) (3 + 2 ^ 32 * 64) (zlen [104; 105]) s = Ret (- ENOSPC, s'))).
Proof.
  destruct tiny_file_ok as (s & im & bm & i & E & Hw & Hi & _). exists s, im, bm, i.
  split_and!; [exact E|exact Hw|exact Hi|].
  apply (@write_offset_wraps tiny s im bm 0 i [104; 105] [] 3 Hw Hi tiny_in_block hi_bytes).
Defined.

(** ** Runs of the shell *)

Definition line (s : string) : list Z := chars s ++ [10].

(** testfs on a fresh device of the small geometry. *)
Definition session (lines : list string) : res (disk * list output) :=
  d ← @mktestfs_run tiny (fun _ => true) (fun _ => true) 20;
  @testfs_main tiny (fun _ => true) 20 (fun _ => true) d (line <$> lines).

(** A session of the shell: a file is made, written and read back, a
    directory is made, entered and left, the listing shows both, a directory
    that is not empty is not removed, and the counters are those of the root
    directory again once everything has been removed. *)
Theorem session_runs :
  exists d, session ["create f"; "write f 0 hello"; "read f 1 3"; "mkdir d"; "ls ."; "cd d"; "create g"; "pwd"; "cd ..";
                     "rm d"; "rm f"; "cd d"; "rm g"; "cd .."; "rm d"; "ls ."; "fsstat"; "quit"]%string =
    Ret (d, [OText (chars "ell" ++ [10]);
             OText (chars "./" ++ [10] ++ chars "../" ++ [10] ++ chars "f" ++ [10] ++ chars "d/" ++ [10]);
             OText (chars "/d" ++ [10]); OError (chars "rm") ENOTEMPTY CRm;
             OText (chars "./" ++ [10] ++ chars "../" ++ [10]); OFsstat 1 1; OBye]).
Proof.
  assert (E : snd <$> session ["create f"; "write f 0 hello"; "read f 1 3"; "mkdir d"; "ls ."; "cd d"; "create g"; "pwd"; "cd ..";
                     "rm d"; "rm f"; "cd d"; "rm g"; "cd .."; "rm d"; "ls ."; "fsstat"; "quit"]%string = Ret
     [OText (chars "ell" ++ [10]);
             OText (chars "./" ++ [10] ++ chars "../" ++ [10] ++ chars "f" ++ [10] ++ chars "d/" ++ [10]);
             OText (chars "/d" ++ [10]); OError (chars "rm") ENOTEMPTY CRm;
             OText (chars "./" ++ [10] ++ chars "../" ++ [10]); OFsstat 1 1; OBye]) by (vm_compute; reflexivity).
  destruct (session _) as [[d o]|]; simplify_eq/=. by exists d.
Qed.

(** Listing a plain file aborts the program when it ends.  cmd_ls on a
    file answers ENOTDIR without releasing the inode it looked up, and the
    hash table is then not empty when it is destroyed. *)
Theorem ls_of_file_aborts : session ["create f"; "ls f"; "quit"]%string = Fail Assert.
Proof. vm_compute. reflexivity. Qed.

(** Reading with a size of -1 copies past the buffers.  str_to_size gives
    2^64 - 1 for it, the end of the range wraps to just before the offset, and
    neither cmd_read nor testfs_read_data refuses it. *)
Theorem read_size_wraps : session ["create f"; "write f 0 hello"; "read f 1 -1"]%string = Fail Undef.
Proof. vm_compute. reflexivity. Qed.
