(* ===== verification/WebCache.v ===== *)
(** * The file cache of the web server (webserver/server_thread.c)

    [struct file_data] objects live in a heap and are shared: the cache's hash
    table, its LRU list, the queue of files in flight and the requests hold
    pointers to them.  The chains of the hash table ([struct word_count]) and
    the LRU list are kept as sequences of these pointers; DList.v has the LRU
    list at the level of its nodes ([CacheLru]).

    The functions are the bodies of the C functions as one thread runs them
    while it holds the mutex cache_access, as every caller does.  Evicting a
    file that is in flight waits for a signal of another thread, which does not
    come while only this thread runs: the model answers [Diverge] there.  The
    arithmetic of hash_value on long, which C leaves undefined when it
    overflows, wraps as the compiled code does. *)
From S2P Require Import Prelude Bytes StateMonad.

Definition loc : Type := positive.

(** [struct file_data] (request.h); NULL is [None]. *)
Record file_data := FileData {
  file_name : option (list Z);
  file_buf : option (list Z);
  file_size : Z
}.

(** [struct cache]; the table has [array_size] entries. *)
Record cache := Cache {
  MAX_SIZE : Z;
  curr_size : Z;
  array_size : Z;
  mapping : list (list loc)
}.

(** What the threads share: [fileCache], [LRU_Policy] and [inflight_q]. *)
Record web := Web {
  files : gmap loc file_data;
  fileCache : option cache;
  LRU_Policy : list loc;
  inflight_q : list loc
}.

Definition set_files x (s : web) : web := Web x (fileCache s) (LRU_Policy s) (inflight_q s).
Definition set_cache x (s : web) : web := Web (files s) x (LRU_Policy s) (inflight_q s).
Definition set_lru x (s : web) : web := Web (files s) (fileCache s) x (inflight_q s).
Definition set_inflight x (s : web) : web := Web (files s) (fileCache s) (LRU_Policy s) x.

Abbreviation WEB := (ST web).

Definition add_s32 (a b : Z) : res Z :=
  if (- 2 ^ 31 <=? a + b) && (a + b <? 2 ^ 31) then Ret (a + b) else Fail Undef.

(** *data *)
Definition get_data (p : loc) : WEB file_data := m ← gets files; lift_res (deref (m !! p)).
(** data->file_name, as the argument of strcmp and the like *)
Definition get_name (p : loc) : WEB (list Z) := d ← get_data p; lift_res (deref (file_name d)).
Definition free_data (p : loc) : WEB unit :=
  _ ← get_data p; modify (fun s => set_files (delete p (files s)) s).

Definition file_data_init : WEB loc :=
  m ← gets files;
  let p := fresh (dom m) in
  _ ← modify (fun s => set_files (<[p := FileData None None 0]> (files s)) s);
  mret p.

(** *wc *)
Definition the_cache : WEB cache := c ← gets fileCache; lift_res (deref c).
Definition upd_cache (f : cache -> cache) : WEB unit :=
  c ← the_cache; modify (set_cache (Some (f c))).
Definition set_curr x c := Cache (MAX_SIZE c) x (array_size c) (mapping c).
Definition set_mapping x c := Cache (MAX_SIZE c) (curr_size c) (array_size c) x.

(** ** The LRU list *)

Definition pushBack (p : loc) : WEB bool := _ ← modify (fun s => set_lru (LRU_Policy s ++ [p]) s); mret true.

(** strcmp(p->file_name, name) == 0 *)
Definition has_name (name : list Z) (p : loc) : WEB bool := n ← get_name p; mret (bool_decide (n = name)).

(** The walk of getCachedFile and isInFlight: the first with the name. *)
Fixpoint find_name (name : list Z) (l : list loc) : WEB (option loc) :=
  match l with
  | [] => mret None
  | p :: l => b ← has_name name p; if b : bool then mret (Some p) else find_name name l
  end.

Definition getCachedFile (data : loc) : WEB (option loc) :=
  l ← gets LRU_Policy;
  match l with [] => mret None | _ => name ← get_name data; find_name name l end.

Definition removeLRUFile : WEB (option loc) :=
  l ← gets LRU_Policy;
  match l with
  | [] => mret None
  | p :: l => _ ← modify (set_lru l); mret (Some p)
  end.

(** The list without its first element with the name. *)
Fixpoint drop_name (name : list Z) (l : list loc) : WEB (option (loc * list loc)) :=
  match l with
  | [] => mret None
  | p :: l =>
      b ← has_name name p;
      if b : bool then mret (Some (p, l))
      else r ← drop_name name l; mret ('(q, l) ← r; Some (q, p :: l))
  end.

(** The head, then the tail, then the others. *)
Definition removeFileToBeMovedToBack (data : loc) : WEB (option loc) :=
  l ← gets LRU_Policy;
  match l with
  | [] => mret None
  | h :: rest =>
      name ← get_name data;
      b ← has_name name h;
      if b : bool then _ ← modify (set_lru rest); mret (Some h)
      else
        match last l with
        | None => mret None
        | Some t =>
            b ← has_name name t;
            if b : bool then _ ← modify (set_lru (removelast l)); mret (Some t)
            else
              r ← drop_name name l;
              match r with
              | None => mret None
              | Some (p, l) => _ ← modify (set_lru l); mret (Some p)
              end
        end
  end.

(** ** The files in flight *)

(** The argument of the call is data->file_name. *)
Definition add_to_queue (p : loc) : WEB unit := _ ← get_data p; modify (fun s => set_inflight (inflight_q s ++ [p]) s).
Definition isInFlight (name : list Z) : WEB (option loc) := l ← gets inflight_q; find_name name l.
(** NULL when no file with the name is in the queue. *)
Definition remove_from_queue (name : list Z) : WEB (option loc) :=
  l ← gets inflight_q;
  r ← drop_name name l;
  match r with
  | None => mret None
  | Some (p, l) => _ ← modify (set_inflight l); mret (Some p)
  end.

(** ** The hash table *)

(** The value of a char. *)
Definition s8 (c : Z) : Z := (c + 128) mod 256 - 128.
Fixpoint hash_loop (hash : Z) (str : list Z) : Z :=
  match str with
  | [] => hash
  | c :: str => hash_loop (s64 (s64 (hash * 2 ^ 5) + hash + s8 c)) str
  end.
Definition hash_value (str : list Z) : Z := hash_loop 5381 str.

(** hash_value(name) % array_size, made positive. *)
Definition hash_index (name : list Z) : WEB Z :=
  c ← the_cache;
  if array_size c =? 0 then lift_res (Fail Undef)
  else
    let hash := Z.rem (hash_value name) (array_size c) in
    mret (if hash <? 0 then hash + array_size c else hash).

Definition chain (ix : Z) : WEB (list loc) := c ← the_cache; lift_res (deref (mapping c !! Z.to_nat ix)).
Definition set_chain (ix : Z) (l : list loc) : WEB unit :=
  upd_cache (fun c => set_mapping (<[Z.to_nat ix := l]> (mapping c)) c).
Definition add_size (n : Z) : WEB unit :=
  c ← the_cache; z ← lift_res (add_s32 (curr_size c) n); upd_cache (set_curr z).

(** while (inFlightFile) ...: the wait for a file in flight. *)
Definition wait_in_flight (name : list Z) : WEB unit :=
  f ← isInFlight name; match f with None => mret tt | Some _ => lift_res (Fail Diverge) end.

Definition remove_from_cache (data : loc) : WEB bool :=
  name ← get_name data;
  ix ← hash_index name;
  _ ← wait_in_flight name;
  l ← chain ix;
  r ← drop_name name l;
  match r with
  | None => mret false
  | Some (p, l) =>
      _ ← set_chain ix l;
      d ← get_data p;
      _ ← add_size (- file_size d);
      _ ← free_data p;
      mret true
  end.

Definition cache_evict : WEB bool :=
  elem ← removeLRUFile;
  match elem with
  | None => lift_res (Fail Undef)   (* remove_from_cache(wc, NULL) *)
  | Some p => remove_from_cache p
  end.

(** Whether a file of that size fits: curr_size + file_size <= MAX_SIZE *)
Definition fits (size : Z) : WEB bool :=
  c ← the_cache; z ← lift_res (add_s32 (curr_size c) size); mret (z <=? MAX_SIZE c).

(** The eviction loop of insert_to_cache. *)
Fixpoint make_room (fuel : nat) (size : Z) : WEB unit :=
  match fuel with
  | O => lift_res (Fail Diverge)
  | S fuel =>
      b ← fits size;
      if b : bool then mret tt
      else
        c ← the_cache;
        if curr_size c =? 0 then mret tt
        else _ ← cache_evict; make_room fuel size
  end.

(** Every iteration takes a file off the LRU list. *)
Definition room_fuel : WEB nat := l ← gets LRU_Policy; mret (S (length l)).

(** [fuel] bounds the depth of the recursion. *)
Fixpoint insert_to_cache (fuel : nat) (data : loc) : WEB bool :=
  match fuel with
  | O => lift_res (Fail Diverge)
  | S fuel =>
      d ← get_data data;
      c ← the_cache;
      if MAX_SIZE c <? file_size d then mret false
      else
        name ← get_name data;
        ix ← hash_index name;
        l ← chain ix;
        found ← find_name name l;
        match found with
        | Some _ => mret false
        | None =>
            b ← fits (file_size d);
            if b : bool then
              _ ← add_size (file_size d);
              _ ← set_chain ix (l ++ [data]);
              pushBack data
            else
              n ← room_fuel;
              _ ← make_room n (file_size d);
              insert_to_cache fuel data
        end
  end.

Definition INSERT_FUEL : nat := 2.
Definition cache_insert (data : loc) : WEB bool := insert_to_cache INSERT_FUEL data.

Definition cache_lookup (data : loc) : WEB bool :=
  info ← removeFileToBeMovedToBack data;
  match info with None => mret false | Some p => pushBack p end.

Definition init_cache (maxSize : Z) : cache :=
  let array_size := 2 * (maxSize / 4096) in
  Cache maxSize 0 array_size (replicate (Z.to_nat array_size) []).

(** The loops of destroy_cache over the table and a chain. *)
Fixpoint destroy_chain (l : list loc) : WEB unit :=
  match l with
  | [] => mret tt
  | p :: l =>
      _ ← removeLRUFile;
      d ← get_data p;
      _ ← add_size (- file_size d);
      _ ← free_data p;
      destroy_chain l
  end.
Fixpoint destroy_chains (t : list (list loc)) : WEB unit :=
  match t with [] => mret tt | l :: t => _ ← destroy_chain l; destroy_chains t end.
(** destroy_cache(fileCache) reads its NULL argument when there is no cache. *)
Definition destroy_cache_wrapper : WEB unit :=
  c ← the_cache; _ ← destroy_chains (mapping c); modify (set_cache None).
