(* ===== verification/WordCount.v ===== *)
(** * The word counter of the warm-up exercises (warmup/wc.c)

    A hash table from words to counts, with chaining: the chain of an entry is
    the sequence of its [struct word_count].  hash_value is that of the web
    server.  [wc_init_counts]: the table has every word of the text once, with
    the number of its occurrences, if the text fits in the copy that wc_init
    makes of it; that takes one byte more than the text has, for the NUL. *)
From S2P Require Import Prelude Bytes Text.
From S2P Require WebCache.

(** [struct wc] *)
Record wc := Wc { size : Z; mapping : list (list (list Z * Z)) }.

(** hash_value(word) modulo the size, made positive. *)
Definition bucket (sz : Z) (word : list Z) : Z :=
  let hash := Z.rem (WebCache.hash_value word) sz in if hash <? 0 then hash + sz else hash.

(** The walk over a chain: the count of the word goes up, or the word comes
    last.  An empty entry gets its first word. *)
Fixpoint bump (word : list Z) (chain : list (list Z * Z)) : res (list (list Z * Z)) :=
  match chain with
  | [] => Ret [(word, 1)]
  | (w, n) :: chain =>
      if bool_decide (w = word) then n ← WebCache.add_s32 n 1; Ret ((w, n) :: chain)
      else chain ← bump word chain; Ret ((w, n) :: chain)
  end.

Definition insert_into_wc (t : wc) (word : list Z) : res wc :=
  if size t =? 0 then Fail Undef
  else
    let hash := Z.to_nat (bucket (size t) word) in
    chain ← deref (mapping t !! hash);
    chain ← bump word chain;
    Ret (Wc (size t) (<[hash := chain]> (mapping t))).

(** strtok(s, " \t\n\r\v\f") in what is left of the copy *)
Definition delim : list Z := [32; 9; 10; 13; 11; 12].
Definition is_delim (c : Z) : bool := bool_decide (c ∈ delim).
Fixpoint token (s : list Z) : list Z * list Z :=
  match s with
  | [] => ([], [])
  | c :: s => if is_delim c then ([], s) else let (t, r) := token s in (c :: t, r)
  end.
Definition strtok (s : list Z) : option (list Z * list Z) :=
  match skip_while is_delim s with [] => None | s => Some (token s) end.

Fixpoint insert_words (fuel : nat) (t : wc) (s : list Z) : res wc :=
  match fuel with
  | O => Fail Diverge
  | S fuel =>
      match strtok s with
      | None => Ret t
      | Some (ptr, s) => t ← insert_into_wc t ptr; insert_words fuel t s
      end
  end.

(** [word_array] up to its NUL; [sz] is the parameter size, a long. *)
Definition wc_init (word_array : list Z) (sz : Z) : res wc :=
  (* strcpy(copy, word_array) *)
  if zlen word_array <? sz then
    let n := s32 (2 * sz) in
    if n <? 0 then Fail Assert   (* malloc of a huge size *)
    else insert_words (S (length word_array)) (Wc n (replicate (Z.to_nat n) [])) word_array
  else Fail Undef.

(** printf("%s:%d\n", curr->word, curr->count) *)
Definition wc_line (x : list Z * Z) : list Z := x.1 ++ [58] ++ print_d x.2 ++ [10].
Definition wc_output (t : wc) : list Z := concat (wc_line <$> concat (mapping t)).

(** ** The words of a text *)

Definition flush (cur : list Z) (ws : list (list Z)) : list (list Z) := match cur with [] => ws | _ => cur :: ws end.
(** The maximal pieces without delimiters; [cur] is the piece so far. *)
Fixpoint words_from (cur s : list Z) : list (list Z) :=
  match s with
  | [] => flush cur []
  | c :: s => if is_delim c then flush cur (words_from [] s) else words_from (cur ++ [c]) s
  end.
Definition words (s : list Z) : list (list Z) := words_from [] s.
Definition count (w : list Z) (ws : list (list Z)) : Z := zlen (filter (fun v => v = w) ws).

Lemma words_from_token cur s : cur <> [] -> words_from cur s = (cur ++ (token s).1) :: words (token s).2.
Proof.
  revert cur. induction s as [|c s IH]; intros cur Hc; cbn [words_from token].
  - rewrite app_nil_r. by destruct cur.
  - destruct (is_delim c); cbn [fst snd]; [rewrite app_nil_r; by destruct cur|].
    rewrite IH by (by destruct cur). destruct (token s) as [t r]. cbn. by rewrite <- app_assoc.
Qed.

Lemma words_strtok s : words s = match strtok s with None => [] | Some (w, r) => w :: words r end.
Proof.
  unfold words, strtok. induction s as [|c s IH]; [done|]. cbn [words_from skip_while]. destruct (is_delim c) eqn:Hc; [exact IH|].
  cbn [app]. rewrite words_from_token by done. cbn [token]. rewrite Hc. by destruct (token s).
Qed.

Lemma token_length s : (length (token s).2 <= length s)%nat.
Proof. induction s as [|c s IH]; [done|]. cbn. destruct (is_delim c); cbn; [lia|]. destruct (token s). cbn in *. lia. Qed.

Lemma strtok_length s w r : strtok s = Some (w, r) -> (length r < length s)%nat.
Proof.
  unfold strtok. induction s as [|c s IH]; cbn [skip_while]; [done|]. destruct (is_delim c) eqn:Hc.
  - intros H. specialize (IH H). cbn. lia.
  - intros [= H]. cbn [token] in H. rewrite Hc in H. pose proof (token_length s) as Hl. destruct (token s) as [t r']. simplify_eq/=. lia.
Qed.

Lemma words_length s : (length (words s) <= length s)%nat.
Proof.
  assert (H : forall n s, (length s <= n)%nat -> (length (words s) <= length s)%nat); [|by apply (H (length s))].
  intros n. induction n as [|n IH]; intros [|c l] Hl; cbn [length] in Hl; try (cbn; lia).
  rewrite words_strtok. destruct (strtok (c :: l)) as [[w r]|] eqn:E; [|cbn; lia]. apply strtok_length in E. cbn [length] in *.
  specialize (IH r ltac:(lia)). lia.
Qed.

(** ** The table *)

Lemma bucket_range sz w : 0 < sz -> 0 <= bucket sz w < sz.
Proof.
  intros Hs. unfold bucket. pose proof (Z.rem_bound_abs (WebCache.hash_value w) sz ltac:(lia)). case_match; lia.
Qed.

(** The table after the words [ws]. *)
Record counts (t : wc) (ws : list (list Z)) : Prop := Counts {
  ct_size : 0 < size t /\ length (mapping t) = Z.to_nat (size t);
  ct_bucket k c w n : mapping t !! k = Some c -> (w, n) ∈ c -> Z.to_nat (bucket (size t) w) = k;
  ct_nodup k c : mapping t !! k = Some c -> NoDup c.*1;
  ct_count k c w n : mapping t !! k = Some c -> (w, n) ∈ c -> w ∈ ws /\ n = count w ws;
  ct_all w : w ∈ ws -> exists c, mapping t !! Z.to_nat (bucket (size t) w) = Some c /\ w ∈ c.*1
}.

Lemma count_app w ws ws' : count w (ws ++ ws') = count w ws + count w ws'.
Proof. unfold count, zlen. rewrite filter_app, length_app. lia. Qed.
Lemma count_one w v : count w [v] = if decide (v = w) then 1 else 0.
Proof. unfold count. rewrite filter_cons. by case_decide. Qed.
Lemma count_pos w ws : w ∈ ws -> 0 < count w ws.
Proof.
  intros (l1 & l2 & ->)%list_elem_of_split. change (w :: l2) with ([w] ++ l2). rewrite !count_app, count_one, decide_True by done.
  unfold count, zlen. lia.
Qed.
Lemma count_zero w ws : w ∉ ws -> count w ws = 0.
Proof.
  intros Hw. unfold count. assert (E : filter (fun v => v = w) ws = []); [|by rewrite E].
  induction ws as [|v ws IH]; [done|]. apply not_elem_of_cons in Hw as [Hv Hw]. rewrite filter_cons, decide_False by congruence. by apply IH.
Qed.
Lemma count_le w ws : count w ws <= zlen ws.
Proof. unfold count, zlen. pose proof (length_filter (fun v => v = w) ws). lia. Qed.

(** One word: its count is one more, or one if it is new. *)
Lemma bump_run w c f : NoDup c.*1 -> (forall v n, (v, n) ∈ c -> n = f v) -> 0 <= f w < 2 ^ 31 - 1 ->
  exists c', bump w c = Ret c' /\ NoDup c'.*1 /\ (forall v, v ∈ c'.*1 <-> v ∈ c.*1 \/ v = w) /\
    forall v n, (v, n) ∈ c' -> if decide (v = w) then (w ∈ c.*1 /\ n = f w + 1) \/ (w ∉ c.*1) /\ n = 1 else (v, n) ∈ c.
Proof.
  intros Hnd Hf Hr. induction c as [|[v n] c IH]; cbn [bump].
  - exists [(w, 1)]. csimpl. split_and!; [done|apply NoDup_singleton|set_solver|].
    intros v n [= -> ->]%list_elem_of_singleton. rewrite decide_True by done. right. split; [set_solver|done].
  - csimpl in Hnd. apply NoDup_cons in Hnd as [Hv Hnd]. case_bool_decide as Hvw.
    + subst v. assert (n = f w) as -> by (apply Hf; by left). unfold WebCache.add_s32.
      rewrite (proj2 (Z.leb_le _ _)), (proj2 (Z.ltb_lt _ _)) by lia. cbn [andb]. rewrite bind_ret.
      eexists. csimpl. split_and!; [done|by apply NoDup_cons|set_solver|].
      intros u k [[= -> ->]|Hu]%elem_of_cons; [rewrite decide_True by done; left; split; [by left|done]|].
      rewrite decide_False; [by right|]. intros ->. apply Hv. by apply (list_elem_of_fmap_2 fst) in Hu.
    + destruct IH as (c' & E & Hnd' & Hin & Hc'); [done|intros; apply Hf; by right|]. rewrite E, bind_ret. eexists. csimpl. split_and!; [done| | |].
      * apply NoDup_cons. split; [|done]. rewrite Hin. naive_solver.
      * set_solver.
      * intros u k [[= -> ->]|Hu]%elem_of_cons; [rewrite decide_False by done; by left|]. specialize (Hc' u k Hu).
        case_decide; [|by right]. subst. rewrite not_elem_of_cons, elem_of_cons. naive_solver.
Qed.

Lemma insert_run t ws w : counts t ws -> zlen ws < 2 ^ 31 - 1 ->
  exists t', insert_into_wc t w = Ret t' /\ counts t' (ws ++ [w]).
Proof.
  intros [[Hs Hl] Hb Hnd Hc Ha] Hlen. pose proof (bucket_range (size t) w Hs) as Hr. unfold insert_into_wc.
  rewrite (proj2 (Z.eqb_neq _ _)) by lia. destruct (lookup_lt_is_Some_2 (mapping t) (Z.to_nat (bucket (size t) w)) ltac:(lia)) as [c Ec].
  rewrite Ec. cbn [deref]. rewrite bind_ret. pose proof (count_le w ws). assert (0 <= count w ws) by (unfold count, zlen; lia).
  destruct (bump_run w c (fun v => count v ws)) as (c' & E & Hnd' & Hin & Hc'); [by eapply Hnd|intros v n Hv; by apply (Hc _ _ _ _ Ec Hv)|lia|].
  rewrite E, bind_ret. eexists. split; [done|]. set (ix := Z.to_nat (bucket (size t) w)) in *.
  assert (Hcase : forall k d, <[ix := c']> (mapping t) !! k = Some d -> (k = ix /\ d = c') \/ (k <> ix /\ mapping t !! k = Some d)).
  { intros k d. rewrite list_lookup_insert. case_decide as Hk; [intros [= <-]; left; naive_solver|]. intros Ed. right. split; [|done].
    intros ->. apply Hk. split; [done|]. by eapply lookup_lt_Some. }
  split; cbn [size mapping]; fold ix.
  - by rewrite length_insert.
  - intros k d v n [[-> ->]|[_ Ed]]%Hcase Hv; [|by eapply Hb]. specialize (Hc' v n Hv). case_decide; [by subst|by eapply Hb].
  - intros k d [[-> ->]|[_ Ed]]%Hcase; [done|by eapply Hnd].
  - intros k d v n [[-> ->]|[Hk Ed]]%Hcase Hv; rewrite count_app, count_one; (split; [apply elem_of_app|]).
    + specialize (Hc' v n Hv). case_decide; [right; subst; by left|left]. by apply (Hc ix c v n Ec Hc').
    + specialize (Hc' v n Hv). destruct (decide (v = w)) as [->|Hvw].
      * rewrite decide_True by done. destruct Hc' as [[_ ->]|[Hw ->]]; [done|]. rewrite count_zero; [done|]. intros Hw'.
        destruct (Ha w Hw') as (d & Ed & Hd). fold ix in Ed. assert (d = c) as -> by congruence. done.
      * rewrite decide_False by congruence. rewrite (proj2 (Hc ix c v n Ec Hc')). lia.
    + left. by apply (Hc k d v n Ed Hv).
    + rewrite decide_False; [rewrite (proj2 (Hc k d v n Ed Hv)); lia|]. intros ->. apply Hk. symmetry. by eapply Hb.
  - intros v [Hv| ->%list_elem_of_singleton]%elem_of_app.
    + destruct (Ha v Hv) as (d & Ed & Hd). destruct (decide (Z.to_nat (bucket (size t) v) = ix)) as [Ei|Ei].
      * rewrite Ei in Ed |- *. assert (d = c) as -> by congruence. exists c'. rewrite list_lookup_insert_eq by (by eapply lookup_lt_Some).
        split; [done|]. apply Hin. by left.
      * exists d. by rewrite list_lookup_insert_ne.
    + exists c'. fold ix. rewrite list_lookup_insert_eq by (by eapply lookup_lt_Some). split; [done|]. apply Hin. by right.
Qed.

Lemma insert_words_run fuel : forall t ws s, counts t ws -> (length s < fuel)%nat -> zlen ws + zlen s < 2 ^ 31 - 1 ->
  exists t', insert_words fuel t s = Ret t' /\ counts t' (ws ++ words s).
Proof.
  induction fuel as [|fuel IH]; intros t ws s Hc Hf Hl; [lia|]. cbn [insert_words]. rewrite words_strtok.
  destruct (strtok s) as [[w r]|] eqn:E; [|exists t; by rewrite app_nil_r]. pose proof (strtok_length _ _ _ E) as Hlt. unfold zlen in Hl.
  destruct (insert_run t ws w Hc ltac:(unfold zlen; lia)) as (t1 & -> & Hc1). rewrite bind_ret.
  destruct (IH t1 (ws ++ [w]) r Hc1) as (t2 & -> & Hc2); [lia|unfold zlen; rewrite length_app; cbn; lia|].
  exists t2. split; [done|]. by rewrite <- app_assoc in Hc2.
Qed.

Lemma counts_init sz : 0 < sz -> counts (Wc sz (replicate (Z.to_nat sz) [])) [].
Proof.
  intros Hs. split; cbn [size mapping].
  - by rewrite length_replicate.
  - by intros k c w n [-> _]%lookup_replicate_1 ?%elem_of_nil.
  - intros k c [-> _]%lookup_replicate_1. constructor.
  - by intros k c w n [-> _]%lookup_replicate_1 ?%elem_of_nil.
  - by intros w ?%elem_of_nil.
Qed.

(** The whole table has every word once. *)
Lemma counts_nodup t ws : counts t ws -> NoDup (concat (mapping t)).*1.
Proof.
  intros [_ Hb Hnd _ _]. assert (H : forall i (l : list (list (list Z * Z))), (forall k c w n, l !! k = Some c -> (w, n) ∈ c -> Z.to_nat (bucket (size t) w) = (i + k)%nat) ->
    (forall k c, l !! k = Some c -> NoDup c.*1) -> NoDup (concat l).*1); [|by apply (H 0%nat)].
  clear. intros i l. revert i. induction l as [|c l IH]; intros i Hb Hn; [constructor|]. cbn [concat]. rewrite fmap_app. apply NoDup_app.
  split_and!; [by apply (Hn 0%nat)| |apply (IH (S i)); [intros k d w n Ed Hd; rewrite (Hb (S k) d w n Ed Hd); lia|intros k; apply (Hn (S k))]].
  intros w ([w1 n1] & -> & H1)%list_elem_of_fmap ([w2 n2] & E2 & H2)%list_elem_of_fmap. cbn in E2. subst w2.
  apply elem_of_concat in H2 as (k & d & Ed & Hd). pose proof (Hb 0%nat c w1 n1 eq_refl H1). pose proof (Hb (S k) d w1 n2 Ed Hd). lia.
Qed.

(** C27: wc_init counts the words of a text that is shorter than its parameter
    size (below 2^30, so that the table's size, twice that, is an int): the table has each word of the text once, with the number of its
    occurrences, and no other.  If the text is not shorter, strcpy writes past
    the end of the copy. *)
Theorem wc_init_counts text sz :
  sz < 2 ^ 30 ->
  if zlen text <? sz then
    exists t, wc_init text sz = Ret t /\ NoDup (concat (mapping t)).*1 /\
      forall w n, (w, n) ∈ concat (mapping t) <-> w ∈ words text /\ n = count w (words text)
  else wc_init text sz = Fail Undef.
Proof.
  intros Hsz. unfold wc_init. destruct (Z.ltb_spec (zlen text) sz) as [Hlt|]; [|done].
  assert (0 <= zlen text) by (unfold zlen; lia). rewrite s32_small by (unfold in_s32; lia). rewrite (proj2 (Z.ltb_ge _ _)) by lia.
  destruct (insert_words_run (S (length text)) _ [] text (counts_init (2 * sz) ltac:(lia))) as (t & E & Hc); [lia|unfold zlen in *; cbn; lia|].
  exists t. split; [done|]. split; [by eapply counts_nodup|]. cbn [app] in Hc. intros w n. rewrite elem_of_concat. split.
  - intros (k & c & Ek & Hw). by apply (ct_count _ _ Hc _ _ _ _ Ek Hw).
  - intros [Hw ->]. destruct (ct_all _ _ Hc w Hw) as (c & Ec & ([w' n] & -> & Hn)%list_elem_of_fmap). exists (Z.to_nat (bucket (size t) w')), c.
    split; [done|]. destruct (ct_count _ _ Hc _ _ _ _ Ec Hn) as [_ Hcount]. cbn [fst]. by rewrite <- Hcount.
Qed.

Definition demo_text : list Z := chars "the cat  the" ++ [10].
Lemma wc_init_counts_witness :
  exists t, wc_init demo_text 14 = Ret t /\ NoDup (concat (mapping t)).*1 /\
    forall w n, (w, n) ∈ concat (mapping t) <-> w ∈ [chars "the"; chars "cat"; chars "the"] /\ n = count w [chars "the"; chars "cat"; chars "the"].
Proof. apply (wc_init_counts demo_text 14). lia. Defined.
