(* ===== verification/Factorial.v ===== *)
(** * The factorial of the warm-up exercises (warmup/fact.c)

    [fact_main_spec]: for every argument that atoi reads as an int the program
    prints the factorial, or why it does not, without an overflow: 12 is the
    last number whose factorial is an int ([factCalc_overflow]). *)
From S2P Require Import Prelude Bytes Text.

Fixpoint factCalc (fuel : nat) (n : Z) : res Z :=
  match fuel with
  | O => Fail Diverge
  | S fuel => if n =? 1 then Ret 1 else r ← factCalc fuel (n - 1); mul_s32 n r
  end.

Fixpoint hasDecimal (str : list Z) : bool :=
  match str with [] => false | c :: str => if c =? 46 then true else hasDecimal str end.

(** What main prints *)
Definition fact_main (fuel : nat) (argv : list (list Z)) : res (list Z) :=
  let huh := chars "Huh?" ++ [10] in
  match argv with
  | [_; arg] =>
      n ← atoi arg;
      if n <=? 0 then Ret huh
      else if hasDecimal arg then Ret huh
      else if 12 <? n then Ret (chars "Overflow" ++ [10])
      else r ← factCalc fuel n; Ret (print_d r ++ [10])
  | _ => Ret huh
  end.

(** n! *)
Fixpoint factorial (n : nat) : Z := match n with O => 1 | S k => Z.of_nat n * factorial k end.

Lemma factorial_mono n m : (n <= m)%nat -> 1 <= factorial n <= factorial m.
Proof.
  intros Hle. induction Hle as [|m _ IH]; [induction n as [|n IH]; cbn [factorial]; [lia|]|]; cbn [factorial]; nia.
Qed.

Lemma factCalc_run k fuel : (k < 12)%nat -> (k < fuel)%nat -> factCalc fuel (Z.of_nat (S k)) = Ret (factorial (S k)).
Proof.
  revert fuel. induction k as [|k IH]; intros [|fuel] Hk Hf; try lia; cbn [factCalc]; [done|].
  rewrite (proj2 (Z.eqb_neq _ 1)) by lia. replace (Z.of_nat (S (S k)) - 1) with (Z.of_nat (S k)) by lia.
  rewrite IH, bind_ret by lia.
  pose proof (factorial_mono (S (S k)) 12 ltac:(lia)) as H. change (factorial 12) with 479001600 in H.
  apply mul_s32_run. unfold in_s32. change (Z.of_nat (S (S k)) * factorial (S k)) with (factorial (S (S k))). lia.
Qed.

(** 12 is the last argument without an overflow. *)
Lemma factCalc_overflow fuel : (13 < fuel)%nat -> factCalc fuel 13 = Fail Undef.
Proof.
  intros Hf. destruct fuel as [|fuel]; [lia|]. cbn [factCalc]. change (13 =? 1) with false.
  change (13 - 1) with (Z.of_nat 12). rewrite (factCalc_run 11) by lia. rewrite bind_ret. vm_compute. reflexivity.
Qed.

Lemma hasDecimal_spec s : hasDecimal s = true <-> 46 ∈ s.
Proof.
  induction s as [|c s IH]; [split; [done|by intros ?%elem_of_nil]|]. cbn [hasDecimal]. rewrite elem_of_cons.
  destruct (Z.eqb_spec c 46) as [->|]; [naive_solver|]. rewrite IH. naive_solver.
Qed.

(** The factorial program prints, for an argument that is read as the int
    [n], "Huh?" if [n] is not positive or the argument has a point, "Overflow"
    above 12, and else the factorial of [n] in decimal; in no case does a
    product leave the range of int. *)
Theorem fact_main_spec fuel prog arg n :
  atoi arg = Ret n -> (12 < fuel)%nat ->
  fact_main fuel [prog; arg] = Ret (
    (if bool_decide (n <= 0 \/ 46 ∈ arg) then chars "Huh?"
     else if bool_decide (12 < n) then chars "Overflow"
     else print_d (factorial (Z.to_nat n))) ++ [10]).
Proof.
  intros Ha Hf. unfold fact_main. rewrite Ha, bind_ret.
  destruct (Z.leb_spec n 0); [by rewrite bool_decide_true by auto|].
  destruct (hasDecimal arg) eqn:Hd; [rewrite bool_decide_true by (right; by apply hasDecimal_spec); done|].
  rewrite (bool_decide_false (_ \/ _)) by (intros [|Hin%hasDecimal_spec]; [lia|congruence]).
  destruct (Z.ltb_spec 12 n); [by rewrite bool_decide_true|]. rewrite bool_decide_false by lia.
  pose proof (factCalc_run (Z.to_nat (n - 1)) fuel ltac:(lia) ltac:(lia)) as E.
  replace (S (Z.to_nat (n - 1))) with (Z.to_nat n) in E by lia. rewrite Z2Nat.id in E by lia. by rewrite E.
Qed.

Lemma fact_main_spec_witness :
  fact_main 13 [chars "fact"; chars "12"] = Ret (chars "479001600" ++ [10]) /\
  fact_main 13 [chars "fact"; chars "3.5"] = Ret (chars "Huh?" ++ [10]) /\
  fact_main 13 [chars "fact"; chars "13"] = Ret (chars "Overflow" ++ [10]).
Proof.
  split_and!.
  - rewrite (fact_main_spec 13 (chars "fact") (chars "12") 12); [vm_compute; reflexivity|reflexivity|lia].
  - rewrite (fact_main_spec 13 (chars "fact") (chars "3.5") 3); [vm_compute; reflexivity|reflexivity|lia].
  - rewrite (fact_main_spec 13 (chars "fact") (chars "13") 13); [vm_compute; reflexivity|reflexivity|lia].
Defined.
