(* ===== verification/CopyTree.v ===== *)
(** * The recursive copy of the warm-up exercises (warmup/cpr.c)

    The program is a sequence of calls of the operating system, which is a
    parameter: the class [posix] has the calls, and [posix_files] states what
    the system documents of regular files.  Paths are built in buffers of
    [malloc]; a buffer knows its size, and a copy that does not fit is
    undefined.

    [copyOverFile_spec]: the copy of a file is exact when no call fails, and
    whatever fails, the destination has a beginning of the source and no other
    file is touched; a file that is copied onto itself is emptied.
    [dealWithDirectory_spec]: the directory that is made, and that the program
    never gets to copy a directory inside a directory: it writes past the
    buffer of its path before. *)
From S2P Require Import Prelude Bytes Text StateMonad.

(** ** The operating system

    [opendir] answers a stream or errno; [read] its result and the bytes it
    put into the buffer; [write] is given the initialised part of the buffer
    and the number of bytes to write. *)
Class posix (W : Type) := Posix {
  opendir : list Z -> W -> (Z + Z) * W;
  readdir : Z -> W -> option (list Z) * W;
  closedir : Z -> W -> Z * W;
  mkdir : list Z -> Z -> W -> Z * W;
  open : list Z -> Z -> Z -> W -> Z * W;
  read : Z -> Z -> W -> (Z * list Z) * W;
  write : Z -> list Z -> Z -> W -> Z * W;
  close : Z -> W -> Z * W
}.

Definition ENOTDIR : Z := 20.
Definition O_RDONLY : Z := 0.
Definition O_CREAT : Z := 64.
Definition O_RDWR : Z := 2.
Definition O_TRUNC : Z := 512.
(** The permissions rwxrwxrwx and rw-------. *)
Definition mode_dir : Z := 511.
Definition mode_file : Z := 384.

(** ** Strings in buffers of malloc *)
Record buf := Buf { room : Z; str : list Z }.

(** strcpy(malloc(n), s) *)
Definition strcpy (n : Z) (s : list Z) : res buf := if zlen s <? n then Ret (Buf n s) else Fail Undef.
Definition strcat (b : buf) (s : list Z) : res buf :=
  if zlen (str b) + zlen s <? room b then Ret (Buf (room b) (str b ++ s)) else Fail Undef.
Definition slash : Z := 47.

(** The loop of getDirName: the index after the last '/' that is not the last
    character; None while last_char has no value. *)
Fixpoint last_char (len i : Z) (s : list Z) (l : option Z) : option Z :=
  match s with
  | [] => l
  | c :: s => last_char len (i + 1) s (if (c =? slash) && negb (i =? len - 1) then Some (i + 1) else l)
  end.

Definition getDirName (src : list Z) : res (list Z) :=
  let last := last_char (zlen src) 0 src None in
  let size := s32 (zlen src - default 0 last + 1) in
  i ← deref last;
  name ← strcpy size (drop (Z.to_nat i) src);
  Ret (str name).

(** The copy of a directory name with a '/' at its end, in a buffer with
    [extra] bytes more than the name has. *)
Definition with_slash (extra : Z) (name : list Z) : res buf :=
  c ← deref (last name);
  if c =? slash then strcpy (s32 (zlen name + extra)) name
  else b ← strcpy (s32 (zlen name + extra + 1)) name; strcat b [slash].

(** The two paths of dealWithDirectory. *)
Definition dir_paths (source dest : list Z) : res (list Z * list Z) :=
  newDirForSrc ← with_slash 12 source;
  dirName ← getDirName (str newDirForSrc);
  b ← with_slash (zlen dirName + 1) dest;
  newDirForDest ← strcat b dirName;
  Ret (str newDirForSrc, str newDirForDest).

Section program.
Context {W : Type} {os : posix W}.

Definition call {A} (f : W -> A * W) : ST W A := fun w => Ret (f w).

Definition isFile (name : list Z) : ST W Z :=
  directory ← call (opendir name);
  match directory with
  | inr d => _ ← call (closedir d); mret 0
  | inl errno => mret (if errno =? ENOTDIR then 1 else -1)
  end.

(** The loop of copyOverFile; [false] when it returns from the function. *)
Fixpoint copy_loop (fuel : nat) (fd fd_write : Z) (b : list Z) : ST W bool :=
  match fuel with
  | O => lift_res (Fail Diverge)
  | S fuel =>
      r ← call (read fd 4096);
      let read_bytes := s32 r.1 in
      let b := r.2 ++ drop (length r.2) b in
      n ← call (write fd_write b (u64 read_bytes));
      let amount := s32 n in
      if negb (read_bytes =? amount) then mret false
      else if read_bytes =? 0 then mret true
      else copy_loop fuel fd fd_write b
  end.

Definition copyOverFile (fuel : nat) (source dest : list Z) : ST W unit :=
  fd ← call (open source O_RDONLY 0);
  fd_write ← call (open dest (Z.lor O_CREAT (Z.lor O_RDWR O_TRUNC)) mode_file);
  if fd <? 0 then mret tt
  else if fd_write <? 0 then mret tt
  else
    done ← copy_loop fuel fd fd_write [];
    if done : bool then
      _ ← call (close fd);
      _ ← call (close fd_write);
      mret tt
    else mret tt.

(** The loop over the entries; [rec] is the recursive call. *)
Fixpoint copy_entries (rec : list Z -> list Z -> ST W unit) (fuel : nat) (d : Z) (newDirForSrc newDirForDest : list Z) : ST W unit :=
  match fuel with
  | O => lift_res (Fail Diverge)
  | S fuel =>
      dir ← call (readdir d);
      match dir with
      | None => mret tt
      | Some filename =>
          newPath ← lift_res (strcpy (s32 (zlen filename + zlen newDirForSrc + 1)) newDirForSrc);
          newPath ← lift_res (strcat newPath filename);
          k ← isFile (str newPath);
          _ ← (if k =? 1 then
                 newPathDest ← lift_res (strcpy (s32 (zlen filename + zlen newDirForDest + 1)) newDirForDest);
                 newPathDest ← lift_res (strcat newPathDest filename);
                 copyOverFile fuel (str newPath) (str newPathDest)
               else
                 newPath ← lift_res (strcat newPath [slash]);
                 rec (str newPath) newDirForDest);
          copy_entries rec fuel d newDirForSrc newDirForDest
      end
  end.

(** What dealWithDirectory does when it has built its paths. *)
Definition copy_into (rec : list Z -> list Z -> ST W unit) (fuel : nat) (newDirForSrc newDirForDest : list Z) : ST W unit :=
  made ← call (mkdir newDirForDest mode_dir);
  if made =? -1 then mret tt
  else
    d ← call (opendir newDirForSrc);
    d_dest ← call (opendir newDirForDest);
    match d, d_dest with
    | inr d, inr d_dest =>
        _ ← copy_entries rec fuel d newDirForSrc newDirForDest;
        _ ← call (closedir d);
        _ ← call (closedir d_dest);
        mret tt
    | inr d, inl _ => _ ← call (closedir d); mret tt
    | inl _, inr d_dest => _ ← call (closedir d_dest); mret tt
    | inl _, inl _ => mret tt
    end.

Fixpoint dealWithDirectory (fuel : nat) (source dest : list Z) : ST W unit :=
  match fuel with
  | O => lift_res (Fail Diverge)
  | S fuel =>
      paths ← lift_res (dir_paths source dest);
      copy_into (dealWithDirectory fuel) fuel paths.1 paths.2
  end.

Definition cpr_main (fuel : nat) (argv : list (list Z)) : ST W unit :=
  match argv with
  | [_; source; dest] =>
      k ← isFile source;
      if negb (k =? 0) then copyOverFile fuel source dest else dealWithDirectory fuel source dest
  | _ => lift_res (Fail (Exit 1))
  end.

End program.

(** ** What the system documents of regular files

    [node] says which file a path names, [content] the bytes of a file, and
    [descr] the file of a descriptor and its offset.  [regular i]: [i] is a
    regular file or does not exist.  A call fails with -1 and changes nothing,
    or does what its laws say; a read or a write may be short. *)
Class posix_files (W I : Type) {os : posix W} `{EqDecision I} (node : list Z -> I) := PosixFiles {
  content : W -> I -> option (list Z);
  descr : W -> Z -> option (I * Z);
  regular : I -> Prop;
  same (w w' : W) : Prop := (forall i, content w' i = content w i) /\ (forall fd, descr w' fd = descr w fd);
  law_open p flags mode w fd w' : open p flags mode w = (fd, w') -> regular (node p) ->
    (fd < 0 /\ same w w') \/
    (descr w fd = None /\ (forall fd', descr w' fd' = if decide (fd' = fd) then Some (node p, 0) else descr w fd') /\
     forall i, content w' i = if decide (i = node p) then if Z.land flags O_TRUNC =? 0 then content w i else Some [] else content w i);
  law_read fd n w i off s r bs w' : read fd n w = ((r, bs), w') -> descr w fd = Some (i, off) -> content w i = Some s -> 0 <= off -> 0 < n ->
    (r = -1 /\ bs = [] /\ same w w') \/
    (r = zlen bs /\ r <= n /\ bs = take (length bs) (drop (Z.to_nat off) s) /\ (r = 0 -> zlen s <= off) /\
     (forall i, content w' i = content w i) /\
     forall fd', descr w' fd' = if decide (fd' = fd) then Some (i, off + r) else descr w fd');
  law_write fd b n w i off s r w' : write fd b n w = (r, w') -> descr w fd = Some (i, off) -> content w i = Some s -> off = zlen s ->
    0 <= n <= zlen b ->
    (r = -1 /\ same w w') \/
    (0 <= r <= n /\ (forall i', content w' i' = if decide (i' = i) then Some (s ++ take (Z.to_nat r) b) else content w i') /\
     forall fd', descr w' fd' = if decide (fd' = fd) then Some (i, off + r) else descr w fd');
  law_write_huge fd b n w r w' : write fd b n w = (r, w') -> 2 ^ 63 <= n -> r = -1 /\ same w w';
  law_close fd w i : content (close fd w).2 i = content w i
}.

Section files.
Context {W I : Type} {os : posix W} `{EqDecision I} {node : list Z -> I} {files : posix_files W I node}.

(** The copy has come to offset [off]: both descriptors are there, and the
    destination has the first [off] bytes of the source. *)
Record copied (w0 : W) (fd fdw : Z) (i j : I) (s : list Z) (off : Z) (w : W) : Prop := Copied {
  cp_fds : fd <> fdw;
  cp_src : descr w fd = Some (i, off);
  cp_dst : descr w fdw = Some (j, off);
  cp_off : 0 <= off <= zlen s;
  cp_content_src : content w i = Some s;
  cp_content_dst : content w j = Some (take (Z.to_nat off) s);
  cp_rest k : k <> j -> content w k = content w0 k
}.

(** The destination has a beginning of the source, and nothing else changed. *)
Definition prefix_copied (w0 : W) (j : I) (s : list Z) (w : W) : Prop :=
  (exists k, content w j = Some (take k s)) /\ forall i, i <> j -> content w i = content w0 i.

Lemma same_copied w0 fd fdw i j s off w w' : copied w0 fd fdw i j s off w -> same w w' -> copied w0 fd fdw i j s off w'.
Proof. intros [] [Hc Hd]. split; rewrite ?Hc, ?Hd; try done. intros k Hk. rewrite Hc. auto. Qed.

Lemma copied_prefix w0 fd fdw i j s off w : copied w0 fd fdw i j s off w -> prefix_copied w0 j s w.
Proof. intros []. split; [by eexists|done]. Qed.

(** One round: the read and the write that follows it. *)
Lemma copy_round w0 fd fdw i j s off w r bs w1 b n w2 :
  copied w0 fd fdw i j s off w ->
  read fd 4096 w = ((r, bs), w1) -> write fdw (bs ++ drop (length bs) b) (u64 (s32 r)) w1 = (n, w2) ->
  (r = -1 /\ n = -1 /\ copied w0 fd fdw i j s off w2) \/
  (0 <= r <= 4096 /\ (r = 0 -> off = zlen s) /\
   (n = r /\ copied w0 fd fdw i j s (off + r) w2 \/ in_s32 n /\ n <> r /\ prefix_copied w0 j s w2)).
Proof.
  intros [Hne Hs Hd Ho Hcs Hcd Hrest] Hread Hwrite.
  destruct (law_read _ _ _ _ _ _ _ _ _ Hread Hs Hcs ltac:(lia) ltac:(lia)) as [(-> & -> & Hsame)|(Hr & Hr' & Hbs & H0 & Hc1 & Hd1)].
  - left. apply law_write_huge in Hwrite as [-> Hsame']; [|vm_compute; discriminate].
    split_and!; [done..|]. eapply same_copied; [eapply same_copied|]; [..|exact Hsame|exact Hsame']; by split.
  - right. assert (0 <= r) by (unfold zlen in Hr; lia). split; [lia|]. split; [intros; lia|].
    rewrite s32_small in Hwrite by (unfold in_s32; lia). rewrite u64_small in Hwrite by (unfold in_u64; lia).
    assert (Hl : zlen (take (Z.to_nat off) s) = off) by (unfold zlen in *; rewrite length_take; lia).
    assert (Hlen : off + r <= zlen s).
    { pose proof (f_equal length Hbs) as E. rewrite length_take, length_drop in E. unfold zlen in *. lia. }
    destruct (law_write _ _ _ _ _ off _ _ _ Hwrite ltac:(rewrite Hd1, decide_False by done; exact Hd) ltac:(by rewrite Hc1) ltac:(done))
      as [(-> & Hc2 & Hd2)|(Hn & Hc2 & Hd2)]; [unfold zlen in *; rewrite length_app, length_drop; lia|..].
    + right. split_and!; [unfold in_s32; lia|lia|]. split; [|intros k Hk; rewrite Hc2, Hc1; auto].
      exists (Z.to_nat off). by rewrite Hc2, Hc1.
    + assert (Hj : content w2 j = Some (take (Z.to_nat (off + n)) s)).
      { rewrite Hc2, decide_True by done. f_equal. rewrite take_app_le by (unfold zlen in *; lia).
        rewrite Hbs, take_take, Z2Nat.inj_add, <- take_take_drop by lia. do 2 f_equal. unfold zlen in *. lia. }
      assert (Hk : forall k, k <> j -> content w2 k = content w0 k) by (intros k Hk; rewrite Hc2, decide_False, Hc1 by done; auto).
      destruct (decide (n = r)) as [Enr|Hnr]; [left; subst n|right].
      * split; [done|]. split; try done; [..|lia|].
        { by rewrite Hd2, decide_False, Hd1, decide_True. }
        { by rewrite Hd2, decide_True. }
        { rewrite Hc2. case_decide as Eij; [|by rewrite Hc1]. subst i. f_equal.
          rewrite Hcs in Hcd. injection Hcd as Hcd. rewrite <- Hcd in Hl |- *.
          assert (E0 : r = 0) by lia. by rewrite E0, take_0, app_nil_r. }
      * split_and!; [unfold in_s32; lia|done|]. split; [by eexists|done].
Qed.

Lemma copy_loop_prefix fuel w0 fd fdw i j s off w b ok w' :
  copied w0 fd fdw i j s off w -> copy_loop fuel fd fdw b w = Ret (ok, w') ->
  prefix_copied w0 j s w' /\ (ok = true -> content w' j = Some s).
Proof.
  revert off w b. induction fuel as [|fuel IH]; intros off w b Hc; [done|]. cbn [copy_loop]. unfold mbind at 1, st_bind at 1, call at 1.
  destruct (read fd 4096 w) as [[r bs] w1] eqn:Hread. cbn [fst snd]. unfold mbind at 1, st_bind at 1, call at 1.
  destruct (write fdw _ _ w1) as [n w2] eqn:Hwrite.
  destruct (copy_round _ _ _ _ _ _ _ _ _ _ _ _ _ _ Hc Hread Hwrite) as [(-> & -> & Hc')|(Hr & H0 & [[-> Hc']|(Hn & Hne & Hp)])].
  - intros H. eapply IH; [exact Hc'|exact H].
  - rewrite s32_small, Z.eqb_refl by (unfold in_s32; lia). cbn [negb]. destruct (Z.eqb_spec r 0) as [->|].
    + intros [= <- <-]. split; [by eapply copied_prefix|]. intros _. rewrite (cp_content_dst _ _ _ _ _ _ _ _ Hc'), H0 by done.
      f_equal. apply take_ge. unfold zlen. lia.
    + intros H. eapply IH; [exact Hc'|exact H].
  - rewrite !s32_small, (proj2 (Z.eqb_neq _ _)) by (unfold in_s32 in *; lia). intros [= <- <-]. by split.
Qed.

(** No read fails, and every write writes all it is given. *)
Definition no_failure : Prop :=
  (forall fd n w, 0 <= (read fd n w).1.1) /\ (forall fd b n w, 0 <= n <= zlen b -> n <= 4096 -> (write fd b n w).1 = n).

Lemma copy_loop_total fuel w0 fd fdw i j s off w b :
  no_failure -> copied w0 fd fdw i j s off w -> zlen s - off < Z.of_nat fuel -> exists w', copy_loop fuel fd fdw b w = Ret (true, w').
Proof.
  intros [Hread' Hwrite']. revert off w b. induction fuel as [|fuel IH]; intros off w b Hc Hf; [pose proof (cp_off _ _ _ _ _ _ _ _ Hc); lia|].
  cbn [copy_loop]. unfold mbind at 1, st_bind at 1, call at 1.
  destruct (read fd 4096 w) as [[r bs] w1] eqn:Hread. cbn [fst snd]. unfold mbind at 1, st_bind at 1, call at 1.
  destruct (write fdw _ _ w1) as [n w2] eqn:Hwrite. specialize (Hread' fd 4096 w). rewrite Hread in Hread'. cbn in Hread'.
  destruct (copy_round _ _ _ _ _ _ _ _ _ _ _ _ _ _ Hc Hread Hwrite) as [(-> & _)|(Hr & H0 & [[-> Hc']|(Hn & Hne & _)])]; [lia|..].
  - rewrite s32_small, Z.eqb_refl by (unfold in_s32; lia). cbn [negb]. destruct (Z.eqb_spec r 0) as [->|]; [by eexists|].
    apply (IH (off + r)); [done|lia].
  - exfalso. apply Hne. rewrite <- (Hwrite' fdw (bs ++ drop (length bs) b) r w1).
    + rewrite s32_small, u64_small in Hwrite by (unfold in_s32, in_u64; lia). by rewrite Hwrite.
    + destruct Hc as [? Hs ? ? Hcs ? ?]. destruct (law_read _ _ _ _ _ _ _ _ _ Hread Hs Hcs ltac:(lia) ltac:(lia)) as [(-> & _)|(Hz & _)]; [lia|].
      unfold zlen in *. rewrite length_app. lia.
    + lia.
Qed.

(** The two calls of open that begin the copy. *)
Lemma open_both source dest w s fd w1 fdw w2 :
  content w (node source) = Some s -> regular (node source) -> regular (node dest) ->
  open source O_RDONLY 0 w = (fd, w1) -> open dest (Z.lor O_CREAT (Z.lor O_RDWR O_TRUNC)) mode_file w1 = (fdw, w2) ->
  (forall i, i <> node dest -> content w2 i = content w i) /\
  (content w2 (node dest) = content w (node dest) /\ fdw < 0 \/ content w2 (node dest) = Some []) /\
  (0 <= fd -> 0 <= fdw ->
   copied w2 fd fdw (node source) (node dest) (if decide (node source = node dest) then [] else s) 0 w2).
Proof.
  intros Hs Rs Rd Ho1 Ho2.
  assert (H1 : (forall i, content w1 i = content w i) /\ (0 <= fd -> descr w1 fd = Some (node source, 0))).
  { destruct (law_open _ _ _ _ _ _ Ho1 Rs) as [(? & Hsame)|(_ & Hd & Hc)]; [split; [apply Hsame|lia]|]. split.
    - intros i. rewrite Hc. by case_decide.
    - intros _. by rewrite Hd, decide_True. }
  destruct H1 as [H1c H1d]. destruct (law_open _ _ _ _ _ _ Ho2 Rd) as [(? & Hc & Hd)|(Hfree & Hd & Hc)].
  - split_and!; [intros i _; by rewrite Hc, H1c|left; by rewrite Hc, H1c|lia].
  - assert (Hj : content w2 (node dest) = Some []) by (by rewrite Hc, decide_True).
    assert (Hi : forall i, i <> node dest -> content w2 i = content w i) by (intros i Hi; by rewrite Hc, decide_False).
    split_and!; [done|by right|]. intros Hfd _. specialize (H1d Hfd).
    assert (Hne : fd <> fdw) by (intros ->; congruence). split; try done.
    + by rewrite Hd, decide_False.
    + by rewrite Hd, decide_True.
    + unfold zlen. lia.
    + case_decide as E; [by rewrite E|]. rewrite Hi by done. done.
Qed.

(** C25: The copy of a file.  When no call fails, copyOverFile returns, with
    more rounds than the file has bytes, and the destination has the bytes of
    the source, or nothing when the two paths name the same file.  Whatever
    fails, when it returns the destination is as it was or has a beginning of
    the source, and every other file is as it was. *)
Theorem copyOverFile_spec fuel source dest w s :
  content w (node source) = Some s -> regular (node source) -> regular (node dest) ->
  let copy := if decide (node source = node dest) then [] else s in
  (forall w', copyOverFile fuel source dest w = Ret (tt, w') ->
     (content w' (node dest) = content w (node dest) \/ exists k, content w' (node dest) = Some (take k copy)) /\
     forall i, i <> node dest -> content w' i = content w i) /\
  (no_failure -> 0 <= (open source O_RDONLY 0 w).1 ->
   0 <= (open dest (Z.lor O_CREAT (Z.lor O_RDWR O_TRUNC)) mode_file (open source O_RDONLY 0 w).2).1 -> zlen s < Z.of_nat fuel ->
   exists w', copyOverFile fuel source dest w = Ret (tt, w') /\ content w' (node dest) = Some copy).
Proof.
  intros Hs Rs Rd. destruct (open source O_RDONLY 0 w) as [fd w1] eqn:Ho1. cbn [fst snd].
  destruct (open dest _ _ w1) as [fdw w2] eqn:Ho2. cbn [fst]. cbv zeta.
  destruct (open_both _ _ _ _ _ _ _ _ Hs Rs Rd Ho1 Ho2) as (Hrest & Hdest & Hcp).
  set (t := if decide (node source = node dest) then [] else s) in *.
  assert (Ht : zlen t <= zlen s) by (unfold t, zlen; case_decide; cbn; lia).
  assert (Hclose : forall w3 i, content (close fdw (close fd w3).2).2 i = content w3 i) by (intros; by rewrite !law_close).
  assert (E : copyOverFile fuel source dest w =
    (if fd <? 0 then Ret (tt, w2) else if fdw <? 0 then Ret (tt, w2) else
     match copy_loop fuel fd fdw [] w2 with
     | Ret (true, w3) => Ret (tt, (close fdw (close fd w3).2).2) | Ret (false, w3) => Ret (tt, w3) | Fail e => Fail e end)).
  { unfold copyOverFile, mbind, st_bind, call. rewrite Ho1, Ho2. destruct (fd <? 0); [by rewrite run_ret1|]. destruct (fdw <? 0); [by rewrite run_ret1|].
    destruct (copy_loop _ _ _ _ _) as [[[] w3]|e]; [|by rewrite run_ret1|done].
    destruct (close fd w3) as [? w4]; cbn [snd]. destruct (close fdw w4). by rewrite run_ret1. }
  rewrite E. split.
  - assert (Hearly : (content w2 (node dest) = content w (node dest) \/ exists k, content w2 (node dest) = Some (take k t)) /\
      forall i, i <> node dest -> content w2 i = content w i).
    { split; [|done]. destruct Hdest as [[-> _]| ->]; [by left|right; by exists O]. }
    intros w'. destruct (Z.ltb_spec fd 0); [by intros [= <-]|]. destruct (Z.ltb_spec fdw 0); [by intros [= <-]|].
    destruct (copy_loop _ _ _ _ _) as [[ok w3]|] eqn:Hl; [|done].
    destruct (copy_loop_prefix _ _ _ _ _ _ _ _ _ _ _ _ (Hcp ltac:(done) ltac:(done)) Hl) as [[[k Hk] Hi] _].
    destruct ok; intros [= <-]; (split; [right; exists k; by rewrite ?Hclose|intros i Hne; rewrite ?Hclose, Hi; auto]).
  - intros Hno Hfd Hfdw Hf. rewrite !(proj2 (Z.ltb_ge _ _)) by done. specialize (Hcp Hfd Hfdw).
    destruct (copy_loop_total fuel _ _ _ _ _ _ _ _ [] Hno Hcp ltac:(lia)) as [w3 Hl]. rewrite Hl.
    eexists. split; [done|]. rewrite Hclose. by apply (copy_loop_prefix _ _ _ _ _ _ _ _ _ _ _ _ Hcp Hl).
Qed.

(** The destination is emptied before the source is known to be readable. *)
Lemma unreadable_source_truncates fuel source dest w s :
  content w (node source) = Some s -> regular (node source) -> regular (node dest) -> (open source O_RDONLY 0 w).1 < 0 ->
  0 <= (open dest (Z.lor O_CREAT (Z.lor O_RDWR O_TRUNC)) mode_file (open source O_RDONLY 0 w).2).1 ->
  exists w', copyOverFile fuel source dest w = Ret (tt, w') /\ content w' (node dest) = Some [].
Proof.
  intros Hs Rs Rd. destruct (open source O_RDONLY 0 w) as [fd w1] eqn:Ho1. cbn [fst snd].
  destruct (open dest _ _ w1) as [fdw w2] eqn:Ho2. cbn [fst]. intros Hfd Hfdw.
  destruct (open_both _ _ _ _ _ _ _ _ Hs Rs Rd Ho1 Ho2) as (_ & [[_ ?]|Hdest] & _); [lia|].
  exists w2. split; [|done]. unfold copyOverFile, mbind, st_bind, call. rewrite Ho1, Ho2. by rewrite (proj2 (Z.ltb_lt _ _)).
Qed.
End files.

(** A read that fails every time is repeated for ever: the -1 that write
    answers to the size -1 is the number of bytes "read". *)
Lemma read_error_spins {W} {os : posix W} fuel fd fdw b w :
  (forall v, (read fd 4096 v).1 = (-1, [])) -> (forall b n v, 2 ^ 63 <= n -> (write fdw b n v).1 = -1) ->
  copy_loop fuel fd fdw b w = Fail Diverge.
Proof.
  intros Hr Hw. revert b w. induction fuel as [|fuel IH]; intros b w; [done|]. cbn [copy_loop].
  unfold mbind, st_bind, call. specialize (Hr w). destruct (read fd 4096 w) as [r w1]. cbn in Hr. subst r. cbn [fst snd].
  specialize (Hw ([] ++ drop (length (@nil Z)) b) (u64 (s32 (-1))) w1). destruct (write fdw _ _ w1) as [n w2]. cbn [fst] in Hw.
  rewrite Hw by (vm_compute; discriminate). apply IH.
Qed.

(** ** Paths *)

Lemma last_char_app len i s t l : last_char len i (s ++ t) l = last_char len (i + zlen s) t (last_char len i s l).
Proof.
  revert i l. induction s as [|c s IH]; intros i l; cbn [last_char app]; [f_equal; unfold zlen; cbn; lia|].
  rewrite IH. f_equal. unfold zlen. cbn [length]. lia.
Qed.
Lemma last_char_none len i s l : slash ∉ s -> last_char len i s l = l.
Proof.
  revert i. induction s as [|c s IH]; intros i; [done|]. intros [Hc Hs]%not_elem_of_cons. cbn [last_char].
  rewrite (proj2 (Z.eqb_neq c slash)) by done. by apply IH.
Qed.

(** getDirName gives the last component with its '/', and copies from a
    pointer without a value if there is none before it. *)
Lemma getDirName_last p name : slash ∉ name -> zlen (p ++ slash :: name ++ [slash]) < 2 ^ 31 - 1 ->
  getDirName (p ++ slash :: name ++ [slash]) = Ret (name ++ [slash]).
Proof.
  intros Hn Hl. unfold getDirName. set (src := p ++ slash :: name ++ [slash]) in *.
  assert (E : last_char (zlen src) 0 src None = Some (zlen p + 1)).
  { unfold src at 2. rewrite last_char_app. cbn [last_char]. rewrite Z.eqb_refl, (proj2 (Z.eqb_neq (0 + zlen p) _)).
    - cbn [negb andb]. rewrite last_char_app, (last_char_none _ _ name) by done. cbn [last_char]. rewrite (proj2 (Z.eqb_eq _ (zlen src - 1))); [done|].
      unfold src. rewrite !zlen_app, zlen_cons, zlen_app. change (zlen [slash]) with 1. lia.
    - unfold src. rewrite !zlen_app, zlen_cons, zlen_app. change (zlen [slash]) with 1. pose proof (zlen_nonneg name). lia. }
  rewrite E. cbn [default deref]. rewrite bind_ret.
  assert (Hd : drop (Z.to_nat (zlen p + 1)) src = name ++ [slash]).
  { unfold src. rewrite cons_middle, app_assoc. apply drop_app_length'. rewrite length_app. unfold zlen. cbn. lia. }
  rewrite Hd. unfold src in *. rewrite !zlen_app, zlen_cons, zlen_app in Hl. rewrite !zlen_app, zlen_cons, zlen_app.
  change (zlen [slash]) with 1 in *. pose proof (zlen_nonneg p). pose proof (zlen_nonneg name).
  cbn [id]. rewrite s32_small by (unfold in_s32; lia). unfold strcpy. rewrite zlen_app. change (zlen [slash]) with 1.
  rewrite (proj2 (Z.ltb_lt _ _)) by lia. done.
Qed.
Lemma getDirName_relative name : slash ∉ name -> getDirName (name ++ [slash]) = Fail Undef.
Proof.
  intros Hn. unfold getDirName. rewrite last_char_app, (last_char_none _ _ name) by done. cbn [last_char].
  rewrite zlen_app. change (zlen [slash]) with 1. rewrite (proj2 (Z.eqb_eq (0 + zlen name) _)) by lia. by rewrite andb_false_r.
Qed.

Definition slashed (name : list Z) : list Z := if bool_decide (last name = Some slash) then name else name ++ [slash].

Lemma with_slash_run extra name : name <> [] -> 1 <= extra -> zlen name + extra + 1 < 2 ^ 31 ->
  exists n, with_slash extra name = Ret (Buf n (slashed name)) /\ n = zlen (slashed name) + extra.
Proof.
  intros Hne He Hl. pose proof (zlen_nonneg name). unfold with_slash, slashed.
  destruct (last name) as [c|] eqn:E; [|by apply last_None in E]. cbn [deref]. rewrite bind_ret.
  destruct (Z.eqb_spec c slash) as [->|Hc].
  - rewrite bool_decide_true by done. rewrite s32_small by (unfold in_s32; lia). unfold strcpy. rewrite (proj2 (Z.ltb_lt _ _)) by lia. eauto.
  - rewrite bool_decide_false by congruence. rewrite s32_small by (unfold in_s32; lia). unfold strcpy.
    rewrite (proj2 (Z.ltb_lt _ _)) by lia. rewrite bind_ret. unfold strcat. cbn [str room]. change (zlen [slash]) with 1.
    rewrite (proj2 (Z.ltb_lt _ _)) by lia. rewrite zlen_app. change (zlen [slash]) with 1. eexists. split; [done|lia].
Qed.

(** The paths of a directory [name], given with or without the '/' at its end. *)
Lemma dir_paths_run source dest p name :
  slash ∉ name -> name <> [] -> dest <> [] -> source = p ++ slash :: name \/ source = p ++ slash :: name ++ [slash] ->
  zlen source + zlen dest < 2 ^ 30 ->
  dir_paths source dest = Ret (p ++ slash :: name ++ [slash], slashed dest ++ name ++ [slash]).
Proof.
  intros Hs Hn Hd Hsrc Hl.
  assert (Esrc : slashed source = p ++ slash :: name ++ [slash]).
  { destruct Hsrc as [->| ->]; unfold slashed.
    - rewrite bool_decide_false; [by rewrite <- app_assoc|].
      destruct (exists_last Hn) as (name' & c & ->). rewrite app_comm_cons, app_assoc, last_snoc. intros [= ->]. apply Hs. set_solver.
    - rewrite bool_decide_true; [done|]. by rewrite app_comm_cons, app_assoc, last_snoc. }
  assert (Hlen : zlen (slashed source) <= zlen source + 1 /\ zlen name <= zlen source /\ source <> []).
  { rewrite Esrc. destruct Hsrc as [->| ->]; rewrite !zlen_app, !zlen_cons, ?zlen_app; change (zlen [slash]) with 1;
      pose proof (zlen_nonneg p); (split_and!; [lia|lia|by destruct p]). }
  destruct Hlen as (H1 & H2 & H3). pose proof (zlen_nonneg source). pose proof (zlen_nonneg dest). pose proof (zlen_nonneg name).
  unfold dir_paths. destruct (with_slash_run 12 source H3 ltac:(lia) ltac:(lia)) as (n1 & -> & _). rewrite bind_ret. cbn [str].
  rewrite Esrc in *. rewrite getDirName_last by (done || lia). rewrite bind_ret.
  assert (Hdn : zlen (name ++ [slash]) = zlen name + 1) by (rewrite zlen_app; done).
  destruct (with_slash_run (zlen (name ++ [slash]) + 1) dest Hd ltac:(lia) ltac:(lia)) as (n2 & -> & En2).
  rewrite bind_ret. unfold strcat. cbn [str room]. rewrite (proj2 (Z.ltb_lt _ _)) by lia. done.
Qed.

Lemma s32_le z : 0 <= z -> s32 z <= z.
Proof. intros H. unfold s32. pose proof (Z.mod_le (z + 2 ^ 31) (2 ^ 32)). lia. Qed.

(** The '/' does not fit behind the path of an entry. *)
Lemma newPath_full n src filename b b' :
  n = s32 (zlen filename + zlen src + 1) -> strcpy n src = Ret b -> strcat b filename = Ret b' -> strcat b' [slash] = Fail Undef.
Proof.
  intros Hn. unfold strcpy. case_match; [|done]. intros [= <-]. unfold strcat at 1. cbn [room str]. case_match; [|done].
  intros [= <-]. unfold strcat. cbn [room str]. rewrite zlen_app. change (zlen [slash]) with 1.
  pose proof (s32_le (zlen filename + zlen src + 1)). pose proof (zlen_nonneg filename). pose proof (zlen_nonneg src).
  by rewrite (proj2 (Z.ltb_ge _ _)) by lia.
Qed.

Section recursion.
Context {W : Type} {os : posix W}.

(** The recursive call, when it is never reached *)
Definition unreached (source dest : list Z) : ST W unit := lift_res (Fail Undef).

Lemma copy_entries_flat rec fuel d src dst w : copy_entries rec fuel d src dst w = copy_entries unreached fuel d src dst w.
Proof.
  revert w. induction fuel as [|fuel IH]; intros w; [done|]. cbn [copy_entries]. apply bind_ext. intros [filename|] w1; [|done].
  unfold mbind, st_bind, lift_res. destruct (strcpy _ src) as [b|] eqn:E1; [|done]. destruct (strcat b filename) as [b'|] eqn:E2; [|done].
  destruct (isFile _ _) as [[k w2]|]; [|done]. destruct (k =? 1).
  - destruct (strcpy _ dst) as [c|]; [|done]. destruct (strcat c _) as [c'|]; [|done].
    destruct (copyOverFile _ _ _ w2) as [[? w3]|]; [apply IH|done].
  - by rewrite (newPath_full _ _ _ _ _ eq_refl E1 E2).
Qed.

(** The first entry that is not a regular file *)
Lemma copy_entries_overflow rec fuel d src dst w filename w1 k w2 :
  readdir d w = (Some filename, w1) -> isFile (src ++ filename) w1 = Ret (k, w2) -> k <> 1 ->
  copy_entries rec (S fuel) d src dst w = Fail Undef.
Proof.
  intros Hr Hk Hk1. cbn [copy_entries]. unfold mbind, st_bind, call, lift_res. rewrite Hr.
  destruct (strcpy _ src) as [b|e] eqn:E1; [|unfold strcpy in E1; case_match; by simplify_eq].
  destruct (strcat b filename) as [b'|e] eqn:E2; [|unfold strcat in E2; case_match; by simplify_eq].
  assert (Eb : str b' = src ++ filename).
  { unfold strcpy, strcat in *. repeat (case_match; [|done]). by simplify_eq/=. }
  rewrite Eb, Hk, (proj2 (Z.eqb_neq k 1)) by done. by rewrite (newPath_full _ _ _ _ _ eq_refl E1 E2).
Qed.

(** C35: dealWithDirectory on a directory [name], given with or without a '/'
    at its end: the directory it makes is [name] inside the destination, and
    the rest of the run is that of the loop over the entries, whatever the
    system answers.  In it the recursive call is never reached: at the first
    entry that is not a regular file (every directory has ".") the program
    writes one byte past the buffer of the path. *)
Theorem dealWithDirectory_spec fuel source dest p name w :
  slash ∉ name -> name <> [] -> dest <> [] -> source = p ++ slash :: name \/ source = p ++ slash :: name ++ [slash] ->
  zlen source + zlen dest < 2 ^ 30 ->
  let newDirForSrc := p ++ slash :: name ++ [slash] in
  let newDirForDest := slashed dest ++ name ++ [slash] in
  dealWithDirectory (S fuel) source dest w = copy_into unreached fuel newDirForSrc newDirForDest w /\
  forall w1 d w2 d' w3 filename w4 k w5 fuel',
    fuel = S fuel' -> mkdir newDirForDest mode_dir w = (0, w1) -> opendir newDirForSrc w1 = (inr d, w2) ->
    opendir newDirForDest w2 = (inr d', w3) -> readdir d w3 = (Some filename, w4) ->
    isFile (newDirForSrc ++ filename) w4 = Ret (k, w5) -> k <> 1 -> dealWithDirectory (S fuel) source dest w = Fail Undef.
Proof.
  intros Hs Hn Hd Hsrc Hl src dst.
  assert (E : dealWithDirectory (S fuel) source dest w = copy_into unreached fuel src dst w).
  { cbn [dealWithDirectory]. unfold mbind at 1, st_bind at 1, lift_res. rewrite (dir_paths_run _ _ p name) by done. cbn [fst snd].
    unfold copy_into. apply bind_ext. intros made w1. case_match; [done|]. apply bind_ext. intros o1 w2. apply bind_ext. intros o2 w3.
    destruct o1, o2; try done. unfold mbind at 1 3, st_bind at 1 3. by rewrite copy_entries_flat. }
  split; [exact E|]. rewrite E. intros w1 d w2 d' w3 filename w4 k w5 fuel' -> Hm Ho1 Ho2 Hr Hk Hk1.
  unfold copy_into, mbind, st_bind, call. rewrite Hm. cbn [Z.eqb]. rewrite Ho1, Ho2.
  fold (call (W := W) (A := Z)). by rewrite (copy_entries_overflow _ _ _ _ _ _ _ _ _ _ Hr Hk Hk1).
Qed.

(** A source without a '/' before its name *)
Lemma relative_source_undefined fuel name dest w : slash ∉ name -> name <> [] -> zlen name < 2 ^ 30 ->
  dealWithDirectory (S fuel) name dest w = Fail Undef /\ dealWithDirectory (S fuel) (name ++ [slash]) dest w = Fail Undef.
Proof.
  intros Hs Hn Hl.
  assert (H : forall source, slashed source = name ++ [slash] -> source <> [] -> zlen source <= zlen name + 1 ->
    dealWithDirectory (S fuel) source dest w = Fail Undef).
  { intros source Es Hne Hls. cbn [dealWithDirectory]. unfold mbind at 1, st_bind at 1, lift_res, dir_paths.
    destruct (with_slash_run 12 source Hne ltac:(lia) ltac:(lia)) as (n & -> & _). rewrite bind_ret. cbn [str].
    by rewrite Es, getDirName_relative. }
  split; apply H; unfold slashed.
  - destruct (exists_last Hn) as (l & c & ->). rewrite bool_decide_false; [done|]. rewrite last_snoc. intros [= ->]. set_solver.
  - done.
  - lia.
  - by rewrite bool_decide_true by (by rewrite last_snoc).
  - by destruct name.
  - rewrite zlen_app. done.
Qed.

End recursion.

(** ** A system in memory

    Files and directories by their paths; a system on which the hypotheses of
    the theorems hold. *)
Module Mem.
Record world := World {
  files : gmap (list Z) (list Z);
  dirs : gmap (list Z) (list (list Z));
  fds : gmap Z (list Z * Z);
  streams : gmap Z (list (list Z))
}.

Definition next {A} (m : gmap Z A) : Z := map_fold (fun k _ n => Z.max (k + 1) n) 3 m.
Lemma next_fresh {A} (m : gmap Z A) : m !! next m = None.
Proof.
  assert (H : forall k x, m !! k = Some x -> k < next m).
  { unfold next. apply (map_fold_weak_ind (fun n m => forall k (x : A), m !! k = Some x -> k < n)); [intros k x; by rewrite lookup_empty|].
    intros i x m' n Hi IH k y [[-> _]|[_ Hk%IH]]%lookup_insert_Some; lia. }
  destruct (m !! next m) as [x|] eqn:E; [|done]. apply H in E. lia.
Qed.
Lemma next_pos {A} (m : gmap Z A) : 0 <= next m.
Proof. unfold next. apply (map_fold_weak_ind (fun n _ => 0 <= n)); lia. Qed.

Definition opendir (p : list Z) (w : world) : (Z + Z) * world :=
  match dirs w !! p with
  | Some names => let d := next (streams w) in (inr d, World (files w) (dirs w) (fds w) (<[d := names]> (streams w)))
  | None => (inl (match files w !! p with Some _ => ENOTDIR | None => 2 end), w)
  end.
Definition readdir (d : Z) (w : world) : option (list Z) * world :=
  match streams w !! d with
  | Some (name :: names) => (Some name, World (files w) (dirs w) (fds w) (<[d := names]> (streams w)))
  | _ => (None, w)
  end.
Definition closedir (d : Z) (w : world) : Z * world := (0, World (files w) (dirs w) (fds w) (delete d (streams w))).
Definition mkdir (p : list Z) (mode : Z) (w : world) : Z * world :=
  match dirs w !! p with Some _ => (-1, w) | None => (0, World (files w) (<[p := [[46]; [46; 46]]]> (dirs w)) (fds w) (streams w)) end.
Definition open (p : list Z) (flags mode : Z) (w : world) : Z * world :=
  let fd := next (fds w) in
  let opened fs := (fd, World fs (dirs w) (<[fd := (p, 0)]> (fds w)) (streams w)) in
  match files w !! p with
  | Some s => opened (if Z.land flags O_TRUNC =? 0 then files w else <[p := []]> (files w))
  | None => if Z.land flags O_TRUNC =? 0 then (-1, w) else opened (<[p := []]> (files w))
  end.
Definition read (fd n : Z) (w : world) : (Z * list Z) * world :=
  match fds w !! fd with
  | Some (p, off) =>
      let bs := take (Z.to_nat n) (drop (Z.to_nat off) (default [] (files w !! p))) in
      ((zlen bs, bs), World (files w) (dirs w) (<[fd := (p, off + zlen bs)]> (fds w)) (streams w))
  | None => ((0, []), w)
  end.
Definition write (fd : Z) (b : list Z) (n : Z) (w : world) : Z * world :=
  if 2 ^ 63 <=? n then (-1, w)
  else match fds w !! fd with
  | Some (p, off) =>
      (n, World (<[p := take (Z.to_nat off) (default [] (files w !! p)) ++ take (Z.to_nat n) b]> (files w)) (dirs w)
            (<[fd := (p, off + n)]> (fds w)) (streams w))
  | None => (n, w)
  end.
Definition close (fd : Z) (w : world) : Z * world := (0, World (files w) (dirs w) (delete fd (fds w)) (streams w)).

#[global] Instance mem_posix : posix world := Posix world opendir readdir closedir mkdir open read write close.

Lemma lookup_insert_if {K A} `{Countable K} (m : gmap K A) k x k' : <[k := x]> m !! k' = if decide (k' = k) then Some x else m !! k'.
Proof. case_decide; subst; [by rewrite lookup_insert_eq|by rewrite lookup_insert_ne]. Qed.

#[global] Instance mem_files : posix_files world (list Z) id.
Proof.
  refine (PosixFiles world (list Z) _ _ id (fun w p => files w !! p) (fun w fd => fds w !! fd) (fun _ => True) _ _ _ _ _).
  - intros p flags mode w fd w' H _. cbn in H. unfold open in H. cbn [id].
    destruct (files w !! p) as [s|] eqn:Ef; [|destruct (_ =? 0) eqn:Et; [injection H as <- <-; left; by split; [|split]|]];
      injection H as <- <-; right; (split; [apply next_fresh|]); (split; [intros; apply lookup_insert_if|]); intros i; cbn.
    + case_decide as E; destruct (_ =? 0); subst; rewrite ?lookup_insert_eq, ?lookup_insert_ne by done; done.
    + case_decide as E; subst; rewrite ?lookup_insert_eq, ?lookup_insert_ne by done; done.
  - intros fd n w i off s r bs w' H Hd Hc Hoff Hn. cbn in H. unfold read in H. rewrite Hd, Hc in H. cbn [default] in H. injection H as <- <- <-.
    right. assert (Hl : zlen (take (Z.to_nat n) (drop (Z.to_nat off) s)) = Z.min n (Z.max 0 (zlen s - Z.max 0 off))).
    { unfold zlen. rewrite length_take, length_drop. lia. }
    cbn [id]. rewrite Hl. split_and!; [done|lia| |lia|done|].
    + rewrite length_take. by rewrite <- take_take, firstn_all.
    + intros. cbn. apply lookup_insert_if.
  - intros fd b n w i off s r w' H Hd Hc -> Hn. cbn in H. unfold write in H. rewrite Hd, Hc in H.
    destruct (Z.leb_spec (2 ^ 63) n); injection H as <- <-; [left; by split; [|split]|]. right. cbn [default id].
    split; [lia|]. split; intros; cbn; rewrite lookup_insert_if; [|done]. unfold zlen. by rewrite Nat2Z.id, firstn_all.
  - intros fd b n w r w' H Hn. cbn in H. unfold write in H. rewrite (proj2 (Z.leb_le _ _)) in H by done. injection H as <- <-. by split; [|split].
  - done.
Defined.

Lemma mem_no_failure : no_failure (W := world).
Proof.
  split.
  - intros fd n w. cbn. unfold read. destruct (fds w !! fd) as [[p off]|]; cbn; [apply zlen_nonneg|lia].
  - intros fd b n w Hn Hn'. cbn. unfold write. rewrite (proj2 (Z.leb_gt _ _)) by lia. by destruct (fds w !! fd) as [[p off]|].
Qed.
End Mem.

(** A file /a, and a directory /s with the entries of an empty directory. *)
Definition demo : Mem.world :=
  Mem.World (<[chars "/a" := chars "hello"]> ∅) (<[chars "/s/" := [chars "."; chars ".."]]> (<[chars "/s/." := []]> ∅)) ∅ ∅.

Lemma copyOverFile_spec_witness :
  (exists w', copyOverFile 10 (chars "/a") (chars "/b") demo = Ret (tt, w') /\ Mem.files w' !! chars "/b" = Some (chars "hello")) /\
  (exists w', copyOverFile 10 (chars "/a") (chars "/a") demo = Ret (tt, w') /\ Mem.files w' !! chars "/a" = Some []).
Proof.
  split.
  - destruct (copyOverFile_spec (node := id) 10 (chars "/a") (chars "/b") demo (chars "hello")) as [_ H]; [vm_compute; reflexivity|exact I|exact I|].
    destruct H as (w' & H1 & H2); [apply Mem.mem_no_failure|vm_compute; discriminate|vm_compute; discriminate|vm_compute; reflexivity|].
    exists w'. split; [exact H1|exact H2].
  - destruct (copyOverFile_spec (node := id) 10 (chars "/a") (chars "/a") demo (chars "hello")) as [_ H]; [vm_compute; reflexivity|exact I|exact I|].
    destruct H as (w' & H1 & H2); [apply Mem.mem_no_failure|vm_compute; discriminate|vm_compute; discriminate|vm_compute; reflexivity|].
    exists w'. split; [exact H1|exact H2].
Defined.

(** The copy of an empty directory /s into /d: "." is its first entry. *)
Lemma dealWithDirectory_spec_witness :
  dealWithDirectory 2 (chars "/s") (chars "/d") demo = Fail Undef /\
  cpr_main 2 [chars "cpr"; chars "/s/"; chars "/d"] (Mem.World (Mem.files demo) (<[chars "/s/" := [chars "."]]> (Mem.dirs demo)) ∅ ∅) = Fail Undef.
Proof.
  split; [|vm_compute; reflexivity].
  assert (Hn : slash ∉ chars "s") by (vm_compute; intros H; repeat (apply list_elem_of_In in H; destruct H as [H|H]; [discriminate|]); destruct H).
  destruct (dealWithDirectory_spec 1 (chars "/s") (chars "/d") [] (chars "s") demo Hn ltac:(discriminate) ltac:(discriminate) ltac:(left; reflexivity) ltac:(vm_compute; reflexivity)) as [_ H].
  eapply H with (fuel' := O); [reflexivity|vm_compute; reflexivity..|vm_compute; discriminate].
Defined.
