(* ===== verification/WebCacheSpec.v ===== *)
(** * The cache keeps its invariant and evicts the least recently used files *)
From S2P Require Import Prelude Bytes StateMonad WebCache.

Implicit Types (s : web) (c : cache) (p q : loc) (l : list loc).

Definition name_at (m : gmap loc file_data) p : list Z := default [] (m !! p ≫= file_name).
Definition size_at (m : gmap loc file_data) p : Z := from_option file_size 0 (m !! p).
Definition total (m : gmap loc file_data) l : Z := foldr (fun p n => size_at m p + n) 0 l.
Definition named (m : gmap loc file_data) (name : list Z) p : bool := bool_decide (name_at m p = name).

(** A file with its name. *)
Definition alive (m : gmap loc file_data) p : Prop :=
  exists d n, m !! p = Some d /\ file_name d = Some n /\ 0 <= file_size d.

Definition index (c : cache) (name : list Z) : Z :=
  let hash := Z.rem (hash_value name) (array_size c) in if hash <? 0 then hash + array_size c else hash.

Record cache_ok s c : Prop := CacheOk {
  co_cache : fileCache s = Some c;
  co_array : array_size c = zlen (mapping c) /\ 0 < array_size c;
  co_max : 0 <= MAX_SIZE c < 2 ^ 30;
  co_perm : concat (mapping c) ≡ₚ LRU_Policy s;
  co_alive p : p ∈ LRU_Policy s -> alive (files s) p;
  co_names : NoDup (name_at (files s) <$> LRU_Policy s);
  co_chain ix l p : mapping c !! ix = Some l -> p ∈ l -> Z.to_nat (index c (name_at (files s) p)) = ix;
  co_curr : curr_size c = total (files s) (LRU_Policy s);
  co_fits : curr_size c <= MAX_SIZE c
}.

(** ** Lists of files *)

Lemma total_app m l l' : total m (l ++ l') = total m l + total m l'.
Proof. induction l as [|p l IH]; [done|]. cbn [app total foldr]. fold (total m (l ++ l')) (total m l). lia. Qed.

Lemma total_perm m l l' : l ≡ₚ l' -> total m l = total m l'.
Proof. induction 1; cbn [total foldr] in *; repeat match goal with |- context [foldr ?f ?z ?l] => fold (total m l) end; unfold total in *; lia. Qed.

Lemma alive_size m p : alive m p -> 0 <= size_at m p.
Proof. intros (d & n & E & _ & H). unfold size_at. by rewrite E. Qed.

Lemma total_nonneg m l : Forall (alive m) l -> 0 <= total m l.
Proof.
  induction 1 as [|p l Hp _ IH]; [done|]. cbn [total foldr]. fold (total m l). pose proof (alive_size m p Hp). lia.
Qed.

Definition del_list (l : list loc) (m : gmap loc file_data) : gmap loc file_data := fold_left (fun m p => delete p m) l m.

Lemma lookup_del_list l m q : del_list l m !! q = if decide (q ∈ l) then None else m !! q.
Proof.
  revert m. induction l as [|p l IH]; intros m; [by rewrite decide_False by apply not_elem_of_nil|].
  cbn [del_list fold_left]. fold (del_list l (delete p m)). rewrite IH, lookup_delete.
  destruct (decide (q ∈ l)), (decide (q ∈ p :: l)), (decide (p = q)); set_solver.
Qed.

(** Two heaps that agree on the files of a list. *)
Definition agree (m m' : gmap loc file_data) l : Prop := forall p, p ∈ l -> m' !! p = m !! p.

Lemma agree_names m m' l : agree m m' l -> name_at m' <$> l = name_at m <$> l.
Proof. intros Ha. apply list_fmap_ext. intros i p Hp. unfold name_at. rewrite Ha; [done|]. by eapply list_elem_of_lookup_2. Qed.

Lemma agree_total m m' l : agree m m' l -> total m' l = total m l.
Proof.
  induction l as [|p l IH]; intros Ha; [done|]. cbn [total foldr]. fold (total m' l) (total m l).
  rewrite IH by (intros q Hq; apply Ha; by right). unfold size_at. by rewrite Ha by left.
Qed.

Lemma agree_alive m m' l p : agree m m' l -> p ∈ l -> alive m p -> alive m' p.
Proof. intros Ha Hp (d & n & E & ?). exists d, n. by rewrite Ha. Qed.

(** ** Running the operations that only read *)

Lemma get_data_run {B} s p d (f : file_data -> WEB B) : files s !! p = Some d -> (get_data p ≫= f) s = f d s.
Proof. intros E. unfold get_data. st_run. by rewrite E. Qed.

Lemma get_name_run {B} s p (f : list Z -> WEB B) : alive (files s) p -> (get_name p ≫= f) s = f (name_at (files s) p) s.
Proof.
  intros (d & n & E & En & _). unfold get_name. rewrite run_assoc, (get_data_run s p d _ E). unfold name_at. rewrite E. cbn. by rewrite En.
Qed.

Lemma get_name_run1 s p : alive (files s) p -> get_name p s = Ret (name_at (files s) p, s).
Proof.
  intros Ha. pose proof (get_name_run s p mret Ha) as E. unfold mbind, st_bind in E.
  by destruct (get_name p s) as [[]|].
Qed.

Lemma has_name_run {B} s name p (f : bool -> WEB B) :
  alive (files s) p -> (has_name name p ≫= f) s = f (named (files s) name p) s.
Proof. intros Ha. unfold has_name. by rewrite run_assoc, (get_name_run s p _ Ha). Qed.

Lemma find_name_run s name l : Forall (alive (files s)) l -> find_name name l s = Ret (List.find (named (files s) name) l, s).
Proof.
  induction 1 as [|p l Hp _ IH]; [done|]. cbn [find_name List.find]. rewrite (has_name_run s name p _ Hp).
  by destruct (named _ _ p).
Qed.

Lemma drop_name_run s name l : Forall (alive (files s)) l -> drop_name name l s = Ret (rm_first (named (files s) name) l, s).
Proof.
  induction 1 as [|p l Hp _ IH]; [done|]. cbn [drop_name rm_first]. rewrite (has_name_run s name p _ Hp).
  destruct (named _ _ p); [done|]. by st_call IH.
Qed.

Lemma the_cache_run {B} s c (f : cache -> WEB B) : fileCache s = Some c -> (the_cache ≫= f) s = f c s.
Proof. intros E. unfold the_cache. st_run. by rewrite E. Qed.

Lemma index_range c name : 0 < array_size c -> 0 <= index c name < array_size c.
Proof.
  intros Ha. unfold index. pose proof (Z.rem_bound_abs (hash_value name) (array_size c)) as Hb.
  destruct (Z.ltb_spec (Z.rem (hash_value name) (array_size c)) 0); lia.
Qed.

Lemma hash_index_run {B} s c name (f : Z -> WEB B) :
  fileCache s = Some c -> 0 < array_size c -> (hash_index name ≫= f) s = f (index c name) s.
Proof.
  intros Ec Ha. unfold hash_index. rewrite run_assoc, (the_cache_run s c _ Ec).
  rewrite (proj2 (Z.eqb_neq (array_size c) 0)) by lia. done.
Qed.

Lemma chain_run {B} s c ix l (f : list loc -> WEB B) :
  fileCache s = Some c -> mapping c !! Z.to_nat ix = Some l -> (chain ix ≫= f) s = f l s.
Proof. intros Ec El. unfold chain. rewrite run_assoc, (the_cache_run s c _ Ec). by rewrite El. Qed.

Lemma upd_cache_run {B} s c g (f : unit -> WEB B) :
  fileCache s = Some c -> (upd_cache g ≫= f) s = f tt (set_cache (Some (g c)) s).
Proof. intros Ec. unfold upd_cache. rewrite run_assoc, (the_cache_run s c _ Ec). done. Qed.

Lemma add_s32_run a b : - 2 ^ 31 <= a + b < 2 ^ 31 -> add_s32 a b = Ret (a + b).
Proof. intros Hr. unfold add_s32. by rewrite (proj2 (Z.leb_le _ _)), (proj2 (Z.ltb_lt _ _)) by lia. Qed.

Lemma add_size_run {B} s c n (f : unit -> WEB B) :
  fileCache s = Some c -> - 2 ^ 31 <= curr_size c + n < 2 ^ 31 ->
  (add_size n ≫= f) s = f tt (set_cache (Some (set_curr (curr_size c + n) c)) s).
Proof.
  intros Ec Hr. unfold add_size. rewrite run_assoc, (the_cache_run s c _ Ec). rewrite run_assoc.
  rewrite (run_lift _ _ _ _ (add_s32_run _ _ Hr)). by rewrite (upd_cache_run s c _ _ Ec).
Qed.

Lemma fits_run {B} s c size (f : bool -> WEB B) :
  fileCache s = Some c -> - 2 ^ 31 <= curr_size c + size < 2 ^ 31 ->
  (fits size ≫= f) s = f (curr_size c + size <=? MAX_SIZE c) s.
Proof.
  intros Ec Hr. unfold fits. rewrite run_assoc, (the_cache_run s c _ Ec). rewrite run_assoc.
  by rewrite (run_lift _ _ _ _ (add_s32_run _ _ Hr)).
Qed.

(** ** The chains *)

Lemma concat_insert {A} (m : list (list A)) ix xs ys x :
  m !! ix = Some xs -> xs ≡ₚ x :: ys -> concat m ≡ₚ x :: concat (<[ix := ys]> m).
Proof.
  revert ix. induction m as [|z m IH]; intros [|ix] E Hp; simplify_eq/=; [by rewrite Hp|].
  rewrite (IH _ E Hp). symmetry. apply Permutation_middle.
Qed.

Lemma concat_snoc {A} (m : list (list A)) ix xs x :
  m !! ix = Some xs -> concat (<[ix := xs ++ [x]]> m) ≡ₚ x :: concat m.
Proof.
  revert ix. induction m as [|z m IH]; intros [|ix] E; simplify_eq/=.
  - rewrite <- app_assoc. symmetry. apply Permutation_middle.
  - rewrite (IH _ E). symmetry. apply Permutation_middle.
Qed.

Section facts.
Context s c (Hok : cache_ok s c).

Lemma all_alive : Forall (alive (files s)) (LRU_Policy s).
Proof. apply Forall_forall. intros p Hp. by apply (co_alive _ _ Hok). Qed.

Lemma chain_at name : exists l, mapping c !! Z.to_nat (index c name) = Some l /\ Forall (alive (files s)) l /\
  (forall p, p ∈ l <-> p ∈ LRU_Policy s /\ Z.to_nat (index c (name_at (files s) p)) = Z.to_nat (index c name)).
Proof.
  destruct (co_array _ _ Hok) as [Ea Hpos]. pose proof (index_range c name Hpos) as Hr. unfold zlen in Ea.
  destruct (lookup_lt_is_Some_2 (mapping c) (Z.to_nat (index c name))) as [l El]; [lia|]. exists l.
  assert (Hsub : forall p, p ∈ l -> p ∈ LRU_Policy s).
  { intros p Hp. rewrite <- (co_perm _ _ Hok). apply elem_of_concat. by eexists _, _. }
  split_and!; [done| |].
  - apply Forall_forall. intros p Hp. apply (co_alive _ _ Hok). by apply Hsub.
  - intros p. split; [intros Hp; split; [by apply Hsub|by eapply (co_chain _ _ Hok)]|]. intros [Hp Hix].
    rewrite <- (co_perm _ _ Hok) in Hp. apply elem_of_concat in Hp as (ix & l' & El' & Hp).
    pose proof (co_chain _ _ Hok _ _ _ El' Hp). congruence.
Qed.

Lemma name_unique p q : p ∈ LRU_Policy s -> q ∈ LRU_Policy s -> name_at (files s) p = name_at (files s) q -> p = q.
Proof. intros Hp Hq E. by apply (NoDup_fmap_eq (name_at (files s)) (LRU_Policy s) p q (co_names _ _ Hok)). Qed.

Lemma lru_nodup : NoDup (LRU_Policy s).
Proof. eapply NoDup_fmap_1, (co_names _ _ Hok). Qed.

(** The file of a name, in the LRU list and in its chain. *)
Lemma find_in_chain name l :
  mapping c !! Z.to_nat (index c name) = Some l ->
  List.find (named (files s) name) l = List.find (named (files s) name) (LRU_Policy s).
Proof.
  intros El. destruct (chain_at name) as (l' & El' & _ & Hl). simplify_eq.
  destruct (List.find _ l) as [p|] eqn:E, (List.find _ (LRU_Policy s)) as [q|] eqn:E'; [| | |done].
  - apply find_some in E as [Hp%list_elem_of_In En%bool_decide_eq_true], E' as [Hq%list_elem_of_In En'%bool_decide_eq_true].
    f_equal. apply Hl in Hp as [Hp _]. apply name_unique; congruence.
  - apply find_some in E as [Hp%list_elem_of_In En]. apply Hl in Hp as [Hp%list_elem_of_In _].
    by rewrite (find_none _ _ E' _ Hp) in En.
  - apply find_some in E' as [Hq%list_elem_of_In En]. pose proof En as En'%bool_decide_eq_true.
    assert (Hq' : q ∈ l) by (apply Hl; by rewrite En'). apply list_elem_of_In in Hq'. by rewrite (find_none _ _ E _ Hq') in En.
Qed.

End facts.

(** ** Eviction *)

(** No file of [l] is in flight, and the files in flight are allocated. *)
Definition landed s l : Prop :=
  Forall (fun q => alive (files s) q /\ name_at (files s) q ∉ (name_at (files s) <$> l)) (inflight_q s).

(** The longest suffix of the LRU list that leaves room. *)
Fixpoint spare (m : gmap loc file_data) (room : Z) l : list loc :=
  if total m l <=? room then l else match l with [] => [] | _ :: l => spare m room l end.
(** The files before it. *)
Definition dropped (m : gmap loc file_data) (room : Z) l : list loc := take (length l - length (spare m room l)) l.

Lemma isInFlight_run s p : landed s [p] -> isInFlight (name_at (files s) p) s = Ret (None, s).
Proof.
  intros Hfl. unfold isInFlight. st_run. rewrite find_name_run by (eapply Forall_impl; [exact Hfl|by intros ? []]).
  destruct (List.find _ _) as [q|] eqn:E; [|done]. apply find_some in E as [Hq%list_elem_of_In En%bool_decide_eq_true].
  unfold landed in Hfl. rewrite Forall_forall in Hfl. destruct (Hfl _ Hq) as [_ Hn]. exfalso. apply Hn. rewrite En. by left.
Qed.

Lemma rm_first_in_chain s c p rest l :
  cache_ok s c -> LRU_Policy s = p :: rest -> mapping c !! Z.to_nat (index c (name_at (files s) p)) = Some l ->
  exists l', rm_first (named (files s) (name_at (files s) p)) l = Some (p, l') /\ l ≡ₚ p :: l'.
Proof.
  intros Hok El Em. destruct (chain_at s c Hok (name_at (files s) p)) as (l0 & Em' & _ & Hl). simplify_eq.
  assert (Hp : p ∈ LRU_Policy s) by (rewrite El; by left).
  destruct (rm_first _ l) as [[q l']|] eqn:E.
  - pose proof (rm_first_Permutation _ _ _ _ E) as Hperm.
    apply rm_first_Some in E as (l1 & l2 & -> & -> & Hn%bool_decide_eq_true & _).
    assert (q = p) as ->; [|by eexists]. apply (name_unique s c Hok); [|done..]. apply Hl. set_solver.
  - apply rm_first_None in E. rewrite Forall_forall in E. exfalso.
    assert (Hin : p ∈ l) by (by apply Hl). specialize (E _ Hin). unfold named in E. by rewrite bool_decide_eq_true_2 in E.
Qed.

Definition evict1 s c p rest l' : web :=
  Web (delete p (files s))
    (Some (set_curr (curr_size c - size_at (files s) p) (set_mapping (<[Z.to_nat (index c (name_at (files s) p)) := l']> (mapping c)) c)))
    rest (inflight_q s).

Lemma cache_evict_run s c p rest l l' :
  cache_ok s c -> LRU_Policy s = p :: rest -> landed s [p] ->
  mapping c !! Z.to_nat (index c (name_at (files s) p)) = Some l ->
  rm_first (named (files s) (name_at (files s) p)) l = Some (p, l') ->
  cache_evict s = Ret (true, evict1 s c p rest l').
Proof.
  intros Hok El Hfl Em Erm. unfold cache_evict, removeLRUFile. st_run. rewrite El. cbn iota. st_run.
  set (s1 := set_lru rest s). unfold remove_from_cache.
  assert (Hp : p ∈ LRU_Policy s) by (rewrite El; by left). pose proof (co_alive _ _ Hok _ Hp) as Hal.
  rewrite (get_name_run s1 p _ Hal). rewrite (hash_index_run s1 c _ _ (co_cache _ _ Hok)) by apply (co_array _ _ Hok).
  change (files s1) with (files s). set (name := name_at (files s) p) in *.
  unfold wait_in_flight. rewrite run_assoc. rewrite (bind_run _ _ _ _ _ (isInFlight_run s1 p Hfl)). st_run.
  rewrite (chain_run s1 c _ l _ (co_cache _ _ Hok) Em).
  destruct (chain_at s c Hok name) as (l0 & Em' & Hcal & _). simplify_eq.
  rewrite (bind_run _ _ _ _ _ (drop_name_run s1 name l Hcal)). change (files s1) with (files s). rewrite Erm. cbn iota.
  unfold set_chain. rewrite (upd_cache_run s1 c _ _ (co_cache _ _ Hok)).
  destruct Hal as (d & n & Ed & En & Hs). rewrite (get_data_run (set_cache _ s1) p d _ Ed).
  rewrite (add_size_run _ (set_mapping (<[Z.to_nat (index c name):=l']> (mapping c)) c)); [|done|].
  - unfold free_data. rewrite run_assoc. rewrite (get_data_run (set_cache _ (set_cache _ s1)) p d _ Ed). st_run. unfold evict1, size_at. by rewrite Ed.
  - pose proof (co_curr _ _ Hok) as Hc. rewrite El in Hc. cbn [total foldr] in Hc. fold (total (files s) rest) in Hc.
    unfold size_at at 1 in Hc. rewrite Ed in Hc. cbn in Hc. pose proof (co_max _ _ Hok). pose proof (co_fits _ _ Hok).
    assert (0 <= total (files s) rest); [|cbn; lia]. apply total_nonneg. apply Forall_forall. intros q Hq.
    apply (co_alive _ _ Hok). rewrite El. by right.
Qed.

Lemma evict1_ok s c p rest l l' :
  cache_ok s c -> LRU_Policy s = p :: rest ->
  mapping c !! Z.to_nat (index c (name_at (files s) p)) = Some l -> l ≡ₚ p :: l' ->
  exists c', cache_ok (evict1 s c p rest l') c' /\ MAX_SIZE c' = MAX_SIZE c /\ array_size c' = array_size c.
Proof.
  intros Hok El Em Hl. eexists. split; [|split; shelve]. pose proof (lru_nodup s c Hok) as Hnd. rewrite El in Hnd.
  apply NoDup_cons in Hnd as [Hp Hnd].
  assert (Ha : agree (files s) (delete p (files s)) rest).
  { intros q Hq. apply lookup_delete_ne. by intros ->. }
  destruct Hok as [Hc [Ha1 Ha2] Hm Hperm Hal Hnm Hch Hcur Hfit]. rewrite El in *.
  split; cbn [files fileCache LRU_Policy evict1].
  - done.
  - cbn. unfold zlen in *. by rewrite length_insert.
  - done.
  - apply (Permutation_cons_inv (a := p)). rewrite <- Hperm. symmetry. by eapply concat_insert.
  - intros q Hq. eapply agree_alive; [done..|]. apply Hal. by right.
  - rewrite (agree_names _ _ _ Ha). by apply NoDup_cons in Hnm as [_ ?].
  - intros ix l1 q Hix Hq. unfold name_at. rewrite lookup_delete_ne.
    + cbn in Hix. destruct (decide (ix = Z.to_nat (index c (name_at (files s) p)))) as [->|Hne].
      * rewrite list_lookup_insert_eq in Hix by (by eapply lookup_lt_Some). simplify_eq. eapply Hch; [done|]. rewrite Hl. by right.
      * rewrite list_lookup_insert_ne in Hix by done. by eapply Hch.
    + intros ->. assert (Hin : q ∈ concat (<[Z.to_nat (index c (name_at (files s) q)):=l']> (mapping c))).
      { apply elem_of_concat. by eexists _, _. }
      apply Hp. assert (Hpr : concat (<[Z.to_nat (index c (name_at (files s) q)):=l']> (mapping c)) ≡ₚ rest).
      { apply (Permutation_cons_inv (a := q)). rewrite <- Hperm. symmetry. by eapply concat_insert. }
      by rewrite <- Hpr.
  - cbn. rewrite (agree_total _ _ _ Ha), Hcur. cbn [total foldr]. unfold total. lia.
  - cbn. rewrite Hcur in *. cbn [total foldr] in *. pose proof (alive_size _ _ (Hal p ltac:(by left))). lia.
  Unshelve. all: done.
Qed.

Lemma spare_suffix m room l : exists l', l = l' ++ spare m room l.
Proof.
  induction l as [|p l [l' IH]]; cbn [spare]; [exists []; by destruct (_ <=? _)|].
  destruct (_ <=? _); [by exists []|]. exists (p :: l'). by rewrite IH at 1.
Qed.

Lemma dropped_spare m room l : dropped m room l ++ spare m room l = l.
Proof.
  destruct (spare_suffix m room l) as [l' E]. unfold dropped. set (r := spare m room l) in *. clearbody r. subst l.
  rewrite length_app. replace (_ + _ - _)%nat with (length l') by lia. by rewrite take_app_length.
Qed.

Lemma dropped_step m room p l : room < total m (p :: l) -> dropped m room (p :: l) = p :: dropped m room l.
Proof.
  intros H. apply (app_inv_tail (spare m room l)). rewrite <- app_comm_cons, dropped_spare.
  assert (Hs : spare m room (p :: l) = spare m room l).
  { cbn [spare]. by rewrite (proj2 (Z.leb_gt _ _)). }
  by rewrite <- (dropped_spare m room (p :: l)) at 2; rewrite Hs.
Qed.

Lemma agree_spare m m' room l : agree m m' l -> spare m' room l = spare m room l.
Proof.
  induction l as [|p l IH]; intros Ha; [done|]. cbn [spare]. rewrite (agree_total _ _ _ Ha).
  destruct (_ <=? _); [done|]. apply IH. intros q Hq. apply Ha. by right.
Qed.

Lemma agree_dropped m m' room l : agree m m' l -> dropped m' room l = dropped m room l.
Proof. intros Ha. unfold dropped. by rewrite (agree_spare _ _ _ _ Ha). Qed.

Lemma spare_fits m room l : 0 <= room -> total m (spare m room l) <= room.
Proof.
  intros Hr. induction l as [|p l IH]; cbn [spare]; [by destruct (_ <=? _)|]. by destruct (Z.leb_spec (total m (p :: l)) room).
Qed.

Lemma spare_sublist m room l p : p ∈ spare m room l -> p ∈ l.
Proof. destruct (spare_suffix m room l) as [l' E]. rewrite E at 2. set_solver. Qed.

Lemma landed_cons s c p rest l l' :
  p ∉ rest -> (forall q, q ∈ l -> q ∈ rest) -> landed s (p :: l) -> landed s [p] /\ landed (evict1 s c p rest l') l.
Proof.
  intros Hp Hsub Hfl. unfold landed in *. cbn [inflight_q evict1 files]. rewrite !Forall_forall in *.
  split; intros q Hq; destruct (Hfl q Hq) as [Hq1 Hq2]; csimpl in *.
  - split; [done|]. set_solver.
  - assert (q <> p) by (intros ->; apply Hq2; by left). split.
    + destruct Hq1 as (d & n & E & ?). exists d, n. by rewrite lookup_delete_ne by done.
    + rewrite (agree_names (files s)).
      * unfold name_at at 1. rewrite lookup_delete_ne by done. set_solver.
      * intros r Hr. apply lookup_delete_ne. intros ->. by apply Hp, Hsub.
Qed.

Lemma make_room_run rest s c size fuel :
  cache_ok s c -> LRU_Policy s = rest -> 0 <= size <= MAX_SIZE c -> (length rest < fuel)%nat ->
  landed s (dropped (files s) (MAX_SIZE c - size) rest) ->
  exists s' c', make_room fuel size s = Ret (tt, s') /\ cache_ok s' c' /\ MAX_SIZE c' = MAX_SIZE c /\
    LRU_Policy s' = spare (files s) (MAX_SIZE c - size) rest /\
    files s' = del_list (dropped (files s) (MAX_SIZE c - size) rest) (files s) /\ inflight_q s' = inflight_q s.
Proof.
  revert s c fuel. induction rest as [|p rest IH]; intros s c [|fuel] Hok El Hsz Hfuel Hfl; cbn in Hfuel; [lia| |lia|].
  - assert (curr_size c = 0) by (rewrite (co_curr _ _ Hok), El; done). pose proof (co_max _ _ Hok).
    exists s, c. cbn [make_room]. rewrite (fits_run s c _ _ (co_cache _ _ Hok)) by lia.
    rewrite (proj2 (Z.leb_le _ _)) by lia. cbn. split_and!; try done. by destruct (_ <=? _).
  - pose proof (co_max _ _ Hok). pose proof (co_fits _ _ Hok). pose proof (co_curr _ _ Hok) as Hcur.
    assert (0 <= total (files s) (LRU_Policy s)) by apply total_nonneg, (all_alive s c Hok).
    cbn [make_room]. rewrite (fits_run s c _ _ (co_cache _ _ Hok)) by lia. rewrite El in *.
    destruct (Z.leb_spec (curr_size c + size) (MAX_SIZE c)) as [Hle|Hgt].
    + assert (Hs : spare (files s) (MAX_SIZE c - size) (p :: rest) = p :: rest).
      { cbn [spare]. by rewrite (proj2 (Z.leb_le _ _)) by lia. }
      exists s, c. unfold dropped. rewrite Hs, Nat.sub_diag. cbn. done.
    + rewrite (the_cache_run s c _ (co_cache _ _ Hok)). rewrite (proj2 (Z.eqb_neq _ _)) by lia.
      rewrite dropped_step in Hfl |- * by lia.
      destruct (chain_at s c Hok (name_at (files s) p)) as (l & Em & _ & _).
      destruct (rm_first_in_chain s c p rest l Hok El Em) as (l' & Erm & Hperm).
      pose proof (lru_nodup s c Hok) as Hnd. rewrite El in Hnd. apply NoDup_cons in Hnd as [Hp _].
      destruct (landed_cons s c p rest (dropped (files s) (MAX_SIZE c - size) rest) l' Hp) as [Hfl1 Hfl2]; [|done|].
      { intros q Hq. rewrite <- (dropped_spare (files s) (MAX_SIZE c - size) rest). set_solver. }
      rewrite (bind_run _ _ _ _ _ (cache_evict_run s c p rest l l' Hok El Hfl1 Em Erm)).
      destruct (evict1_ok s c p rest l l' Hok El Em Hperm) as (c1 & Hok1 & EM & _).
      set (s1 := evict1 s c p rest l') in *.
      assert (Ha : agree (files s) (files s1) rest).
      { intros q Hq. apply lookup_delete_ne. by intros ->. }
      destruct (IH s1 c1 fuel Hok1 eq_refl) as (s2 & c2 & E2 & Hok2 & EM2 & EL2 & EF2 & EQ2); [lia|lia| |].
      { by rewrite EM, (agree_dropped _ _ _ _ Ha). }
      rewrite EM, (agree_dropped _ _ _ _ Ha), (agree_spare _ _ _ _ Ha) in *.
      exists s2, c2. split_and!; [done|done|done| |done|done].
      rewrite EL2. cbn [spare]. by rewrite (proj2 (Z.leb_gt _ _)) by lia.
Qed.

(** ** Insertion *)

(** Adding a file at the end of the LRU list and of its chain. *)
Definition insert1 s c data l : web :=
  Web (files s)
    (Some (set_mapping (<[Z.to_nat (index c (name_at (files s) data)) := l ++ [data]]> (mapping c))
             (set_curr (curr_size c + size_at (files s) data) c)))
    (LRU_Policy s ++ [data]) (inflight_q s).

Lemma insert1_ok s c data l :
  cache_ok s c -> alive (files s) data -> name_at (files s) data ∉ (name_at (files s) <$> LRU_Policy s) ->
  curr_size c + size_at (files s) data <= MAX_SIZE c ->
  mapping c !! Z.to_nat (index c (name_at (files s) data)) = Some l ->
  exists c', cache_ok (insert1 s c data l) c' /\ MAX_SIZE c' = MAX_SIZE c.
Proof.
  intros Hok Had Hnew Hfit Em. eexists. split; [|shelve].
  destruct Hok as [Hc [Ha1 Ha2] Hm Hperm Hal Hnm Hch Hcur Hft].
  split; cbn [files fileCache LRU_Policy insert1].
  - done.
  - cbn. unfold zlen in *. by rewrite length_insert.
  - done.
  - cbn. rewrite (concat_snoc _ _ _ _ Em), Hperm. apply Permutation_cons_append.
  - intros p [Hp|Hp%list_elem_of_singleton]%elem_of_app; [by apply Hal|by subst].
  - rewrite fmap_app. apply NoDup_app. split_and!; [done| |apply NoDup_singleton].
    intros n Hn Hn1%list_elem_of_singleton. by subst.
  - intros ix l1 p Hix Hp. cbn in Hix.
    destruct (decide (ix = Z.to_nat (index c (name_at (files s) data)))) as [->|Hne].
    + rewrite list_lookup_insert_eq in Hix by (by eapply lookup_lt_Some). simplify_eq.
      apply elem_of_app in Hp as [Hp|Hp%list_elem_of_singleton]; [by apply (Hch _ l)|by subst].
    + rewrite list_lookup_insert_ne in Hix by done. by eapply Hch.
  - cbn. rewrite total_app. cbn. lia.
  - cbn. lia.
  Unshelve. done.
Qed.

Section insert.
Context s c data (Hok : cache_ok s c) (Had : alive (files s) data).
#[local] Abbreviation name := (name_at (files s) data).
#[local] Abbreviation size := (size_at (files s) data).

Lemma insert_start fuel :
  insert_to_cache (S fuel) data s =
  if MAX_SIZE c <? size then Ret (false, s)
  else match List.find (named (files s) name) (LRU_Policy s) with
       | Some _ => Ret (false, s)
       | None => if curr_size c + size <=? MAX_SIZE c then insert_to_cache (S fuel) data s
                 else (_ ← make_room (S (length (LRU_Policy s))) size; insert_to_cache fuel data) s
       end.
Proof.
  destruct Had as (d & n & Ed & En & Hd). assert (Es : size = file_size d) by (unfold size_at; by rewrite Ed).
  cbn [insert_to_cache]. rewrite (get_data_run s data d _ Ed), (the_cache_run s c _ (co_cache _ _ Hok)), <- Es.
  destruct (Z.ltb_spec (MAX_SIZE c) size) as [|Hsz]; [done|].
  rewrite (get_name_run s data _ Had), (hash_index_run s c _ _ (co_cache _ _ Hok)) by apply (co_array _ _ Hok).
  destruct (chain_at s c Hok name) as (l & Em & Hal & _). rewrite (chain_run s c _ l _ (co_cache _ _ Hok) Em).
  rewrite (bind_run _ _ _ _ _ (find_name_run s name l Hal)), (find_in_chain s c Hok name l Em).
  destruct (List.find _ _); [done|]. pose proof (co_max _ _ Hok). pose proof (co_fits _ _ Hok). pose proof (co_curr _ _ Hok) as Hcur.
  assert (0 <= total (files s) (LRU_Policy s)) by apply total_nonneg, (all_alive s c Hok).
  rewrite (fits_run s c _ _ (co_cache _ _ Hok)) by lia. destruct (Z.leb_spec (curr_size c + size) (MAX_SIZE c)); [done|].
  unfold room_fuel. by st_run.
Qed.

Lemma insert_fits fuel :
  name ∉ (name_at (files s) <$> LRU_Policy s) -> curr_size c + size <= MAX_SIZE c ->
  exists l, mapping c !! Z.to_nat (index c name) = Some l /\ insert_to_cache (S fuel) data s = Ret (true, insert1 s c data l).
Proof.
  intros Hnew Hfit. destruct Had as (d & n & Ed & En & Hd). assert (Es : size = file_size d) by (unfold size_at; by rewrite Ed).
  pose proof (co_max _ _ Hok). pose proof (co_curr _ _ Hok) as Hcur.
  assert (0 <= total (files s) (LRU_Policy s)) by apply total_nonneg, (all_alive s c Hok).
  cbn [insert_to_cache]. rewrite (get_data_run s data d _ Ed), (the_cache_run s c _ (co_cache _ _ Hok)), <- Es.
  rewrite (proj2 (Z.ltb_ge _ _)) by lia.
  rewrite (get_name_run s data _ Had), (hash_index_run s c _ _ (co_cache _ _ Hok)) by apply (co_array _ _ Hok).
  destruct (chain_at s c Hok name) as (l & Em & Hal & _). exists l. split; [done|].
  rewrite (chain_run s c _ l _ (co_cache _ _ Hok) Em).
  rewrite (bind_run _ _ _ _ _ (find_name_run s name l Hal)), (find_in_chain s c Hok name l Em).
  destruct (List.find _ _) as [p|] eqn:E.
  { apply find_some in E as [Hp%list_elem_of_In En'%bool_decide_eq_true]. exfalso. apply Hnew. rewrite <- En'. by apply list_elem_of_fmap_2. }
  rewrite (fits_run s c _ _ (co_cache _ _ Hok)) by lia. rewrite (proj2 (Z.leb_le _ _)) by done.
  rewrite (add_size_run s c _ _ (co_cache _ _ Hok)) by lia. unfold set_chain.
  rewrite (upd_cache_run (set_cache _ s) (set_curr (curr_size c + size) c)) by done. unfold pushBack. by st_run.
Qed.

Lemma insert_refused :
  MAX_SIZE c < size \/ name ∈ (name_at (files s) <$> LRU_Policy s) -> cache_insert data s = Ret (false, s).
Proof.
  intros H. unfold cache_insert, INSERT_FUEL. rewrite insert_start.
  destruct (Z.ltb_spec (MAX_SIZE c) size); [done|]. destruct H as [|H]; [lia|].
  apply list_elem_of_fmap in H as (p & En & Hp%list_elem_of_In). destruct (List.find _ _) eqn:E; [done|].
  pose proof (find_none _ _ E _ Hp) as E'. unfold named in E'. by rewrite bool_decide_eq_true_2 in E'.
Qed.

End insert.

Lemma find_named_None m name l : name ∉ name_at m <$> l -> List.find (named m name) l = None.
Proof.
  intros Hn. destruct (List.find _ _) as [p|] eqn:E; [|done].
  apply find_some in E as [Hp%list_elem_of_In <-%bool_decide_eq_true]. exfalso. by apply Hn, list_elem_of_fmap_2.
Qed.

(** Dropping files leaves the others and the new file alone. *)
Lemma dropped_agree s c data room :
  cache_ok s c -> data ∉ LRU_Policy s ->
  agree (files s) (del_list (dropped (files s) room (LRU_Policy s)) (files s)) (data :: spare (files s) room (LRU_Policy s)).
Proof.
  intros Hok Hdata q Hq. rewrite lookup_del_list, decide_False; [done|]. intros Hd.
  pose proof (dropped_spare (files s) room (LRU_Policy s)) as Hds. apply elem_of_cons in Hq as [->|Hq].
  - apply Hdata. rewrite <- Hds. set_solver.
  - pose proof (lru_nodup s c Hok) as Hnd. rewrite <- Hds in Hnd. apply NoDup_app in Hnd as (_ & Hdis & _). by eapply Hdis.
Qed.

Lemma insert_done s c data (room := MAX_SIZE c - size_at (files s) data) :
  cache_ok s c -> alive (files s) data -> 0 <= room ->
  name_at (files s) data ∉ (name_at (files s) <$> LRU_Policy s) -> data ∉ LRU_Policy s ->
  landed s (dropped (files s) room (LRU_Policy s)) ->
  exists s' c', cache_insert data s = Ret (true, s') /\ cache_ok s' c' /\ MAX_SIZE c' = MAX_SIZE c /\
    LRU_Policy s' = spare (files s) room (LRU_Policy s) ++ [data] /\
    files s' = del_list (dropped (files s) room (LRU_Policy s)) (files s) /\ inflight_q s' = inflight_q s.
Proof.
  intros Hok Had Hroom Hnew Hdata Hfl. pose proof (co_curr _ _ Hok) as Hcur. pose proof (alive_size _ _ Had).
  unfold cache_insert, INSERT_FUEL. rewrite (insert_start s c data Hok Had), (find_named_None _ _ _ Hnew).
  rewrite (proj2 (Z.ltb_ge _ _)) by lia. destruct (Z.leb_spec (curr_size c + size_at (files s) data) (MAX_SIZE c)) as [Hle|Hgt].
  - destruct (insert_fits s c data Hok Had 1 Hnew Hle) as (l & Em & Er).
    destruct (insert1_ok s c data l Hok Had Hnew Hle Em) as (c' & Hok' & EM).
    assert (Hs : spare (files s) room (LRU_Policy s) = LRU_Policy s).
    { destruct (LRU_Policy s); cbn [spare]; rewrite (proj2 (Z.leb_le _ _)) by lia; done. }
    exists (insert1 s c data l), c'. unfold dropped. by rewrite Hs, Nat.sub_diag.
  - pose proof (dropped_agree s c data room Hok Hdata) as Ha.
    destruct (make_room_run _ s c (size_at (files s) data) (S (length (LRU_Policy s))) Hok eq_refl) as
      (s1 & c1 & E1 & Hok1 & EM1 & EL1 & EF1 & EQ1); [lia|lia|done|]. fold room in EL1, EF1.
    rewrite (bind_run _ _ _ _ _ E1). rewrite <- EF1 in Ha.
    assert (Ha' : agree (files s) (files s1) (LRU_Policy s1)) by (rewrite EL1; intros q Hq; apply Ha; by right).
    assert (Hd : files s1 !! data = files s !! data) by (by apply Ha; left).
    assert (Hnm : name_at (files s1) data = name_at (files s) data) by (unfold name_at; by rewrite Hd).
    assert (Hsz : size_at (files s1) data = size_at (files s) data) by (unfold size_at; by rewrite Hd).
    assert (Hnew1 : name_at (files s1) data ∉ (name_at (files s1) <$> LRU_Policy s1)).
    { rewrite Hnm, (agree_names _ _ _ Ha'), EL1. intros (p & En & Hp)%list_elem_of_fmap. apply Hnew. rewrite En.
      apply list_elem_of_fmap_2. by eapply spare_sublist. }
    assert (Had1 : alive (files s1) data) by (by apply (agree_alive _ _ _ _ Ha); [left|]).
    assert (Hle : curr_size c1 + size_at (files s1) data <= MAX_SIZE c1).
    { rewrite Hsz, EM1, (co_curr _ _ Hok1), (agree_total _ _ _ Ha'), EL1.
      pose proof (spare_fits (files s) room (LRU_Policy s) Hroom). lia. }
    destruct (insert_fits s1 c1 data Hok1 Had1 0 Hnew1 Hle) as (l & Em & Er).
    destruct (insert1_ok s1 c1 data l Hok1 Had1 Hnew1 Hle Em) as (c' & Hok' & EM').
    exists (insert1 s1 c1 data l), c'. rewrite Er, EM', EM1. cbn [LRU_Policy files inflight_q insert1]. by rewrite EL1.
Qed.

(** ** Lookup *)

Lemma remove_ends_run s data l :
  Forall (alive (files s)) l -> alive (files s) data -> LRU_Policy s = l ->
  removeFileToBeMovedToBack data s =
  let r := remove_ends (named (files s) (name_at (files s) data)) l in
  Ret (fst <$> r, from_option (fun x => set_lru x.2 s) s r).
Proof.
  intros Hl Had El. unfold removeFileToBeMovedToBack. st_run. rewrite El. destruct l as [|h rest]; [done|].
  rewrite (get_name_run s data _ Had). unfold remove_ends. pose proof Hl as [Hh _]%Forall_cons.
  rewrite (has_name_run s _ h _ Hh). destruct (named _ _ h); [done|].
  destruct (last (h :: rest)) as [t|] eqn:Et; [|done].
  assert (Ht : alive (files s) t).
  { rewrite Forall_forall in Hl. apply Hl. apply last_Some in Et as [? ->]. set_solver. }
  rewrite (has_name_run s _ t _ Ht). destruct (named _ _ t); [done|].
  rewrite (bind_run _ _ _ _ _ (drop_name_run s _ _ Hl)). by destruct (rm_first _ _) as [[]|].
Qed.

Lemma getCachedFile_run s data l :
  Forall (alive (files s)) l -> alive (files s) data -> LRU_Policy s = l ->
  getCachedFile data s = Ret (List.find (named (files s) (name_at (files s) data)) l, s).
Proof.
  intros Hl Had El. unfold getCachedFile. st_run. rewrite El. destruct l as [|h t]; [done|].
  rewrite (get_name_run s data _ Had). by apply find_name_run.
Qed.

Lemma remove_ends_unique {A} (f : A -> bool) (xs ys : list A) x :
  Forall (fun y => f y = false) (xs ++ ys) -> f x = true -> remove_ends f (xs ++ x :: ys) = Some (x, xs ++ ys).
Proof.
  intros [Hx Hy]%Forall_app Hf. destruct xs as [|z xs]; [by cbn; rewrite Hf|].
  rewrite <- app_comm_cons. cbn [remove_ends]. pose proof Hx as [-> _]%Forall_cons.
  rewrite app_comm_cons. destruct ys as [|y ys _] using rev_ind.
  - rewrite last_snoc, Hf, removelast_last. by rewrite app_nil_r.
  - rewrite (app_comm_cons _ _ x), (app_assoc (z :: xs)), last_snoc. apply Forall_app in Hy as [_ [-> _]%Forall_cons].
    etransitivity; [|exact (rm_first_app f (z :: xs) x (ys ++ [y]) Hx Hf)]. f_equal. by rewrite <- !app_assoc.
Qed.

(** Only the order of the LRU list changes. *)
Lemma cache_ok_perm s c l : cache_ok s c -> l ≡ₚ LRU_Policy s -> cache_ok (set_lru l s) c.
Proof.
  intros [Hc Ha Hm Hperm Hal Hnm Hch Hcur Hft] Hl. split; cbn [files fileCache LRU_Policy set_lru]; try done.
  - by rewrite Hl.
  - intros p. rewrite Hl. apply Hal.
  - by rewrite Hl.
  - by rewrite (total_perm _ _ _ Hl).
Qed.

(** ** The LRU cache it implements

    A sequence of names and sizes, the least recently used first. *)
Definition lru : Type := list (list Z * Z).
Definition view s : lru := (fun p => (name_at (files s) p, size_at (files s) p)) <$> LRU_Policy s.
Definition lru_total (v : lru) : Z := foldr (fun e n => e.2 + n) 0 v.
(** The longest suffix that takes at most [room] bytes. *)
Fixpoint lru_spare (room : Z) (v : lru) : lru :=
  if lru_total v <=? room then v else match v with [] => [] | _ :: v => lru_spare room v end.
Definition lru_has (name : list Z) (v : lru) : bool := bool_decide (name ∈ v.*1).
Definition lru_insert (max : Z) (e : list Z * Z) (v : lru) : bool * lru :=
  if (max <? e.2) || lru_has e.1 v then (false, v) else (true, lru_spare (max - e.2) v ++ [e]).
Definition lru_lookup (name : list Z) (v : lru) : bool * lru :=
  match rm_first (fun e => bool_decide (e.1 = name)) v with
  | Some (e, v') => (true, v' ++ [e])
  | None => (false, v)
  end.

(** The sequence of the files of a list. *)
Definition entries_of (m : gmap loc file_data) l : lru := (fun p => (name_at m p, size_at m p)) <$> l.

Lemma lru_total_entries m l : lru_total (entries_of m l) = total m l.
Proof. induction l as [|p l IH]; [done|]. cbn. cbn in IH. unfold lru_total, entries_of in IH. by rewrite IH. Qed.

Lemma lru_spare_entries m room l : lru_spare room (entries_of m l) = entries_of m (spare m room l).
Proof.
  induction l as [|p l IH]; [by cbn; destruct (_ <=? _)|]. cbn [spare]. unfold entries_of at 1. cbn [fmap list_fmap lru_spare].
  fold (entries_of m l). change (_ :: entries_of m l) with (entries_of m (p :: l)). rewrite lru_total_entries.
  by destruct (_ <=? _).
Qed.

Lemma agree_entries m m' l : agree m m' l -> entries_of m' l = entries_of m l.
Proof.
  intros Ha. apply list_fmap_ext. intros i p Hp%list_elem_of_lookup_2. unfold name_at, size_at. by rewrite (Ha _ Hp).
Qed.

Lemma lru_has_view s name : lru_has name (view s) = bool_decide (name ∈ (name_at (files s) <$> LRU_Policy s)).
Proof. unfold lru_has, view. by rewrite <- list_fmap_compose. Qed.

(** ** The operations against the abstract cache *)

Lemma cache_insert_lru s c data (e := (name_at (files s) data, size_at (files s) data))
    (gone := dropped (files s) (MAX_SIZE c - e.2) (LRU_Policy s)) :
  cache_ok s c -> alive (files s) data -> data ∉ LRU_Policy s -> landed s gone ->
  exists b s' c', cache_insert data s = Ret (b, s') /\ cache_ok s' c' /\ MAX_SIZE c' = MAX_SIZE c /\
    (b, view s') = lru_insert (MAX_SIZE c) e (view s) /\
    LRU_Policy s' = (if b then spare (files s) (MAX_SIZE c - e.2) (LRU_Policy s) ++ [data] else LRU_Policy s) /\
    files s' = (if b then del_list gone (files s) else files s) /\ inflight_q s' = inflight_q s.
Proof.
  intros Hok Had Hdata Hfl. unfold lru_insert. rewrite lru_has_view.
  destruct (Z.ltb_spec (MAX_SIZE c) e.2) as [Hbig|Hsz].
  { exists false, s, c. split_and!; try done. apply (insert_refused s c data Hok Had). by left. }
  destruct (bool_decide_reflect (e.1 ∈ (name_at (files s) <$> LRU_Policy s))) as [Hin|Hnew].
  { exists false, s, c. split_and!; try done. apply (insert_refused s c data Hok Had). by right. }
  destruct (insert_done s c data Hok Had) as (s' & c' & E & Hok' & EM & EL & EF & EQ); [cbn in Hsz; lia|done..|].
  exists true, s', c'. split_and!; try done. cbn [orb]. f_equal.
  change (view s') with (entries_of (files s') (LRU_Policy s')). change (view s) with (entries_of (files s) (LRU_Policy s)).
  pose proof (dropped_agree s c data (MAX_SIZE c - e.2) Hok Hdata) as Ha. change (del_list _ _) with (del_list gone (files s)) in Ha.
  change (files s' = del_list gone (files s)) in EF. rewrite <- EF in Ha. pose proof (agree_entries _ _ _ Ha) as [= E1 E2 E3]. change (MAX_SIZE c - size_at (files s) data) with (MAX_SIZE c - e.2) in EL.
  rewrite lru_spare_entries, EL. cbn [orb]. f_equal. unfold entries_of at 1. rewrite fmap_app. f_equal; [exact E3|]. cbn. unfold e. by rewrite E1, E2.
Qed.

Lemma cache_lookup_lru s c data (name := name_at (files s) data) :
  cache_ok s c -> alive (files s) data ->
  exists b s', cache_lookup data s = Ret (b, s') /\ cache_ok s' c /\ files s' = files s /\ inflight_q s' = inflight_q s /\
    (b, view s') = lru_lookup name (view s) /\
    (if b then exists p, p ∈ LRU_Policy s /\ name_at (files s) p = name /\ getCachedFile data s' = Ret (Some p, s')
     else (name ∉ (name_at (files s) <$> LRU_Policy s)) /\ s' = s).
Proof.
  intros Hok Had. pose proof (all_alive s c Hok) as Hal. unfold cache_lookup, lru_lookup.
  rewrite (bind_run _ _ _ _ _ (remove_ends_run s data _ Hal Had eq_refl)). fold name.
  unfold view. rewrite rm_first_fmap. change (rm_first _ (LRU_Policy s)) with (rm_first (named (files s) name) (LRU_Policy s)).
  destruct (rm_first (named (files s) name) (LRU_Policy s)) as [[p l]|] eqn:E; cbn [fmap option_fmap option_map prod_map].
  - pose proof (rm_first_Permutation _ _ _ _ E) as Hperm. pose proof E as (l1 & l2 & El & -> & Hp & Hl1)%rm_first_Some.
    assert (Hl2 : Forall (fun q => named (files s) name q = false) l2).
    { apply Forall_forall. intros q Hq. apply bool_decide_eq_false. apply bool_decide_eq_true in Hp. intros Hn.
      pose proof (lru_nodup s c Hok) as Hnd. rewrite El in Hnd. apply NoDup_app in Hnd as (_ & _ & [Hni _]%NoDup_cons).
      apply Hni. replace p with q; [done|]. apply (name_unique s c Hok); rewrite ?El; [set_solver..|congruence]. }
    rewrite El. rewrite remove_ends_unique by (by try apply Forall_app). cbn [fmap option_fmap option_map fst from_option snd]. unfold pushBack. st_run.
    assert (Hok' : cache_ok (set_lru ((l1 ++ l2) ++ [p]) s) c).
    { apply cache_ok_perm; [done|]. rewrite Hperm. symmetry. apply Permutation_cons_append. }
    exists true, (set_lru ((l1 ++ l2) ++ [p]) s). split_and!; try done.
    + cbn [LRU_Policy set_lru files]. by rewrite fmap_app.
    + exists p. pose proof Hp as Hn%bool_decide_eq_true. split_and!; [set_solver|done|].
      rewrite (getCachedFile_run (set_lru _ s) data _ (all_alive _ c Hok') Had eq_refl). do 3 f_equal.
      change (files (set_lru ((l1 ++ l2) ++ [p]) s)) with (files s). fold name. cbn [LRU_Policy set_lru].
      assert (Hf : Forall (fun q => named (files s) name q = false) (l1 ++ l2)) by (by apply Forall_app). clear -Hf Hp.
      induction Hf as [|q l Hq _ IH]; cbn; [by rewrite Hp|by rewrite Hq].
  - apply rm_first_None in E. exists false, s. rewrite (proj2 (remove_ends_None _ _) E). split_and!; try done.
    intros (p & Hn & Hp)%list_elem_of_fmap. rewrite Forall_forall in E. specialize (E p Hp).
    unfold named in E. by rewrite bool_decide_eq_true_2 in E.
Qed.

(** Files outside the cache do not matter to it. *)
Lemma cache_ok_agree s c m : cache_ok s c -> agree (files s) m (LRU_Policy s) -> cache_ok (set_files m s) c.
Proof.
  intros [Hc Ha Hm Hperm Hal Hnm Hch Hcur Hft] Hag. split; cbn [files fileCache LRU_Policy set_files]; try done.
  - intros p Hp. eapply agree_alive; [done..|]. by apply Hal.
  - by rewrite (agree_names _ _ _ Hag).
  - intros ix l p Hix Hp. assert (p ∈ LRU_Policy s) as Hin by (rewrite <- Hperm; apply elem_of_concat; by eexists _, _).
    unfold name_at. rewrite (Hag _ Hin). by eapply Hch.
  - by rewrite (agree_total _ _ _ Hag).
Qed.

(** ** Destruction *)

Lemma destroy_chain_run s c l n m :
  fileCache s = Some c -> Forall (alive (files s)) l -> NoDup l -> length (LRU_Policy s) = (length l + n)%nat ->
  0 <= m -> curr_size c = total (files s) l + m -> curr_size c < 2 ^ 31 ->
  exists s', destroy_chain l s = Ret (tt, s') /\ fileCache s' = Some (set_curr m c) /\
    files s' = del_list l (files s) /\ LRU_Policy s' = drop (length l) (LRU_Policy s) /\ inflight_q s' = inflight_q s.
Proof.
  revert s c. induction l as [|p l IH]; intros s c Ec Hal Hnd Hlen Hm Hcur Hr.
  - exists s. cbn. rewrite drop_0. cbn in Hcur. split_and!; try done. rewrite Ec. f_equal. destruct c; cbn in *. unfold set_curr. cbn. by f_equal.
  - apply Forall_cons in Hal as [(d & n0 & Ed & En & Hd) Hal]. apply NoDup_cons in Hnd as [Hp Hnd].
    cbn [destroy_chain]. unfold removeLRUFile. destruct (LRU_Policy s) as [|q rest] eqn:El; [done|].
    st_run. rewrite El. st_run. rewrite (get_data_run (set_lru rest s) p d _ Ed).
    assert (Hsz : size_at (files s) p = file_size d) by (unfold size_at; by rewrite Ed).
    cbn [total foldr] in Hcur. fold (total (files s) l) in Hcur. pose proof (total_nonneg _ _ Hal).
    rewrite (add_size_run (set_lru rest s) c _ _ Ec) by lia. unfold free_data. rewrite run_assoc.
    rewrite (get_data_run (set_cache _ (set_lru rest s)) p d _ Ed). st_run.
    set (s1 := set_files _ _). set (c1 := set_curr (curr_size c + - file_size d) c).
    assert (Ha : agree (files s) (files s1) l) by (intros r Hr'; apply lookup_delete_ne; by intros ->).
    destruct (IH s1 c1) as (s' & E & Ec' & Ef & Ell & Eq); [done| |done|by cbn in *; lia|done| |cbn; lia|].
    + rewrite Forall_forall in *. intros r Hr'. eapply agree_alive; [done..|]. by apply Hal.
    + rewrite (agree_total _ _ _ Ha). cbn. lia.
    + exists s'. split_and!; [done|done|done|done|done].
Qed.

Lemma destroy_chain_app l l' s : destroy_chain (l ++ l') s = (_ ← destroy_chain l; destroy_chain l') s.
Proof.
  revert s. induction l as [|p l IH]; intros s; [done|]. cbn [app destroy_chain]. rewrite !run_assoc. apply bind_ext. intros _ s1.
  rewrite !run_assoc. apply bind_ext. intros d s2. rewrite !run_assoc. apply bind_ext. intros _ s3.
  rewrite !run_assoc. apply bind_ext. intros _ s4. apply IH.
Qed.

Lemma destroy_chains_concat t s : destroy_chains t s = destroy_chain (concat t) s.
Proof.
  revert s. induction t as [|l t IH]; intros s; [done|]. cbn [destroy_chains concat]. rewrite destroy_chain_app.
  apply bind_ext. intros _ s'. apply IH.
Qed.

#[export] Instance del_list_proper : Proper ((≡ₚ) ==> (=) ==> (=)) del_list.
Proof. intros l l' Hl m _ <-. apply map_eq. intros p. rewrite !lookup_del_list.
  assert (p ∈ l <-> p ∈ l') by (by rewrite Hl). repeat case_decide; naive_solver.
Qed.

(** A new cache. *)
Definition fresh_web (m : gmap loc file_data) (maxSize : Z) : web := Web m (Some (init_cache maxSize)) [] [].

Lemma init_cache_ok m maxSize : 4096 <= maxSize < 2 ^ 30 -> cache_ok (fresh_web m maxSize) (init_cache maxSize).
Proof.
  intros Hm. assert (1 <= maxSize / 4096) by (apply Z.div_le_lower_bound; lia).
  split; try done; cbn.
  - unfold zlen. rewrite length_replicate. lia.
  - lia.
  - set (n := Z.to_nat (2 * (maxSize / 4096))). clearbody n. by induction n as [|n IH]; [|cbn; rewrite IH].
  - intros p Hp. by apply not_elem_of_nil in Hp.
  - apply NoDup_nil_2.
  - intros ix l p Hl Hp. apply lookup_replicate in Hl as [-> _]. by apply not_elem_of_nil in Hp.
  - lia.
Qed.
