(* ===== verification/WebCacheTheorems.v ===== *)
(** * The cache of the web server is a least-recently-used cache *)
From S2P Require Import Prelude Bytes StateMonad WebCache WebCacheSpec.

(** A cache of 8192 bytes with two files of 4000 bytes; the third file is not in it. *)
Definition demo_files : gmap loc file_data :=
  list_to_map [(1%positive, FileData (Some [97]) None 4000); (2%positive, FileData (Some [98]) None 4000);
               (3%positive, FileData (Some [99]) None 500)].
Definition demo_cache : cache := Cache 8192 8000 4 [[]; []; [1%positive]; [2%positive]].
Definition demo : web := Web demo_files (Some demo_cache) [1%positive; 2%positive] [2%positive].

Lemma demo_ok : cache_ok demo demo_cache.
Proof.
  split; try done.
  - intros p Hp. repeat (apply elem_of_cons in Hp as [->|Hp]); [by eexists _, _..|by apply not_elem_of_nil in Hp].
  - by apply (bool_decide_unpack _).
  - intros ix l p Hix Hp. destruct ix as [|[|[|[|ix]]]]; cbn in Hix; simplify_eq; try (by apply not_elem_of_nil in Hp).
    all: apply list_elem_of_singleton in Hp as ->; by vm_compute.
Qed.

(** C14: A file is added to the cache exactly when it is not larger than the
    cache and no file with its name is there.  To make room, the least recently
    used files are removed and freed, no more than necessary, and the new file
    is the most recently used; the hash table, the LRU list and the sizes stay
    consistent. *)
Theorem cache_insert_spec s c data (e := (name_at (files s) data, size_at (files s) data))
    (gone := dropped (files s) (MAX_SIZE c - e.2) (LRU_Policy s)) :
  cache_ok s c -> alive (files s) data -> data ∉ LRU_Policy s -> landed s gone ->
  exists b s' c', cache_insert data s = Ret (b, s') /\ cache_ok s' c' /\ MAX_SIZE c' = MAX_SIZE c /\
    (b, view s') = lru_insert (MAX_SIZE c) e (view s) /\
    LRU_Policy s' = (if b then spare (files s) (MAX_SIZE c - e.2) (LRU_Policy s) ++ [data] else LRU_Policy s) /\
    files s' = (if b then del_list gone (files s) else files s) /\ inflight_q s' = inflight_q s.
Proof. exact (cache_insert_lru s c data). Qed.

Lemma cache_insert_spec_witness :
  exists b s' c', cache_insert 3%positive demo = Ret (b, s') /\ cache_ok s' c' /\ MAX_SIZE c' = 8192 /\
    (b, view s') = (true, [([98], 4000); ([99], 500)]) /\
    LRU_Policy s' = (if b then [2%positive; 3%positive] else [1%positive; 2%positive]) /\
    files s' = (if b then del_list [1%positive] demo_files else demo_files) /\ inflight_q s' = [2%positive].
Proof.
  apply (cache_insert_spec demo demo_cache 3%positive).
  - apply demo_ok.
  - by eexists _, _.
  - by apply (bool_decide_unpack _).
  - repeat constructor; [by eexists _, _|by apply (bool_decide_unpack _)].
Defined.

(** C29: A lookup of a file that is in the cache makes it the most recently
    used file and getCachedFile then returns the cached file with that name; a
    lookup of any other file returns false and changes nothing. *)
Theorem cache_lookup_spec s c data (name := name_at (files s) data) :
  cache_ok s c -> alive (files s) data ->
  exists b s', cache_lookup data s = Ret (b, s') /\ cache_ok s' c /\ files s' = files s /\ inflight_q s' = inflight_q s /\
    (b, view s') = lru_lookup name (view s) /\
    (if b then exists p, p ∈ LRU_Policy s /\ name_at (files s) p = name /\ getCachedFile data s' = Ret (Some p, s')
     else (name ∉ (name_at (files s) <$> LRU_Policy s)) /\ s' = s).
Proof. exact (cache_lookup_lru s c data). Qed.

Lemma cache_lookup_spec_witness :
  exists b s', cache_lookup 1%positive demo = Ret (b, s') /\ cache_ok s' demo_cache /\ files s' = demo_files /\
    inflight_q s' = [2%positive] /\ (b, view s') = (true, [([98], 4000); ([97], 4000)]) /\
    (if b then (exists p, p ∈ [1%positive; 2%positive] /\ name_at demo_files p = [97] /\ getCachedFile 1%positive s' = Ret (Some p, s'))
     else ([97] ∉ [[97]; [98]]) /\ s' = demo).
Proof. apply (cache_lookup_spec demo demo_cache 1%positive); [apply demo_ok|by eexists _, _]. Defined.

(** Destroying the cache frees the files in it, each once, and nothing
    else. *)
Theorem destroy_cache_spec s c :
  cache_ok s c ->
  destroy_cache_wrapper s = Ret (tt, Web (del_list (LRU_Policy s) (files s)) None [] (inflight_q s)).
Proof.
  intros Hok. unfold destroy_cache_wrapper. rewrite (the_cache_run s c _ (co_cache _ _ Hok)).
  pose proof (co_perm _ _ Hok) as Hperm. pose proof (co_max _ _ Hok). pose proof (co_fits _ _ Hok).
  destruct (destroy_chain_run s c (concat (mapping c)) 0 0 (co_cache _ _ Hok)) as (s' & E & _ & Ef & El & Eq).
  - rewrite Hperm. apply (all_alive s c Hok).
  - rewrite Hperm. apply (lru_nodup s c Hok).
  - by rewrite Hperm, Nat.add_0_r.
  - done.
  - by rewrite (co_curr _ _ Hok), (total_perm _ _ _ Hperm), Z.add_0_r.
  - lia.
  - rewrite <- destroy_chains_concat in E. rewrite (bind_run _ _ _ _ _ E). unfold modify, set_cache.
    by rewrite Ef, El, Eq, Hperm, drop_all.
Qed.

Lemma destroy_cache_spec_witness :
  destroy_cache_wrapper demo = Ret (tt, Web (del_list [1%positive; 2%positive] demo_files) None [] [2%positive]).
Proof. apply (destroy_cache_spec demo demo_cache). apply demo_ok. Defined.

(** With a cache size between 1 and 4095 the hash table has no entries,
    and the first file that fits in the cache divides by zero. *)
Theorem small_cache_crashes m maxSize data :
  0 < maxSize < 4096 -> alive m data -> size_at m data <= maxSize ->
  cache_insert data (fresh_web m maxSize) = Fail Undef.
Proof.
  intros Hm Had Hs. destruct Had as (d & n & Ed & En & Hd). unfold size_at in Hs. rewrite Ed in Hs. cbn in Hs.
  unfold cache_insert, INSERT_FUEL. cbn [insert_to_cache]. rewrite (get_data_run (fresh_web m maxSize) data d _ Ed).
  rewrite (the_cache_run (fresh_web m maxSize) _ _ eq_refl). cbn [MAX_SIZE init_cache]. rewrite (proj2 (Z.ltb_ge _ _)) by lia.
  rewrite (get_name_run (fresh_web m maxSize)) by (by exists d, n). unfold hash_index. rewrite run_assoc.
  rewrite (the_cache_run (fresh_web m maxSize) _ _ eq_refl). cbn [array_size init_cache]. by rewrite Z.div_small by lia.
Qed.

Lemma small_cache_crashes_witness : cache_insert 3%positive (fresh_web demo_files 1024) = Fail Undef.
Proof. apply small_cache_crashes; [lia|by eexists _, _|by vm_compute]. Defined.
