(* ===== verification/Rio.v ===== *)
(** * Robust input and output (webserver/common.c)

    What the kernel answers to the calls of read and write on a descriptor is
    an environment: the sequence of the pieces in which the bytes arrive, with
    interruptions and errors between them, and the sequence of how much each
    write takes.  [rstream] is a [struct rio] together with what its descriptor
    still delivers. *)
From S2P Require Import Prelude Bytes.

(** What a call of read finds: bytes, a signal (EINTR), an error.  After the
    last of them the peer has closed the connection. *)
Inductive rd := RData (l : list Z) | RIntr | RErr.
(** What a call of write does: it takes [k + 1] bytes at most, is interrupted,
    or fails.  After the last of them it takes all. *)
Inductive wr := WTake (k : nat) | WIntr | WErr.

(** ** Writing *)

(** rio_write: the bytes that were written, whether all of them were, and the
    environment that is left. *)
Fixpoint rio_write (data : list Z) (env : list wr) : list Z * bool * list wr :=
  match data, env with
  | [], _ => ([], true, env)
  | _, [] => (data, true, [])
  | _, WIntr :: env => rio_write data env
  | _, WErr :: env => ([], false, env)
  | _, WTake k :: env => let '(l, ok, env) := rio_write (drop (S k) data) env in (take (S k) data ++ l, ok, env)
  end.

(** ** Reading *)

Definition RIO_BUFSIZE : Z := 8192.

Inductive answer := Got (l : list Z) | Interrupted | Failed.

(** read(fd, buf, n) *)
Definition sys_read (n : Z) (env : list rd) : answer * list rd :=
  match env with
  | [] => (Got [], [])
  | RIntr :: env => (Interrupted, env)
  | RErr :: env => (Failed, env)
  | RData l :: env => if zlen l <=? n then (Got l, env) else (Got (take (Z.to_nat n) l), RData (drop (Z.to_nat n) l) :: env)
  end.

(** rio_read: None when the descriptor fails.  Every iteration takes bytes or
    an entry of the environment. *)
Fixpoint rio_read_loop (fuel : nat) (nleft : Z) (env : list rd) : res (option (list Z) * list rd) :=
  match fuel with
  | O => Fail Diverge
  | S fuel =>
      if nleft <=? 0 then Ret (Some [], env)
      else
        match sys_read nleft env with
        | (Interrupted, env) => rio_read_loop fuel nleft env
        | (Failed, env) => Ret (None, env)
        | (Got [], env) => Ret (Some [], env)
        | (Got l, env) => '(r, env) ← rio_read_loop fuel (nleft - zlen l) env; Ret (option_map (app l) r, env)
        end
  end.
Definition read_fuel (n : Z) (env : list rd) : nat := S (Z.to_nat n + length env).
Definition rio_read (n : Z) (env : list rd) : res (option (list Z) * list rd) := rio_read_loop (read_fuel n env) n env.
(** Rio_read *)
Definition Rio_read (n : Z) (env : list rd) : res (list Z * list rd) :=
  '(r, env) ← rio_read n env; match r with Some l => Ret (l, env) | None => Fail (Exit 1) end.

Record rstream := RStream { unread : list Z; incoming : list rd }.
Definition rio_init (env : list rd) : rstream := RStream [] env.

(** while (rp->rio_cnt <= 0): None when the descriptor fails, [] at the end. *)
Fixpoint refill (env : list rd) : option (list Z) * list rd :=
  match env with
  | RIntr :: env => refill env
  | _ => match sys_read RIO_BUFSIZE env with (Got l, env) => (Some l, env) | (_, env) => (None, env) end
  end.

(** rio_readb: its value and the bytes it copied. *)
Definition copy_out (n : Z) (buf : list Z) (env : list rd) : Z * list Z * rstream :=
  let cnt := if zlen buf <? n then zlen buf else n in
  (cnt, take (Z.to_nat cnt) buf, RStream (drop (Z.to_nat cnt) buf) env).
Definition rio_readb (n : Z) (rp : rstream) : Z * list Z * rstream :=
  match unread rp with
  | [] =>
      match refill (incoming rp) with
      | (None, env) => (-1, [], RStream [] env)
      | (Some [], env) => (0, [], RStream [] env)
      | (Some l, env) => copy_out n l env
      end
  | l => copy_out n l (incoming rp)
  end.

(** The loop of rio_readlineb: the bytes it stores, None for an error. *)
Fixpoint readline_loop (room : nat) (rp : rstream) : option (list Z) * rstream :=
  match room with
  | O => (Some [], rp)
  | S room =>
      match rio_readb 1 rp with
      | (rc, [c], rp) => if c =? 10 then (Some [c], rp) else let '(r, rp) := readline_loop room rp in (option_map (cons c) r, rp)
      | (rc, _, rp) => (if rc =? 0 then Some [] else None, rp)
      end
  end.

(** A buffer of [maxlen] bytes is [None] before it is filled; then it holds the
    line, with a NUL after it. *)
Definition buffer : Type := option (list Z).

(** Rio_readlineb(rp, buf, maxlen), where [buf] has [maxlen] bytes: its value
    and the contents of the buffer.  At the end of the input the buffer stays
    as it is; a line that fills the buffer leaves no room for the NUL. *)
Definition Rio_readlineb (maxlen : Z) (buf : buffer) (rp : rstream) : res (Z * buffer * rstream) :=
  match readline_loop (Z.to_nat maxlen) rp with
  | (None, _) => Fail (Exit 1)
  | (Some [], rp) => Ret (0, buf, rp)
  | (Some l, rp) => if zlen l <? maxlen then Ret (zlen l, Some l, rp) else Fail Undef
  end.

(** ** The stream that arrives *)

Definition rd_bytes (e : rd) : list Z := match e with RData l => l | _ => [] end.
(** The bytes that are still to be read. *)
Definition arriving (env : list rd) : list Z := concat (rd_bytes <$> env).
Definition pending (rp : rstream) : list Z := unread rp ++ arriving (incoming rp).

(** No error, and no empty piece, which would be the end of the input. *)
Definition good_rd (e : rd) : Prop := match e with RData l => l <> [] | RIntr => True | RErr => False end.
Definition good_env (env : list rd) : Prop := Forall good_rd env.
Definition good_wr (e : wr) : Prop := match e with WErr => False | _ => True end.

#[export] Instance good_rd_dec e : Decision (good_rd e).
Proof. destruct e; apply _. Defined.
#[export] Instance good_wr_dec e : Decision (good_wr e).
Proof. destruct e; apply _. Defined.

(** The first line of a string, up to [room] bytes. *)
Fixpoint line_of (room : nat) (s : list Z) : list Z :=
  match room, s with
  | S room, c :: s => if c =? 10 then [c] else c :: line_of room s
  | _, _ => []
  end.

(** Writing succeeds whatever the sizes of the writes. *)
Lemma rio_write_all data env :
  Forall good_wr env -> exists env', rio_write data env = (data, true, env') /\ Forall good_wr env'.
Proof.
  revert data. induction env as [|e env IH]; intros data Hg; [destruct data; by eexists|].
  apply Forall_cons in Hg as [He Hg]. destruct data as [|c data]; [eexists; split; [done|by constructor]|].
  destruct e as [k| |]; cbn [rio_write]; [|by apply IH|done].
  destruct (IH (drop (S k) (c :: data)) Hg) as (env' & E & Hg'). rewrite E. exists env'. by rewrite take_drop.
Qed.

Lemma sys_read_good n env :
  good_env env -> 0 < n ->
  match sys_read n env with
  | (Got [], env') => env = [] /\ env' = []
  | (Got l, env') => good_env env' /\ arriving env = l ++ arriving env' /\ zlen l <= n /\ (length env' <= length env)%nat
  | (Interrupted, env') => env = RIntr :: env'
  | (Failed, _) => False
  end.
Proof.
  intros Hg Hn. destruct env as [|[l| |] env]; [done| |done|by apply Forall_cons in Hg as [? _]].
  apply Forall_cons in Hg as [Hl Hg]. cbn in Hl. cbn [sys_read]. destruct (Z.leb_spec (zlen l) n).
  - destruct l as [|c l]; [done|]. split_and!; [done|done|done|cbn; lia].
  - unfold zlen in *. destruct (take (Z.to_nat n) l) as [|c t] eqn:E.
    { apply (f_equal length) in E. rewrite length_take in E. cbn in E. lia. }
    rewrite <- E. split_and!; [| |rewrite length_take; lia|cbn; lia].
    + constructor; [|done]. cbn. intros Ed. apply (f_equal length) in Ed. rewrite length_drop in Ed. cbn in Ed. lia.
    + cbn. unfold arriving. cbn. by rewrite app_assoc, take_drop.
Qed.

(** rio_read: [n] bytes, or all there are, however they arrive. *)
Lemma rio_read_loop_good fuel n env :
  good_env env -> 0 <= n -> (Z.to_nat n + length env < fuel)%nat ->
  exists env', rio_read_loop fuel n env = Ret (Some (take (Z.to_nat n) (arriving env)), env').
Proof.
  revert n env. induction fuel as [|fuel IH]; intros n env Hg Hn Hf; [lia|]. cbn [rio_read_loop].
  destruct (Z.leb_spec n 0); [exists env; by replace n with 0 by lia|].
  pose proof (sys_read_good n env Hg ltac:(lia)) as Hs. destruct (sys_read n env) as [[[|c l]| |] env'].
  - destruct Hs as [-> ->]. exists []. unfold arriving. cbn. by rewrite take_nil.
  - destruct Hs as (Hg' & Ea & Hl & Hlen). unfold zlen in *. cbn [length] in *.
    destruct (IH (n - Z.of_nat (S (length l))) env') as (env2 & E); [done|lia|lia|]. rewrite E. exists env2. cbn [mbind res_bind fmap option_fmap option_map].
    do 3 f_equal. rewrite Ea. replace (Z.to_nat n) with (length (c :: l) + Z.to_nat (n - Z.of_nat (S (length l))))%nat by (cbn; lia).
    by rewrite take_app_add.
  - subst env. apply Forall_cons in Hg as [_ Hg]. destruct (IH n env') as (env2 & E); [done|lia|cbn in Hf; lia|]. by exists env2.
  - done.
Qed.

Lemma refill_good env :
  good_env env ->
  match refill env with
  | (Some [], env') => arriving env = [] /\ env' = []
  | (Some l, env') => good_env env' /\ arriving env = l ++ arriving env'
  | (None, _) => False
  end.
Proof.
  induction 1 as [|e env He Hg IH]; [done|]. pose proof (sys_read_good RIO_BUFSIZE (e :: env) ltac:(by constructor) ltac:(done)) as Hs.
  destruct e as [l| |]; cbn [refill]; [|done|done].
  destruct (sys_read RIO_BUFSIZE (RData l :: env)) as [[[|c l']| |] env']; [by destruct Hs|by destruct Hs as (? & ? & ? & ?)|done|done].
Qed.

(** One byte at a time. *)
Lemma rio_readb_1 rp :
  good_env (incoming rp) ->
  exists rp', good_env (incoming rp') /\
    match pending rp with
    | [] => rio_readb 1 rp = (0, [], rp') /\ pending rp' = []
    | c :: s => rio_readb 1 rp = (1, [c], rp') /\ pending rp' = s
    end.
Proof.
  intros Hg. destruct rp as [[|c l] env]; cbn [incoming] in Hg; unfold rio_readb, pending; cbn [unread incoming].
  - pose proof (refill_good env Hg) as Hr. destruct (refill env) as [[[|c l]|] env']; [| |done].
    + destruct Hr as [Ea ->]. exists (RStream [] []). cbn [app]. rewrite Ea. split; [constructor|done].
    + destruct Hr as [Hg' Ea]. exists (RStream l env'). cbn [app]. rewrite Ea. cbn [app]. unfold copy_out.
      rewrite (proj2 (Z.ltb_ge _ _)) by (unfold zlen; cbn; lia).
    by change (Z.to_nat 1) with 1%nat; cbn; rewrite ?take_0, ?drop_0.
  - exists (RStream l env). cbn [app]. unfold copy_out. rewrite (proj2 (Z.ltb_ge _ _)) by (unfold zlen; cbn; lia).
    by change (Z.to_nat 1) with 1%nat; cbn; rewrite ?take_0, ?drop_0.
Qed.

Lemma readline_loop_good room rp :
  good_env (incoming rp) ->
  exists rp', readline_loop room rp = (Some (line_of room (pending rp)), rp') /\ good_env (incoming rp') /\
    pending rp = line_of room (pending rp) ++ pending rp'.
Proof.
  revert rp. induction room as [|room IH]; intros rp Hg; [by exists rp|]. cbn [readline_loop].
  destruct (rio_readb_1 rp Hg) as (rp1 & Hg1 & H1). destruct (pending rp) as [|c s] eqn:Ep; destruct H1 as [-> Ep1].
  - exists rp1. cbn. by rewrite Ep1.
  - cbn [line_of]. destruct (c =? 10); [exists rp1; cbn; by rewrite Ep1|].
    destruct (IH rp1 Hg1) as (rp2 & -> & Hg2 & Ep2). rewrite Ep1 in *. exists rp2. cbn. by rewrite <- Ep2.
Qed.
