(* ===== verification/WebRequest.v ===== *)
(** * Requests and responses (webserver/request.c)

    [srv] is what the server works on: the shared data of WebCache.v, the
    connections, the [struct request]s and what has been printed.  The disk is a
    parameter: what stat, open and the calls of read answer for a name, the same
    at each request.  The buffers
    of the functions have MAXLINE or MAXBUF bytes; a string that does not fit is
    written past the end and the model answers [Undef].  malloc does not fail
    here (Malloc exits when it does). *)
From S2P Require Import Prelude Bytes Text StateMonad Rio WebCache.

Definition MAXLINE : Z := 8192.
Definition MAXBUF : Z := 8192.

(** What the server finds under a name: stat fails, the file is not a regular
    one that its owner may read, or it has a size and what read delivers, or
    None when open or close answers -1 (the server need not be the owner).
    posix_fadvise answers an error number, which is never negative: the SYS
    around it does not fail. *)
Inductive disk_file := Absent | Unreadable | Regular (st_size : Z) (content : option (list rd)).

Record conn := Conn { c_in : list rd; c_out : list wr; c_sent : list Z; c_open : bool }.
Record request := Request { rq_fd : Z; rq_data : loc }.
Record srv := Srv { the_web : web; conns : gmap Z conn; requests : gmap loc request; stdout : list Z }.

Definition set_web x s := Srv x (conns s) (requests s) (stdout s).
Definition set_conns x s := Srv (the_web s) x (requests s) (stdout s).
Definition set_requests x s := Srv (the_web s) (conns s) x (stdout s).
Definition print_out l s := Srv (the_web s) (conns s) (requests s) (stdout s ++ l).

Abbreviation SRV := (ST srv).
Definition on_web {A} (m : WEB A) : SRV A := zoom the_web set_web m.

(** A descriptor that is not open makes the system calls fail, which exits. *)
Definition get_conn (fd : Z) : SRV conn :=
  m ← gets conns;
  match m !! fd with
  | Some c => if c_open c then mret c else lift_res (Fail (Exit 1))
  | None => lift_res (Fail (Exit 1))
  end.
Definition set_conn (fd : Z) (c : conn) : SRV unit := modify (fun s => set_conns (<[fd := c]> (conns s)) s).
Definition get_request (rq : loc) : SRV request := m ← gets requests; lift_res (deref (m !! rq)).
Definition upd_data (p : loc) (f : file_data -> file_data) : SRV unit :=
  on_web (d ← get_data p; modify (fun s => set_files (<[p := f d]> (files s)) s)).

Definition Rio_write (fd : Z) (data : list Z) : SRV unit :=
  c ← get_conn fd;
  let '(l, ok, env) := rio_write data (c_out c) in
  _ ← set_conn fd (Conn (c_in c) env (c_sent c ++ l) true);
  if ok : bool then mret tt else lift_res (Fail (Exit 1)).

(** A string that has to fit in a buffer, with its NUL. *)
Definition c_fits (size : Z) (s : list Z) : SRV unit := if zlen s <? size then mret tt else lift_res (Fail Undef).

Definition crlf : list Z := [13; 10].
(** The sum of the bytes in an unsigned int. *)
Definition csum (l : list Z) : Z := fold_left (fun n c => u32 (n + c)) l 0.

(** ** request_error *)

Definition error_body (cause errnum shortmsg longmsg : list Z) : list Z :=
  chars "<html><title>OS Web Server Error</title>" ++
  chars "<body bgcolor=fffff>" ++ crlf ++
  chars "<p>" ++ errnum ++ chars ": " ++ shortmsg ++ chars "</p>" ++ crlf ++
  chars "<p>" ++ longmsg ++ chars ": " ++ cause ++ chars "</p>" ++ crlf ++
  chars "</body></html>" ++ crlf.

(** Rio_write(fd, buf, strlen(buf)); printf("%s", buf); *)
Definition write_print (fd : Z) (l : list Z) : SRV unit := _ ← Rio_write fd l; modify (print_out l).

Definition request_error (fd : Z) (cause errnum shortmsg longmsg : list Z) : SRV unit :=
  let body := error_body cause errnum shortmsg longmsg in
  _ ← c_fits MAXBUF body;
  _ ← write_print fd (chars "HTTP/1.0 " ++ errnum ++ chars " " ++ shortmsg ++ crlf);
  _ ← write_print fd (chars "Content-Type: text/html" ++ crlf);
  _ ← write_print fd (chars "Content-Length: " ++ print_u (zlen body) ++ crlf);
  _ ← write_print fd (chars "Content-Csum: " ++ print_u (csum body) ++ crlf ++ crlf);
  write_print fd body.

(** ** request_init *)

(** The comparison of a buffer with a string: [None] is not initialised. *)
Definition buf_is (buf : buffer) (s : list Z) : res bool := l ← deref buf; Ret (bool_decide (cstr l = s)).

Fixpoint read_headers_loop (fuel : nat) (buf : buffer) (rp : rstream) : res rstream :=
  match fuel with
  | O => Fail Diverge
  | S fuel =>
      b ← buf_is buf crlf;
      if b : bool then Ret rp
      else '(_, buf, rp) ← Rio_readlineb MAXLINE buf rp; read_headers_loop fuel buf rp
  end.
Definition request_read_headers (fuel : nat) (rp : rstream) : res rstream :=
  '(_, buf, rp) ← Rio_readlineb MAXLINE None rp; read_headers_loop fuel buf rp.
(** Every line has a byte. *)
Definition headers_fuel (rp : rstream) : nat := S (S (length (pending rp))).

(** snprintf(filename, max, "./%s", uri) *)
Definition request_parse_URI (uri : list Z) (max : Z) : list Z := take (Z.to_nat (max - 1)) (chars "./" ++ uri).

Definition request_get_file_type (filename : list Z) : list Z :=
  if strstr (chars ".html") filename then chars "text/html"
  else if strstr (chars ".gif") filename then chars "image/gif"
  else if strstr (chars ".jpg") filename then chars "image/jpeg"
  else chars "text/plain".

Definition request_destroy (rq : loc) : SRV unit :=
  r ← get_request rq;
  c ← get_conn (rq_fd r);
  _ ← set_conn (rq_fd r) (Conn (c_in c) (c_out c) (c_sent c) false);
  modify (fun s => set_requests (delete rq (requests s)) s).

(** The words of the request line: sscanf leaves the others as they are. *)
Definition method_of (line : list Z) : option (list Z) := fst <$> scan_word (cstr line).
Definition uri_of (line : list Z) : option (list Z) :=
  '(_, rest) ← scan_word (cstr line); fst <$> scan_word rest.

Definition request_init (connfd : Z) (data : loc) : SRV (option loc) :=
  m ← gets requests;
  let rq := fresh (dom m) in
  _ ← modify (fun s => set_requests (<[rq := Request connfd data]> (requests s)) s);
  _ ← upd_data data (fun _ => FileData (Some []) None 0);
  c ← get_conn connfd;
  let rio := rio_init (c_in c) in
  '(_, buf, rio) ← lift_res (Rio_readlineb MAXLINE None rio);
  line ← lift_res (deref buf);
  method ← lift_res (deref (method_of line));
  if negb (strcaseeq method (chars "GET")) then
    _ ← request_error connfd method (chars "501") (chars "Not Implemented")
          (chars "OS Web Server does not implement this method");
    _ ← request_destroy rq;
    mret None
  else
    rio ← lift_res (request_read_headers (headers_fuel rio) rio);
    uri ← lift_res (deref (uri_of line));
    _ ← upd_data data (fun d => FileData (Some (request_parse_URI uri MAXLINE)) (file_buf d) (file_size d));
    c ← get_conn connfd;
    _ ← set_conn connfd (Conn (incoming rio) (c_out c) (c_sent c) true);
    mret (Some rq).

(** ** request_readfile *)

Section disk.
Context (files_at : list Z -> disk_file).

(** The names that are never served: the message for each. *)
Definition refused (name : list Z) : option (list Z) :=
  if bool_decide (head name = Some 47) then Some (chars "OS Web Server doesn't serve files with absolute paths")
  else if strstr (chars "..") name then Some (chars "OS Web Server doesn't serve files with .. in the path")
  else match strrchr 46 name with
       | Some ext =>
           if bool_decide (ext = chars ".c") || bool_decide (ext = chars ".h")
           then Some (chars "OS Web Server doesn't serve C or header files ") else None
       | None => None
       end.

Definition request_readfile (rq : loc) : SRV bool :=
  r ← get_request rq;
  let data := rq_data r in
  name ← on_web (get_name data);
  match refused name with
  | Some msg => _ ← request_error (rq_fd r) name (chars "404") (chars "Not found") msg; mret false
  | None =>
      match files_at name with
      | Absent =>
          _ ← request_error (rq_fd r) name (chars "404") (chars "Not found") (chars "OS Web Server could not find this file");
          mret false
      | Unreadable =>
          _ ← request_error (rq_fd r) name (chars "403") (chars "Forbidden") (chars "OS Web Server could not read this file");
          mret false
      | Regular st_size content =>
          let size := s32 st_size in
          _ ← upd_data data (fun d => FileData (file_name d) (file_buf d) size);
          if size =? 0 then mret true
          else if size <? 0 then lift_res (Fail (Exit 1))   (* Malloc *)
          else
            match content with
            | None => lift_res (Fail (Exit 1))   (* SYS *)
            | Some content =>
                '(buf, _) ← lift_res (Rio_read size content);
                _ ← upd_data data (fun d => FileData (file_name d) (Some buf) (file_size d));
                mret true
            end
      end
  end.

End disk.

Definition request_set_data (rq data : loc) : SRV unit :=
  r ← get_request rq; modify (fun s => set_requests (<[rq := Request (rq_fd r) data]> (requests s)) s).

(** The bytes of the file, which have to be there. *)
Definition file_bytes (d : file_data) : res (list Z) :=
  if file_size d <=? 0 then Ret []
  else buf ← deref (file_buf d); if file_size d <=? zlen buf then Ret (take (Z.to_nat (file_size d)) buf) else Fail Undef.

Definition response_header (name : list Z) (size sum : Z) : list Z :=
  chars "HTTP/1.0 200 OK" ++ crlf ++
  chars "Server: OS Web Server" ++ crlf ++
  chars "Content-Type: " ++ request_get_file_type name ++ crlf ++
  chars "Content-Length: " ++ print_d size ++ crlf ++
  chars "Content-Csum: " ++ print_u sum ++ crlf ++ crlf.

Definition request_sendfile (rq : loc) : SRV unit :=
  r ← get_request rq;
  d ← on_web (get_data (rq_data r));
  name ← on_web (get_name (rq_data r));
  l ← lift_res (file_bytes d);
  let buf := response_header name (file_size d) (csum l) in
  _ ← c_fits MAXBUF buf;
  _ ← Rio_write (rq_fd r) buf;
  if 0 <? file_size d then Rio_write (rq_fd r) l else mret tt.
