(* ===== verification/WebClient.v ===== *)
(** * The client that tests the server (webserver/client.c)

    client_send writes a request; client_print reads the response and asserts
    that its length and checksum are those of the file it asked for. *)
From S2P Require Import Prelude Bytes Text Rio WebRequest.

(** The request in buf[MAXLINE]. *)
Definition request_text (host filename : list Z) : list Z :=
  chars "GET " ++ filename ++ chars " HTTP/1.0" ++ crlf ++ chars "host: " ++ host ++ crlf ++ crlf.

(** What client_send writes; a request that does not fit in the buffer is
    written past its end. *)
Definition client_send (host filename : list Z) : res (list Z) :=
  let buf := request_text host filename in
  if zlen buf <? MAXLINE then Ret (cstr buf) else Fail Undef.

(** sscanf(buf, "tag %d ", &n) == 1: the number, if there is one. *)
Definition scan_tag (tag : list Z) (buf : list Z) : option (bool * Z) :=
  rest ← prefix_of tag (cstr buf); '(neg, n, _) ← scan_number rest; Some (neg, n).

(** An int that sscanf can store. *)
Definition tag_int (buf : list Z) (length : Z) : res Z :=
  match scan_tag (chars "Content-Length:") buf with
  | Some (neg, n) =>
      let z := if neg : bool then - n else n in
      if (- 2 ^ 31 <=? z) && (z <? 2 ^ 31) then Ret z else Fail Undef
  | None => Ret length
  end.
Definition tag_uint (buf : list Z) (sum : Z) : res Z :=
  match scan_tag (chars "Content-Csum:") buf with
  | Some (neg, n) => if n <? 2 ^ 32 then Ret (if neg : bool then u32 (- n) else n) else Fail Undef
  | None => Ret sum
  end.

(** The HTTP header: the values of the tags and the stream after it. *)
Fixpoint header_loop (fuel : nat) (n : Z) (buf : buffer) (length sum : Z) (rp : rstream) : res (Z * Z * buffer * rstream) :=
  match fuel with
  | O => Fail Diverge
  | S fuel =>
      b ← buf_is buf crlf;
      if b || (n <=? 0) then Ret (length, sum, buf, rp)
      else
        '(n, buf, rp) ← Rio_readlineb MAXBUF buf rp;
        l ← deref buf;
        length ← tag_int l length;
        sum ← tag_uint l sum;
        header_loop fuel n buf length sum rp
  end.

(** The HTTP body: its length and its checksum. *)
Fixpoint body_loop (fuel : nat) (buf : buffer) (length sum : Z) (rp : rstream) : res (Z * Z) :=
  match fuel with
  | O => Fail Diverge
  | S fuel =>
      '(n, buf, rp) ← Rio_readlineb MAXBUF buf rp;
      if 0 <? n then
        l ← deref buf;
        length ← (if length + n <? 2 ^ 31 then Ret (length + n) else Fail Undef);
        body_loop fuel buf length (fold_left (fun s c => u32 (s + c)) (take (Z.to_nat n) l) sum) rp
      else Ret (length, sum)
  end.

Definition client_print (env : list rd) (orig_csum orig_length : Z) : res unit :=
  let rio := rio_init env in
  let fuel := S (S (List.length (pending rio))) in
  '(n, buf, rio) ← Rio_readlineb MAXBUF None rio;
  '(length, sum, buf, rio) ← header_loop fuel n buf 0 0 rio;
  '(length_received, csum_received) ← body_loop fuel buf 0 0 rio;
  _ ← c_assert (orig_csum =? sum);
  _ ← c_assert (orig_length =? length);
  _ ← c_assert (length =? length_received);
  c_assert (sum =? csum_received).
