(* ===== verification/WebServer.v ===== *)
(** * Serving one connection (webserver/server_thread.c)

    [do_server_request] as one thread runs it while no other thread works on
    the shared data, as when the server has no worker threads; WebWorkers.v
    cuts it into the pieces between which other workers can run. *)
From S2P Require Import Prelude Bytes Text StateMonad Rio WebCache WebRequest.

Section server.
Context (files_at : list Z -> disk_file).

(** free(data): the name and the buffer leak. *)
Definition free_shallow (data : loc) : SRV unit := on_web (free_data data).
Definition file_data_free (data : loc) : SRV unit := on_web (free_data data).

(** A cached file takes the place of the request's own. *)
Definition use_cached (rq data : loc) : SRV loc :=
  file ← on_web (getCachedFile data);
  file ← lift_res (deref file);
  _ ← request_set_data rq file;
  _ ← free_shallow data;
  mret file.

(** From the file in flight to the label done. *)
Definition send_in_flight (rq data : loc) : SRV unit :=
  _ ← on_web (add_to_queue data);
  _ ← request_sendfile rq;
  name ← on_web (get_name data);
  found ← on_web (remove_from_queue name);
  _ ← lift_res (deref found);   (* foundFile->file_lock *)
  request_destroy rq.

Definition do_server_request (connfd : Z) : SRV unit :=
  data ← on_web file_data_init;
  rq ← request_init connfd data;
  match rq with
  | None => file_data_free data
  | Some rq =>
      wc ← gets (fun s => fileCache (the_web s));
      match wc with
      | None =>
          ret ← request_readfile files_at rq;
          _ ← (if ret : bool then request_sendfile rq else mret tt);
          _ ← request_destroy rq;
          file_data_free data
      | Some _ =>
          hit ← on_web (cache_lookup data);
          if hit : bool then data ← use_cached rq data; send_in_flight rq data
          else
            ret ← request_readfile files_at rq;
            if negb ret then
              (* out: *)
              _ ← request_destroy rq;
              _ ← file_data_free data;
              (* done: *)
              request_destroy rq
            else
              hit ← on_web (cache_lookup data);
              if hit : bool then data ← use_cached rq data; send_in_flight rq data
              else
                _ ← on_web (cache_insert data);
                send_in_flight rq data
      end
  end.

(** server_request without worker threads, for each connection in turn. *)
Fixpoint serve_all (fds : list Z) : SRV unit :=
  match fds with [] => mret tt | fd :: fds => _ ← do_server_request fd; serve_all fds end.

End server.
