(* ===== verification/WebRequestSpec.v ===== *)
(** * How requests and responses are read and written *)
From S2P Require Import Prelude Bytes Text StateMonad Rio WebCache WebCacheSpec WebRequest WebClient.

(** ** Lines *)

(** A line that ends in its newline. *)
Definition is_line (l : list Z) : Prop := exists l', l = l' ++ [10] /\ 10 ∉ l'.

Lemma line_of_line room l rest : is_line l -> (length l <= room)%nat -> line_of room (l ++ rest) = l.
Proof.
  intros (l' & -> & Hn) Hr. rewrite <- app_assoc. cbn [app]. rewrite length_app in Hr. cbn in Hr. revert room Hr.
  induction l' as [|c l' IH]; intros [|room] Hr; cbn in Hr; [lia|done|lia|]. cbn [app line_of].
  rewrite not_elem_of_cons in Hn. destruct Hn as [Hc Hn]. rewrite (proj2 (Z.eqb_neq c 10)) by congruence.
  f_equal. apply IH; [done|lia].
Qed.

Lemma is_line_crlf l : 10 ∉ l -> is_line (l ++ crlf).
Proof. intros Hn. exists (l ++ [13]). rewrite <- app_assoc. split; [done|]. set_solver. Qed.

Lemma Rio_readlineb_line maxlen buf rp l rest :
  good_env (incoming rp) -> pending rp = l ++ rest -> is_line l -> zlen l < maxlen ->
  exists rp', Rio_readlineb maxlen buf rp = Ret (zlen l, Some l, rp') /\ good_env (incoming rp') /\ pending rp' = rest.
Proof.
  intros Hg Ep Hl Hlen. destruct (readline_loop_good (Z.to_nat maxlen) rp Hg) as (rp' & E & Hg' & Ep').
  rewrite Ep, line_of_line in E by (try done; unfold zlen in *; lia). rewrite Ep, line_of_line in Ep' by (try done; unfold zlen in *; lia).
  apply app_inv_head in Ep'. exists rp'. unfold Rio_readlineb. rewrite E. rewrite (proj2 (Z.ltb_lt _ _)) by done.
  destruct Hl as (l' & -> & _). by destruct l'.
Qed.

Lemma Rio_readlineb_end maxlen buf rp :
  good_env (incoming rp) -> pending rp = [] ->
  exists rp', Rio_readlineb maxlen buf rp = Ret (0, buf, rp') /\ good_env (incoming rp') /\ pending rp' = [].
Proof.
  intros Hg Ep. destruct (readline_loop_good (Z.to_nat maxlen) rp Hg) as (rp' & E & Hg' & Ep'). rewrite Ep in *.
  assert (El : line_of (Z.to_nat maxlen) [] = []) by (by destruct (Z.to_nat maxlen)). rewrite El in *.
  exists rp'. unfold Rio_readlineb. by rewrite E.
Qed.

(** ** The headers of a request *)

Lemma buf_is_Some l s : buf_is (Some l) s = Ret (bool_decide (cstr l = s)).
Proof. done. Qed.

(** The lines up to and with an empty one are read. *)
Lemma read_headers_run hs fuel l rp rest :
  good_env (incoming rp) -> pending rp = concat hs ++ crlf ++ rest -> (length hs + 2 <= fuel)%nat ->
  Forall (fun h => is_line h /\ zlen h < MAXLINE /\ cstr h <> crlf) (l :: hs) ->
  exists rp', read_headers_loop fuel (Some l) rp = Ret rp' /\ good_env (incoming rp') /\ pending rp' = rest.
Proof.
  revert fuel l rp. induction hs as [|h hs IH]; intros fuel l rp Hg Ep Hf Hall; destruct fuel as [|fuel]; cbn [length] in Hf; try lia;
    apply Forall_cons in Hall as [(_ & _ & Hl) Hall]; cbn [read_headers_loop]; rewrite buf_is_Some, bool_decide_eq_false_2 by done;
    rewrite bind_ret; cbv iota.
  - destruct (Rio_readlineb_line MAXLINE (Some l) rp crlf rest Hg Ep) as (rp1 & E & Hg1 & Ep1); [by exists [13]; split; [|set_solver]|done|].
    rewrite E, bind_ret. destruct fuel as [|fuel]; [lia|]. cbn [read_headers_loop]. rewrite buf_is_Some. by exists rp1.
  - pose proof Hall as [(Hh & Hs & _) _]%Forall_cons. cbn [concat] in Ep. rewrite <- app_assoc in Ep.
    destruct (Rio_readlineb_line MAXLINE (Some l) rp h _ Hg Ep Hh Hs) as (rp1 & E & Hg1 & Ep1).
    rewrite E, bind_ret. apply IH; [done|done|lia|done].
Qed.

(** Without an empty line the loop goes on after the end of the input. *)
Lemma read_headers_hang hs fuel l rp :
  good_env (incoming rp) -> pending rp = concat hs ->
  Forall (fun h => is_line h /\ zlen h < MAXLINE /\ cstr h <> crlf) (l :: hs) ->
  read_headers_loop fuel (Some l) rp = Fail Diverge.
Proof.
  revert l rp hs. induction fuel as [|fuel IH]; intros l rp hs Hg Ep Hall; [done|]. pose proof Hall as [(_ & _ & Hl) Hhs]%Forall_cons.
  cbn [read_headers_loop]. rewrite buf_is_Some, bool_decide_eq_false_2 by done. rewrite bind_ret. cbv iota. destruct hs as [|h hs].
  - destruct (Rio_readlineb_end MAXLINE (Some l) rp Hg Ep) as (rp1 & E & Hg1 & Ep1). rewrite E, bind_ret. by apply (IH l rp1 []).
  - pose proof Hhs as [(Hh & Hs & _) _]%Forall_cons.
    destruct (Rio_readlineb_line MAXLINE (Some l) rp h _ Hg Ep Hh Hs) as (rp1 & E & Hg1 & Ep1). rewrite E, bind_ret. by apply (IH h rp1 hs).
Qed.

(** ** The run of the operations on the state *)

Lemma bind_mret {S A} (m : ST S A) s : (m ≫= mret) s = m s.
Proof. unfold mbind, st_bind. by destruct (m s) as [[]|]. Qed.

Lemma on_web_run {A B} (m : WEB A) (f : A -> SRV B) s a w : m (the_web s) = Ret (a, w) -> (on_web m ≫= f) s = f a (set_web w s).
Proof. intros E. unfold on_web, zoom, mbind, st_bind. by rewrite E. Qed.

Lemma on_web_run1 {A} (m : WEB A) s a w : m (the_web s) = Ret (a, w) -> on_web m s = Ret (a, set_web w s).
Proof. intros E. unfold on_web, zoom. by rewrite E. Qed.

Lemma get_conn_run {B} (f : conn -> SRV B) s fd c : conns s !! fd = Some c -> c_open c = true -> (get_conn fd ≫= f) s = f c s.
Proof. intros E Ho. unfold get_conn. rewrite run_assoc, run_gets, E, Ho. done. Qed.

Lemma get_request_run {B} (f : request -> SRV B) s rq r : requests s !! rq = Some r -> (get_request rq ≫= f) s = f r s.
Proof. intros E. unfold get_request. rewrite run_assoc, run_gets, E. done. Qed.

Lemma upd_data_run {B} (f : unit -> SRV B) g s p d :
  files (the_web s) !! p = Some d ->
  (upd_data p g ≫= f) s = f tt (set_web (set_files (<[p := g d]> (files (the_web s))) (the_web s)) s).
Proof. intros E. unfold upd_data. apply on_web_run. by rewrite (get_data_run _ _ _ _ E). Qed.

Lemma Rio_write_run {B} (f : unit -> SRV B) s fd c l :
  conns s !! fd = Some c -> c_open c = true -> Forall good_wr (c_out c) ->
  exists env, Forall good_wr env /\
    (Rio_write fd l ≫= f) s = f tt (set_conns (<[fd := Conn (c_in c) env (c_sent c ++ l) true]> (conns s)) s).
Proof.
  intros E Ho Hg. destruct (rio_write_all l (c_out c) Hg) as (env & Ew & Hg'). exists env. split; [done|].
  unfold Rio_write. rewrite run_assoc, (get_conn_run _ _ _ _ E Ho), Ew. cbv beta iota. by rewrite run_assoc.
Qed.

Lemma c_fits_run {B} (f : unit -> SRV B) s size l : zlen l < size -> (c_fits size l ≫= f) s = f tt s.
Proof. intros H. unfold c_fits. by rewrite (proj2 (Z.ltb_lt _ _)). Qed.

Lemma request_destroy_run s rq r c :
  requests s !! rq = Some r -> conns s !! rq_fd r = Some c -> c_open c = true ->
  request_destroy rq s = Ret (tt, set_requests (delete rq (requests s))
    (set_conns (<[rq_fd r := Conn (c_in c) (c_out c) (c_sent c) false]> (conns s)) s)).
Proof.
  intros Er Ec Ho. unfold request_destroy. rewrite (get_request_run _ _ _ _ Er), (get_conn_run _ _ _ _ Ec Ho). done.
Qed.

(** ** A request *)

Definition header_line (h : list Z) : Prop := is_line h /\ zlen h < MAXLINE /\ cstr h <> crlf.

(** The bytes of a GET request for [uri]. *)
Definition get_request_text (text uri : list Z) : Prop :=
  exists l hs rest m, text = l ++ concat hs ++ crlf ++ rest /\ is_line l /\ zlen l < MAXLINE /\ Forall header_line hs /\
    method_of l = Some m /\ strcaseeq m (chars "GET") = true /\ uri_of l = Some uri.

Lemma request_read_headers_run hs fuel rp rest :
  good_env (incoming rp) -> pending rp = concat hs ++ crlf ++ rest -> Forall header_line hs -> (length hs + 2 <= fuel)%nat ->
  exists rp', request_read_headers fuel rp = Ret rp' /\ good_env (incoming rp') /\ pending rp' = rest.
Proof.
  intros Hg Ep Hall Hf. unfold request_read_headers. destruct hs as [|h hs].
  - destruct (Rio_readlineb_line MAXLINE None rp crlf rest Hg Ep) as (rp1 & E & Hg1 & Ep1); [by exists [13]; split; [|set_solver]|done|].
    rewrite E, bind_ret. destruct fuel as [|fuel]; [cbn in Hf; lia|]. cbn [read_headers_loop]. rewrite buf_is_Some. by exists rp1.
  - pose proof Hall as [(Hh & Hs & _) _]%Forall_cons. cbn [concat] in Ep. rewrite <- app_assoc in Ep.
    destruct (Rio_readlineb_line MAXLINE None rp h _ Hg Ep Hh Hs) as (rp1 & E & Hg1 & Ep1).
    rewrite E, bind_ret. cbn [length] in Hf. apply (read_headers_run hs); [done|done|lia|done].
Qed.

Lemma concat_lines_length hs : Forall header_line hs -> (length hs <= length (concat hs))%nat.
Proof.
  induction 1 as [|h hs ((l & -> & _) & _) _ IH]; [done|]. cbn [concat length]. rewrite !length_app. cbn. lia.
Qed.

Lemma request_init_run s fd data c d uri (rq := fresh (dom (requests s))) :
  conns s !! fd = Some c -> c_open c = true -> good_env (c_in c) -> get_request_text (arriving (c_in c)) uri ->
  files (the_web s) !! data = Some d ->
  exists env, request_init fd data s =
    Ret (Some rq, Srv (set_files (<[data := FileData (Some (request_parse_URI uri MAXLINE)) None 0]> (files (the_web s))) (the_web s))
                      (<[fd := Conn env (c_out c) (c_sent c) true]> (conns s)) (<[rq := Request fd data]> (requests s)) (stdout s)).
Proof.
  intros Ec Ho Hg (l & hs & rest & m & Et & Hl & Hlen & Hhs & Em & Hget & Eu) Ed.
  unfold request_init. st_run. fold rq. set (s1 := set_requests _ s).
  rewrite (upd_data_run _ _ s1 data d Ed). cbv beta. set (w1 := set_files _ _). set (s2 := set_web w1 s1).
  rewrite (get_conn_run _ s2 fd c Ec Ho).
  destruct (Rio_readlineb_line MAXLINE None (rio_init (c_in c)) l (concat hs ++ crlf ++ rest)) as (rp1 & E1 & Hg1 & Ep1); [done..|].
  rewrite (run_lift _ _ _ _ E1). cbv iota. rewrite (run_lift l) by done. cbv beta. rewrite (run_lift m) by (by rewrite Em).
  rewrite Hget. cbn [negb]. cbv iota.
  destruct (request_read_headers_run hs (headers_fuel rp1) rp1 rest Hg1 Ep1 Hhs) as (rp2 & E2 & Hg2 & Ep2).
  { unfold headers_fuel. rewrite Ep1. rewrite length_app. pose proof (concat_lines_length hs Hhs). cbn. lia. }
  rewrite (run_lift _ _ _ _ E2). rewrite (run_lift uri) by (by rewrite Eu).
  rewrite (upd_data_run _ _ s2 data (FileData (Some []) None 0)) by (cbn; by rewrite lookup_insert_eq).
  rewrite (get_conn_run _ _ fd c) by done. exists (incoming rp2). unfold set_conn. st_run. do 2 f_equal.
  unfold set_conns, set_web, set_files, s2, w1. cbn. by rewrite insert_insert_eq.
Qed.

(** The request that the client sends. *)
Definition plain (name : list Z) : Prop := name <> [] /\ Forall (fun c => isspace c = false /\ c <> 0) name.

Lemma chars_nonzero_app l l' : Forall (fun c => c <> 0) l -> Forall (fun c => c <> 0) l' -> Forall (fun c => c <> 0) (l ++ l').
Proof. intros. by apply Forall_app. Qed.

Lemma client_request host filename text :
  client_send host filename = Ret text -> plain filename -> Forall (fun c => c <> 0 /\ c <> 10) host ->
  get_request_text text filename.
Proof.
  intros Hsend [Hne Hpl] Hhost. unfold client_send in Hsend. destruct (Z.ltb_spec (zlen (request_text host filename)) MAXLINE) as [Hlen|]; [|done].
  set (l := chars "GET " ++ filename ++ chars " HTTP/1.0" ++ crlf). set (h := chars "host: " ++ host ++ crlf).
  assert (Hnz : Forall (fun c => c <> 0) l).
  { unfold l. repeat (apply Forall_app; split); try (by apply (bool_decide_unpack _)). eapply Forall_impl; [exact Hpl|by intros ? []]. }
  assert (Hnh : Forall (fun c => c <> 0) h).
  { unfold h. repeat (apply Forall_app; split); try (by apply (bool_decide_unpack _)). eapply Forall_impl; [exact Hhost|by intros ? []]. }
  assert (Et : request_text host filename = l ++ h ++ crlf) by (unfold request_text, l, h; by rewrite <- !app_assoc).
  rewrite Et in Hsend, Hlen. rewrite cstr_id in Hsend by
    (apply Forall_app; split; [exact Hnz|apply Forall_app; split; [exact Hnh|by apply (bool_decide_unpack _)]]).
  injection Hsend as <-. unfold zlen in Hlen. rewrite !length_app in Hlen.
  assert (Hn10 : 10 ∉ filename).
  { intros Hin. rewrite Forall_forall in Hpl. by destruct (Hpl _ Hin). }
  assert (Hh10 : 10 ∉ host).
  { intros Hin. rewrite Forall_forall in Hhost. by destruct (Hhost _ Hin). }
  exists l, [h], [], (chars "GET"). split_and!.
  - by rewrite app_nil_r; cbn; rewrite app_nil_r.
  - unfold l. rewrite !app_assoc. apply is_line_crlf. rewrite !not_elem_of_app. split_and!; [by apply (bool_decide_unpack _)|done|by apply (bool_decide_unpack _)].
  - unfold zlen. lia.
  - repeat constructor; [|unfold zlen; lia|].
    + unfold h. rewrite app_assoc. apply is_line_crlf. rewrite not_elem_of_app. split; [by apply (bool_decide_unpack _)|done].
    + by rewrite cstr_id.
  - unfold method_of. rewrite cstr_id by done. done.
  - done.
  - unfold uri_of. rewrite cstr_id by done.
    assert (E1 : scan_word l = Some (chars "GET", 32 :: filename ++ chars " HTTP/1.0" ++ crlf)) by done. rewrite E1. cbn [mbind option_bind].
    assert (E2 : forall s, scan_word (32 :: s) = scan_word s) by done. rewrite E2.
    change (chars " HTTP/1.0" ++ crlf) with (32 :: chars "HTTP/1.0" ++ crlf).
    rewrite scan_word_app; [done|done| |done]. eapply Forall_impl; [exact Hpl|by intros ? []].
Qed.

(** ** A response *)

Definition response (name body : list Z) : list Z := response_header name (zlen body) (csum body) ++ body.

Lemma csum_range l : 0 <= csum l < 2 ^ 32.
Proof.
  unfold csum. assert (Hgen : forall z, 0 <= z < 2 ^ 32 -> 0 <= fold_left (fun n c => u32 (n + c)) l z < 2 ^ 32); [|by apply Hgen].
  induction l as [|c l IH]; intros z Hz; [done|]. cbn [fold_left]. apply IH, u32_range.
Qed.

Lemma file_type_cases name :
  request_get_file_type name ∈ [chars "text/html"; chars "image/gif"; chars "image/jpeg"; chars "text/plain"].
Proof. unfold request_get_file_type. repeat case_match; set_solver. Qed.

Lemma response_header_fits name size sum : 0 <= size < 2 ^ 31 -> 0 <= sum < 2 ^ 32 -> zlen (response_header name size sum) < MAXBUF.
Proof.
  intros Hs Hc. unfold response_header, zlen. rewrite print_d_nonneg by lia. pose proof (length_print_u size ltac:(lia)). pose proof (length_print_u sum ltac:(lia)).
  rewrite !length_app. assert (Hf : (length (request_get_file_type name) <= 10)%nat).
  { pose proof (file_type_cases name) as Ht. repeat (apply elem_of_cons in Ht as [->|Ht]; [by apply (bool_decide_unpack _)|]). by apply not_elem_of_nil in Ht. }
  change (length crlf) with 2%nat. unfold MAXBUF.
  repeat match goal with |- context [length (chars ?x)] => let n := eval vm_compute in (length (chars x)) in change (length (chars x)) with n end.
  lia.
Qed.

Lemma file_bytes_len d l : file_bytes d = Ret l -> 0 <= file_size d -> zlen l = file_size d.
Proof.
  unfold file_bytes. intros H Hd. destruct (Z.leb_spec (file_size d) 0); [injection H as <-; unfold zlen; cbn; lia|].
  destruct (file_buf d) as [buf|]; [|done]. cbn [deref mbind res_bind] in H. destruct (Z.leb_spec (file_size d) (zlen buf)); [|done].
  injection H as <-. unfold zlen in *. rewrite length_take. lia.
Qed.

Lemma request_sendfile_run s rq fd p d name c l :
  requests s !! rq = Some (Request fd p) -> files (the_web s) !! p = Some d -> file_name d = Some name ->
  0 <= file_size d < 2 ^ 31 -> file_bytes d = Ret l ->
  conns s !! fd = Some c -> c_open c = true -> Forall good_wr (c_out c) ->
  exists env, Forall good_wr env /\
    request_sendfile rq s = Ret (tt, set_conns (<[fd := Conn (c_in c) env (c_sent c ++ response name l) true]> (conns s)) s).
Proof.
  intros Er Ed En Hs El Ec Ho Hg. unfold request_sendfile. rewrite (get_request_run _ _ _ _ Er). cbn [rq_data rq_fd].
  assert (Eg : get_data p (the_web s) = Ret (d, the_web s)) by (unfold get_data; st_run; by rewrite Ed).
  assert (Egn : get_name p (the_web s) = Ret (name, the_web s)) by (unfold get_name; rewrite (bind_run _ _ _ _ _ Eg), En; done).
  assert (Hid : set_web (the_web s) s = s) by (by destruct s).
  rewrite (on_web_run _ _ _ _ _ Eg), Hid, (on_web_run _ _ _ _ _ Egn), Hid. rewrite (run_lift _ _ _ _ El).
  pose proof (file_bytes_len d l El ltac:(lia)) as Hz. unfold response. rewrite Hz.
  rewrite c_fits_run by (apply response_header_fits; [lia|apply csum_range]).
  destruct (Rio_write_run (fun _ : unit => if 0 <? file_size d then Rio_write fd l else mret tt) s fd c (response_header name (file_size d) (csum l)) Ec Ho Hg)
    as (env & Hge & E). rewrite E. destruct (Z.ltb_spec 0 (file_size d)).
  - set (c1 := Conn (c_in c) env (c_sent c ++ response_header name (file_size d) (csum l)) true).
    set (s1 := set_conns _ s). destruct (Rio_write_run mret s1 fd c1 l) as (env2 & Hg2 & E2); [apply lookup_insert_eq|done|done|].
    exists env2. split; [done|]. rewrite bind_mret in E2. rewrite E2. unfold s1, set_conns. cbn.
    by rewrite insert_insert_eq, <- app_assoc.
  - exists env. split; [done|]. assert (l = []) as -> by (destruct l; [done|unfold zlen in Hz; cbn in Hz; lia]). by rewrite app_nil_r.
Qed.

(** ** The client reads a response *)

(** No line of the body fills the buffer of the client; [k] bytes of the
    current line were seen. *)
Fixpoint short_lines (k : Z) (l : list Z) : bool :=
  match l with
  | [] => true
  | c :: l => (k + 1 <? MAXBUF) && short_lines (if c =? 10 then 0 else k + 1) l
  end.

(** The next line either leaves room for the NUL, or fills the buffer. *)
Lemma line_of_split room l k :
  0 <= k < MAXBUF -> room = Z.to_nat (MAXBUF - k) -> l <> [] ->
  (exists rest, l = line_of room l ++ rest /\ line_of room l <> [] /\ k + zlen (line_of room l) < MAXBUF /\
     short_lines k l = short_lines 0 rest) \/
  (k + zlen (line_of room l) = MAXBUF /\ short_lines k l = false).
Proof.
  revert room k. induction l as [|c l IH]; intros room k Hk -> Hl; [done|]. cbn [short_lines].
  replace (Z.to_nat (MAXBUF - k)) with (S (Z.to_nat (MAXBUF - (k + 1)))) by lia. cbn [line_of].
  destruct (Z.ltb_spec (k + 1) MAXBUF) as [Hk1|Hk1]; cbn [andb].
  - destruct (c =? 10) eqn:Ec; [left; exists l; split_and!; try done; cbn; lia|].
    destruct l as [|c' l]; [left; exists []; destruct (Z.to_nat _); split_and!; try done; cbn; lia|].
    destruct (IH _ (k + 1) ltac:(lia) eq_refl ltac:(done)) as [(rest & E & Hn & Hlen & Hs')|[Hlen Hs']]; [left|right].
    + exists rest. split_and!; [by rewrite <- app_comm_cons, <- E|done|rewrite zlen_cons; lia|done].
    + split; [rewrite zlen_cons; lia|done].
  - right. split; [|done]. replace (Z.to_nat (MAXBUF - (k + 1))) with 0%nat by lia.
    assert (Hone : (if c =? 10 then [c] else c :: line_of 0 l) = [c]) by (by destruct (c =? 10)).
    rewrite Hone. change (zlen [c]) with 1. lia.
Qed.

Lemma Rio_readlineb_body buf rp l :
  good_env (incoming rp) -> pending rp = l -> l <> [] ->
  (exists line rest rp', Rio_readlineb MAXBUF buf rp = Ret (zlen line, Some line, rp') /\ good_env (incoming rp') /\
     l = line ++ rest /\ line <> [] /\ pending rp' = rest /\ short_lines 0 l = short_lines 0 rest) \/
  (Rio_readlineb MAXBUF buf rp = Fail Undef /\ short_lines 0 l = false).
Proof.
  intros Hg Ep Hl. destruct (readline_loop_good (Z.to_nat MAXBUF) rp Hg) as (rp' & Er & Hg' & Ep'). rewrite Ep in *.
  unfold Rio_readlineb. rewrite Er.
  destruct (line_of_split (Z.to_nat MAXBUF) l 0) as [(rest & E & Hn & Hlen & Hs')|[Hlen Hs']]; [done|done|done|left|right].
  - exists (line_of (Z.to_nat MAXBUF) l), rest, rp'. rewrite (proj2 (Z.ltb_lt _ _)) by lia.
    rewrite E in Ep' at 1. apply app_inv_head in Ep'. by destruct (line_of (Z.to_nat MAXBUF) l) as [|c line].
  - rewrite (proj2 (Z.ltb_ge _ _)) by lia. by destruct (line_of (Z.to_nat MAXBUF) l) as [|c line].
Qed.

(** The body is read to its end, or a line of it fills the buffer. *)
Lemma body_loop_run fuel buf len sum rp l :
  good_env (incoming rp) -> pending rp = l -> (length l < fuel)%nat -> 0 <= len -> len + zlen l < 2 ^ 31 ->
  body_loop fuel buf len sum rp =
  if short_lines 0 l then Ret (len + zlen l, fold_left (fun s c => u32 (s + c)) l sum) else Fail Undef.
Proof.
  revert buf len sum rp l. induction fuel as [|fuel IH]; intros buf len sum rp l Hg Ep Hf Hlen Hb; [lia|]. cbn [body_loop].
  destruct l as [|c l].
  - destruct (Rio_readlineb_end MAXBUF buf rp Hg Ep) as (rp' & -> & _). cbn. by rewrite Z.add_0_r.
  - destruct (Rio_readlineb_body buf rp (c :: l) Hg Ep ltac:(done)) as [(line & rest & rp' & -> & Hg' & E & Hn & Ep' & ->)|[-> ->]]; [|done].
    rewrite bind_ret. cbv iota beta. rewrite E in *. unfold zlen in *. rewrite length_app in *.
    destruct line as [|c' line]; [done|]. rewrite (proj2 (Z.ltb_lt 0 _)) by (cbn; lia). cbn [deref]. rewrite bind_ret.
    rewrite (proj2 (Z.ltb_lt _ _)) by lia. rewrite bind_ret. rewrite Nat2Z.id, firstn_all.
    rewrite (IH _ _ _ rp' rest) by (try done; cbn in *; lia). destruct (short_lines 0 rest); [|done].
    rewrite fold_left_app. do 2 f_equal. lia.
Qed.

(** One line of the header. *)
Lemma header_step fuel n l0 len sum rp l rest len' sum' :
  good_env (incoming rp) -> pending rp = l ++ rest -> is_line l -> zlen l < MAXBUF -> cstr l0 <> crlf -> 0 < n ->
  tag_int l len = Ret len' -> tag_uint l sum = Ret sum' ->
  exists rp', header_loop (S fuel) n (Some l0) len sum rp = header_loop fuel (zlen l) (Some l) len' sum' rp' /\
    good_env (incoming rp') /\ pending rp' = rest.
Proof.
  intros Hg Ep Hl Hlen Hne Hn Hti Htu. destruct (Rio_readlineb_line MAXBUF (Some l0) rp l rest Hg Ep Hl Hlen) as (rp' & E & Hg' & Ep').
  exists rp'. split; [|done]. cbn [header_loop]. rewrite buf_is_Some, bool_decide_eq_false_2 by done. rewrite bind_ret.
  rewrite (proj2 (Z.leb_gt _ _)) by lia. cbn [orb]. rewrite E, bind_ret. cbn [deref]. rewrite bind_ret, Hti, bind_ret, Htu, bind_ret. done.
Qed.

Definition length_line (n : Z) : list Z := chars "Content-Length: " ++ print_u n ++ crlf.
Definition csum_line (n : Z) : list Z := chars "Content-Csum: " ++ print_u n ++ crlf.

Lemma digits_not n (l : list Z) (P : Z -> Prop) : 0 <= n -> (forall c, isdigit c = true -> P c) -> Forall P l -> Forall P (print_u n ++ l).
Proof.
  intros Hn HP Hl. apply Forall_app. split; [|done]. eapply Forall_impl; [by apply print_u_digits|done].
Qed.

Lemma digit_nonzero c : isdigit c = true -> c <> 0.
Proof. unfold isdigit. intros H ->. done. Qed.
Lemma digit_not_newline c : isdigit c = true -> c <> 10.
Proof. unfold isdigit. intros H ->. done. Qed.

Lemma number_line (p : list Z) n :
  0 <= n < 2 ^ 32 -> Forall (fun c => c <> 0 /\ c <> 10) p -> zlen p < 100 -> (exists c p', p = c :: p' /\ c <> 13) ->
  let l := p ++ print_u n ++ crlf in
  is_line l /\ zlen l < MAXBUF /\ cstr l = l /\ l <> crlf.
Proof.
  intros Hn Hp Hlen (c & p' & -> & Hc). cbv zeta. split_and!.
  - rewrite app_assoc. apply is_line_crlf. rewrite not_elem_of_app. split.
    + intros Hin. rewrite Forall_forall in Hp. by destruct (Hp _ Hin).
    + intros Hin. pose proof (print_u_digits n ltac:(lia)) as Hd. rewrite Forall_forall in Hd. by apply (digit_not_newline 10); [apply Hd|].
  - unfold zlen in *. rewrite !length_app. pose proof (length_print_u n Hn). unfold MAXBUF. cbn in *. lia.
  - apply cstr_id. apply Forall_app. split; [eapply Forall_impl; [exact Hp|by intros ? []]|].
    apply digits_not; [lia|apply digit_nonzero|by apply (bool_decide_unpack _)].
  - cbn. intros [= -> _]. done.
Qed.

Lemma scan_tag_number (tag : list Z) n :
  0 <= n < 2 ^ 32 -> Forall (fun c => c <> 0 /\ c <> 10) tag ->
  cstr ((tag ++ [32]) ++ print_u n ++ crlf) = (tag ++ [32]) ++ print_u n ++ crlf ->
  scan_tag tag ((tag ++ [32]) ++ print_u n ++ crlf) = Some (false, n).
Proof.
  intros Hn Ht E. unfold scan_tag. rewrite E, <- app_assoc, prefix_of_app. cbn [mbind option_bind app].
  assert (Esp : forall s, scan_number (32 :: s) = scan_number s) by done. rewrite Esp, scan_print by (try lia; done). done.
Qed.

(** The header of a response gives the length and the checksum. *)
Lemma header_run name size sum rp rest n fuel :
  0 <= size < 2 ^ 31 -> 0 <= sum < 2 ^ 32 -> good_env (incoming rp) -> 0 < n -> (6 <= fuel)%nat ->
  pending rp = (chars "Server: OS Web Server" ++ crlf) ++ (chars "Content-Type: " ++ request_get_file_type name ++ crlf) ++
    length_line size ++ csum_line sum ++ crlf ++ rest ->
  exists rp', header_loop fuel n (Some (chars "HTTP/1.0 200 OK" ++ crlf)) 0 0 rp = Ret (size, sum, Some crlf, rp') /\
    good_env (incoming rp') /\ pending rp' = rest.
Proof.
  intros Hs Hc Hg Hn Hf Ep. do 6 (destruct fuel as [|fuel]; [lia|]).
  destruct (number_line (chars "Content-Length: ") size) as (Hl4 & Hz4 & Ec4 & Hn4);
    [lia|by apply (bool_decide_unpack _)|done|by eexists _, _|].
  destruct (number_line (chars "Content-Csum: ") sum) as (Hl5 & Hz5 & Ec5 & Hn5);
    [lia|by apply (bool_decide_unpack _)|done|by eexists _, _|].
  fold (length_line size) in *. fold (csum_line sum) in *.
  assert (Ht4 : tag_int (length_line size) 0 = Ret size).
  { unfold tag_int. change (length_line size) with ((chars "Content-Length:" ++ [32]) ++ print_u size ++ crlf).
    rewrite (scan_tag_number (chars "Content-Length:") size) by (try lia; try done; by apply (bool_decide_unpack _)).
    cbv zeta iota. by rewrite (proj2 (Z.leb_le _ _)), (proj2 (Z.ltb_lt _ _)) by lia. }
  assert (Ht5 : tag_uint (csum_line sum) 0 = Ret sum).
  { unfold tag_uint. change (csum_line sum) with ((chars "Content-Csum:" ++ [32]) ++ print_u sum ++ crlf).
    rewrite (scan_tag_number (chars "Content-Csum:") sum) by (try lia; try done; by apply (bool_decide_unpack _)).
    cbv zeta iota. by rewrite (proj2 (Z.ltb_lt _ _)) by lia. }
  set (l2 := chars "Server: OS Web Server" ++ crlf) in *. set (l3 := chars "Content-Type: " ++ request_get_file_type name ++ crlf) in *.
  assert (H3 : is_line l3 /\ zlen l3 < MAXBUF /\ cstr l3 <> crlf /\ tag_int l3 0 = Ret 0 /\ tag_uint l3 0 = Ret 0).
  { unfold l3. pose proof (file_type_cases name) as Ht.
    repeat (apply elem_of_cons in Ht as [->|Ht];
      [split_and!; [rewrite app_assoc; apply is_line_crlf; by apply (bool_decide_unpack _)|done|done|done|done]|]).
    by apply not_elem_of_nil in Ht. }
  destruct H3 as (Hl3 & Hz3 & Hn3 & Hti3 & Htu3).
  destruct (header_step (S (S (S (S (S fuel))))) n (chars "HTTP/1.0 200 OK" ++ crlf) 0 0 rp l2 _ 0 0 Hg Ep) as (rp2 & -> & Hg2 & Ep2);
    [apply is_line_crlf; by apply (bool_decide_unpack _)|done|done|done|done|done|].
  destruct (header_step (S (S (S (S fuel)))) (zlen l2) l2 0 0 rp2 l3 _ 0 0 Hg2 Ep2) as (rp3 & -> & Hg3 & Ep3); [done..|].
  destruct (header_step (S (S (S fuel))) (zlen l3) l3 0 0 rp3 (length_line size) _ size 0 Hg3 Ep3) as (rp4 & -> & Hg4 & Ep4); [done..|].
  destruct (header_step (S (S fuel)) (zlen (length_line size)) (length_line size) size 0 rp4 (csum_line sum) _ size sum Hg4 Ep4)
    as (rp5 & -> & Hg5 & Ep5); [done|done|by rewrite Ec4|done|done|done|].
  destruct (header_step (S fuel) (zlen (csum_line sum)) (csum_line sum) size sum rp5 crlf rest size sum Hg5 Ep5)
    as (rp6 & -> & Hg6 & Ep6); [by exists [13]; split; [|set_solver]|done|by rewrite Ec5|done|done|done|].
  exists rp6. split; [|done]. cbn [header_loop]. rewrite buf_is_Some. by rewrite bool_decide_eq_true_2.
Qed.

(** client_print up to the body *)
Lemma client_print_header env name body orig_csum orig_length :
  good_env env -> arriving env = response name body -> zlen body < 2 ^ 31 ->
  exists fuel rp, (length body < fuel)%nat /\ good_env (incoming rp) /\ pending rp = body /\
    client_print env orig_csum orig_length =
    ('(length_received, csum_received) ← body_loop fuel (Some crlf) 0 0 rp;
     _ ← c_assert (orig_csum =? csum body);
     _ ← c_assert (orig_length =? zlen body);
     _ ← c_assert (zlen body =? length_received);
     c_assert (csum body =? csum_received)).
Proof.
  intros Hg Ep Hb. unfold client_print. cbv zeta. change (pending (rio_init env)) with (arriving env).
  assert (Hz : 0 <= zlen body) by (unfold zlen; lia). pose proof (csum_range body) as Hc.
  unfold response, response_header in Ep. rewrite print_d_nonneg in Ep by done.
  assert (Ep' : pending (rio_init env) = (chars "HTTP/1.0 200 OK" ++ crlf) ++ (chars "Server: OS Web Server" ++ crlf) ++
    (chars "Content-Type: " ++ request_get_file_type name ++ crlf) ++ length_line (zlen body) ++ csum_line (csum body) ++ crlf ++ body).
  { change (pending (rio_init env)) with (arriving env). rewrite Ep. unfold length_line, csum_line. by rewrite <- !app_assoc. }
  destruct (Rio_readlineb_line MAXBUF None (rio_init env) _ _ Hg Ep') as (rp1 & -> & Hg1 & Ep1);
    [apply is_line_crlf; by apply (bool_decide_unpack _)|done|]. rewrite bind_ret.
  assert (Hlen : (length body + 40 < length (arriving env))%nat).
  { change (arriving env) with (pending (rio_init env)). rewrite Ep'. rewrite !length_app. change (length (chars "HTTP/1.0 200 OK")) with 15%nat.
    change (length (chars "Server: OS Web Server")) with 21%nat. change (length crlf) with 2%nat.
    change (length (chars "Content-Type: ")) with 14%nat. lia. }
  destruct (header_run name (zlen body) (csum body) rp1 body (zlen (chars "HTTP/1.0 200 OK" ++ crlf)) (S (S (length (arriving env)))))
    as (rp2 & -> & Hg2 & Ep2); [lia|lia|done|done|lia|done|]. rewrite bind_ret.
  exists (S (S (length (arriving env)))), rp2. split_and!; [lia|done|done|done].
Qed.

(** The whole of client_print on a response: what it does with the body. *)
Lemma client_print_run env name body orig_csum orig_length :
  good_env env -> arriving env = response name body -> zlen body < 2 ^ 31 ->
  client_print env orig_csum orig_length =
  if short_lines 0 body then
    if (orig_csum =? csum body) && (orig_length =? zlen body) then Ret tt else Fail Assert
  else Fail Undef.
Proof.
  intros Hg Ep Hb. destruct (client_print_header env name body orig_csum orig_length Hg Ep Hb) as (fuel & rp & Hf & Hg' & Ep' & ->).
  rewrite (body_loop_run _ _ 0 0 rp body) by (try done; lia). destruct (short_lines 0 body); [|done].
  rewrite bind_ret, Z.add_0_l. fold (csum body).
  rewrite !Z.eqb_refl. by destruct (orig_csum =? csum body), (orig_length =? zlen body).
Qed.

(** A body that is one line. *)
Lemma short_lines_no_newline k l : 10 ∉ l -> 0 <= k < MAXBUF -> short_lines k l = (k + zlen l <? MAXBUF).
Proof.
  revert k. induction l as [|c l IH]; intros k; [intros _ Hk; cbn [short_lines]; change (zlen (@nil Z)) with 0; symmetry; apply Z.ltb_lt; lia|]. intros [Hc Hl]%not_elem_of_cons Hk. rewrite zlen_cons. cbn [short_lines].
  pose proof (zlen_nonneg l). rewrite (proj2 (Z.eqb_neq c 10)) by congruence.
  destruct (Z.ltb_spec (k + 1) MAXBUF); cbn [andb]; [|symmetry; apply Z.ltb_ge; lia].
  rewrite IH by (done || lia). f_equal. lia.
Qed.

(** ** Error responses *)

Definition error_response (cause errnum shortmsg longmsg : list Z) : list Z :=
  let body := error_body cause errnum shortmsg longmsg in
  (chars "HTTP/1.0 " ++ errnum ++ chars " " ++ shortmsg ++ crlf) ++ (chars "Content-Type: text/html" ++ crlf) ++
  (chars "Content-Length: " ++ print_u (zlen body) ++ crlf) ++ (chars "Content-Csum: " ++ print_u (csum body) ++ crlf ++ crlf) ++ body.

(** The state after [l] was sent on a connection and printed. *)
Definition sent_more (s : srv) (fd : Z) (c : conn) (env : list wr) (l : list Z) : srv :=
  Srv (the_web s) (<[fd := Conn (c_in c) env (c_sent c ++ l) true]> (conns s)) (requests s) (stdout s ++ l).

Lemma write_print_run {B} s0 fd c env (f : unit -> SRV B) l l' :
  Forall good_wr env ->
  exists env', Forall good_wr env' /\ (write_print fd l' ≫= f) (sent_more s0 fd c env l) = f tt (sent_more s0 fd c env' (l ++ l')).
Proof.
  intros Hg. unfold write_print. rewrite run_assoc.
  destruct (Rio_write_run (fun _ => modify (print_out l') ≫= f) (sent_more s0 fd c env l) fd (Conn (c_in c) env (c_sent c ++ l) true) l')
    as (env' & Hg' & E); [by apply lookup_insert_eq|done|done|].
  exists env'. split; [done|]. rewrite E, run_modify. f_equal. unfold sent_more, print_out. cbn. by rewrite insert_insert_eq, <- !app_assoc.
Qed.

Lemma request_error_run s fd c cause errnum shortmsg longmsg :
  conns s !! fd = Some c -> c_open c = true -> Forall good_wr (c_out c) -> zlen (error_body cause errnum shortmsg longmsg) < MAXBUF ->
  exists env, Forall good_wr env /\
    request_error fd cause errnum shortmsg longmsg s = Ret (tt, sent_more s fd c env (error_response cause errnum shortmsg longmsg)).
Proof.
  intros Ec Ho Hg Hf.
  assert (Es : s = sent_more s fd c (c_out c) []).
  { unfold sent_more. rewrite !app_nil_r. destruct s, c; cbn in *. subst. by rewrite insert_id. }
  enough (Hrun : exists env, Forall good_wr env /\ request_error fd cause errnum shortmsg longmsg (sent_more s fd c (c_out c) []) =
    Ret (tt, sent_more s fd c env (error_response cause errnum shortmsg longmsg))) by (by rewrite <- Es in Hrun). clear Es.
  unfold request_error. cbv zeta. rewrite c_fits_run by done.
  edestruct (write_print_run (B := unit) s fd c (c_out c)) as (e1 & Hg1 & E); [done|]. rewrite E. clear E.
  edestruct (write_print_run (B := unit) s fd c e1) as (e2 & Hg2 & E); [done|]. rewrite E. clear E.
  edestruct (write_print_run (B := unit) s fd c e2) as (e3 & Hg3 & E); [done|]. rewrite E. clear E.
  edestruct (write_print_run (B := unit) s fd c e3) as (e4 & Hg4 & E); [done|]. rewrite E. clear E.
  edestruct (write_print_run s fd c e4 mret) as (e5 & Hg5 & E); [done|]. exists e5. split; [done|].
  rewrite bind_mret in E. rewrite E. unfold error_response. cbv zeta. by rewrite app_nil_l, <- !app_assoc.
Qed.
