(* ===== verification/WebServerSpec.v ===== *)
(** * Serving a file, from the cache or from the disk *)
From S2P Require Import Prelude Bytes Text StateMonad Rio WebCache WebCacheSpec WebRequest WebRequestSpec WebServer.

Section spec.
Context (files_at : list Z -> disk_file).

(** The file that the server sends for a name. *)
Definition served (name body : list Z) : Prop :=
  refused name = None /\ exists st_size content, files_at name = Regular st_size (Some content) /\ 0 <= st_size < 2 ^ 31 /\
    good_env content /\ st_size <= zlen (arriving content) /\ body = take (Z.to_nat st_size) (arriving content).

(** [p] holds the file of a name. *)
Definition holds (m : gmap loc file_data) p name body : Prop :=
  exists d, m !! p = Some d /\ file_name d = Some name /\ served name body /\ file_bytes d = Ret body /\ file_size d = zlen body.

(** Between two requests: nothing is in flight, and every cached file is the
    one on the disk. *)
Record srv_ok (w : web) : Prop := SrvOk {
  so_idle : inflight_q w = [];
  so_cache c : fileCache w = Some c -> cache_ok w c;
  so_files c p : fileCache w = Some c -> p ∈ LRU_Policy w -> exists name body, holds (files w) p name body
}.

Lemma served_len name body : served name body -> 0 <= zlen body < 2 ^ 31.
Proof. intros (_ & n & c & _ & Hn & _ & Hl & ->). unfold zlen in *. rewrite length_take. lia. Qed.

Lemma served_inj name body body' : served name body -> served name body' -> body = body'.
Proof. intros (_ & n & c & E & _ & _ & _ & ->) (_ & n' & c' & E' & _ & _ & _ & ->). congruence. Qed.

Lemma holds_agree m m' l p name body : agree m m' l -> p ∈ l -> holds m p name body -> holds m' p name body.
Proof. intros Ha Hp (d & E & ?). exists d. by rewrite Ha. Qed.

Lemma holds_name m p name body : holds m p name body -> name_at m p = name /\ size_at m p = zlen body /\ alive m p.
Proof.
  intros (d & E & En & Hs & _ & Ez). unfold name_at, size_at, alive. rewrite E. cbn. rewrite En. split_and!; [done|done|].
  exists d, name. split_and!; [done|done|]. rewrite Ez. by apply (served_len name).
Qed.

(** The connection after the response. *)
Definition answered (c : conn) (env_in : list rd) (env_out : list wr) (bytes : list Z) : conn :=
  Conn env_in env_out (c_sent c ++ bytes) false.

Lemma request_readfile_run s rq fd p name body b n :
  requests s !! rq = Some (Request fd p) -> files (the_web s) !! p = Some (FileData (Some name) b n) -> served name body ->
  exists b', request_readfile files_at rq s =
    Ret (true, set_web (set_files (<[p := FileData (Some name) b' (zlen body)]> (files (the_web s))) (the_web s)) s) /\
    file_bytes (FileData (Some name) b' (zlen body)) = Ret body.
Proof.
  intros Er Ed (Hr & st & content & Ef & Hst & Hg & Hl & ->). unfold request_readfile. rewrite (get_request_run _ _ _ _ Er). cbn [rq_data rq_fd].
  assert (Egn : get_name p (the_web s) = Ret (name, the_web s)).
  { unfold get_name. rewrite (get_data_run _ _ _ _ Ed). done. }
  assert (Hid : set_web (the_web s) s = s) by (by destruct s).
  rewrite (on_web_run _ _ _ _ _ Egn), Hid, Hr, Ef. cbv zeta. rewrite s32_small by (unfold in_s32; lia).
  rewrite (upd_data_run _ _ s p _ Ed). cbn [file_name file_buf].
  assert (Hz : zlen (take (Z.to_nat st) (arriving content)) = st) by (unfold zlen in *; rewrite length_take; lia). rewrite Hz.
  destruct (Z.eqb_spec st 0) as [->|Hne].
  - exists b. split; [done|]. done.
  - rewrite (proj2 (Z.ltb_ge _ _)) by lia.
    destruct (rio_read_loop_good (read_fuel st content) st content Hg) as (env' & E); [lia|unfold read_fuel; lia|].
    assert (E' : Rio_read st content = Ret (take (Z.to_nat st) (arriving content), env')) by (unfold Rio_read, rio_read; by rewrite E).
    rewrite (run_lift _ _ _ _ E'). set (s1 := set_web _ s).
    rewrite (upd_data_run _ _ s1 p (FileData (Some name) b st)) by (by apply lookup_insert_eq).
    exists (Some (take (Z.to_nat st) (arriving content))). unfold s1, set_web, set_files. cbn. rewrite insert_insert_eq. split; [done|].
    unfold file_bytes. cbn. rewrite (proj2 (Z.leb_gt _ _)) by lia. rewrite Hz, (proj2 (Z.leb_le _ _)) by lia.
    by rewrite take_take, Nat.min_id.
Qed.

Lemma request_sendfile_holds s rq fd p name body c :
  requests s !! rq = Some (Request fd p) -> holds (files (the_web s)) p name body ->
  conns s !! fd = Some c -> c_open c = true -> Forall good_wr (c_out c) ->
  exists env, Forall good_wr env /\
    request_sendfile rq s = Ret (tt, set_conns (<[fd := Conn (c_in c) env (c_sent c ++ response name body) true]> (conns s)) s).
Proof.
  intros Er (d & Ed & En & Hs & Eb & Ez) Ec Ho Hg. eapply request_sendfile_run; try done. rewrite Ez. by apply (served_len name).
Qed.

Lemma add_to_queue_run s p d : files s !! p = Some d -> add_to_queue p s = Ret (tt, set_inflight (inflight_q s ++ [p]) s).
Proof. intros E. unfold add_to_queue. by rewrite (get_data_run _ _ _ _ E). Qed.

Lemma send_in_flight_run s rq fd p name body c :
  inflight_q (the_web s) = [] -> holds (files (the_web s)) p name body ->
  requests s !! rq = Some (Request fd p) -> conns s !! fd = Some c -> c_open c = true -> Forall good_wr (c_out c) ->
  exists env, send_in_flight rq p s =
    Ret (tt, Srv (the_web s) (<[fd := answered c (c_in c) env (response name body)]> (conns s)) (delete rq (requests s)) (stdout s)).
Proof.
  intros Hq Hh Er Ec Ho Hg. unfold send_in_flight.
  assert (E1 : add_to_queue p (the_web s) = Ret (tt, set_inflight [p] (the_web s))) by (destruct Hh as (d & Ed & _); by rewrite (add_to_queue_run _ _ _ Ed), Hq).
  rewrite (on_web_run _ _ _ _ _ E1). set (s1 := set_web _ s).
  destruct (request_sendfile_holds s1 rq fd p name body c Er Hh Ec Ho Hg) as (env & Hge & E2).
  rewrite (bind_run _ _ _ _ _ E2). set (s2 := set_conns _ s1). pose proof (holds_name _ _ _ _ Hh) as (Hn & _ & Hal).
  assert (E3 : get_name p (the_web s2) = Ret (name, the_web s2)).
  { rewrite <- Hn. exact (get_name_run1 (the_web s2) p Hal). }
  assert (E4 : remove_from_queue name (the_web s2) = Ret (Some p, the_web s)).
  { unfold remove_from_queue. st_run. change (inflight_q (the_web s2)) with [p].
    rewrite (bind_run _ _ _ _ _ (drop_name_run (the_web s2) name [p] ltac:(by constructor))). cbn [rm_first]. unfold named.
    change (files (the_web s2)) with (files (the_web s)). rewrite Hn, bool_decide_eq_true_2 by done. st_run. do 2 f_equal.
    rewrite <- Hq. by destruct (the_web s). }
  rewrite (on_web_run _ _ _ _ _ E3).  rewrite (on_web_run _ _ (set_web (the_web s2) s2) _ _ E4). rewrite run_lift with (a := p) by done.
  rewrite (request_destroy_run _ rq (Request fd p) (Conn (c_in c) env (c_sent c ++ response name body) true));
    [|done|by apply lookup_insert_eq|done].
  exists env. unfold set_requests, set_conns, set_web, s2, s1. cbn. by rewrite insert_insert_eq.
Qed.

Lemma set_files_id w : set_files (files w) w = w.
Proof. by destruct w. Qed.

(** ** The request *)

(** What a request for a file of that size does to the abstract cache. *)
Definition lru_request (max : Z) (e : list Z * Z) (v : lru) : lru :=
  if lru_has e.1 v then (lru_lookup e.1 v).2 else (lru_insert max e v).2.

(** The cache after a request. *)
Definition cache_after (w w' : web) (name body : list Z) : Prop :=
  match fileCache w with
  | None => fileCache w' = None /\ LRU_Policy w' = LRU_Policy w
  | Some c => exists c', fileCache w' = Some c' /\ MAX_SIZE c' = MAX_SIZE c /\
      view w' = lru_request (MAX_SIZE c) (name, zlen body) (view w)
  end.

Lemma lru_lookup_has name v : (lru_lookup name v).1 = lru_has name v.
Proof.
  unfold lru_lookup, lru_has. destruct (rm_first _ v) as [[e v']|] eqn:E; symmetry.
  - apply bool_decide_eq_true. apply rm_first_Some in E as (l & r & -> & _ & <-%bool_decide_eq_true & _). apply list_elem_of_fmap_2. set_solver.
  - apply bool_decide_eq_false. apply rm_first_None in E. intros (e & -> & He)%list_elem_of_fmap.
    rewrite Forall_forall in E. specialize (E e He). cbn in E. by rewrite bool_decide_eq_true_2 in E.
Qed.

Lemma lru_insert_has max e v : lru_has e.1 v = true -> (lru_insert max e v).2 = v.
Proof. intros E. unfold lru_insert. by rewrite E, orb_true_r. Qed.

(** The request takes the cached file, and its own file data is freed. *)
Lemma use_cached_run {B} (f : loc -> SRV B) s rq fd data p :
  getCachedFile data (the_web s) = Ret (Some p, the_web s) -> is_Some (files (the_web s) !! data) ->
  requests s !! rq = Some (Request fd data) ->
  (use_cached rq data ≫= f) s =
  f p (Srv (set_files (delete data (files (the_web s))) (the_web s)) (conns s) (<[rq := Request fd p]> (requests s)) (stdout s)).
Proof.
  intros Eg [d Ed] Er. unfold use_cached. rewrite run_assoc, (on_web_run _ _ _ _ _ Eg).
  rewrite run_assoc, run_lift with (a := p) by done. unfold request_set_data. rewrite !run_assoc.
  rewrite (get_request_run _ (set_web (the_web s) s) rq _ Er). cbn [rq_fd]. rewrite run_modify. set (s1 := set_requests _ _).
  rewrite run_assoc. unfold free_shallow.
  assert (Ef : free_data data (the_web s1) = Ret (tt, set_files (delete data (files (the_web s))) (the_web s))).
  { unfold free_data. by rewrite (get_data_run (the_web s1) data d _ Ed). }
  by rewrite (on_web_run _ _ _ _ _ Ef), run_ret.
Qed.

(** A cached file is sent. *)
Lemma hit_run s rq fd data p name body c :
  getCachedFile data (the_web s) = Ret (Some p, the_web s) -> holds (files (the_web s)) p name body -> p <> data ->
  is_Some (files (the_web s) !! data) ->
  inflight_q (the_web s) = [] -> requests s !! rq = Some (Request fd data) ->
  conns s !! fd = Some c -> c_open c = true -> Forall good_wr (c_out c) ->
  exists env, (data ← use_cached rq data; send_in_flight rq data) s =
    Ret (tt, Srv (set_files (delete data (files (the_web s))) (the_web s))
                 (<[fd := answered c (c_in c) env (response name body)]> (conns s)) (delete rq (requests s)) (stdout s)).
Proof.
  intros Eg Hh Hne Hd Hq Er Ec Ho Hg. rewrite (use_cached_run _ s rq fd data p Eg Hd Er). set (s2 := Srv _ _ _ _).
  destruct (send_in_flight_run s2 rq fd p name body c) as (env & E).
  - done.
  - destruct Hh as (d' & E & ?). exists d'. split; [|done]. cbn. by rewrite lookup_delete_ne.
  - apply lookup_insert_eq.
  - done.
  - done.
  - done.
  - rewrite E. exists env. unfold s2. cbn. do 3 f_equal. apply map_eq. intros q. rewrite !lookup_delete. case_decide; [done|].
    by rewrite lookup_insert_ne.
Qed.

(** What the two ways to serve a request leave behind. *)
Definition after_request (s s' : srv) (fd : Z) (c : conn) name body : Prop :=
  srv_ok (the_web s') /\ requests s' = requests s /\ stdout s' = stdout s /\
  (exists env_in env_out, conns s' = <[fd := answered c env_in env_out (response name body)]> (conns s)) /\
  cache_after (the_web s) (the_web s') name body.

Section one.
Context (s : srv) (fd : Z) (c : conn) (uri body : list Z) (name := request_parse_URI uri MAXLINE) (w := the_web s) (data := fresh (dom (files w))) (rq := fresh (dom (requests s))).
Context (Hok : srv_ok w) (Ec : conns s !! fd = Some c) (Ho : c_open c = true) (Hin : good_env (c_in c)) (Hout : Forall good_wr (c_out c))
        (Htext : get_request_text (arriving (c_in c)) uri) (Hserved : served name body).

Lemma data_fresh : files w !! data = None.
Proof. apply not_elem_of_dom. apply is_fresh. Qed.
Lemma rq_fresh : requests s !! rq = None.
Proof. apply not_elem_of_dom. apply is_fresh. Qed.

Definition started d env : srv :=
  Srv (set_files (<[data := d]> (files w)) w) (<[fd := Conn env (c_out c) (c_sent c) true]> (conns s)) (<[rq := Request fd data]> (requests s)) (stdout s).

Lemma start_run {B} (f : loc -> option loc -> SRV B) :
  exists env, (data ← on_web file_data_init; rq ← request_init fd data; f data rq) s =
    f data (Some rq) (started (FileData (Some name) None 0) env).
Proof.
  assert (Ei : file_data_init (the_web s) = Ret (data, set_files (<[data := FileData None None 0]> (files w)) w)) by done.
  rewrite (on_web_run _ _ _ _ _ Ei). set (s1 := set_web _ s).
  destruct (request_init_run s1 fd data c (FileData None None 0) uri Ec Ho Hin Htext) as (env & E); [by apply lookup_insert_eq|].
  exists env. rewrite (bind_run _ _ _ _ _ E). f_equal. unfold started, s1, set_files. cbn. by rewrite insert_insert_eq.
Qed.

Lemma lru_agree d cc : fileCache w = Some cc -> agree (files w) (<[data := d]> (files w)) (LRU_Policy w) /\ data ∉ LRU_Policy w.
Proof.
  intros Ecc. pose proof (so_cache _ Hok _ Ecc) as Hc. assert (Hd : data ∉ LRU_Policy w).
  { intros Hd. destruct (co_alive _ _ Hc _ Hd) as (d' & n & E & _). by rewrite data_fresh in E. }
  split; [|done]. intros q Hq. apply lookup_insert_ne. congruence.
Qed.

Lemma deref_started {B} d env (f : request -> SRV B) : (get_request rq ≫= f) (started d env) = f (Request fd data) (started d env).
Proof. apply get_request_run. by apply lookup_insert_eq. Qed.

(** The request is over when its own objects are gone. *)
Lemma no_cache_run : fileCache w = None -> exists s', do_server_request files_at fd s = Ret (tt, s') /\ after_request s s' fd c name body.
Proof.
  intros En. unfold do_server_request. edestruct (start_run (B := unit)) as (env & E). rewrite E. clear E. cbv beta iota.
  set (s1 := started _ env). rewrite run_gets. change (fileCache (the_web s1)) with (fileCache w). rewrite En.
  destruct (request_readfile_run s1 rq fd data name body None 0) as (b & Er & Eb); [by apply lookup_insert_eq|by apply lookup_insert_eq|done|].
  rewrite (bind_run _ _ _ _ _ Er). cbv iota. set (s2 := set_web _ s1).
  assert (Hh : holds (files (the_web s2)) data name body).
  { exists (FileData (Some name) b (zlen body)). split; [by apply lookup_insert_eq|done]. }
  destruct (request_sendfile_holds s2 rq fd data name body (Conn env (c_out c) (c_sent c) true)) as (env2 & _ & Es);
    [by apply lookup_insert_eq|done|by apply lookup_insert_eq|done|done|].
  rewrite (bind_run _ _ _ _ _ Es). set (s3 := set_conns _ s2).
  rewrite (bind_run _ _ _ _ _ (request_destroy_run s3 rq (Request fd data) _ ltac:(by apply lookup_insert_eq) ltac:(by apply lookup_insert_eq) eq_refl)).
  set (s4 := set_requests _ _). unfold file_data_free.
  assert (Ef : free_data data (the_web s4) = Ret (tt, w)).
  { destruct Hh as (d & Ed & _). unfold free_data. rewrite (get_data_run (the_web s4) data d _ Ed). st_run. do 2 f_equal.
    unfold s4, s3, s2, s1. cbn. rewrite insert_insert_eq, delete_insert_id by apply data_fresh. exact (set_files_id w). }
  rewrite (on_web_run1 _ _ _ _ Ef).
  exists (set_web w s4). split; [done|]. split; [done|]. split_and!.
  - cbn. by rewrite delete_insert_id by apply rq_fresh.
  - done.
  - exists env, env2. cbn. by rewrite !insert_insert_eq.
  - unfold cache_after. fold w. by rewrite En.
Qed.
Lemma started_cache d cc (m := <[data := d]> (files w)) :
  fileCache w = Some cc -> file_name d = Some name -> 0 <= file_size d ->
  cache_ok (set_files m w) cc /\ alive m data /\ name_at m data = name /\ size_at m data = file_size d /\
  view (set_files m w) = view w /\ data ∉ LRU_Policy w.
Proof.
  intros Ecc En Hs. pose proof (so_cache _ Hok _ Ecc) as Hc. destruct (lru_agree d cc Ecc) as [Ha Hd]. fold m in Ha.
  assert (Em : m !! data = Some d) by apply lookup_insert_eq. split_and!.
  - by apply cache_ok_agree.
  - by exists d, name.
  - unfold name_at. rewrite Em. cbn. by rewrite En.
  - unfold size_at. by rewrite Em.
  - exact (agree_entries _ _ _ Ha).
  - done.
Qed.

Lemma cached_file cc p d (m := <[data := d]> (files w)) :
  fileCache w = Some cc -> p ∈ LRU_Policy w -> name_at m p = name -> holds m p name body /\ p <> data.
Proof.
  intros Ecc Hp Hn. destruct (lru_agree d cc Ecc) as [Ha Hd]. fold m in Ha. split; [|congruence].
  destruct (so_files _ Hok _ _ Ecc Hp) as (n & b & Hh). pose proof (holds_agree _ _ _ _ _ _ Ha Hp Hh) as Hh'.
  destruct (holds_name _ _ _ _ Hh') as (Hn' & _). assert (n = name) as -> by congruence.
  destruct Hh as (d' & _ & _ & Hb & _). by rewrite (served_inj _ _ _ Hb Hserved) in Hh'.
Qed.

(** The cache after a hit. *)
Lemma hit_ok d cc w2 (m := <[data := d]> (files w)) :
  fileCache w = Some cc -> cache_ok w2 cc -> files w2 = m -> inflight_q w2 = [] -> LRU_Policy w2 ≡ₚ LRU_Policy w ->
  srv_ok (set_files (delete data m) w2) /\ view (set_files (delete data m) w2) = view w2.
Proof.
  intros Ecc Hc2 Ef Hq Hperm. destruct (lru_agree d cc Ecc) as [Ha Hd]. fold m in Ha.
  assert (Ed : delete data m = files w) by (apply delete_insert_id, data_fresh). rewrite Ed.
  assert (Ha2 : agree (files w2) (files w) (LRU_Policy w2)).
  { intros q Hq2. rewrite Ef. symmetry. apply Ha. by rewrite <- Hperm. }
  split; [|exact (agree_entries _ _ _ Ha2)]. split; [done| |].
  - intros c2 E. cbn in E. rewrite (co_cache _ _ Hc2) in E. injection E as <-. by apply cache_ok_agree.
  - intros c2 p _ Hp. cbn in Hp. rewrite Hperm in Hp. by apply (so_files _ Hok cc).
Qed.

(** The cache after a miss. *)
Lemma miss_ok d cc w5 c5 b l (m := <[data := d]> (files w)) :
  fileCache w = Some cc -> holds m data name body -> cache_ok w5 c5 -> inflight_q w5 = [] ->
  (forall p, p ∈ LRU_Policy w5 -> p ∈ LRU_Policy w \/ p = data) -> (forall p, p ∈ l -> p ∈ LRU_Policy w) ->
  files w5 = (if b : bool then del_list l m else m) ->
  srv_ok w5 /\ holds (files w5) data name body.
Proof.
  intros Ecc Hh Hc5 Hq Hsub Hl Ef. destruct (lru_agree d cc Ecc) as [Ha Hd]. fold m in Ha.
  assert (Hkeep : forall p, (b = true -> p ∉ l) -> files w5 !! p = m !! p).
  { intros p Hp. rewrite Ef. destruct b; [|done]. rewrite lookup_del_list, decide_False by (by apply Hp). done. }
  assert (Hd5 : holds (files w5) data name body).
  { destruct Hh as (d' & E & ?). exists d'. rewrite Hkeep; [done|]. intros _ Hx. by apply Hd, Hl. }
  split; [|done]. split; [done| |].
  - intros c2 E. rewrite (co_cache _ _ Hc5) in E. by injection E as <-.
  - intros c2 p _ Hp. destruct (Hsub p Hp) as [Hw| ->]; [|by eexists _, _].
    destruct (so_files _ Hok _ _ Ecc Hw) as (n & bd & Hp2). exists n, bd.
    destruct (holds_agree _ _ _ _ _ _ Ha Hw Hp2) as (d' & E & ?). exists d'. rewrite Hkeep; [done|].
    intros -> Hx. destruct (co_alive _ _ Hc5 _ Hp) as (d2 & n2 & E2 & _). rewrite Ef, lookup_del_list, decide_True in E2 by done. done.
Qed.

Definition cached_part (data : loc) : SRV unit :=
  hit ← on_web (cache_lookup data);
  if hit : bool then data ← use_cached rq data; send_in_flight rq data
  else
    ret ← request_readfile files_at rq;
    if negb ret then
      _ ← request_destroy rq; _ ← file_data_free data; request_destroy rq
    else
      hit ← on_web (cache_lookup data);
      if hit : bool then data ← use_cached rq data; send_in_flight rq data
      else _ ← on_web (cache_insert data); send_in_flight rq data.

(** A lookup that hits, and what follows it. *)
Lemma lookup_hit cc env w2 p (d := FileData (Some name) None 0) (m := <[data := d]> (files w)) :
  fileCache w = Some cc -> cache_ok w2 cc -> files w2 = m -> inflight_q w2 = [] -> view w2 = (lru_lookup name (view w)).2 ->
  lru_has name (view w) = true -> p ∈ LRU_Policy w -> name_at m p = name -> getCachedFile data w2 = Ret (Some p, w2) ->
  exists s', (data ← use_cached rq data; send_in_flight rq data) (set_web w2 (started d env)) = Ret (tt, s') /\
    after_request s s' fd c name body.
Proof.
  intros Ecc Hc2 Ef Hq Hv Hhas Hp Hn Eg. destruct (cached_file cc p d Ecc Hp Hn) as [Hh Hne]. fold m in Hh. rewrite <- Ef in Hh.
  assert (Hperm : LRU_Policy w2 ≡ₚ LRU_Policy w) by (by rewrite <- (co_perm _ _ Hc2), <- (co_perm _ _ (so_cache _ Hok _ Ecc))).
  destruct (hit_run (set_web w2 (started d env)) rq fd data p name body (Conn env (c_out c) (c_sent c) true)) as (env2 & E);
    [done|done|done| |done|by apply lookup_insert_eq|by apply lookup_insert_eq|done|done|].
  { cbn. rewrite Ef. eexists. apply lookup_insert_eq. }
  rewrite E. cbn. rewrite Ef. destruct (hit_ok d cc w2 Ecc Hc2 Ef Hq Hperm) as [Hok2 Hv2]. fold m in Hok2, Hv2 |- *.
  eexists. split; [done|]. split_and!; cbn.
  - done.
  - by rewrite delete_insert_id by apply rq_fresh.
  - done.
  - exists env, env2. by rewrite insert_insert_eq.
  - unfold cache_after. fold w. rewrite Ecc. exists cc. split_and!; [by apply (co_cache _ _ Hc2)|done|].
    rewrite Hv2, Hv. unfold lru_request. cbn [fst]. by rewrite Hhas.
Qed.

(** A miss: the file was read, and is looked up again, inserted and sent. *)
Lemma miss_run cc env b' (d := FileData (Some name) b' (zlen body)) :
  fileCache w = Some cc -> lru_has name (view w) = false -> file_bytes d = Ret body ->
  exists s', (hit ← on_web (cache_lookup data);
      if hit : bool then data ← use_cached rq data; send_in_flight rq data
      else _ ← on_web (cache_insert data); send_in_flight rq data) (started d env) = Ret (tt, s') /\
    after_request s s' fd c name body.
Proof.
  intros Ecc Hhas Hbody. pose proof (served_len _ _ Hserved) as Hlen.
  destruct (started_cache d cc Ecc) as (Hc & Hal & Hn & Hsz & Hv & Hd); [done|cbn; lia|]. set (w3 := set_files _ w) in *.
  destruct (cache_lookup_lru w3 cc data Hc Hal) as (b2 & w4 & E & _ & _ & _ & Ev & Hb).
  change (name_at (files w3) data = name) in Hn. rewrite Hn, Hv in Ev. pose proof (f_equal fst Ev) as Eb. cbn in Eb.
  rewrite lru_lookup_has, Hhas in Eb. subst b2. destruct Hb as [_ ->]. rewrite (on_web_run _ _ (started d env) _ _ E). cbv iota.
  destruct (cache_insert_lru w3 cc data Hc Hal Hd) as (b & w5 & c5 & E5 & Hc5 & EM & Ev5 & EL & Ef5 & Eq5).
  { unfold landed. change (inflight_q w3) with (inflight_q w). rewrite (so_idle _ Hok). constructor. }
  cbn [fst snd] in Ev5, EL, Ef5. rewrite (on_web_run _ _ (set_web w3 (started d env)) _ _ E5).
  assert (Hh : holds (files w3) data name body).
  { exists d. split; [by apply lookup_insert_eq|]. done. }
  set (gone := dropped _ _ _) in *.
  destruct (miss_ok d cc w5 c5 b gone Ecc Hh Hc5) as [Hok5 Hh5]; [by rewrite Eq5; apply (so_idle _ Hok)| | |exact Ef5|].
  { intros p Hp. rewrite EL in Hp. destruct b; [|by left]. apply elem_of_app in Hp as [Hp|Hp%list_elem_of_singleton]; [left|by right].
    by eapply spare_sublist. }
  { intros p Hp. rewrite <- (dropped_spare (files w3) (MAX_SIZE cc - size_at (files w3) data) (LRU_Policy w)). apply elem_of_app. by left. }
  set (s5 := set_web w5 _).
  destruct (send_in_flight_run s5 rq fd data name body (Conn env (c_out c) (c_sent c) true)) as (env2 & E2);
    [by apply (so_idle _ Hok5)|done|by apply lookup_insert_eq|by apply lookup_insert_eq|done|done|].
  rewrite E2. eexists. split; [done|]. split_and!; cbn.
  - done.
  - by rewrite delete_insert_id by apply rq_fresh.
  - done.
  - exists env, env2. by rewrite insert_insert_eq.
  - unfold cache_after. fold w. rewrite Ecc. exists c5. split_and!; [by apply (co_cache _ _ Hc5)|done|].
    change (size_at (files w3) data = zlen body) in Hsz. unfold lru_request. cbn [fst]. rewrite Hhas.
    rewrite Hn, Hsz, Hv in Ev5. by rewrite <- Ev5.
Qed.

Lemma cached_run cc env : fileCache w = Some cc ->
  exists s', cached_part data (started (FileData (Some name) None 0) env) = Ret (tt, s') /\ after_request s s' fd c name body.
Proof.
  intros Ecc. unfold cached_part. set (d := FileData (Some name) None 0). set (s1 := started d env).
  destruct (started_cache d cc Ecc) as (Hc1 & Hal & Hn & Hsz & Hv & Hd); [done|done|]. set (w1 := set_files _ w) in *.
  destruct (cache_lookup_lru w1 cc data Hc1 Hal) as (b & w2 & E & Hc2 & Ef & Eq & Ev & Hb).
  rewrite (on_web_run _ _ s1 _ _ E). change (name_at (files w1) data = name) in Hn. rewrite Hn, Hv in Ev.
  pose proof (f_equal fst Ev) as Eb. cbn in Eb. rewrite lru_lookup_has in Eb.
  destruct b.
  - destruct Hb as (p & Hp & Hpn & Eg). rewrite Hn in Hpn. apply (lookup_hit cc env w2 p); try done.
    + by rewrite Eq; apply (so_idle _ Hok).
    + by rewrite <- Ev.
  - destruct Hb as [_ ->]. set (s2 := set_web w1 s1).
    destruct (request_readfile_run s2 rq fd data name body None 0) as (b' & Er & Ebody); [by apply lookup_insert_eq|by apply lookup_insert_eq|done|].
    rewrite (bind_run _ _ _ _ _ Er). cbn [negb]. 
    assert (E3 : set_web (set_files (<[data:=FileData (Some name) b' (zlen body)]> (files (the_web s2))) (the_web s2)) s2 =
      started (FileData (Some name) b' (zlen body)) env).
    { unfold started, s2, w1, set_web, set_files. cbn. by rewrite insert_insert_eq. }
    rewrite E3. by apply (miss_run cc env b').
Qed.
Lemma do_server_request_run : exists s', do_server_request files_at fd s = Ret (tt, s') /\ after_request s s' fd c name body.
Proof.
  destruct (fileCache w) as [cc|] eqn:Ecc; [|by apply no_cache_run].
  unfold do_server_request. edestruct (start_run (B := unit)) as (env & E). rewrite E. clear E. cbv beta iota.
  set (s1 := started _ env). rewrite run_gets. change (fileCache (the_web s1)) with (fileCache w). rewrite Ecc. cbv iota.
  exact (cached_run cc env Ecc).
Qed.
End one.


(** ** Jobs *)

(** A connection with a request for a file. *)
Definition job : Type := Z * (list Z * list Z).
Definition job_ok s (j : job) : Prop :=
  exists c, conns s !! j.1 = Some c /\ c_open c = true /\ good_env (c_in c) /\ Forall good_wr (c_out c) /\
    get_request_text (arriving (c_in c)) j.2.1 /\ served (request_parse_URI j.2.1 MAXLINE) j.2.2.

(** The name and the size of the file of a job. *)
Definition job_entry (j : job) : list Z * Z := (request_parse_URI j.2.1 MAXLINE, zlen j.2.2).

(** ** Requests that are refused *)

(** The error for a name that is not served: number, short and long message. *)
Definition error_for (name : list Z) : option (list Z * list Z * list Z) :=
  match refused name with
  | Some msg => Some (chars "404", chars "Not found", msg)
  | None =>
      match files_at name with
      | Absent => Some (chars "404", chars "Not found", chars "OS Web Server could not find this file")
      | Unreadable => Some (chars "403", chars "Forbidden", chars "OS Web Server could not read this file")
      | Regular _ _ => None
      end
  end.

Lemma served_no_error name body : served name body -> error_for name = None.
Proof. intros (Hr & n & c & E & _). unfold error_for. by rewrite Hr, E. Qed.

Lemma readfile_error_run s rq fd p name en sm lm c :
  requests s !! rq = Some (Request fd p) -> alive (files (the_web s)) p -> name_at (files (the_web s)) p = name ->
  error_for name = Some (en, sm, lm) -> zlen (error_body name en sm lm) < MAXBUF ->
  conns s !! fd = Some c -> c_open c = true -> Forall good_wr (c_out c) ->
  exists env, request_readfile files_at rq s = Ret (false, sent_more s fd c env (error_response name en sm lm)).
Proof.
  intros Er Hal Hn He Hf Ec Ho Hg. unfold request_readfile. rewrite (get_request_run _ _ _ _ Er). cbn [rq_data rq_fd].
  assert (Hid : set_web (the_web s) s = s) by (by destruct s).
  rewrite (on_web_run _ _ _ _ _ (get_name_run1 _ _ Hal)), Hid, Hn. unfold error_for in He.
  destruct (request_error_run s fd c name en sm lm Ec Ho Hg Hf) as (env & _ & E). exists env.
  destruct (refused name) as [msg|]; [|destruct (files_at name); [| |done]]; injection He as <- <- <-; by rewrite (bind_run _ _ _ _ _ E).
Qed.

Section failing.
Context (s : srv) (fd : Z) (c : conn) (uri : list Z) (name := request_parse_URI uri MAXLINE) (w := the_web s) (data := fresh (dom (files w))) (rq := fresh (dom (requests s))).
Context (en sm lm : list Z).
Context (Ec : conns s !! fd = Some c) (Ho : c_open c = true) (Hin : good_env (c_in c)) (Hout : Forall good_wr (c_out c))
        (Htext : get_request_text (arriving (c_in c)) uri) (Herr : error_for name = Some (en, sm, lm))
        (Hfit : zlen (error_body name en sm lm) < MAXBUF).

Lemma readfile_started env (d := FileData (Some name) None 0) :
  exists env', request_readfile files_at rq (started s fd c d env) =
    Ret (false, sent_more (started s fd c d env) fd (Conn env (c_out c) (c_sent c) true) env' (error_response name en sm lm)).
Proof.
  assert (Ed : files (the_web (started s fd c d env)) !! data = Some d) by apply lookup_insert_eq.
  apply (readfile_error_run _ rq fd data); try done.
  - apply lookup_insert_eq.
  - by exists d, name.
  - unfold name_at. rewrite Ed. done.
  - apply lookup_insert_eq.
Qed.

Lemma refused_no_cache : fileCache w = None -> exists env_in env_out,
  do_server_request files_at fd s =
    Ret (tt, Srv w (<[fd := answered c env_in env_out (error_response name en sm lm)]> (conns s)) (requests s)
                 (stdout s ++ error_response name en sm lm)).
Proof.
  intros En. unfold do_server_request. edestruct (start_run s fd c uri Ec Ho Hin Htext (B := unit)) as (env & E). rewrite E. clear E. cbv beta iota.
  change (fresh (dom (files (the_web s)))) with data. change (fresh (dom (requests s))) with rq.
  set (s1 := started s fd c _ env). rewrite run_gets. change (fileCache (the_web s1)) with (fileCache w). rewrite En.
  destruct (readfile_started env) as (env' & Er). rewrite (bind_run _ _ _ _ _ Er). cbv iota. rewrite run_ret. set (s2 := sent_more _ _ _ _ _).
  rewrite (bind_run _ _ _ _ _ (request_destroy_run s2 rq (Request fd data) _ ltac:(by apply lookup_insert_eq) ltac:(by apply lookup_insert_eq) eq_refl)).
  set (s3 := set_requests _ _). unfold file_data_free.
  assert (Ef : free_data data (the_web s3) = Ret (tt, w)).
  { unfold free_data. rewrite (get_data_run (the_web s3) data (FileData (Some name) None 0)) by (by apply lookup_insert_eq). st_run. do 2 f_equal.
    unfold s3, s2, s1. cbn. rewrite delete_insert_id by apply data_fresh. exact (set_files_id w). }
  rewrite (on_web_run1 _ _ _ _ Ef). exists env, env'. unfold set_web, s3, s2, s1. cbn. rewrite !insert_insert_eq.
  by rewrite delete_insert_id by apply rq_fresh.
Qed.

(** With a cache the request is destroyed a second time. *)
Lemma refused_cached cc : srv_ok w -> fileCache w = Some cc -> do_server_request files_at fd s = Fail Undef.
Proof.
  intros Hok Ecc. unfold do_server_request. edestruct (start_run s fd c uri Ec Ho Hin Htext (B := unit)) as (env & E). rewrite E. clear E. cbv beta iota.
  change (fresh (dom (files (the_web s)))) with data. change (fresh (dom (requests s))) with rq.
  set (s1 := started s fd c _ env). rewrite run_gets. change (fileCache (the_web s1)) with (fileCache w). rewrite Ecc. cbv iota.
  destruct (started_cache s uri Hok (FileData (Some name) None 0) cc Ecc) as (Hc1 & Hal & Hn & _); [done|done|]. set (w1 := set_files _ _) in *.
  destruct (cache_lookup_lru w1 cc data Hc1 Hal) as (b & w2 & E & _ & _ & _ & _ & Hb).
  rewrite (on_web_run _ _ s1 _ _ E). change (name_at (files w1) data = name) in Hn. rewrite Hn in Hb. destruct b.
  - exfalso. destruct Hb as (p & Hp & Hpn & _). destruct (lru_agree s Hok (FileData (Some name) None 0) cc Ecc) as [Ha _].
    destruct (so_files _ Hok _ _ Ecc Hp) as (n & b & Hh). pose proof (holds_agree _ _ _ _ _ _ Ha Hp Hh) as Hh'.
    destruct (holds_name _ _ _ _ Hh') as (Hn' & _). assert (n = name) as -> by (rewrite <- Hpn; symmetry; exact Hn').
    destruct Hh as (d & _ & _ & Hs & _). apply served_no_error in Hs. by rewrite Herr in Hs.
  - destruct Hb as [_ ->]. cbv iota. change (set_web w1 s1) with s1.
    destruct (readfile_started env) as (env' & Er). rewrite (bind_run _ _ _ _ _ Er). cbn [negb]. cbv iota. set (s2 := sent_more _ _ _ _ _).
    rewrite (bind_run _ _ _ _ _ (request_destroy_run s2 rq (Request fd data) _ ltac:(by apply lookup_insert_eq) ltac:(by apply lookup_insert_eq) eq_refl)).
    set (s3 := set_requests _ _). unfold file_data_free.
    assert (Ef : free_data data (the_web s3) = Ret (tt, set_files (delete data (files (the_web s3))) (the_web s3))).
    { unfold free_data. by rewrite (get_data_run (the_web s3) data (FileData (Some name) None 0)) by (by apply lookup_insert_eq). }
    rewrite (on_web_run _ _ s3 _ _ Ef). unfold request_destroy, get_request. rewrite run_assoc, run_gets.
    assert (En : requests (set_web (set_files (delete data (files (the_web s3))) (the_web s3)) s3) !! rq = None) by apply lookup_delete_eq.
    by rewrite En.
Qed.

End failing.
End spec.
