(* ===== verification/WebTheorems.v ===== *)
(** * What the web server does with a request *)
From S2P Require Import Prelude Bytes Text StateMonad Rio WebCache WebCacheSpec WebRequest WebRequestSpec WebServer WebServerSpec WebClient.

(** A disk with one file, which arrives in pieces, and a server without clients. *)
Definition demo_body : list Z := chars "hello" ++ [10].
Definition demo_disk (name : list Z) : disk_file :=
  if bool_decide (name = chars "./f.txt") then Regular 6 (Some [RData (chars "hel"); RIntr; RData (chars "lo" ++ [10; 0])]) else Absent.
Definition demo_request : list Z := chars "GET f.txt HTTP/1.0" ++ crlf ++ chars "host: h" ++ crlf ++ crlf.
Definition demo_conn (text : list Z) : conn := Conn [RData (take 7 text); RIntr; RData (drop 7 text)] [WTake 3; WIntr] [] true.
Definition demo_srv (wc : option cache) : srv :=
  Srv (Web empty wc [] []) {[5 := demo_conn demo_request; 6 := demo_conn demo_request]} empty [].

Lemma demo_served : served demo_disk (chars "./f.txt") demo_body.
Proof. split; [done|]. eexists _, _. split; [done|]. split; [done|]. split; [repeat constructor; done|]. done. Qed.

Lemma demo_asks : get_request_text demo_request (chars "f.txt").
Proof.
  exists (chars "GET f.txt HTTP/1.0" ++ crlf), [chars "host: h" ++ crlf], [], (chars "GET").
  assert (H1 : is_line (chars "GET f.txt HTTP/1.0" ++ crlf)) by (apply is_line_crlf; by apply (bool_decide_unpack _)).
  assert (H2 : is_line (chars "host: h" ++ crlf)) by (apply is_line_crlf; by apply (bool_decide_unpack _)). split_and!; try done.
  repeat constructor; done.
Qed.

Lemma demo_srv_ok maxSize : 4096 <= maxSize < 2 ^ 30 -> srv_ok demo_disk (the_web (demo_srv (Some (init_cache maxSize)))).
Proof.
  intros Hm. split; [done| |].
  - intros c [= <-]. apply init_cache_ok. done.
  - intros c p _ Hp. by apply not_elem_of_nil in Hp.
Qed.

(** ** Serving *)

(** C5: Serving requests for readable files one after the other answers each
    with the header and the bytes of its file and closes its connection,
    however the requests arrive and whether the file comes from the cache or
    from the disk.  The cache goes through the states of an abstract
    least-recently-used cache. *)
Theorem serve_all_spec disk jobs s :
  srv_ok disk (the_web s) -> NoDup jobs.*1 -> Forall (job_ok disk s) jobs ->
  exists s', serve_all disk jobs.*1 s = Ret (tt, s') /\ srv_ok disk (the_web s') /\
    requests s' = requests s /\ stdout s' = stdout s /\
    (forall fd uri body, (fd, (uri, body)) ∈ jobs -> exists c env_in env_out, conns s !! fd = Some c /\
       conns s' !! fd = Some (Conn env_in env_out (c_sent c ++ response (request_parse_URI uri MAXLINE) body) false)) /\
    (forall fd, fd ∉ jobs.*1 -> conns s' !! fd = conns s !! fd) /\
    match fileCache (the_web s) with
    | None => fileCache (the_web s') = None
    | Some c => exists c', fileCache (the_web s') = Some c' /\ MAX_SIZE c' = MAX_SIZE c /\
        view (the_web s') = fold_left (fun v j => lru_request (MAX_SIZE c) (job_entry j) v) jobs (view (the_web s))
    end.
Proof.
  revert s. induction jobs as [|[fd [uri body]] jobs IH]; intros s Hok Hnd Hall.
  - exists s. split_and!; try done; [by intros ??? ?%not_elem_of_nil|]. destruct (fileCache (the_web s)); [by eexists|done].
  - apply Forall_cons in Hall as [(c & Ec & Ho & Hin & Hout & Ht & Hs) Hall]. cbn [fst snd] in *. csimpl in Hnd. apply NoDup_cons in Hnd as [Hfd Hnd].
    destruct (do_server_request_run disk s fd c uri body Hok Ec Ho Hin Hout Ht Hs) as (s1 & E1 & Hok1 & Er1 & Eo1 & (ei & eo & Ec1) & Hca).
    destruct (IH s1 Hok1 Hnd) as (s2 & E2 & Hok2 & Er2 & Eo2 & Hj2 & Hrest & Hc2).
    { rewrite Forall_forall in *. intros j Hj. destruct (Hall j Hj) as (cj & Ecj & Hrst). exists cj. split; [|done].
      rewrite Ec1, lookup_insert_ne; [done|]. intros ->. apply Hfd. by apply list_elem_of_fmap_2. }
    exists s2. csimpl. cbn [serve_all]. rewrite (bind_run _ _ _ _ _ E1). split_and!; try done; [congruence|congruence| | |].
    + intros fd' uri' body' [[= -> -> ->]|Hj]%elem_of_cons.
      * exists c, ei, eo. split; [done|]. by rewrite Hrest, Ec1, lookup_insert_eq.
      * destruct (Hj2 _ _ _ Hj) as (c' & ei' & eo' & E & E'). rewrite Ec1 in E. rewrite lookup_insert_ne in E.
        { by exists c', ei', eo'. }
        intros ->. apply Hfd. apply (list_elem_of_fmap_2 fst _ _ Hj).
    + intros fd' [Hne Hn]%not_elem_of_cons. rewrite Hrest by done. by rewrite Ec1, lookup_insert_ne.
    + unfold cache_after in Hca. destruct (fileCache (the_web s)) as [cc|].
      * destruct Hca as (c1 & Ef1 & EM1 & Ev1). rewrite Ef1 in Hc2. destruct Hc2 as (c2 & Ef2 & EM2 & Ev2).
        exists c2. rewrite EM2, EM1, Ev2, EM1, Ev1. done.
      * destruct Hca as [Ef1 _]. by rewrite Ef1 in Hc2.
Qed.

Definition demo_jobs : list job := [(5, (chars "f.txt", demo_body)); (6, (chars "f.txt", demo_body))].

Lemma demo_jobs_ok : Forall (job_ok demo_disk (demo_srv (Some (init_cache 8192)))) demo_jobs.
Proof.
  assert (Hc : forall fd, conns (demo_srv (Some (init_cache 8192))) !! fd = Some (demo_conn demo_request) ->
    job_ok demo_disk (demo_srv (Some (init_cache 8192))) (fd, (chars "f.txt", demo_body))).
  { intros fd E. exists (demo_conn demo_request). split; [exact E|]. split_and!; [done|by apply (bool_decide_unpack _)|by apply (bool_decide_unpack _)| |].
    - exact demo_asks.
    - exact demo_served. }
  repeat constructor; by apply Hc.
Qed.

Lemma serve_all_spec_witness :
  exists s', serve_all demo_disk [5; 6] (demo_srv (Some (init_cache 8192))) = Ret (tt, s') /\ srv_ok demo_disk (the_web s') /\
    requests s' = empty /\ stdout s' = [] /\
    (forall fd uri body, (fd, (uri, body)) ∈ demo_jobs -> exists c env_in env_out, conns (demo_srv (Some (init_cache 8192))) !! fd = Some c /\
       conns s' !! fd = Some (Conn env_in env_out (c_sent c ++ response (request_parse_URI uri MAXLINE) body) false)) /\
    (forall fd, fd ∉ [5; 6] -> conns s' !! fd = conns (demo_srv (Some (init_cache 8192))) !! fd) /\
    exists c', fileCache (the_web s') = Some c' /\ MAX_SIZE c' = 8192 /\ view (the_web s') = [(chars "./f.txt", 6)].
Proof.
  apply (serve_all_spec demo_disk demo_jobs (demo_srv (Some (init_cache 8192)))).
  - by apply demo_srv_ok.
  - by apply (bool_decide_unpack _).
  - exact demo_jobs_ok.
Defined.

(** C9: A client asks for a readable file whose name is [plain] (not empty, no
    white space, no NUL), with a host name that has no NUL and no newline.  However the request and the response are
    cut into pieces on the way, and whatever the server has in its cache, the
    server sends the file, and client_print reads the whole response, accepts
    it if it expects the length and the checksum of that file, and stops at an
    assertion if it expects others; but when a line of the file, with its
    newline, has MAXBUF = 8192 bytes or more, client_print writes a NUL past
    its buffer. *)
Theorem fetch_roundtrip disk s fd c host filename text body :
  srv_ok disk (the_web s) -> client_send host filename = Ret text ->
  plain filename -> Forall (fun x => x <> 0 /\ x <> 10) host -> served disk (chars "./" ++ filename) body ->
  conns s !! fd = Some c -> c_open c = true -> c_sent c = [] -> good_env (c_in c) -> arriving (c_in c) = text -> Forall good_wr (c_out c) ->
  exists s' c', do_server_request disk fd s = Ret (tt, s') /\ conns s' !! fd = Some c' /\ c_open c' = false /\
    forall env orig_csum orig_length, good_env env -> arriving env = c_sent c' ->
      client_print env orig_csum orig_length =
      if short_lines 0 body then
        if (orig_csum =? csum body) && (orig_length =? zlen body) then Ret tt else Fail Assert
      else Fail Undef.
Proof.
  intros Hok Hsend Hpl Hhost Hs Ec Ho Hsent Hin Ht Hout.
  pose proof (client_request host filename text Hsend Hpl Hhost) as Htext. rewrite <- Ht in Htext.
  assert (Hname : request_parse_URI filename MAXLINE = chars "./" ++ filename).
  { unfold request_parse_URI. apply firstn_all2. unfold client_send in Hsend.
    destruct (Z.ltb_spec (zlen (request_text host filename)) MAXLINE) as [Hlen|]; [|done].
    unfold request_text, zlen in Hlen. rewrite !length_app in *. change (length (chars "GET ")) with 4%nat in Hlen. change (length (chars "./")) with 2%nat. lia. }
  assert (Hs' : served disk (request_parse_URI filename MAXLINE) body) by (by rewrite Hname).
  destruct (do_server_request_run disk s fd c filename body Hok Ec Ho Hin Hout Htext Hs') as (s' & E & _ & _ & _ & (ei & eo & Ec') & _).
  exists s', (answered c ei eo (response (request_parse_URI filename MAXLINE) body)). split_and!; [done|by rewrite Ec', lookup_insert_eq|done|].
  intros env oc ol Hg Ha. unfold answered in Ha. cbn [c_sent] in Ha. rewrite Hsent in Ha.
  apply (client_print_run env _ body oc ol Hg Ha). by apply (served_len disk _ _ Hs).
Qed.

Lemma fetch_roundtrip_witness :
  exists s' c', do_server_request demo_disk 5 (demo_srv (Some (init_cache 8192))) = Ret (tt, s') /\ conns s' !! 5 = Some c' /\ c_open c' = false /\
    forall env orig_csum orig_length, good_env env -> arriving env = c_sent c' ->
      client_print env orig_csum orig_length =
      if short_lines 0 demo_body then
        if (orig_csum =? csum demo_body) && (orig_length =? zlen demo_body) then Ret tt else Fail Assert
      else Fail Undef.
Proof.
  apply (fetch_roundtrip demo_disk (demo_srv (Some (init_cache 8192))) 5 (demo_conn demo_request) (chars "h") (chars "f.txt") demo_request demo_body).
  - by apply demo_srv_ok.
  - reflexivity.
  - split; [done|]. by apply (bool_decide_unpack _).
  - by apply (bool_decide_unpack _).
  - exact demo_served.
  - reflexivity.
  - reflexivity.
  - reflexivity.
  - by apply (bool_decide_unpack _).
  - reflexivity.
  - by apply (bool_decide_unpack _).
Defined.

(** ** Refusals *)

(** C30: A file is read only if its name does not start with a slash, does not
    contain two dots and does not end in .c or .h, and if it is a regular file
    that can be read. *)
Theorem readfile_safe disk s rq s' :
  request_readfile disk rq s = Ret (true, s') ->
  exists r d name st_size content, requests s !! rq = Some r /\ files (the_web s) !! rq_data r = Some d /\ file_name d = Some name /\
    disk name = Regular st_size content /\ head name <> Some 47 /\
    (~ exists a b, name = a ++ chars ".." ++ b) /\ (~ exists a, name = a ++ chars ".c") /\ (~ exists a, name = a ++ chars ".h").
Proof.
  unfold request_readfile. intros H. apply bind_inv in H as (r & s1 & Hr & H).
  unfold get_request in Hr. rewrite run_gets in Hr. destruct (requests s !! rq) as [r'|] eqn:Er; [|done]. injection Hr as -> <-.
  apply bind_inv in H as (name & s2 & Hn & H). unfold on_web, zoom in Hn.
  destruct (get_name (rq_data r) (the_web s)) as [[n w]|] eqn:En; [|done]. injection Hn as -> <-.
  unfold get_name in En. apply bind_inv in En as (d & w1 & Ed & En). unfold get_data in Ed. rewrite run_gets in Ed.
  destruct (files (the_web s) !! rq_data r) as [d'|] eqn:Ef; [|done]. injection Ed as -> <-.
  destruct (file_name d) as [n'|] eqn:Efn; [|done]. injection En as -> <-.
  destruct (refused name) as [msg|] eqn:Eref.
  { apply bind_inv in H as (? & ? & _ & H). done. }
  destruct (disk name) as [| |st content] eqn:Edisk; [by apply bind_inv in H as (? & ? & _ & H)..|].
  exists r, d, name, st, content. split_and!; try done; unfold refused in Eref.
  - intros Hh. by rewrite bool_decide_eq_true_2 in Eref.
  - intros Hd. apply strstr_spec in Hd. rewrite Hd in Eref. by case_bool_decide.
  - intros (a & ->). case_bool_decide; [done|]. destruct (strstr _ _); [done|].
    change (chars ".c") with (46 :: [99]) in Eref. rewrite strrchr_app in Eref by (by apply (bool_decide_unpack _)). done.
  - intros (a & ->). case_bool_decide; [done|]. destruct (strstr _ _); [done|].
    change (chars ".h") with (46 :: [104]) in Eref. rewrite strrchr_app in Eref by (by apply (bool_decide_unpack _)). done.
Qed.

(** A server in the middle of a request for ./f.txt. *)
Definition demo_started : srv :=
  Srv (Web {[1%positive := FileData (Some (chars "./f.txt")) None 0]} None [] []) (conns (demo_srv None)) {[1%positive := Request 5 1%positive]} [].
Definition demo_read : srv :=
  Srv (Web {[1%positive := FileData (Some (chars "./f.txt")) (Some demo_body) 6]} None [] []) (conns (demo_srv None)) {[1%positive := Request 5 1%positive]} [].

Lemma readfile_safe_witness :
  exists r d name st_size content, requests demo_started !! 1%positive = Some r /\ files (the_web demo_started) !! rq_data r = Some d /\
    file_name d = Some name /\ demo_disk name = Regular st_size content /\ head name <> Some 47 /\
    (~ exists a b, name = a ++ chars ".." ++ b) /\ (~ exists a, name = a ++ chars ".c") /\ (~ exists a, name = a ++ chars ".h").
Proof. apply (readfile_safe demo_disk demo_started 1%positive demo_read). vm_compute. reflexivity. Defined.


Definition bad_request : list Z := chars "GET ../x HTTP/1.0" ++ crlf ++ crlf.
Definition bad_srv (wc : option cache) : srv := Srv (Web empty wc [] []) {[5 := demo_conn bad_request]} empty [].
Definition dots_msg : list Z := chars "OS Web Server doesn't serve files with .. in the path".

Lemma bad_asks : get_request_text bad_request (chars "../x").
Proof.
  exists (chars "GET ../x HTTP/1.0" ++ crlf), [], [], (chars "GET"). split_and!; try done.
  apply is_line_crlf. by apply (bool_decide_unpack _).
Qed.


(** C38: With a cache, the same request destroys the request object twice: after
    the label out the code falls through to the label done, which reads the
    freed object. *)
Theorem refused_cached_crashes disk s fd c uri en sm lm cc (name := request_parse_URI uri MAXLINE) :
  srv_ok disk (the_web s) -> fileCache (the_web s) = Some cc ->
  conns s !! fd = Some c -> c_open c = true -> good_env (c_in c) -> Forall good_wr (c_out c) ->
  get_request_text (arriving (c_in c)) uri -> error_for disk name = Some (en, sm, lm) -> zlen (error_body name en sm lm) < MAXBUF ->
  do_server_request disk fd s = Fail Undef.
Proof. intros Hok Ecc Ec Ho Hin Hout Ht He Hf. by apply (refused_cached disk s fd c uri en sm lm Ec Ho Hin Hout Ht He Hf cc). Qed.

Lemma refused_cached_crashes_witness : do_server_request demo_disk 5 (bad_srv (Some (init_cache 8192))) = Fail Undef.
Proof.
  apply (refused_cached_crashes demo_disk (bad_srv (Some (init_cache 8192))) 5 (demo_conn bad_request) (chars "../x")
    (chars "404") (chars "Not found") dots_msg (init_cache 8192)).
  - by apply (demo_srv_ok 8192).
  - reflexivity.
  - reflexivity.
  - reflexivity.
  - by apply (bool_decide_unpack _).
  - by apply (bool_decide_unpack _).
  - exact bad_asks.
  - reflexivity.
  - by vm_compute.
Defined.

(** ** Input that the server does not expect *)

(** C39: A client that closes the connection after some header lines, before the
    empty line, keeps the server in request_read_headers for ever: at the end
    of the input Rio_readlineb leaves the last line in the buffer. *)
Theorem headers_hang fuel h hs rp :
  good_env (incoming rp) -> pending rp = h ++ concat hs -> Forall header_line (h :: hs) ->
  request_read_headers fuel rp = Fail Diverge.
Proof.
  intros Hg Ep Hall. pose proof Hall as [(Hh & Hz & _) _]%Forall_cons. unfold request_read_headers.
  destruct (Rio_readlineb_line MAXLINE None rp h _ Hg Ep Hh Hz) as (rp1 & E & Hg1 & Ep1). rewrite E, bind_ret.
  by apply (read_headers_hang hs).
Qed.

Lemma headers_hang_witness : request_read_headers 1000 (rio_init [RData (chars "host: h" ++ crlf)]) = Fail Diverge.
Proof.
  apply (headers_hang 1000 (chars "host: h" ++ crlf) []).
  - by apply (bool_decide_unpack _).
  - reflexivity.
  - apply Forall_singleton. split_and!; [apply is_line_crlf; by apply (bool_decide_unpack _)|done|done].
Defined.

(** C40: A line that fills the buffer of the caller, newline included or not, makes
    Rio_readlineb write the NUL that ends it past the end of the buffer; a
    shorter line is read whole, however it arrives. *)
Theorem readline_bounds maxlen buf rp (line := line_of (Z.to_nat maxlen) (pending rp)) :
  good_env (incoming rp) -> 0 < maxlen ->
  if zlen line <? maxlen then
    exists rp', Rio_readlineb maxlen buf rp = Ret (zlen line, if decide (line = []) then buf else Some line, rp') /\
      good_env (incoming rp') /\ pending rp = line ++ pending rp'
  else Rio_readlineb maxlen buf rp = Fail Undef.
Proof.
  intros Hg Hm. destruct (readline_loop_good (Z.to_nat maxlen) rp Hg) as (rp' & E & Hg' & Ep). fold line in E, Ep.
  unfold Rio_readlineb. rewrite E. destruct line as [|c l]; [|by destruct (zlen (c :: l) <? maxlen); [exists rp'|]].
  rewrite (proj2 (Z.ltb_lt _ _)) by (unfold zlen; cbn; lia). by exists rp'.
Qed.

Lemma readline_bounds_witness : Rio_readlineb 4 None (rio_init [RData [65; 66]; RIntr; RData [67; 10; 68]]) = Fail Undef.
Proof. apply (readline_bounds 4 None (rio_init [RData [65; 66]; RIntr; RData [67; 10; 68]])); [by apply (bool_decide_unpack _)|lia]. Defined.
