(* ===== verification/FileSet.v ===== *)
(** * The files that are requested (webserver/fileset.c and the list of client.c)

    fileset.c fills a directory with files of random bytes and writes an index
    of their names, checksums and lengths; the client reads the index into an
    array of [struct fileinfo].  The bytes come from random and the sizes from
    rand_pareto, which computes with doubles: both are parameters, sequences of
    the values they return.

    [fileset_roundtrip]: with sizes of 4096 bytes and more, and an index that
    fits in its buffer, the generator comes to its end, and the client reads
    from the index what the files are, however the index is cut into pieces.
    [fileset_client]: the client accepts a file of the set that fits in the
    buffer of client_print, and writes past the buffer for a longer one. *)
From S2P Require Import Prelude Bytes Text Rio WebCache WebCacheSpec WebRequest WebClient WebRequestSpec.

(** ** The generator *)
Section generator.
(** The value of the k-th call of rand_pareto, as an int, and of random. *)
Variables pareto random : nat -> Z.

(** printf("%05d", n) for n >= 0 *)
Definition print_05d (n : Z) : list Z := let s := print_u n in replicate (5 - length s) 48 ++ s.

(** The loop that fills buf, of [sz] bytes; [k] calls of random came before. *)
Fixpoint fill (sz k : nat) : list Z :=
  match sz with O => [] | S sz => (Z.rem (random k) (115 - 32) + 32) :: fill sz (S k) end.

(** while (remaining > 0): the bytes of the file, and its checksum. *)
Fixpoint write_file (fuel : nat) (remaining : Z) (k : nat) (sum : Z) : res (list Z * Z * nat) :=
  match fuel with
  | O => Fail Diverge
  | S fuel =>
      if 0 <? remaining then
        let sz := if remaining <? 4096 then remaining else 4096 in
        let b := fill (Z.to_nat sz) k in
        let sum := fold_left (fun n c => u32 (n + c)) b sum in
        '(rest, sum, k) ← write_file fuel (remaining - sz) (k + Z.to_nat sz) sum;
        Ret (b ++ rest, sum, k)
      else Ret ([], sum, k)
  end.

(** What the main loop changes, and the files it has written. *)
Record gen := Gen {
  nr_files : Z; current_fileset_sz : Z; idx_buffer : list Z; calls : nat; written : list (list Z * list Z)
}.

(** sprintf or strcpy into an array of [size] bytes *)
Definition fits_array (size : Z) (s : list Z) : res unit := if zlen s <? size then Ret tt else Fail Undef.

(** One line of the index. *)
Definition idx_line (filename : list Z) (sum file_sz : Z) : list Z :=
  filename ++ [32] ++ print_u sum ++ [32] ++ print_d file_sz ++ [10].

(** The body of the main loop.  [cur_size] is the length of idx_buffer. *)
Definition make_file (dir : list Z) (g : gen) : res gen :=
  let name := 47 :: print_05d (nr_files g) in
  _ ← fits_array 10 name;
  let filename := dir ++ name in
  _ ← fits_array 1024 filename;
  let file_sz := pareto (Z.to_nat (nr_files g)) in
  current ← add_s32 (current_fileset_sz g) file_sz;
  '(data, sum, k) ← write_file (S (Z.to_nat file_sz)) file_sz (calls g) 0;
  let idx_buf := idx_line filename sum file_sz in
  _ ← fits_array 4096 idx_buf;
  let cur_size := zlen (idx_buffer g) + zlen idx_buf in
  _ ← c_assert (cur_size <? 4096 * 256 - 1);
  Ret (Gen (nr_files g + 1) current (idx_buffer g ++ idx_buf) k (written g ++ [(filename, data)])).

Fixpoint make_files (fuel : nat) (dir : list Z) (total_fileset_sz : Z) (g : gen) : res gen :=
  match fuel with
  | O => Fail Diverge
  | S fuel =>
      if current_fileset_sz g <? total_fileset_sz then g ← make_file dir g; make_files fuel dir total_fileset_sz g
      else Ret g
  end.

(** main after the options: the files, and the index that is written to
    dir.idx. *)
Definition fileset (fuel : nat) (dir : list Z) (default_file_sz default_nr_files : Z) : res (list (list Z * list Z) * list Z) :=
  if (default_file_sz <=? 1) || (default_nr_files <? 1) || (99999 <? default_nr_files) || (1000 <? zlen dir) then Fail (Exit 1)
  else
    total ← mul_s32 default_file_sz 4096;
    total_fileset_sz ← mul_s32 total default_nr_files;
    g ← make_files fuel dir total_fileset_sz (Gen 0 0 [] 0 []);
    Ret (written g, print_d (nr_files g) ++ [10] ++ idx_buffer g).
End generator.

(** ** The list of the client *)

(** [struct fileinfo]; None is memory without a value. *)
Record fileinfo := FileInfo { name : option (list Z); info_csum : option Z; len : option Z }.

(** sscanf(buf, "%s %u %d", fi->name, &fi->csum, &fi->len), where name has
    [room] bytes *)
Definition scan_info (room : Z) (buf : list Z) : res fileinfo :=
  match scan_word (cstr buf) with
  | None => Ret (FileInfo None None None)
  | Some (w, rest) =>
      _ ← fits_array room w;
      match scan_number rest with
      | None => Ret (FileInfo (Some w) None None)
      | Some (neg, n, rest) =>
          if n <? 2 ^ 32 then
            let sum := if neg : bool then u32 (- n) else n in
            match scan_number rest with
            | None => Ret (FileInfo (Some w) (Some sum) None)
            | Some (neg, n, _) =>
                let z := if neg : bool then - n else n in
                if s32 z =? z then Ret (FileInfo (Some w) (Some sum) (Some z)) else Fail Undef
            end
          else Fail Undef
      end
  end.

(** The loop of init_fileset: the number of files and the array so far. *)
Fixpoint init_loop (fuel : nat) (nr : Z) (fs : list fileinfo) (buf : buffer) (rio : rstream) : res (Z * list fileinfo) :=
  match fuel with
  | O => Fail Diverge
  | S fuel =>
      '(n, buf, rio) ← Rio_readlineb MAXLINE buf rio;
      if n =? 0 then
        _ ← c_assert (0 <? nr);
        _ ← c_assert (zlen fs =? nr);
        Ret (nr, fs)
      else
        l ← deref buf;
        c ← deref (l !! Z.to_nat (n - 1));
        let n := if c =? 10 then n - 1 else n in
        if nr =? 0 then
          nr ← atoi (cstr l);
          _ ← c_assert (0 <? nr);
          init_loop fuel nr fs buf rio
        else
          _ ← c_assert (zlen fs <? nr);
          fi ← scan_info (n + 1) l;
          init_loop fuel nr (fs ++ [fi]) buf rio
  end.

Definition init_fileset (env : list rd) : res (Z * list fileinfo) :=
  let rio := rio_init env in init_loop (S (length (pending rio))) 0 [] None rio.

(** What the client knows of a file. *)
Definition info_of (file : list Z * list Z) : fileinfo :=
  FileInfo (Some file.1) (Some (csum file.2)) (Some (zlen file.2)).

(** ** The lines of the index *)

Lemma length_print_loop k fuel n : 0 <= n < 10 ^ Z.of_nat (S k) -> (length (print_loop fuel n []) <= S k)%nat.
Proof.
  revert fuel n. induction k as [|k IH]; intros [|fuel] n Hn; cbn [print_loop]; try (cbn; lia).
  - change (10 ^ Z.of_nat 1) with 10 in Hn. rewrite (proj2 (Z.ltb_lt _ _)) by lia. done.
  - destruct (n <? 10); [cbn; lia|]. rewrite print_loop_app, length_app. cbn [length].
    assert (0 <= n / 10 < 10 ^ Z.of_nat (S k)); [|pose proof (IH fuel (n / 10) ltac:(done)); lia].
    rewrite (Nat2Z.inj_succ (S k)), Z.pow_succ_r in Hn by lia. split; [apply Z.div_pos; lia|apply Z.div_lt_upper_bound; lia].
Qed.

Lemma zlen_print_u k n : 0 <= n < 10 ^ Z.of_nat (S k) -> zlen (print_u n) <= Z.of_nat (S k).
Proof. intros Hn. pose proof (length_print_loop k (S (Z.to_nat (Z.log2 n))) n Hn). unfold zlen, print_u. lia. Qed.

Lemma zlen_print_05d n : 0 <= n < 10 ^ 5 -> zlen (print_05d n) = 5.
Proof.
  intros Hn. pose proof (zlen_print_u 4 n Hn). unfold print_05d, zlen in *. rewrite length_app, length_replicate. lia.
Qed.

(** A character that ends no word and no string. *)
Definition word_char (c : Z) : Prop := isspace c = false /\ c <> 0.

Lemma digit_word_char c : isdigit c = true -> word_char c.
Proof.
  unfold isdigit, word_char, isspace. intros [H1%Z.leb_le H2%Z.leb_le]%andb_true_iff. split; [|lia].
  rewrite (proj2 (Z.leb_gt c 13)), (proj2 (Z.eqb_neq c 32)) by lia. by rewrite andb_false_r.
Qed.
Lemma print_u_word n : 0 <= n -> Forall word_char (print_u n).
Proof. intros Hn. eapply Forall_impl; [by apply print_u_digits|]. apply digit_word_char. Qed.
Lemma print_05d_word n : 0 <= n -> Forall word_char (print_05d n).
Proof. intros Hn. apply Forall_app. split; [by apply Forall_replicate|by apply print_u_word]. Qed.

Lemma word_no_newline w : Forall word_char w -> 10 ∉ w.
Proof. intros Hw Hin. rewrite Forall_forall in Hw. by destruct (Hw _ Hin). Qed.

Section line.
Variables (filename : list Z) (sum file_sz : Z).
Hypothesis Hword : Forall word_char filename.
Hypothesis Hne : filename <> [].
Hypothesis Hsum : 0 <= sum < 2 ^ 32.
Hypothesis Hsz : 0 <= file_sz < 2 ^ 31.

Lemma idx_line_is_line : is_line (idx_line filename sum file_sz).
Proof.
  unfold idx_line. rewrite print_d_nonneg by lia. exists (filename ++ [32] ++ print_u sum ++ [32] ++ print_u file_sz).
  split; [by rewrite <- !app_assoc|]. pose proof (word_no_newline _ Hword). pose proof (word_no_newline _ (print_u_word sum ltac:(lia))).
  pose proof (word_no_newline _ (print_u_word file_sz ltac:(lia))). rewrite !elem_of_app, !list_elem_of_singleton. intuition lia.
Qed.

Lemma zlen_idx_line : zlen (idx_line filename sum file_sz) <= zlen filename + 23.
Proof.
  unfold idx_line. rewrite print_d_nonneg by lia. rewrite !zlen_app. change (zlen [32]) with 1. change (zlen [10]) with 1.
  pose proof (zlen_print_u 9 sum). pose proof (zlen_print_u 9 file_sz). lia.
Qed.

Lemma cstr_idx_line : cstr (idx_line filename sum file_sz) = idx_line filename sum file_sz.
Proof.
  apply cstr_id. unfold idx_line. rewrite print_d_nonneg by lia.
  assert (Hnz : forall w, Forall word_char w -> Forall (fun c => c <> 0) w) by (intros w Hw; eapply Forall_impl; [exact Hw|]; by intros c []).
  rewrite !Forall_app. split_and!; try (by apply Hnz, print_u_word; lia); [by apply Hnz|repeat constructor; lia..].
Qed.

Lemma scan_idx_line room : zlen filename < room ->
  scan_info room (idx_line filename sum file_sz) = Ret (FileInfo (Some filename) (Some sum) (Some file_sz)).
Proof.
  intros Hr. unfold scan_info. rewrite cstr_idx_line. unfold idx_line. rewrite print_d_nonneg by lia. cbn [app].
  rewrite scan_word_app by (done || (eapply Forall_impl; [exact Hword|]; by intros c [])).
  unfold fits_array. rewrite (proj2 (Z.ltb_lt _ _)) by done. rewrite bind_ret.
  assert (Hsp : forall s, scan_number (32 :: s) = scan_number s) by done.
  rewrite Hsp, scan_print by (done || lia). rewrite (proj2 (Z.ltb_lt _ _)) by lia.
  rewrite Hsp, scan_print by (done || lia). by rewrite s32_small, Z.eqb_refl by (unfold in_s32; lia).
Qed.
End line.

(** A file of the set: its line fits, and is read as it was written. *)
Record set_file (dir : list Z) (f : list Z * list Z) : Prop := SetFile {
  sf_word : Forall word_char f.1;
  sf_ne : f.1 <> [];
  sf_name : zlen f.1 = zlen dir + 6;
  sf_len : 4096 <= zlen f.2 < 2 ^ 31
}.
Definition line_of_file (f : list Z * list Z) : list Z := idx_line f.1 (csum f.2) (zlen f.2).

Lemma csum_app l l' : csum (l ++ l') = fold_left (fun n c => u32 (n + c)) l' (csum l).
Proof. apply fold_left_app. Qed.

(** ** The generator comes to its end *)
Section run.
Variables (pareto random : nat -> Z) (dir : list Z) (m n : Z).
Hypothesis Hpareto : forall k, 4096 <= pareto k < 2 ^ 31 - m * 4096 * n.
Hypothesis Hdir : Forall word_char dir.
Hypothesis Hlen : zlen dir <= 1000.
Hypothesis Hm : 1 < m.
Hypothesis Hn : 1 <= n.
Hypothesis Hidx : m * n * (zlen dir + 29) < 2 ^ 20 - 1.

Lemma length_fill sz k : length (fill random sz k) = sz.
Proof. revert k. induction sz as [|sz IH]; intros k; [done|]. cbn [fill length]. by rewrite IH. Qed.

Lemma write_file_run fuel sz k sum : 0 <= sz < Z.of_nat fuel ->
  exists data k', write_file random fuel sz k sum = Ret (data, fold_left (fun n c => u32 (n + c)) data sum, k') /\ zlen data = sz.
Proof.
  revert sz k sum. induction fuel as [|fuel IH]; intros sz k sum Hs; [lia|]. cbn [write_file].
  destruct (Z.ltb_spec 0 sz); [|exists [], k; split; [done|unfold zlen; cbn; lia]].
  set (c := if sz <? 4096 then sz else 4096). assert (Hc : 0 < c <= sz) by (unfold c; destruct (Z.ltb_spec sz 4096); lia).
  set (b := fill random (Z.to_nat c) k).
  destruct (IH (sz - c) (k + Z.to_nat c)%nat (fold_left (fun n c => u32 (n + c)) b sum)) as (data & k' & E & Hd); [lia|].
  exists (b ++ data), k'. rewrite E, fold_left_app. split; [done|]. rewrite zlen_app, Hd. unfold b, zlen. rewrite length_fill. lia.
Qed.

Record gen_ok (g : gen) : Prop := GenOk {
  go_nr : nr_files g = zlen (written g) /\ nr_files g <= m * n;
  go_size : 4096 * nr_files g <= current_fileset_sz g /\ (nr_files g = 0 -> current_fileset_sz g = 0);
  go_idx : idx_buffer g = concat (line_of_file <$> written g);
  go_files : Forall (set_file dir) (written g)
}.

Lemma zlen_lines fs : Forall (set_file dir) fs -> zlen (concat (line_of_file <$> fs)) <= zlen fs * (zlen dir + 29).
Proof.
  induction 1 as [|f fs [Hw Hne Hname Hl] _ IH]; [done|]. cbn [fmap list_fmap concat]. rewrite zlen_app, zlen_cons.
  pose proof (zlen_idx_line f.1 (csum f.2) (zlen f.2) (csum_range _) ltac:(lia)). unfold line_of_file at 1. lia.
Qed.

Lemma make_file_run g : gen_ok g -> current_fileset_sz g < m * 4096 * n ->
  exists g', make_file pareto random dir g = Ret g' /\ gen_ok g' /\ nr_files g' = nr_files g + 1.
Proof.
  intros [[Hnr Hmn] [Hsize _] Hbuf Hfiles] Hcur. pose proof (zlen_nonneg (written g)). pose proof (zlen_nonneg dir).
  assert (Hlt : nr_files g < m * n) by nia. assert (Hbig : nr_files g < 10 ^ 5) by nia.
  unfold make_file. assert (Hname : zlen (47 :: print_05d (nr_files g)) = 6) by (rewrite zlen_cons, zlen_print_05d; lia).
  set (fname := 47 :: print_05d (nr_files g)) in *. unfold fits_array. rewrite Hname. change (6 <? 10) with true. cbn iota. rewrite bind_ret.
  rewrite zlen_app, Hname. rewrite (proj2 (Z.ltb_lt _ 1024)), bind_ret by lia.
  specialize (Hpareto (Z.to_nat (nr_files g))). set (sz := pareto (Z.to_nat (nr_files g))) in *.
  rewrite add_s32_run, bind_ret by lia.
  destruct (write_file_run (S (Z.to_nat sz)) sz (calls g) 0) as (data & k' & -> & Hd); [lia|]. rewrite bind_ret. cbv beta iota.
  change (fold_left _ data 0) with (csum data). rewrite <- Hd.
  assert (Hf : set_file dir (dir ++ fname, data)).
  { split; cbn [fst snd]; [|by destruct dir|rewrite zlen_app; lia|lia].
    apply Forall_app. split; [done|]. constructor; [done|]. apply print_05d_word. lia. }
  change (idx_line (dir ++ fname) (csum data) (zlen data)) with (line_of_file (dir ++ fname, data)).
  assert (Hall : Forall (set_file dir) (written g ++ [(dir ++ fname, data)])) by (apply Forall_app; split; [done|by constructor]).
  assert (Hb : idx_buffer g ++ line_of_file (dir ++ fname, data) = concat (line_of_file <$> (written g ++ [(dir ++ fname, data)]))).
  { rewrite fmap_app, concat_app, Hbuf. cbn [fmap list_fmap concat]. by rewrite app_nil_r. }
  pose proof (zlen_lines _ Hall) as Hl. rewrite <- Hb, !zlen_app in Hl. change (zlen [_]) with 1 in Hl.
  pose proof (zlen_nonneg (idx_buffer g)). rewrite (proj2 (Z.ltb_lt _ 4096)), bind_ret by (destruct Hf; pose proof (zlen_idx_line (dir ++ fname) (csum data) (zlen data) (csum_range _) ltac:(lia)); cbn [fst] in *; unfold line_of_file; cbn [fst snd]; lia).
  rewrite c_assert_true, bind_ret by (apply Z.ltb_lt; nia).
  eexists. split; [done|]. split; [|done]. split; cbn [nr_files current_fileset_sz idx_buffer written]; [|split; lia|done|done].
  rewrite zlen_app. change (zlen [_]) with 1. lia.
Qed.

Lemma make_files_run fuel g : gen_ok g -> m * n - nr_files g < Z.of_nat fuel ->
  exists g', make_files pareto random fuel dir (m * 4096 * n) g = Ret g' /\ gen_ok g' /\ m * 4096 * n <= current_fileset_sz g'.
Proof.
  revert g. induction fuel as [|fuel IH]; intros g Hg Hf; [destruct Hg as [[]]; lia|]. cbn [make_files].
  destruct (Z.ltb_spec (current_fileset_sz g) (m * 4096 * n)) as [Hc|Hc]; [|by exists g].
  destruct (make_file_run g Hg Hc) as (g1 & -> & Hg1 & E1). rewrite bind_ret. apply IH; [done|lia].
Qed.
End run.

Lemma length_concat_ge dir files : Forall (set_file dir) files -> (length files <= length (concat (line_of_file <$> files)))%nat.
Proof.
  induction 1 as [|f fs _ _ IH]; [done|]. cbn [fmap list_fmap concat length]. rewrite length_app. unfold line_of_file at 1, idx_line.
  rewrite !length_app. cbn [length]. lia.
Qed.

(** ** The client reads the index *)

Lemma init_loop_run fuel nr fs buf rio dir files :
  good_env (incoming rio) -> pending rio = concat (line_of_file <$> files) -> Forall (set_file dir) files -> zlen dir <= 1000 ->
  0 < nr -> nr = zlen fs + zlen files -> (length files < fuel)%nat ->
  init_loop fuel nr fs buf rio = Ret (nr, fs ++ (info_of <$> files)).
Proof.
  revert fs buf rio files. induction fuel as [|fuel IH]; intros fs buf rio files Hg Hp Hall Hd Hnr Enr Hf; [lia|].
  cbn [init_loop]. destruct files as [|f files].
  - destruct (Rio_readlineb_end MAXLINE buf rio Hg Hp) as (rio' & -> & _). rewrite bind_ret. cbv beta iota.
    change (zlen []) with 0 in Enr. rewrite Z.eqb_refl, !c_assert_true, !bind_ret by (apply Z.ltb_lt || apply Z.eqb_eq; lia).
    by rewrite app_nil_r.
  - apply Forall_cons in Hall as [[Hw Hne Hname Hl] Hall]. cbn [fmap list_fmap concat] in Hp. rewrite zlen_cons in Enr.
    pose proof (csum_range f.2) as Hsum. pose proof (zlen_idx_line f.1 _ (zlen f.2) Hsum ltac:(lia)) as Hll.
    pose proof (idx_line_is_line f.1 _ (zlen f.2) Hw Hsum ltac:(lia)) as Hline.
    destruct (Rio_readlineb_line MAXLINE buf rio _ _ Hg Hp Hline) as (rio' & -> & Hg' & Hp'); [unfold line_of_file, MAXLINE; lia|].
    rewrite bind_ret. cbv beta iota. fold (line_of_file f) in Hline, Hll.
    destruct Hline as (l & El & Hnl). assert (Hz : zlen (line_of_file f) = zlen l + 1) by (rewrite El, zlen_app; done).
    pose proof (zlen_nonneg l). rewrite (proj2 (Z.eqb_neq (zlen (line_of_file f)) 0)) by lia. cbn [deref]. rewrite bind_ret.
    assert (E10 : line_of_file f !! Z.to_nat (zlen (line_of_file f) - 1) = Some 10).
    { rewrite Hz, El. replace (Z.to_nat (zlen l + 1 - 1)) with (length l) by (unfold zlen; lia). by rewrite lookup_app_r, Nat.sub_diag. }
    rewrite E10. cbn [deref]. rewrite bind_ret, Z.eqb_refl, (proj2 (Z.eqb_neq nr 0)) by lia.
    pose proof (zlen_nonneg files). rewrite c_assert_true, bind_ret by (apply Z.ltb_lt; lia).
    assert (Hroom : zlen f.1 < zlen (line_of_file f) - 1 + 1).
    { unfold line_of_file, idx_line. rewrite !zlen_app. change (zlen [32]) with 1. pose proof (zlen_nonneg (print_u (csum f.2))).
      pose proof (zlen_nonneg (print_d (zlen f.2))). change (zlen [10]) with 1. lia. }
    assert (Hscan : scan_info (zlen (line_of_file f) - 1 + 1) (line_of_file f) = Ret (info_of f)) by (apply scan_idx_line; done || lia).
    rewrite Hscan, bind_ret.
    rewrite (IH _ _ rio' files) by (done || (rewrite ?zlen_app; change (zlen [_]) with 1; cbn [length] in Hf; lia)).
    by rewrite <- app_assoc.
Qed.

(** C26: The generator of file sets comes to its end, when its files have 4096
    bytes and more and the index fits in its buffer, and the client that reads
    the index, in whatever pieces it arrives, has for every file its name, its
    checksum and its length. *)
Theorem fileset_roundtrip pareto random fuel dir m n :
  (forall k, 4096 <= pareto k < 2 ^ 31 - m * 4096 * n) -> Forall word_char dir -> zlen dir <= 1000 -> 1 < m -> 1 <= n ->
  m * n * (zlen dir + 29) < 2 ^ 20 - 1 -> m * n < Z.of_nat fuel ->
  exists files idx, fileset pareto random fuel dir m n = Ret (files, idx) /\ files <> [] /\
    forall env, good_env env -> arriving env = idx -> init_fileset env = Ret (zlen files, info_of <$> files).
Proof.
  intros Hp Hdir Hlen Hm Hn Hidx Hf. pose proof (zlen_nonneg dir). assert (Hmn : 2 <= m * n < 2 ^ 16) by nia. assert (Hn' : n <= m * n) by nia. assert (Hm' : m <= m * n) by nia.
  unfold fileset. rewrite (proj2 (Z.leb_gt m 1)), (proj2 (Z.ltb_ge n 1)), (proj2 (Z.ltb_ge 99999 n)), (proj2 (Z.ltb_ge 1000 _)) by lia. cbn [orb].
  rewrite (mul_s32_run m), bind_ret by (unfold in_s32; lia). rewrite mul_s32_run, bind_ret by (unfold in_s32; lia).
  destruct (make_files_run pareto random dir m n Hp Hdir Hlen Hm Hn Hidx fuel (Gen 0 0 [] 0 [])) as (g & -> & [[Hnr Hle] [Hs Hz] Hb Hall] & Hc);
    [split; cbn; [split; [done|nia]|split; lia|done|constructor]|cbn; lia|].
  rewrite bind_ret. eexists _, _. split; [done|].
  pose proof (zlen_nonneg (written g)). assert (Hpos : 0 < zlen (written g)) by (rewrite <- Hnr in *; destruct (decide (nr_files g = 0)) as [E0|]; [specialize (Hz E0); nia|lia]).
  split; [intros E; by rewrite E in Hpos|]. intros env Hg Ha. unfold init_fileset.
  assert (Ep : pending (rio_init env) = (print_u (nr_files g) ++ [10]) ++ concat (line_of_file <$> written g)).
  { unfold pending. cbn [unread incoming rio_init app]. rewrite Ha, Hb, print_d_nonneg by lia. by rewrite <- app_assoc. }
  assert (Hlong : (S (length (written g)) < S (length (pending (rio_init env))))%nat).
  { rewrite Ep, !length_app. pose proof (length_concat_ge _ _ Hall). cbn [length]. lia. }
  destruct (S (length (pending (rio_init env)))) as [|fuel']; [lia|]. cbn [init_loop].
  pose proof (word_no_newline _ (print_u_word (nr_files g) ltac:(lia))) as Hnl.
  pose proof (zlen_print_u 9 (nr_files g)) as Hdig.
  destruct (Rio_readlineb_line MAXLINE None (rio_init env) _ _ Hg Ep) as (rio' & -> & Hg' & Ep');
    [by eexists|rewrite zlen_app; change (zlen [10]) with 1; unfold MAXLINE; lia|].
  rewrite bind_ret. cbv beta iota. rewrite zlen_app. change (zlen [10]) with 1. pose proof (zlen_nonneg (print_u (nr_files g))).
  rewrite (proj2 (Z.eqb_neq (_ + 1) 0)) by lia. cbn [deref]. rewrite bind_ret.
  replace (Z.to_nat (zlen (print_u (nr_files g)) + 1 - 1)) with (length (print_u (nr_files g))) by (unfold zlen; lia).
  rewrite lookup_app_r, Nat.sub_diag by done. cbn [lookup list_lookup deref]. rewrite bind_ret. cbn [Z.eqb].
  rewrite cstr_id.
  - rewrite atoi_print, bind_ret by (done || lia). rewrite c_assert_true, bind_ret by (apply Z.ltb_lt; lia).
    rewrite (init_loop_run _ _ _ _ _ dir (written g)) by (done || (rewrite ?zlen_app; change (zlen []) with 0; lia)). by rewrite Hnr.
  - apply Forall_app. split; [|by repeat constructor]. eapply Forall_impl; [apply print_u_word; lia|]. by intros c [].
Qed.

Lemma fileset_roundtrip_witness :
  exists files idx, fileset (fun _ => 4096) (fun k => Z.of_nat k) 3 (chars "fileset_dir") 2 1 = Ret (files, idx) /\ files <> [] /\
    forall env, good_env env -> arriving env = idx -> init_fileset env = Ret (zlen files, info_of <$> files).
Proof.
  apply fileset_roundtrip.
  - intros k. split; vm_compute; [discriminate|reflexivity].
  - repeat constructor; discriminate.
  - vm_compute. discriminate.
  - lia.
  - lia.
  - vm_compute. reflexivity.
  - vm_compute. reflexivity.
Defined.

(** A set of two files of 4096 bytes, and what a client reads of it. *)
Example fileset_demo :
  match fileset (fun _ => 4096) (fun _ => 0) 3 (chars "d") 2 1 with
  | Ret (files, idx) =>
      files.*1 = [chars "d/00000"; chars "d/00001"] /\
      idx = chars "2" ++ [10] ++ chars "d/00000 131072 4096" ++ [10] ++ chars "d/00001 131072 4096" ++ [10]
  | Fail _ => False
  end.
Proof. vm_compute. split; reflexivity. Qed.

(** ** The client asks for a file of the set *)

Section contents.
Variables (pareto random : nat -> Z) (dir : list Z).
Hypothesis Hpareto : forall k, in_s32 (pareto k).
Hypothesis Hrandom : forall k, 0 <= random k.

(** The bytes of a file are printable, and none is a newline. *)
Definition printable_file (f : list Z * list Z) : Prop := Forall (fun c => 32 <= c < 115) f.2 /\ zlen f.2 < 2 ^ 31.

Lemma fill_printable sz k : Forall (fun c => 32 <= c < 115) (fill random sz k).
Proof.
  revert k. induction sz as [|sz IH]; intros k; constructor; [|apply IH].
  pose proof (Z.rem_bound_pos (random k) (115 - 32) (Hrandom k)). lia.
Qed.

Lemma write_file_inv fuel sz k sum data sum' k' :
  write_file random fuel sz k sum = Ret (data, sum', k') -> Forall (fun c => 32 <= c < 115) data /\ zlen data = Z.max 0 sz.
Proof.
  revert sz k sum data sum' k'. induction fuel as [|fuel IH]; intros sz k sum data sum' k'; [done|]. cbn [write_file].
  destruct (Z.ltb_spec 0 sz); [|intros [= <- <- <-]; split; [done|change (zlen []) with 0; lia]].
  set (c := if sz <? 4096 then sz else 4096). assert (Hc : 0 < c <= sz) by (unfold c; destruct (Z.ltb_spec sz 4096); lia).
  intros H'. inv_res H'. destruct a as [[rest s1] k1]. apply IH in H'0 as [Hr Hl]. injection H' as <- <- <-.
  split; [apply Forall_app; split; [apply fill_printable|done]|]. rewrite zlen_app, Hl. unfold zlen. rewrite length_fill. lia.
Qed.

Lemma make_file_inv g g' : make_file pareto random dir g = Ret g' -> exists f, written g' = written g ++ [f] /\ printable_file f.
Proof.
  unfold make_file. cbv zeta. intros H. inv_res H. inv_res H. inv_res H. inv_res H. destruct a2 as [[data sum] k].
  apply write_file_inv in H3 as [Hd Hl]. inv_res H. inv_res H. injection H as <-. eexists. split; [done|]. split; cbn [snd]; [done|].
  rewrite Hl. specialize (Hpareto (Z.to_nat (nr_files g))). unfold in_s32 in Hpareto. lia.
Qed.

Lemma make_files_inv fuel total g g' :
  make_files pareto random fuel dir total g = Ret g' -> Forall printable_file (written g) -> Forall printable_file (written g').
Proof.
  revert g. induction fuel as [|fuel IH]; intros g; [done|]. cbn [make_files]. destruct (_ <? _); [|by intros [= ->]].
  intros H Hg. inv_res H. apply (IH a H). destruct (make_file_inv _ _ H0) as (f & -> & Hf). apply Forall_app. split; [done|by constructor].
Qed.
End contents.

(** C24: The client that gets a file of the set, and expects its checksum and
    its length, accepts it if the file is shorter than the buffer of
    client_print, MAXBUF bytes; the files have no newlines, and with a longer
    one the NUL after the first MAXBUF bytes is written past the buffer. *)
Theorem fileset_client pareto random fuel dir m n files idx f :
  (forall k, in_s32 (pareto k)) -> (forall k, 0 <= random k) ->
  fileset pareto random fuel dir m n = Ret (files, idx) -> f ∈ files ->
  forall env name, good_env env -> arriving env = response name f.2 ->
    client_print env (csum f.2) (zlen f.2) = if zlen f.2 <? MAXBUF then Ret tt else Fail Undef.
Proof.
  intros Hp Hr H Hf env name Hg Ha.
  assert (Hall : Forall printable_file files).
  { unfold fileset in H. case_match; [done|]. inv_res H. inv_res H. inv_res H. injection H as <- <-.
    by apply (make_files_inv pareto random dir Hp Hr _ _ _ _ H3). }
  rewrite Forall_forall in Hall. destruct (Hall f Hf) as [Hc Hl].
  assert (Hn : 10 ∉ f.2) by (intros Hin; rewrite Forall_forall in Hc; specialize (Hc 10 Hin); lia).
  rewrite (client_print_run env name f.2), short_lines_no_newline by (done || lia). by rewrite !Z.eqb_refl.
Qed.

Lemma fileset_client_witness :
  let big := replicate (Z.to_nat 8192) 32 in
  fileset (fun _ => 8192) (fun _ => 0) 2 (chars "d") 2 1 = Ret ([(chars "d/00000", big)], chars "1" ++ [10] ++ chars "d/00000 262144 8192" ++ [10]) /\
  forall env name, good_env env -> arriving env = response name big -> client_print env 262144 8192 = Fail Undef.
Proof.
  intros big.
  assert (E : fileset (fun _ => 8192) (fun _ => 0) 2 (chars "d") 2 1 = Ret ([(chars "d/00000", big)], chars "1" ++ [10] ++ chars "d/00000 262144 8192" ++ [10])) by (vm_compute; reflexivity).
  split; [exact E|]. intros env name Hg Ha.
  assert (Hin : (chars "d/00000", big) ∈ [(chars "d/00000", big)]) by (apply list_elem_of_singleton; reflexivity).
  pose proof (fileset_client (fun _ => 8192) (fun _ => 0) 2 (chars "d") 2 1 _ _ _ ltac:(intros ?; split; vm_compute; congruence) ltac:(intros ?; lia) E Hin env name Hg Ha) as H.
  assert (Ec : csum big = 262144) by (vm_compute; reflexivity). assert (El : zlen big = 8192) by (vm_compute; reflexivity).
  cbn [snd] in H. rewrite Ec, El in H. exact H.
Defined.
