(* ===== verification/WebWorkers.v ===== *)
(** * Several workers in do_server_request (webserver/server_thread.c)

    With worker threads, do_server_request runs in several of them at once.
    The shared data are touched under cache_access and inflight_access, and in
    between a worker works on its own objects and connection; [advance] is what
    a worker does from one of these points to the next, and a schedule says
    which worker goes on.  [run_phases] puts the pieces of one worker together
    again: it is do_server_request.

    A worker that has to evict a file in flight would wait for the worker that
    sends it; the model answers [Diverge] there, as in WebCache.v. *)
From S2P Require Import Prelude Bytes Text StateMonad Rio WebCache WebRequest WebServer.

(** Where a worker is: before request_init; before the first lookup; before
    reading the file; before the second lookup; before the file is put in the
    queue of files in flight, is sent, is taken from the queue; before the
    request is destroyed; returned. *)
Inductive phase :=
| PStart (connfd : Z)
| PParsed (rq data : loc)
| PMiss (rq data : loc)
| PRead (rq data : loc)
| PGot (rq data : loc)
| PFlying (rq data : loc)
| PSent (rq data : loc)
| PRemoved (rq : loc)
| PDone.

Section workers.
Context (files_at : list Z -> disk_file).

(** Without a cache nothing is shared from here on. *)
Definition serve_uncached (rq data : loc) : SRV unit :=
  ret ← request_readfile files_at rq;
  _ ← (if ret : bool then request_sendfile rq else mret tt);
  _ ← request_destroy rq;
  file_data_free data.

Definition advance (ph : phase) : SRV phase :=
  match ph with
  | PStart connfd =>
      data ← on_web file_data_init;
      rq ← request_init connfd data;
      match rq with
      | None => _ ← file_data_free data; mret PDone
      | Some rq => mret (PParsed rq data)
      end
  | PParsed rq data =>
      wc ← gets (fun s => fileCache (the_web s));
      match wc with
      | None => _ ← serve_uncached rq data; mret PDone
      | Some _ =>
          hit ← on_web (cache_lookup data);
          if hit : bool then data ← use_cached rq data; mret (PGot rq data) else mret (PMiss rq data)
      end
  | PMiss rq data =>
      ret ← request_readfile files_at rq;
      if negb ret then _ ← request_destroy rq; _ ← file_data_free data; _ ← request_destroy rq; mret PDone
      else mret (PRead rq data)
  | PRead rq data =>
      hit ← on_web (cache_lookup data);
      if hit : bool then data ← use_cached rq data; mret (PGot rq data)
      else _ ← on_web (cache_insert data); mret (PGot rq data)
  | PGot rq data => _ ← on_web (add_to_queue data); mret (PFlying rq data)
  | PFlying rq data => _ ← request_sendfile rq; mret (PSent rq data)
  | PSent rq data =>
      name ← on_web (get_name data);
      found ← on_web (remove_from_queue name);
      _ ← lift_res (deref found);
      mret (PRemoved rq)
  | PRemoved rq => _ ← request_destroy rq; mret PDone
  | PDone => mret PDone
  end.

Fixpoint run_phases (n : nat) (ph : phase) : SRV phase :=
  match n with O => mret ph | S n => ph ← advance ph; run_phases n ph end.

(** The workers in the order of a schedule. *)
Fixpoint interleave (sched : list nat) (ws : list phase) : SRV (list phase) :=
  match sched with
  | [] => mret ws
  | i :: sched =>
      match ws !! i with
      | None => interleave sched ws
      | Some ph => ph ← advance ph; interleave sched (<[i := ph]> ws)
      end
  end.

End workers.

(** A piece of an execution does what it does in the whole. *)
Lemma run_phases_done files_at n s : run_phases files_at n PDone s = Ret (PDone, s).
Proof. induction n as [|n IH]; [done|]. cbn [run_phases advance]. by rewrite run_ret. Qed.

Lemma run_phases_S files_at n ph s :
  run_phases files_at (S n) ph s = (ph ← advance files_at ph; run_phases files_at n ph) s.
Proof. done. Qed.

(** From PGot on. *)
Lemma run_phases_got files_at n rq data s :
  run_phases files_at (S (S (S (S n)))) (PGot rq data) s = (_ ← send_in_flight rq data; mret PDone) s.
Proof.
  unfold send_in_flight. rewrite run_phases_S. cbn [advance]. rewrite ?run_assoc. apply bind_ext. intros _ s1.
  rewrite run_ret, run_phases_S. cbn [advance]. rewrite ?run_assoc. apply bind_ext. intros _ s2.
  rewrite run_ret, run_phases_S. cbn [advance]. rewrite ?run_assoc. apply bind_ext. intros name s3. rewrite ?run_assoc.
  apply bind_ext. intros found s4. rewrite ?run_assoc. apply bind_ext. intros p s5.
  rewrite run_ret, run_phases_S. cbn [advance]. rewrite ?run_assoc. apply bind_ext. intros _ s6. rewrite run_ret. apply run_phases_done.
Qed.

Lemma run_phases_use_cached files_at n rq data s :
  (ph ← (data ← use_cached rq data; mret (PGot rq data)); run_phases files_at (S (S (S (S n)))) ph) s =
  (_ ← (data ← use_cached rq data; send_in_flight rq data); mret PDone) s.
Proof. rewrite ?run_assoc. apply bind_ext. intros p s1. rewrite run_ret. apply run_phases_got. Qed.

(** Put together again, the pieces of a worker are do_server_request. *)
Theorem phases_are_do_server_request files_at fd s :
  run_phases files_at 8 (PStart fd) s = (_ ← do_server_request files_at fd; mret PDone) s.
Proof.
  change (run_phases files_at 8 (PStart fd)) with (ph ← advance files_at (PStart fd); run_phases files_at 7 ph).
  unfold do_server_request. cbn [advance]. rewrite ?run_assoc. apply bind_ext. intros data s1. rewrite ?run_assoc. apply bind_ext.
  intros [rq|] s2.
  2:{ rewrite ?run_assoc. apply bind_ext. intros _ s3. rewrite run_ret. apply run_phases_done. }
  rewrite run_ret. change (run_phases files_at 7 (PParsed rq data)) with (ph ← advance files_at (PParsed rq data); run_phases files_at 6 ph).
  cbn [advance]. rewrite ?run_assoc. apply bind_ext. intros [cc|] s3.
  2:{ unfold serve_uncached. rewrite ?run_assoc. apply bind_ext. intros ret s4. rewrite ?run_assoc. apply bind_ext. intros _ s5.
      rewrite ?run_assoc. apply bind_ext. intros _ s6. rewrite ?run_assoc. apply bind_ext. intros _ s7. rewrite run_ret. apply run_phases_done. }
  rewrite ?run_assoc. apply bind_ext. intros [|] s4; [apply run_phases_use_cached|].
  rewrite run_ret. change (run_phases files_at 6 (PMiss rq data)) with (ph ← advance files_at (PMiss rq data); run_phases files_at 5 ph).
  cbn [advance]. rewrite ?run_assoc. apply bind_ext. intros [|] s5; cbn [negb].
  2:{ rewrite ?run_assoc. apply bind_ext. intros _ s6. rewrite ?run_assoc. apply bind_ext. intros _ s7. rewrite ?run_assoc. apply bind_ext.
      intros _ s8. rewrite run_ret. apply run_phases_done. }
  rewrite run_ret. change (run_phases files_at 5 (PRead rq data)) with (ph ← advance files_at (PRead rq data); run_phases files_at 4 ph).
  cbn [advance]. rewrite ?run_assoc. apply bind_ext. intros [|] s6; [apply run_phases_use_cached|].
  rewrite ?run_assoc. apply bind_ext. intros b s7. rewrite run_ret. apply run_phases_got.
Qed.
