(* ===== verification/WebWorkersSpec.v ===== *)
(** * Workers that serve requests at the same time do not disturb each other

    As long as the cache has room for all the files that are asked for, nothing
    is evicted, and in every order of the workers' steps each of them answers
    its connection with its file. *)
From S2P Require Import Prelude Bytes Text StateMonad Rio WebCache WebCacheSpec WebRequest WebRequestSpec WebServer WebServerSpec WebWorkers.

Lemma elem_of_list_In_concat {A} (x : A) (ls : list (list A)) : x ∈ concat ls <-> exists l, l ∈ ls /\ x ∈ l.
Proof.
  rewrite elem_of_concat. split.
  - intros (k & l & E & Hx). exists l. split; [by eapply list_elem_of_lookup_2|done].
  - intros (l & (k & E)%list_elem_of_lookup & Hx). by exists k, l.
Qed.

Section spec.
Context (files_at : list Z -> disk_file) (s0 : srv) (max : Z).

Implicit Types (s : srv) (j : job) (ph : phase).

Definition jname j : list Z := request_parse_URI j.2.1 MAXLINE.
Definition jbody j : list Z := j.2.2.
Abbreviation heap s := (files (the_web s)).
Abbreviation lru_of s := (LRU_Policy (the_web s)).

(** The connection of a job, and what was sent on it. *)
Definition conn_at s j (sent : list Z) (open : bool) : Prop :=
  exists c c', conns s0 !! j.1 = Some c /\ conns s !! j.1 = Some c' /\ c_open c' = open /\ c_sent c' = c_sent c ++ sent /\ Forall good_wr (c_out c').

(** Its request, for the file data [p]. *)
Definition req_at s (rq : loc) j (p : loc) : Prop := requests s !! rq = Some (Request j.1 p).

Definition phase_ok s j ph : Prop :=
  match ph with
  | PStart fd => fd = j.1 /\ conns s !! fd = conns s0 !! fd
  | PParsed rq p | PMiss rq p =>
      heap s !! p = Some (FileData (Some (jname j)) None 0) /\ (p ∉ lru_of s) /\ req_at s rq j p /\ conn_at s j [] true
  | PRead rq p => holds files_at (heap s) p (jname j) (jbody j) /\ (p ∉ lru_of s) /\ req_at s rq j p /\ conn_at s j [] true
  | PGot rq p | PFlying rq p => holds files_at (heap s) p (jname j) (jbody j) /\ p ∈ lru_of s /\ req_at s rq j p /\ conn_at s j [] true
  | PSent rq p =>
      holds files_at (heap s) p (jname j) (jbody j) /\ p ∈ lru_of s /\ req_at s rq j p /\ conn_at s j (response (jname j) (jbody j)) true
  | PRemoved rq => (exists p, req_at s rq j p) /\ conn_at s j (response (jname j) (jbody j)) true
  | PDone => conn_at s j (response (jname j) (jbody j)) false
  end.

(** The request and the file data that only this worker uses. *)
Definition own_rq ph : option loc :=
  match ph with
  | PParsed rq _ | PMiss rq _ | PRead rq _ | PGot rq _ | PFlying rq _ | PSent rq _ | PRemoved rq => Some rq
  | PStart _ | PDone => None
  end.
Definition own_data ph : option loc := match ph with PParsed _ p | PMiss _ p | PRead _ p => Some p | _ => None end.
(** What it has in the queue of files in flight. *)
Definition flying ph : list loc := match ph with PFlying _ p | PSent _ p => [p] | _ => [] end.
(** What it may still add to the cache. *)
Definition pending_size (x : job * phase) : Z :=
  match x.2 with PStart _ | PParsed _ _ | PMiss _ _ | PRead _ _ => zlen (jbody x.1) | _ => 0 end.
(** How many steps it has left, at most. *)
Definition steps_left ph : nat :=
  match ph with
  | PStart _ => 8 | PParsed _ _ => 7 | PMiss _ _ => 6 | PRead _ _ => 5 | PGot _ _ => 4 | PFlying _ _ => 3
  | PSent _ _ => 2 | PRemoved _ => 1 | PDone => 0
  end.

(** The cache and its files. *)
Definition cache_at s (budget : Z) : Prop :=
  exists c, fileCache (the_web s) = Some c /\ cache_ok (the_web s) c /\ MAX_SIZE c = max /\ curr_size c + budget <= max.

Record workers_ok s (jws : list (job * phase)) : Prop := WorkersOk {
  wo_cache : cache_at s (sum_over pending_size jws);
  wo_files p : p ∈ lru_of s -> exists name body, holds files_at (heap s) p name body;
  wo_flying : inflight_q (the_web s) ≡ₚ concat ((fun x => flying x.2) <$> jws);
  wo_phase i j ph : jws !! i = Some (j, ph) -> phase_ok s j ph;
  wo_jobs i j ph : jws !! i = Some (j, ph) -> job_ok files_at s0 j;
  wo_apart i i' x x' : i <> i' -> jws !! i = Some x -> jws !! i' = Some x' ->
    x.1.1 <> x'.1.1 /\ (forall r, own_rq x.2 = Some r -> own_rq x'.2 <> Some r) /\ (forall p, own_data x.2 = Some p -> own_data x'.2 <> Some p)
}.

(** What a step of one worker leaves alone. *)
Record step_frame s s' j ph : Prop := StepFrame {
  sf_conns fd : fd <> j.1 -> conns s' !! fd = conns s !! fd;
  sf_requests r : is_Some (requests s !! r) -> own_rq ph <> Some r -> requests s' !! r = requests s !! r;
  sf_files p : is_Some (heap s !! p) -> own_data ph <> Some p -> heap s' !! p = heap s !! p;
  sf_lru p : p ∈ lru_of s -> p ∈ lru_of s';
  sf_new p : p ∈ lru_of s' -> p ∈ lru_of s \/ own_data ph = Some p
}.

Lemma phase_own_rq s j ph r : phase_ok s j ph -> own_rq ph = Some r -> is_Some (requests s !! r).
Proof. destruct ph; cbn; intros H [= <-]; [by destruct H as (_ & _ & Hq & _); eexists..|]. destruct H as [[p Hq] _]. by eexists. Qed.

Lemma phase_own_data s j ph p : phase_ok s j ph -> own_data ph = Some p -> is_Some (heap s !! p) /\ p ∉ lru_of s.
Proof.
  destruct ph; cbn; intros H [= <-]; [destruct H as (E & Hp & _)..|destruct H as ((d & E & _) & Hp & _)]; (split; [by eexists|done]).
Qed.

Lemma holds_some m p name body : holds files_at m p name body -> is_Some (m !! p).
Proof. intros (d & E & _). by eexists. Qed.

Lemma holds_eq (m m' : gmap loc file_data) p name body : m' !! p = m !! p -> holds files_at m p name body -> holds files_at m' p name body.
Proof. intros E (d & Ed & H). exists d. by rewrite E. Qed.

(** The other workers stay where they are. *)
Lemma phase_frame s s' j ph j2 ph2 :
  step_frame s s' j ph -> j2.1 <> j.1 -> phase_ok s j2 ph2 ->
  (forall r, own_rq ph = Some r -> own_rq ph2 <> Some r) -> (forall p, own_data ph = Some p -> own_data ph2 <> Some p /\ p ∉ lru_of s) ->
  phase_ok s' j2 ph2.
Proof.
  intros [Hc Hr Hf Hl Hn] Hj H Hor Hod.
  assert (Hconn : forall sent b, conn_at s j2 sent b -> conn_at s' j2 sent b) by (intros sent b (c & c' & ?); exists c, c'; by rewrite Hc).
  assert (Hreq : forall rq p, own_rq ph2 = Some rq -> req_at s rq j2 p -> req_at s' rq j2 p).
  { intros rq p Eo E. unfold req_at in *. rewrite Hr; [done|by eexists|]. intros Eo'. by apply (Hor rq). }
  assert (Hprivate : forall p, own_data ph2 = Some p -> is_Some (heap s !! p) -> heap s' !! p = heap s !! p).
  { intros p Eo Hp. apply Hf; [done|]. intros Eo'. by destruct (Hod p Eo') as [Hne _]. }
  assert (Hcached : forall p, p ∈ lru_of s -> is_Some (heap s !! p) -> heap s' !! p = heap s !! p).
  { intros p Hp Hs. apply Hf; [done|]. intros Eo'. by destruct (Hod p Eo'). }
  assert (Hout : forall p, own_data ph2 = Some p -> p ∉ lru_of s -> p ∉ lru_of s').
  { intros p Eo Hp Hp'. destruct (Hn p Hp') as [|Eo']; [done|]. by destruct (Hod p Eo') as [Hne _]. }
  destruct ph2; cbn in *.
  - destruct H as [-> E]. by rewrite Hc.
  - destruct H as (Ef & Hp & Hq & Hcn). split_and!; [|by apply Hout|by apply Hreq|by apply Hconn].
    rewrite Hprivate; [done|done|by rewrite Ef].
  - destruct H as (Ef & Hp & Hq & Hcn). split_and!; [|by apply Hout|by apply Hreq|by apply Hconn].
    rewrite Hprivate; [done|done|by rewrite Ef].
  - destruct H as (Hh & Hp & Hq & Hcn). split_and!; [|auto..]. eapply holds_eq; [|done]. by apply Hprivate; [|eapply holds_some].
  - destruct H as (Hh & Hp & Hq & Hcn). split_and!; [|auto..]. eapply holds_eq; [|done]. by apply Hcached; [|eapply holds_some].
  - destruct H as (Hh & Hp & Hq & Hcn). split_and!; [|auto..]. eapply holds_eq; [|done]. by apply Hcached; [|eapply holds_some].
  - destruct H as (Hh & Hp & Hq & Hcn). split_and!; [|auto..]. eapply holds_eq; [|done]. by apply Hcached; [|eapply holds_some].
  - destruct H as [[p Hq] Hcn]. split; [exists p; auto|auto].
  - auto.
Qed.

(** A step of one worker keeps the invariant of all. *)
Lemma step_intro s s' jws i j ph ph' :
  workers_ok s jws -> jws !! i = Some (j, ph) -> step_frame s s' j ph ->
  (own_rq ph' = own_rq ph \/ own_rq ph' = None \/ exists r, own_rq ph' = Some r /\ requests s !! r = None) ->
  (own_data ph' = own_data ph \/ own_data ph' = None \/ exists p, own_data ph' = Some p /\ heap s !! p = None) ->
  cache_at s' (sum_over pending_size (<[i := (j, ph')]> jws)) ->
  (forall p, p ∈ lru_of s' -> p ∉ lru_of s -> exists name body, holds files_at (heap s') p name body) ->
  (inflight_q (the_web s') ++ flying ph ≡ₚ inflight_q (the_web s) ++ flying ph') ->
  phase_ok s' j ph' -> workers_ok s' (<[i := (j, ph')]> jws).
Proof.
  intros Hok Ei Hfr Hrq Hod Hca Hfi Hfl Hph. pose proof (wo_phase _ _ Hok _ _ _ Ei) as Hphi.
  assert (Hlt : (i < length jws)%nat) by (by eapply lookup_lt_Some).
  assert (Hmine : forall k x, k <> i -> jws !! k = Some x ->
    (forall r, own_rq ph' = Some r -> own_rq x.2 <> Some r) /\ (forall p, own_data ph' = Some p -> own_data x.2 <> Some p)).
  { intros k [j2 ph2] Hk Ek. destruct (wo_apart _ _ Hok i k _ _ ltac:(done) Ei Ek) as (_ & Hr & Hp). pose proof (wo_phase _ _ Hok _ _ _ Ek) as Hk2. cbn in *.
    split.
    - destruct Hrq as [->|[->|(r & Er & Efresh)]]; [done|done|]. intros r' E Eo. assert (r' = r) as -> by congruence.
      destruct (phase_own_rq _ _ _ _ Hk2 Eo). congruence.
    - destruct Hod as [->|[->|(p & Ep & Efresh)]]; [done|done|]. intros p' E Eo. assert (p' = p) as -> by congruence.
      destruct (phase_own_data _ _ _ _ Hk2 Eo) as [[? ?] _]. congruence. }
  split.
  - done.
  - intros p Hp. destruct (decide (p ∈ lru_of s)) as [Hin|Hnin]; [|by apply Hfi].
    destruct (wo_files _ _ Hok p Hin) as (n & b & Hh). exists n, b. eapply holds_eq; [|done]. apply (sf_files _ _ _ _ Hfr); [by eapply holds_some|].
    intros Eo. by destruct (phase_own_data _ _ _ _ Hphi Eo).
  - pose proof (concat_fmap_insert (fun x => flying x.2) jws i (j, ph) (j, ph') Ei) as Hins. cbn in Hins.
    rewrite (wo_flying _ _ Hok), <- Hins in Hfl. by apply Permutation_app_inv_r in Hfl.
  - intros k j2 ph2 Ek. destruct (decide (k = i)) as [->|Hk].
    + rewrite list_lookup_insert_eq in Ek by done. by injection Ek as <- <-.
    + rewrite list_lookup_insert_ne in Ek by done. destruct (wo_apart _ _ Hok i k _ _ ltac:(done) Ei Ek) as (Hj & Hr & Hp).
      apply (phase_frame s s' j ph); [done|by cbn in *; congruence|by eapply (wo_phase _ _ Hok)|exact Hr|].
      intros p Eo. split; [by apply Hp|]. by destruct (phase_own_data _ _ _ _ Hphi Eo).
  - intros k j2 ph2 Ek. destruct (decide (k = i)) as [->|Hk].
    + rewrite list_lookup_insert_eq in Ek by done. injection Ek as <- <-. by apply (wo_jobs _ _ Hok _ _ _ Ei).
    + rewrite list_lookup_insert_ne in Ek by done. by apply (wo_jobs _ _ Hok _ _ _ Ek).
  - intros k k' x x' Hne Ek Ek'. destruct (decide (k = i)) as [->|Hk], (decide (k' = i)) as [->|Hk']; [done| | |].
    + rewrite list_lookup_insert_eq in Ek by done. rewrite list_lookup_insert_ne in Ek' by done. injection Ek as <-.
      destruct (wo_apart _ _ Hok i k' _ _ Hne Ei Ek') as (Hj & _ & _). split; [exact Hj|]. by apply (Hmine k' x').
    + rewrite list_lookup_insert_ne in Ek by done. rewrite list_lookup_insert_eq in Ek' by done. injection Ek' as <-.
      destruct (wo_apart _ _ Hok k i _ _ Hk Ek Ei) as (Hj & _ & _). destruct (Hmine k x Hk Ek) as [Hr Hp]. split; [exact Hj|].
      split; intros r E E'; [by apply (Hr r)|by apply (Hp r)].
    + rewrite list_lookup_insert_ne in Ek, Ek' by done. by apply (wo_apart _ _ Hok k k').
Qed.


(** ** The steps *)

Section step.
Context (s : srv) (jws : list (job * phase)) (i : nat) (j : job) (Hok : workers_ok s jws).

Lemma job_served ph : jws !! i = Some (j, ph) -> served files_at (jname j) (jbody j).
Proof. intros Ei. by destruct (wo_jobs _ _ Hok _ _ _ Ei) as (c & _ & _ & _ & _ & _ & Hs). Qed.

Lemma pending_nonneg ph : jws !! i = Some (j, ph) -> 0 <= pending_size (j, ph) <= zlen (jbody j).
Proof. intros Ei. assert (0 <= zlen (jbody j)) by (unfold zlen; lia). unfold pending_size. cbn. destruct ph; lia. Qed.

Lemma cache_step s' c c' ph ph' :
  jws !! i = Some (j, ph) -> fileCache (the_web s) = Some c -> fileCache (the_web s') = Some c' -> cache_ok (the_web s') c' -> MAX_SIZE c' = MAX_SIZE c ->
  curr_size c' + pending_size (j, ph') <= curr_size c + pending_size (j, ph) -> cache_at s' (sum_over pending_size (<[i := (j, ph')]> jws)).
Proof.
  intros Ei Ec Ec' Hc' Em Hle. destruct (wo_cache _ _ Hok) as (c0 & Ec0 & _ & Em0 & Hb). assert (c0 = c) as -> by congruence.
  exists c'. rewrite (sum_over_insert pending_size jws i (j, ph) (j, ph') Ei). split_and!; [done|done|congruence|lia].
Qed.

(** A lookup: the cached file of the job, or none. *)
Lemma lookup_step c ph p :
  jws !! i = Some (j, ph) -> fileCache (the_web s) = Some c -> cache_ok (the_web s) c -> alive (heap s) p -> name_at (heap s) p = jname j ->
  exists b w2, cache_lookup p (the_web s) = Ret (b, w2) /\ cache_ok w2 c /\ files w2 = heap s /\ inflight_q w2 = inflight_q (the_web s) /\
    LRU_Policy w2 ≡ₚ lru_of s /\
    if b then exists q, q ∈ lru_of s /\ holds files_at (heap s) q (jname j) (jbody j) /\ getCachedFile p w2 = Ret (Some q, w2)
    else w2 = the_web s /\ jname j ∉ (name_at (heap s) <$> lru_of s).
Proof.
  intros Ei Ec Hc Hal Hn. destruct (cache_lookup_lru (the_web s) c p Hc Hal) as (b & w2 & E & Hc2 & Ef & Eq & _ & Hb).
  exists b, w2. rewrite Hn in Hb. split_and!; [done|done|done|done| |].
  - by rewrite <- (co_perm _ _ Hc2), <- (co_perm _ _ Hc).
  - destruct b; [|by destruct Hb]. destruct Hb as (q & Hq & Hqn & Eg). exists q. split_and!; [done| |done].
    destruct (wo_files _ _ Hok q Hq) as (n & bd & Hh). destruct (holds_name _ _ _ _ _ Hh) as (Hn' & _). assert (n = jname j) as -> by congruence.
    destruct Hh as (d & Ed & En & Hs & Hrest). rewrite (served_inj _ _ _ _ (job_served ph Ei) Hs). by exists d.
Qed.

(** The worker takes the cached file. *)
Lemma hit_step c ph rq p q w2 :
  jws !! i = Some (j, ph) -> fileCache (the_web s) = Some c -> cache_ok (the_web s) c -> own_rq ph = Some rq -> own_data ph = Some p -> flying ph = [] ->
  is_Some (heap s !! p) -> (p ∉ lru_of s) -> req_at s rq j p -> conn_at s j [] true ->
  cache_ok w2 c -> files w2 = heap s -> inflight_q w2 = inflight_q (the_web s) -> LRU_Policy w2 ≡ₚ lru_of s ->
  q ∈ lru_of s -> holds files_at (heap s) q (jname j) (jbody j) -> getCachedFile p w2 = Ret (Some q, w2) ->
  exists s', (data ← use_cached rq p; mret (PGot rq data)) (set_web w2 s) = Ret (PGot rq q, s') /\ workers_ok s' (<[i := (j, PGot rq q)]> jws).
Proof.
  intros Ei Ec Hc Hrq Hp Hfl Hsome Hnin Hreq Hconn Hc2 Ef Eq Hperm Hq Hh Eg.
  rewrite (use_cached_run _ (set_web w2 s) rq j.1 p q); [|done|by cbn; rewrite Ef|done]. eexists. split; [done|].
  assert (Ha : agree (files w2) (delete p (files w2)) (LRU_Policy w2)).
  { intros r Hr. apply lookup_delete_ne. intros ->. rewrite Hperm in Hr. done. }
  assert (Hne : q <> p) by (by intros ->).
  apply (step_intro s _ jws i j ph); [done|done| | | | | | |].
  - split; cbn; [done| | | |].
    + intros r _ Hr. apply lookup_insert_ne. congruence.
    + intros r _ Hr. rewrite Ef. apply lookup_delete_ne. congruence.
    + intros r Hr. by rewrite Hperm.
    + intros r Hr. left. by rewrite <- Hperm.
  - left. by rewrite Hrq.
  - by right; left.
  - apply (cache_step _ c c ph); [done|done|by apply (co_cache _ _ Hc2)|by apply cache_ok_agree|done|].
    pose proof (pending_nonneg ph Ei). cbn. lia.
  - intros r Hr Hn. exfalso. apply Hn. by rewrite <- Hperm.
  - cbn. by rewrite Eq, Hfl.
  - cbn. split_and!; [|by rewrite Hperm|by apply lookup_insert_eq|done].
    eapply holds_eq; [|exact Hh]. rewrite Ef. by apply lookup_delete_ne.
Qed.

Lemma start_step fd : jws !! i = Some (j, PStart fd) ->
  exists ph' s', advance files_at (PStart fd) s = Ret (ph', s') /\ workers_ok s' (<[i := (j, ph')]> jws) /\ (steps_left ph' < 8)%nat.
Proof.
  intros Ei. destruct (wo_phase _ _ Hok _ _ _ Ei) as [-> Ec]. destruct (wo_jobs _ _ Hok _ _ _ Ei) as (c & Ec0 & Ho & Hin & Hout & Ht & _).
  rewrite Ec0 in Ec. destruct (wo_cache _ _ Hok) as (cc & Ecc & Hcc & _).
  cbn [advance]. edestruct (start_run s j.1 c j.2.1 Ec Ho Hin Ht (B := phase)) as (env & E). rewrite E. clear E. cbv beta iota.
  set (data := fresh (dom (heap s))). set (rq := fresh (dom (requests s))). set (s1 := started _ _ _ _ _).
  assert (Hd : heap s !! data = None) by (apply not_elem_of_dom, is_fresh).
  assert (Hr : requests s !! rq = None) by (apply not_elem_of_dom, is_fresh).
  assert (Hnin : data ∉ lru_of s).
  { intros Hx. destruct (co_alive _ _ Hcc _ Hx) as (d & n & E & _). congruence. }
  eexists _, _. split; [done|]. split; [|cbn; lia].
  apply (step_intro s s1 jws i j (PStart j.1)); [done|done| | | | | | |].
  - split; cbn; try done.
    + intros fd Hne. by apply lookup_insert_ne.
    + intros r [x Hx] _. apply lookup_insert_ne. fold rq. congruence.
    + intros r [x Hx] _. apply lookup_insert_ne. fold data. congruence.
    + auto.
  - right. right. by exists rq.
  - right. right. by exists data.
  - apply (cache_step _ cc cc (PStart j.1)); [done|done|done| |done|done].
    apply cache_ok_agree; [done|]. intros r Hx. apply lookup_insert_ne. fold data. congruence.
  - done.
  - cbn. by rewrite !app_nil_r.
  - cbn. split_and!; [by apply lookup_insert_eq|done|by apply lookup_insert_eq|].
    exists c, (Conn env (c_out c) (c_sent c) true). split_and!; [done|by apply lookup_insert_eq|done|by rewrite app_nil_r|done].
Qed.

Lemma parsed_step rq p : jws !! i = Some (j, PParsed rq p) ->
  exists ph' s', advance files_at (PParsed rq p) s = Ret (ph', s') /\ workers_ok s' (<[i := (j, ph')]> jws) /\ (steps_left ph' < 7)%nat.
Proof.
  intros Ei. destruct (wo_phase _ _ Hok _ _ _ Ei) as (Ed & Hp & Hreq & Hconn). destruct (wo_cache _ _ Hok) as (cc & Ecc & Hcc & _).
  cbn [advance]. rewrite run_gets, Ecc.
  destruct (lookup_step cc _ p Ei Ecc Hcc) as (b & w2 & E & Hc2 & Ef & Eq & Hperm & Hb).
  { by exists (FileData (Some (jname j)) None 0), (jname j). }
  { unfold name_at. by rewrite Ed. }
  rewrite (on_web_run _ _ s _ _ E). destruct b.
  - destruct Hb as (q & Hq & Hh & Eg).
    destruct (hit_step cc _ rq p q w2 Ei Ecc Hcc) as (s' & E' & Hok'); [done|done|done|by rewrite Ed|done..|].
    exists (PGot rq q), s'. split_and!; [exact E'|done|cbn; lia].
  - destruct Hb as [-> Hn]. exists (PMiss rq p), s. assert (Hid : set_web (the_web s) s = s) by (by destruct s). rewrite Hid.
    split_and!; [done| |cbn; lia]. apply (step_intro s s jws i j (PParsed rq p)); [done|done| |by left|by left| |done|done|done].
    + split; auto.
    + by apply (cache_step _ cc cc (PParsed rq p)).
Qed.

Lemma miss_step rq p : jws !! i = Some (j, PMiss rq p) ->
  exists ph' s', advance files_at (PMiss rq p) s = Ret (ph', s') /\ workers_ok s' (<[i := (j, ph')]> jws) /\ (steps_left ph' < 6)%nat.
Proof.
  intros Ei. destruct (wo_phase _ _ Hok _ _ _ Ei) as (Ed & Hp & Hreq & Hconn). destruct (wo_cache _ _ Hok) as (cc & Ecc & Hcc & _).
  pose proof (job_served _ Ei) as Hs. cbn [advance].
  destruct (request_readfile_run files_at s rq j.1 p (jname j) (jbody j) None 0 Hreq Ed Hs) as (b' & Er & Eb).
  rewrite (bind_run _ _ _ _ _ Er). cbn [negb]. eexists _, _. split; [done|]. split; [|cbn; lia].
  apply (step_intro s _ jws i j (PMiss rq p)); [done|done| |by left|by left| |done|done|].
  - split; cbn; try done; [|auto]. intros r _ Hr. apply lookup_insert_ne. congruence.
  - apply (cache_step _ cc cc (PMiss rq p)); [done|done|done| |done|done].
    apply cache_ok_agree; [done|]. intros r Hr. apply lookup_insert_ne. congruence.
  - cbn. split_and!; [|done|done|done]. eexists. split; [by apply lookup_insert_eq|]. done.
Qed.

(** The files in flight are cached. *)
Lemma flying_cached q : q ∈ inflight_q (the_web s) -> q ∈ lru_of s.
Proof.
  rewrite (wo_flying _ _ Hok). intros (l & (x & -> & Hx)%list_elem_of_fmap & Hq)%elem_of_list_In_concat.
  apply list_elem_of_lookup in Hx as (k & Ek). destruct x as [j2 ph2]. pose proof (wo_phase _ _ Hok _ _ _ Ek) as Hph.
  destruct ph2; cbn in Hq; try (by apply not_elem_of_nil in Hq); apply list_elem_of_singleton in Hq as ->; by destruct Hph as (_ & ? & _).
Qed.

(** Adding a file for which there is room. *)
Lemma no_eviction c p :
  fileCache (the_web s) = Some c -> cache_ok (the_web s) c -> alive (heap s) p -> name_at (heap s) p = jname j -> (p ∉ lru_of s) ->
  (jname j ∉ (name_at (heap s) <$> lru_of s)) -> curr_size c + size_at (heap s) p <= MAX_SIZE c ->
  exists w5 c5, cache_insert p (the_web s) = Ret (true, w5) /\ cache_ok w5 c5 /\ MAX_SIZE c5 = MAX_SIZE c /\
    LRU_Policy w5 = lru_of s ++ [p] /\ files w5 = heap s /\ inflight_q w5 = inflight_q (the_web s) /\
    curr_size c5 = curr_size c + size_at (heap s) p.
Proof.
  intros Ec Hc Hal Hn Hp Hnew Hle. pose proof (co_curr _ _ Hc) as Hcur. pose proof (alive_size _ _ Hal).
  assert (0 <= total (heap s) (lru_of s)) by apply total_nonneg, (all_alive _ c Hc).
  assert (Hs : spare (heap s) (MAX_SIZE c - size_at (heap s) p) (lru_of s) = lru_of s).
  { destruct (lru_of s); cbn [spare]; rewrite (proj2 (Z.leb_le _ _)) by lia; done. }
  assert (Hd : dropped (heap s) (MAX_SIZE c - size_at (heap s) p) (lru_of s) = []) by (unfold dropped; by rewrite Hs, Nat.sub_diag).
  destruct (insert_done (the_web s) c p Hc Hal) as (w5 & c5 & E & Hc5 & EM & EL & EF & EQ); [lia|by rewrite Hn|done| |].
  { rewrite Hd. apply Forall_forall. intros q Hq. split; [|by apply not_elem_of_nil]. by apply (co_alive _ _ Hc), flying_cached. }
  rewrite Hs in EL. rewrite Hd in EF. exists w5, c5. split_and!; try done.
  rewrite (co_curr _ _ Hc5), EL, EF, total_app, Hcur. cbn. lia.
Qed.

(** Taking a file from the queue of files in flight. *)
Lemma remove_flying c p :
  cache_ok (the_web s) c -> p ∈ lru_of s -> p ∈ inflight_q (the_web s) ->
  exists rest, remove_from_queue (name_at (heap s) p) (the_web s) = Ret (Some p, set_inflight rest (the_web s)) /\
    inflight_q (the_web s) ≡ₚ p :: rest.
Proof.
  intros Hc Hp Hin. unfold remove_from_queue. st_run.
  assert (Hal : Forall (alive (heap s)) (inflight_q (the_web s))).
  { apply Forall_forall. intros q Hq. by apply (co_alive _ _ Hc), flying_cached. }
  rewrite (bind_run _ _ _ _ _ (drop_name_run _ _ _ Hal)). destruct (rm_first _ _) as [[q rest]|] eqn:E.
  - pose proof (rm_first_Permutation _ _ _ _ E) as Hperm. apply rm_first_Some in E as (l1 & l2 & El & _ & Hq%bool_decide_eq_true & _).
    assert (q = p) as ->; [|by exists rest]. apply (name_unique _ c Hc); [apply flying_cached; rewrite El; set_solver|done|done].
  - apply rm_first_None in E. rewrite Forall_forall in E. specialize (E p Hin). unfold named in E. by rewrite bool_decide_eq_true_2 in E.
Qed.

Lemma read_step rq p : jws !! i = Some (j, PRead rq p) ->
  exists ph' s', advance files_at (PRead rq p) s = Ret (ph', s') /\ workers_ok s' (<[i := (j, ph')]> jws) /\ (steps_left ph' < 5)%nat.
Proof.
  intros Ei. destruct (wo_phase _ _ Hok _ _ _ Ei) as (Hh & Hp & Hreq & Hconn). destruct (wo_cache _ _ Hok) as (cc & Ecc & Hcc & Em & Hb).
  destruct (holds_name _ _ _ _ _ Hh) as (Hn & Hsz & Hal). cbn [advance].
  destruct (lookup_step cc _ p Ei Ecc Hcc Hal Hn) as (b & w2 & E & Hc2 & Ef & Eq & Hperm & Hbr).
  rewrite (on_web_run _ _ s _ _ E). destruct b.
  - destruct Hbr as (q & Hq & Hhq & Eg).
    destruct (hit_step cc _ rq p q w2 Ei Ecc Hcc) as (s' & E' & Hok'); [done|done|done|by eapply holds_some|done..|].
    exists (PGot rq q), s'. split_and!; [exact E'|done|cbn; lia].
  - destruct Hbr as [-> Hnew]. assert (Hid : set_web (the_web s) s = s) by (by destruct s). rewrite Hid.
    assert (Hpend : pending_size (j, PRead rq p) <= sum_over pending_size jws).
    { apply (sum_over_elem pending_size jws i); [|done]. intros [j2 ph2] _. unfold pending_size, zlen. cbn. destruct ph2; lia. }
    change (zlen (jbody j) <= sum_over pending_size jws) in Hpend.
    assert (Hroom : curr_size cc + size_at (heap s) p <= MAX_SIZE cc) by (rewrite Hsz, Em; lia).
    destruct (no_eviction cc p Ecc Hcc Hal Hn Hp Hnew Hroom) as (w5 & c5 & E5 & Hc5 & EM5 & EL5 & Ef5 & Eq5 & Ecur5).
    rewrite (on_web_run _ _ s _ _ E5). eexists _, _. split; [done|]. split; [|cbn; lia].
    apply (step_intro s _ jws i j (PRead rq p)); [done|done| |by left|by right; left| | | |].
    + split; cbn; try done; rewrite ?EL5, ?Ef5; [done|set_solver|].
      intros r [Hr|Hr%list_elem_of_singleton]%elem_of_app; [by left|right; by subst].
    + apply (cache_step _ cc c5 (PRead rq p)); [done|done|by apply (co_cache _ _ Hc5)|done|done|].
      unfold pending_size. cbn. rewrite Ecur5, Hsz. lia.
    + intros r Hr Hnr. cbn in Hr |- *. rewrite EL5 in Hr. apply elem_of_app in Hr as [Hr|Hr%list_elem_of_singleton]; [done|]. subst r.
      exists (jname j), (jbody j). by rewrite Ef5.
    + cbn. by rewrite Eq5.
    + cbn. rewrite Ef5, EL5. split_and!; [done|set_solver|done|done].
Qed.

Lemma got_step rq p : jws !! i = Some (j, PGot rq p) ->
  exists ph' s', advance files_at (PGot rq p) s = Ret (ph', s') /\ workers_ok s' (<[i := (j, ph')]> jws) /\ (steps_left ph' < 4)%nat.
Proof.
  intros Ei. pose proof (wo_phase _ _ Hok _ _ _ Ei) as Hph. destruct (wo_cache _ _ Hok) as (cc & Ecc & Hcc & _).
  destruct Hph as (Hh & Hp & Hreq & Hconn). pose proof Hh as (d & Ed & _).
  cbn [advance]. rewrite (on_web_run _ _ s _ _ (add_to_queue_run _ _ _ Ed)). eexists _, _. split; [done|]. split; [|cbn; lia].
  apply (step_intro s _ jws i j (PGot rq p)); [done|done| |by left|by left| |done|by cbn; rewrite app_nil_r|done].
  - split; auto.
  - apply (cache_step _ cc cc (PGot rq p)); [done|done|done| |done|done]. destruct Hcc. by split.
Qed.

Lemma flying_step rq p : jws !! i = Some (j, PFlying rq p) ->
  exists ph' s', advance files_at (PFlying rq p) s = Ret (ph', s') /\ workers_ok s' (<[i := (j, ph')]> jws) /\ (steps_left ph' < 3)%nat.
Proof.
  intros Ei. destruct (wo_phase _ _ Hok _ _ _ Ei) as (Hh & Hp & Hreq & (c & c' & Ec0 & Ec & Ho & Hsent & Hg)).
  destruct (wo_cache _ _ Hok) as (cc & Ecc & Hcc & _). cbn [advance].
  destruct (request_sendfile_holds files_at s rq j.1 p (jname j) (jbody j) c' Hreq Hh Ec Ho Hg) as (env & Hge & E).
  rewrite (bind_run _ _ _ _ _ E). eexists _, _. split; [done|]. split; [|cbn; lia].
  apply (step_intro s _ jws i j (PFlying rq p)); [done|done| |by left|by left| |done|done|].
  - split; cbn; auto. intros fd Hne. by apply lookup_insert_ne.
  - by apply (cache_step _ cc cc (PFlying rq p)).
  - cbn. split_and!; [done|done|done|]. exists c, (Conn (c_in c') env (c_sent c' ++ response (jname j) (jbody j)) true).
    split_and!; [done|by apply lookup_insert_eq|done| |done]. cbn. by rewrite Hsent, app_nil_r.
Qed.

Lemma sent_step rq p : jws !! i = Some (j, PSent rq p) ->
  exists ph' s', advance files_at (PSent rq p) s = Ret (ph', s') /\ workers_ok s' (<[i := (j, ph')]> jws) /\ (steps_left ph' < 2)%nat.
Proof.
  intros Ei. destruct (wo_phase _ _ Hok _ _ _ Ei) as (Hh & Hp & Hreq & Hconn). destruct (wo_cache _ _ Hok) as (cc & Ecc & Hcc & _).
  destruct (holds_name _ _ _ _ _ Hh) as (Hn & _ & Hal). cbn [advance]. rewrite (on_web_run _ _ s _ _ (get_name_run1 _ _ Hal)), Hn.
  assert (Hid : set_web (the_web s) s = s) by (by destruct s). rewrite Hid.
  assert (Hin : p ∈ inflight_q (the_web s)).
  { rewrite (wo_flying _ _ Hok). apply elem_of_list_In_concat. exists [p]. split; [|by left]. apply list_elem_of_fmap.
    exists (j, PSent rq p). split; [done|by eapply list_elem_of_lookup_2]. }
  destruct (remove_flying cc p Hcc Hp Hin) as (rest & Erm & Hperm). rewrite Hn in Erm.
  rewrite (on_web_run _ _ s _ _ Erm). rewrite run_lift with (a := p) by done. eexists _, _. split; [done|]. split; [|cbn; lia].
  apply (step_intro s _ jws i j (PSent rq p)); [done|done| |by left|by left| |done| |].
  - split; auto.
  - apply (cache_step _ cc cc (PSent rq p)); [done|done|done| |done|done]. destruct Hcc. by split.
  - cbn. by rewrite app_nil_r, Hperm, Permutation_app_comm.
  - cbn. split; [by exists p|done].
Qed.

Lemma removed_step rq : jws !! i = Some (j, PRemoved rq) ->
  exists ph' s', advance files_at (PRemoved rq) s = Ret (ph', s') /\ workers_ok s' (<[i := (j, ph')]> jws) /\ (steps_left ph' < 1)%nat.
Proof.
  intros Ei. destruct (wo_phase _ _ Hok _ _ _ Ei) as ((p & Hreq) & (c & c' & Ec0 & Ec & Ho & Hsent & Hg)).
  destruct (wo_cache _ _ Hok) as (cc & Ecc & Hcc & _). cbn [advance].
  rewrite (bind_run _ _ _ _ _ (request_destroy_run s rq _ c' Hreq Ec Ho)). eexists _, _. split; [done|]. split; [|cbn; lia].
  apply (step_intro s _ jws i j (PRemoved rq)); [done|done| |by right; left|by left| |done|done|].
  - split; cbn; auto.
    + intros fd Hne. by apply lookup_insert_ne.
    + intros r _ Hr. apply lookup_delete_ne. congruence.
  - by apply (cache_step _ cc cc (PRemoved rq)).
  - cbn. exists c, (Conn (c_in c') (c_out c') (c_sent c') false). split_and!; [done|by apply lookup_insert_eq|done|done|done].
Qed.

(** Every step of every worker returns, and the worker comes nearer to its end. *)
Lemma worker_step ph : jws !! i = Some (j, ph) ->
  exists ph' s', advance files_at ph s = Ret (ph', s') /\ workers_ok s' (<[i := (j, ph')]> jws) /\ (steps_left ph' <= steps_left ph - 1)%nat.
Proof.
  intros Ei. destruct ph as [fd|rq p|rq p|rq p|rq p|rq p|rq p|rq|].
  - destruct (start_step fd Ei) as (ph' & s' & ? & ? & ?). exists ph', s'. cbn. split_and!; [done|done|lia].
  - destruct (parsed_step rq p Ei) as (ph' & s' & ? & ? & ?). exists ph', s'. cbn. split_and!; [done|done|lia].
  - destruct (miss_step rq p Ei) as (ph' & s' & ? & ? & ?). exists ph', s'. cbn. split_and!; [done|done|lia].
  - destruct (read_step rq p Ei) as (ph' & s' & ? & ? & ?). exists ph', s'. cbn. split_and!; [done|done|lia].
  - destruct (got_step rq p Ei) as (ph' & s' & ? & ? & ?). exists ph', s'. cbn. split_and!; [done|done|lia].
  - destruct (flying_step rq p Ei) as (ph' & s' & ? & ? & ?). exists ph', s'. cbn. split_and!; [done|done|lia].
  - destruct (sent_step rq p Ei) as (ph' & s' & ? & ? & ?). exists ph', s'. cbn. split_and!; [done|done|lia].
  - destruct (removed_step rq Ei) as (ph' & s' & ? & ? & ?). exists ph', s'. cbn. split_and!; [done|done|lia].
  - exists PDone, s. rewrite list_insert_id by done. done.
Qed.

End step.
End spec.
