(* ===== verification/WebWorkersTheorems.v ===== *)
(** * What the web server does with several requests at once *)
From S2P Require Import Prelude Bytes Text StateMonad Rio WebCache WebCacheSpec WebRequest WebRequestSpec WebServer WebServerSpec WebTheorems WebWorkers WebWorkersSpec.

(** Before the first step. *)
Lemma workers_start disk jobs s c :
  srv_ok disk (the_web s) -> fileCache (the_web s) = Some c -> NoDup jobs.*1 -> Forall (job_ok disk s) jobs ->
  curr_size c + sum_over (fun j : job => zlen j.2.2) jobs <= MAX_SIZE c ->
  workers_ok disk s (MAX_SIZE c) s ((fun j : job => (j, PStart j.1)) <$> jobs).
Proof.
  intros [Hidle Hcache Hfiles] Ec Hnd Hall Hroom. split.
  - exists c. split_and!; [done|by apply Hcache|done|].
    assert (E : sum_over pending_size ((fun j : job => (j, PStart j.1)) <$> jobs) = sum_over (fun j : job => zlen j.2.2) jobs); [|lia].
    clear. induction jobs as [|j jobs IH]; [done|]. csimpl. unfold sum_over in *. cbn. by rewrite IH.
  - intros p Hp. by apply (Hfiles c).
  - rewrite Hidle. clear. induction jobs as [|j jobs IH]; [done|]. exact IH.
  - intros i j ph (j' & [= -> ->] & Ej)%list_lookup_fmap_Some. done.
  - intros i j ph (j' & [= -> ->] & Ej)%list_lookup_fmap_Some. rewrite Forall_lookup in Hall. by apply (Hall i).
  - intros i i' x x' Hne (j & -> & Ej)%list_lookup_fmap_Some (j' & -> & Ej')%list_lookup_fmap_Some. split; [|done]. cbn. intros E.
    apply Hne, (NoDup_lookup _ i i' j.1 Hnd); [apply list_lookup_fmap_Some; by exists j|rewrite E; apply list_lookup_fmap_Some; by exists j'].
Qed.

(** Every schedule keeps the invariant and brings each worker nearer to its end. *)
Lemma interleave_run disk s0 max sched : forall s jws, workers_ok disk s0 max s jws ->
  exists jws' s', interleave disk sched (snd <$> jws) s = Ret (snd <$> jws', s') /\ workers_ok disk s0 max s' jws' /\
    jws'.*1 = jws.*1 /\
    (forall i x x', jws !! i = Some x -> jws' !! i = Some x' ->
       (steps_left x'.2 <= steps_left x.2 - length (filter (fun k => k = i) sched))%nat).
Proof.
  induction sched as [|k sched IH]; intros s jws Hok; cbn [interleave].
  { exists jws, s. split_and!; try done. intros i x x' -> [= ->]. cbn. lia. }
  rewrite list_lookup_fmap. destruct (jws !! k) as [[j ph]|] eqn:Ek; cbn [fmap option_fmap option_map snd].
  - destruct (worker_step _ _ _ _ _ _ _ Hok ph Ek) as (ph' & s1 & E & Hok1 & Hle). rewrite (bind_run _ _ _ _ _ E).
    destruct (IH s1 _ Hok1) as (jws' & s' & E' & Hok' & Hj & Hst). rewrite list_fmap_insert in E'. cbn [snd] in E'.
    exists jws', s'. split_and!; [exact E'|done| |].
    + rewrite Hj, list_fmap_insert. apply list_insert_id. by rewrite list_lookup_fmap, Ek.
    + intros i x x' Ei Ei'. rewrite filter_cons. destruct (decide (k = i)) as [->|Hne].
      * assert (x = (j, ph)) as -> by congruence. specialize (Hst i (j, ph') x').
        rewrite list_lookup_insert_eq in Hst by (by eapply lookup_lt_Some). specialize (Hst eq_refl Ei'). cbn in *. lia.
      * apply (Hst i); [|done]. by rewrite list_lookup_insert_ne.
  - destruct (IH s jws Hok) as (jws' & s' & E' & Hok' & Hj & Hst). exists jws', s'. split_and!; try done.
    intros i x x' Ei Ei'. rewrite filter_cons. destruct (decide (k = i)) as [->|_]; [congruence|]. by apply (Hst i).
Qed.

(** C6: When the cache has room for every file that is asked for, workers that
    serve their requests at the same time, in any interleaving of their steps,
    end in no undefined behaviour and wait for nobody; a worker that has run
    eight steps is done, and one that is done has answered its connection with
    the header and the bytes of its file and closed it.  The cache keeps its
    invariant, and when all are done nothing is in flight. *)
Theorem workers_safe disk jobs s c sched :
  srv_ok disk (the_web s) -> fileCache (the_web s) = Some c -> NoDup jobs.*1 -> Forall (job_ok disk s) jobs ->
  curr_size c + sum_over (fun j : job => zlen j.2.2) jobs <= MAX_SIZE c ->
  exists ws s' c', interleave disk sched ((fun j : job => PStart j.1) <$> jobs) s = Ret (ws, s') /\ length ws = length jobs /\
    fileCache (the_web s') = Some c' /\ MAX_SIZE c' = MAX_SIZE c /\ cache_ok (the_web s') c' /\
    (Forall (eq PDone) ws -> srv_ok disk (the_web s')) /\
    forall i fd uri body, jobs !! i = Some (fd, (uri, body)) ->
      ((8 <= length (filter (fun k => k = i) sched))%nat -> ws !! i = Some PDone) /\
      (ws !! i = Some PDone -> exists c0 env_in env_out, conns s !! fd = Some c0 /\
         conns s' !! fd = Some (Conn env_in env_out (c_sent c0 ++ response (request_parse_URI uri MAXLINE) body) false)).
Proof.
  intros Hok Ec Hnd Hall Hroom. pose proof (workers_start disk jobs s c Hok Ec Hnd Hall Hroom) as H0.
  destruct (interleave_run disk s (MAX_SIZE c) sched s _ H0) as (jws & s' & E & H' & Hj & Hst).
  assert (Hs : snd <$> ((fun j : job => (j, PStart j.1)) <$> jobs) = (fun j : job => PStart j.1) <$> jobs) by (by rewrite <- list_fmap_compose).
  assert (Hf : ((fun j : job => (j, PStart j.1)) <$> jobs).*1 = jobs) by (rewrite <- list_fmap_compose; apply list_fmap_id).
  assert (Hj' : jws.*1 = jobs) by (etransitivity; [exact Hj|exact Hf]). clear Hj. rename Hj' into Hj. rewrite Hs in E. destruct (wo_cache _ _ _ _ _ H') as (c' & Ec' & Hc' & Em' & _).
  exists (snd <$> jws), s', c'. split_and!; [done|by rewrite <- Hj, !length_fmap|done|done|done| |].
  - intros Hdone. split; [|intros ? E2; congruence|intros c2 p _ Hp; by apply (wo_files _ _ _ _ _ H')].
    apply Permutation_nil_r. rewrite (wo_flying _ _ _ _ _ H'). clear -Hdone.
    induction jws as [|[j ph] jws IH]; [done|]. csimpl in Hdone. apply Forall_cons in Hdone as [<- Hd]. csimpl. by apply IH.
  - intros i fd uri body Ej. rewrite <- Hj in Ej. apply list_lookup_fmap_Some in Ej as ([j ph] & Ej & Ei). cbn in Ej. subst j.
    rewrite list_lookup_fmap, Ei. cbn [fmap option_fmap option_map snd]. split.
    + intros Hn. specialize (Hst i ((fd, (uri, body)), PStart fd) _ ltac:(by rewrite list_lookup_fmap, <- Hj, list_lookup_fmap, Ei) Ei).
      cbn [snd steps_left] in Hst. f_equal. destruct ph; cbn in Hst; (done || lia).
    + intros [= ->]. destruct (wo_phase _ _ _ _ _ H' _ _ _ Ei) as (c0 & [ci co cs cop] & E0 & E1 & Ho & Hsent & _). cbn in *. subst.
      by exists c0, ci, co.
Qed.

Definition two_at_once : list nat := [0; 1; 0; 1; 0; 1; 0; 1; 1; 1; 1; 1; 0; 0; 0; 0]%nat.

Lemma workers_safe_witness :
  exists ws s' c', interleave demo_disk two_at_once [PStart 5; PStart 6] (demo_srv (Some (init_cache 8192))) = Ret (ws, s') /\ length ws = 2%nat /\
    fileCache (the_web s') = Some c' /\ MAX_SIZE c' = 8192 /\ cache_ok (the_web s') c' /\
    (Forall (eq PDone) ws -> srv_ok demo_disk (the_web s')) /\
    forall i fd uri body, demo_jobs !! i = Some (fd, (uri, body)) ->
      ((8 <= length (filter (fun k => k = i) two_at_once))%nat -> ws !! i = Some PDone) /\
      (ws !! i = Some PDone -> exists c0 env_in env_out, conns (demo_srv (Some (init_cache 8192))) !! fd = Some c0 /\
         conns s' !! fd = Some (Conn env_in env_out (c_sent c0 ++ response (request_parse_URI uri MAXLINE) body) false)).
Proof.
  apply (workers_safe demo_disk demo_jobs (demo_srv (Some (init_cache 8192))) (init_cache 8192) two_at_once).
  - by apply demo_srv_ok.
  - reflexivity.
  - by apply (bool_decide_unpack _).
  - exact demo_jobs_ok.
  - vm_compute. discriminate.
Defined.

(** ** A file that is evicted under a worker *)

(** Two files that do not fit in the cache together. *)
Definition big_body (c : Z) : list Z := replicate 3000 c.
Definition race_disk (name : list Z) : disk_file :=
  if bool_decide (name = chars "./f") then Regular 3000 (Some [RData (big_body 102)])
  else if bool_decide (name = chars "./g") then Regular 3000 (Some [RData (big_body 103)]) else Absent.
Definition race_request (uri : list Z) : list Z := chars "GET " ++ uri ++ chars " HTTP/1.0" ++ crlf ++ crlf.
Definition race_conn (uri : list Z) : conn := Conn [RData (race_request uri)] [] [] true.
Definition race_srv : srv :=
  Srv (Web empty (Some (init_cache 4096)) [] []) {[5 := race_conn (chars "f"); 6 := race_conn (chars "f"); 7 := race_conn (chars "g")]} empty [].
Definition race_jobs : list job := [(5, (chars "f", big_body 102)); (6, (chars "f", big_body 102)); (7, (chars "g", big_body 103))].
(** Worker 0 serves f; worker 1 finds f in the cache; worker 2 reads g, for
    which f is evicted; worker 1 goes on. *)
Definition race_sched : list nat := ([0; 0; 0; 0; 0; 0; 0; 0] ++ [1; 1] ++ [2; 2; 2; 2] ++ [1])%nat.

Lemma race_asks uri : uri = chars "f" \/ uri = chars "g" -> get_request_text (race_request uri) uri.
Proof.
  intros Hu. exists (chars "GET " ++ uri ++ chars " HTTP/1.0" ++ crlf), [], [], (chars "GET").
  assert (is_line (chars "GET " ++ uri ++ chars " HTTP/1.0" ++ crlf)).
  { destruct Hu as [-> | ->]; [apply (is_line_crlf (chars "GET f HTTP/1.0"))|apply (is_line_crlf (chars "GET g HTTP/1.0"))]; by apply (bool_decide_unpack _). }
  destruct Hu as [-> | ->]; by split_and!.
Qed.

Lemma race_job_ok fd uri n : conns race_srv !! fd = Some (race_conn uri) -> (uri = chars "f" /\ n = 102) \/ (uri = chars "g" /\ n = 103) ->
  job_ok race_disk race_srv (fd, (uri, big_body n)).
Proof.
  intros E Hu. exists (race_conn uri). split; [exact E|]. split; [done|]. split.
  { destruct Hu as [[-> ->]|[-> ->]]; by apply (bool_decide_unpack _). }
  split; [by apply (bool_decide_unpack _)|]. split.
  { unfold arriving. cbn. rewrite app_nil_r. apply race_asks. by destruct Hu as [[-> _]|[-> _]]; [left|right]. }
  split; [by destruct Hu as [[-> ->]|[-> ->]]|]. exists 3000, [RData (big_body n)].
  split; [by destruct Hu as [[-> ->]|[-> ->]]|]. split; [done|]. split; [destruct Hu as [[-> ->]|[-> ->]]; by apply (bool_decide_unpack _)|].
  destruct Hu as [[-> ->]|[-> ->]]; split; vm_compute; congruence.
Qed.

(** Without that room a cached file can be freed between the lookup and the
    moment it is put in the queue of files in flight, while the mutexes are not
    held: three requests that are served one after the other crash the server
    when they are served at the same time. *)
Theorem race_use_after_free :
  srv_ok race_disk (the_web race_srv) /\ NoDup race_jobs.*1 /\ Forall (job_ok race_disk race_srv) race_jobs /\
  (exists s', serve_all race_disk race_jobs.*1 race_srv = Ret (tt, s')) /\
  interleave race_disk race_sched ((fun j : job => PStart j.1) <$> race_jobs) race_srv = Fail Undef.
Proof.
  split_and!.
  - split; [done| |].
    + intros c [= <-]. by apply init_cache_ok.
    + intros c p _ Hp. by apply not_elem_of_nil in Hp.
  - by apply (bool_decide_unpack _).
  - repeat apply Forall_cons_2; [apply race_job_ok; [done|tauto]..|done].
  - assert (H : match serve_all race_disk race_jobs.*1 race_srv with Ret (tt, _) => true | _ => false end = true) by (vm_compute; reflexivity).
    destruct (serve_all race_disk race_jobs.*1 race_srv) as [[[] s']|]; [by exists s'|done].
  - vm_compute. reflexivity.
Qed.
