(* ===== verification/WebPool.v ===== *)
(** * The worker threads of the web server (webserver/server_thread.c)

    The main thread puts connections in a bounded queue and a pool of workers
    takes them out.  The queue and isServerExiting are only touched with the
    mutex mp held, so a step of the machine is what a thread does from taking mp
    to giving it up, in pthread_mutex_unlock or in pthread_cond_wait.  A signal
    wakes one of the threads that wait, any of them; POSIX also lets a wait
    return without a signal.  A woken thread goes on when it gets mp again.
    Serving a connection ([do_server_request] of WebServer.v) is one step here.

    [accepted], [taken], [handled] and [dropped] record what happened to the
    connections; the code does not keep them. *)
From S2P Require Import Prelude Bytes.

(** ** The queue of connections

    [struct queue]: the list from head to tail is a sequence; the server every
    entry points to is the same one. *)
Record queue := Queue { items : list Z; qlength : Z; MAX_SIZE : Z }.

Definition atMaxCapacity (q : queue) : bool := qlength q =? u32 (MAX_SIZE q).

Definition pushConnection (q : queue) (connfd : Z) : bool * queue :=
  if qlength q <? u32 (MAX_SIZE q) then (true, Queue (items q ++ [connfd]) (u32 (qlength q + 1)) (MAX_SIZE q))
  else (false, q).

(** The descriptor -1 says that there was none. *)
Definition popConnection (q : queue) : Z * queue :=
  match items q with
  | [] => (-1, q)
  | connfd :: l => (connfd, Queue l (u32 (qlength q - 1)) (MAX_SIZE q))
  end.

(** ** The threads *)

(** A worker is at the top of its loop, waits on cv_work, was woken, serves a
    connection, or has returned. *)
Inductive worker := WTop | WSleep | WWake | WServe (connfd : Z) | WDone.

(** The main thread is outside of server_request, waits on cv_main in it, was
    woken, joins the worker [i] in server_exit, has returned from it, or has
    failed an assertion or joined what is not a thread. *)
Inductive main_pc := MIdle | MSleep (connfd : Z) | MWake (connfd : Z) | MJoin (i : nat) | MExited | MCrashed.

#[export] Instance worker_eq_dec : EqDecision worker.
Proof. solve_decision. Defined.
#[export] Instance main_pc_eq_dec : EqDecision main_pc.
Proof. solve_decision. Defined.

Record pool := Pool {
  connection_requests : queue;
  workers : list worker;
  main : main_pc;
  isServerExiting : bool;
  max_requests : Z;
  accepted : list Z;
  taken : list Z;
  handled : list Z;
  dropped : list Z
}.

Definition set_queue x p := Pool x (workers p) (main p) (isServerExiting p) (max_requests p) (accepted p) (taken p) (handled p) (dropped p).
Definition set_workers x p := Pool (connection_requests p) x (main p) (isServerExiting p) (max_requests p) (accepted p) (taken p) (handled p) (dropped p).
Definition set_main x p := Pool (connection_requests p) (workers p) x (isServerExiting p) (max_requests p) (accepted p) (taken p) (handled p) (dropped p).
Definition set_exiting p := Pool (connection_requests p) (workers p) (main p) true (max_requests p) (accepted p) (taken p) (handled p) (dropped p).
Definition set_worker i w p := set_workers (<[i := w]> (workers p)) p.
Definition add_accepted x p := Pool (connection_requests p) (workers p) (main p) (isServerExiting p) (max_requests p) (accepted p ++ [x]) (taken p) (handled p) (dropped p).
Definition add_taken x p := Pool (connection_requests p) (workers p) (main p) (isServerExiting p) (max_requests p) (accepted p) (taken p ++ [x]) (handled p) (dropped p).
Definition add_handled x p := Pool (connection_requests p) (workers p) (main p) (isServerExiting p) (max_requests p) (accepted p) (taken p) (handled p ++ [x]) (dropped p).
Definition add_dropped x p := Pool (connection_requests p) (workers p) (main p) (isServerExiting p) (max_requests p) (accepted p) (taken p) (handled p) (dropped p ++ [x]).

(** server_init with worker threads; the queue is only set up, with this
    capacity, when it is positive, and is zero otherwise. *)
Definition server_init (nr_threads : nat) (max_requests : Z) : pool :=
  Pool (Queue [] 0 (if 0 <? max_requests then max_requests else 0)) (replicate nr_threads WTop) MIdle false max_requests [] [] [] [].

(** ** Steps *)

(** pthread_cond_signal(&cv_main) *)
Definition signal_main (p : pool) : pool :=
  match main p with MSleep fd => set_main (MWake fd) p | _ => p end.

Definition is_sleeping (w : worker) : bool := match w with WSleep => true | _ => false end.

(** pthread_cond_signal(&cv_work) that wakes the worker [who], or none because
    none waits. *)
Definition signal_work (who : option nat) (p : pool) : option pool :=
  match who with
  | Some i => w ← workers p !! i; if is_sleeping w then Some (set_worker i WWake p) else None
  | None => if existsb is_sleeping (workers p) then None else Some p
  end.

(** pthread_cond_broadcast(&cv_work) *)
Definition broadcast_work (p : pool) : pool :=
  set_workers ((fun w => if is_sleeping w then WWake else w) <$> workers p) p.

(** front = popConnection(&connection_requests) *)
Definition pop (p : pool) : Z * pool :=
  let '(fd, q) := popConnection (connection_requests p) in
  (fd, if fd =? -1 then set_queue q p else add_taken fd (set_queue q p)).

(** From the signal to cv_main on: a worker that exits drops what it popped. *)
Definition take_task (i : nat) (fd : Z) (p : pool) : pool :=
  let p := signal_main p in
  if isServerExiting p then
    let p := set_worker i WDone p in if fd =? -1 then p else add_dropped fd p
  else set_worker i (WServe fd) p.

(** pushConnection and what follows a success in server_request. *)
Definition push (fd : Z) (who : option nat) (p : pool) : option pool :=
  match pushConnection (connection_requests p) fd with
  | (true, q) =>
      let p := add_accepted fd (set_queue q p) in
      if bool_decide (last (items q) = Some fd) then set_main MIdle <$> signal_work who p
      else Some (set_main MCrashed p)   (* assert *)
  | (false, _) => match who with None => Some (set_main (MSleep fd) p) | Some _ => None end
  end.

(** What happens next: a worker at the top of its loop takes mp, a woken worker
    takes it, a worker has served its connection, a worker or the main thread
    wakes up without a signal; server_request is called, the main thread goes
    on in it, server_exit is called, a join returns or its loop ends. *)
Inductive event :=
| Enter (i : nat) | Woken (i : nat) | Served (i : nat) | Spurious (i : nat) | SpuriousMain
| Request (connfd : Z) (who : option nat) | MainWoken (who : option nat) | Exit | Join.

Definition step (e : event) (p : pool) : option pool :=
  match e with
  | Enter i =>
      match workers p !! i with
      | Some WTop => let '(fd, p) := pop p in if fd =? -1 then Some (set_worker i WSleep p) else Some (take_task i fd p)
      | _ => None
      end
  | Woken i =>
      match workers p !! i with
      | Some WWake =>
          let '(fd, p) := pop p in
          if isServerExiting p then Some (take_task i fd p)
          else if fd =? -1 then Some (set_worker i WSleep p) else Some (take_task i fd p)
      | _ => None
      end
  | Served i =>
      match workers p !! i with Some (WServe fd) => Some (add_handled fd (set_worker i WTop p)) | _ => None end
  | Spurious i =>
      match workers p !! i with Some WSleep => Some (set_worker i WWake p) | _ => None end
  | SpuriousMain =>
      match main p with MSleep fd => Some (set_main (MWake fd) p) | _ => None end
  | Request fd who =>
      match main p with MIdle => if 0 <=? fd then push fd who p else None | _ => None end
  | MainWoken who =>
      match main p with MWake fd => push fd who p | _ => None end
  | Exit =>
      match main p with MIdle => Some (set_main (MJoin 0) (broadcast_work (set_exiting p))) | _ => None end
  | Join =>
      match main p with
      | MJoin i =>
          if Z.of_nat i <? max_requests p then
            match workers p !! i with
            | Some WDone => Some (set_main (MJoin (S i)) p)
            | Some _ => None
            | None => Some (set_main MCrashed p)   (* thread_pool[i] *)
            end
          else Some (set_main MExited p)
      | _ => None
      end
  end.

(** The steps of an execution. *)
Fixpoint run (es : list event) (p : pool) : option pool :=
  match es with [] => Some p | e :: es => p ← step e p; run es p end.

Inductive reachable (nr_threads : nat) (max_requests : Z) : pool -> Prop :=
| reach_init : reachable nr_threads max_requests (server_init nr_threads max_requests)
| reach_step e p p' : reachable nr_threads max_requests p -> step e p = Some p' -> reachable nr_threads max_requests p'.
