(* ===== verification/WebPoolSpec.v ===== *)
(** * The pool of workers loses nothing while the server runs *)
From S2P Require Import Prelude Bytes WebPool.

Implicit Types (p : pool) (q : queue) (w : worker).

(** The connection a worker serves. *)
Definition serving w : list Z := match w with WServe fd => [fd] | _ => [] end.
Definition being_served p : list Z := concat (serving <$> workers p).

Record pool_ok (nr : nat) (max : Z) p : Prop := PoolOk {
  po_nr : length (workers p) = nr;
  po_max : MAX_SIZE (connection_requests p) = max;
  po_len : qlength (connection_requests p) = zlen (items (connection_requests p));
  po_bound : zlen (items (connection_requests p)) <= max;
  po_fds : Forall (fun fd => 0 <= fd) (items (connection_requests p));
  po_fifo : accepted p = taken p ++ items (connection_requests p);
  po_once : taken p ≡ₚ handled p ++ being_served p ++ dropped p;
  po_running : isServerExiting p = false ->
    dropped p = [] /\ (forall i, workers p !! i <> Some WDone) /\
    match main p with MIdle => True | MSleep fd => 0 <= fd /\ zlen (items (connection_requests p)) = max
                    | MWake fd => 0 <= fd | _ => False end;
  po_exiting : isServerExiting p = true -> match main p with MIdle | MSleep _ | MWake _ => False | _ => True end;
  po_awake : isServerExiting p = false -> items (connection_requests p) <> [] ->
    exists i w, workers p !! i = Some w /\ w <> WSleep
}.

(** ** The queue *)

Lemma push_ok q fd max :
  MAX_SIZE q = max -> qlength q = zlen (items q) -> zlen (items q) <= max -> 0 <= max < 2 ^ 31 ->
  pushConnection q fd =
  if zlen (items q) <? max then (true, Queue (items q ++ [fd]) (zlen (items q ++ [fd])) max) else (false, q).
Proof.
  intros Em El Hb Hm. unfold pushConnection. assert (0 <= zlen (items q)) by (unfold zlen; lia).
  rewrite Em, El, (u32_small max) by (unfold in_u32; lia). destruct (Z.ltb_spec (zlen (items q)) max); [|done].
  rewrite u32_small by (unfold in_u32; lia). do 2 f_equal. unfold zlen. rewrite length_app. cbn. lia.
Qed.

Lemma pop_ok q fd l :
  items q = fd :: l -> qlength q = zlen (items q) -> zlen (items q) < 2 ^ 31 ->
  popConnection q = (fd, Queue l (zlen l) (MAX_SIZE q)).
Proof.
  intros Ei El Hb. unfold popConnection. rewrite El, Ei in *. unfold zlen in *. cbn [length] in *. rewrite u32_small by (unfold in_u32; lia).
  do 2 f_equal. lia.
Qed.

(** ** The workers *)

Lemma concat_insert_nil (ws : list worker) i w w' :
  ws !! i = Some w -> serving w' = [] -> concat (serving <$> ws) ≡ₚ serving w ++ concat (serving <$> <[i := w']> ws).
Proof. intros E Hs. pose proof (concat_fmap_insert serving ws i w w' E) as H. rewrite Hs, app_nil_r in H. by rewrite <- H, Permutation_app_comm. Qed.

Lemma concat_insert_from_nil (ws : list worker) i w w' :
  ws !! i = Some w -> serving w = [] -> concat (serving <$> <[i := w']> ws) ≡ₚ serving w' ++ concat (serving <$> ws).
Proof. intros E Hs. pose proof (concat_fmap_insert serving ws i w w' E) as H. rewrite Hs, app_nil_r in H. by rewrite H, Permutation_app_comm. Qed.

Lemma concat_insert_same (ws : list worker) i w w' :
  ws !! i = Some w -> serving w = serving w' -> serving <$> <[i := w']> ws = serving <$> ws.
Proof. intros E Hs. rewrite list_fmap_insert, <- Hs. apply list_insert_id. by rewrite list_lookup_fmap, E. Qed.

Lemma broadcast_serving (ws : list worker) : serving <$> ((fun w => if is_sleeping w then WWake else w) <$> ws) = serving <$> ws.
Proof. rewrite <- list_fmap_compose. apply list_fmap_ext. intros i w _. by destruct w. Qed.

(** A signal to the workers changes the state of a sleeper at most. *)
Lemma signal_work_inv who p p' :
  signal_work who p = Some p' ->
  (who = None /\ p' = p /\ Forall (fun w => w <> WSleep) (workers p)) \/
  (exists i, who = Some i /\ workers p !! i = Some WSleep /\ p' = set_worker i WWake p).
Proof.
  destruct who as [i|]; cbn [signal_work]; intros H.
  - destruct (workers p !! i) as [w|] eqn:E; [|done]. cbn in H. destruct w; cbn in H; simplify_eq. right. by exists i.
  - destruct (existsb is_sleeping (workers p)) eqn:E; simplify_eq. left. split_and!; [done|done|].
    apply Forall_forall. intros w Hw%list_elem_of_In ->.
    assert (existsb is_sleeping (workers p') = true) by (apply existsb_exists; by exists WSleep). congruence.
Qed.

(** ** The invariant *)

(** The state of the main thread after a signal. *)
Definition woken_main (m : main_pc) : main_pc := match m with MSleep fd => MWake fd | m => m end.

Lemma signal_main_eq p : signal_main p = set_main (woken_main (main p)) p.
Proof. unfold signal_main. destruct p as [? ? []]; done. Qed.

Section invariant.
Context (nr : nat) (max : Z) (Hnr : (0 < nr)%nat) (Hmax : 0 <= max < 2 ^ 31).

Lemma init_ok : pool_ok nr max (server_init nr max).
Proof.
  assert (Hs : being_served (server_init nr max) = []).
  { unfold being_served, server_init. cbn. clear. by induction nr. }
  assert (Em : (if 0 <? max then max else 0) = max) by (destruct (Z.ltb_spec 0 max); lia).
  split; try done; cbn [server_init workers connection_requests items taken handled dropped]; [by rewrite length_replicate|unfold zlen; cbn; lia|by rewrite Hs|].
  intros _. split_and!; [done| |done]. intros i Hi. by apply lookup_replicate in Hi as [? _].
Qed.

(** A worker that serves the same before and after. *)
Lemma set_worker_ok p i w w' :
  pool_ok nr max p -> workers p !! i = Some w -> serving w = serving w' -> (w' = WDone -> isServerExiting p = true) ->
  (w' = WSleep -> items (connection_requests p) = []) -> pool_ok nr max (set_worker i w' p).
Proof.
  intros [] Ew Hs Hd Hsl. split; cbn; try done.
  - by rewrite length_insert.
  - unfold being_served in *. cbn. by rewrite (concat_insert_same _ _ _ _ Ew Hs).
  - intros He. destruct (po_running0 He) as (? & Hnd & ?). split_and!; [done| |done].
    intros j Hj. destruct (decide (j = i)) as [->|]; [|rewrite list_lookup_insert_ne in Hj by done; by apply (Hnd j)].
    rewrite list_lookup_insert_eq in Hj by (by eapply lookup_lt_Some). injection Hj as ->. by rewrite Hd in He.
  - intros He Hne. exists i, w'. split; [apply list_lookup_insert_eq; by eapply lookup_lt_Some|]. intros ->. by apply Hne, Hsl.
Qed.

(** What a worker that pops a connection does with it. *)
Lemma take_ok p i w fd l :
  pool_ok nr max p -> items (connection_requests p) = fd :: l -> workers p !! i = Some w -> serving w = [] ->
  pool_ok nr max (take_task i fd (add_taken fd (set_queue (Queue l (zlen l) max) p))).
Proof.
  intros [] Ei Ew Hs. rewrite Ei in *. apply Forall_cons in po_fds0 as [Hfd Hfds].
  assert (Hlt : (i < length (workers p))%nat) by (by eapply lookup_lt_Some).
  assert (Hz : zlen l < zlen (fd :: l)) by (unfold zlen; cbn; lia).
  unfold take_task. rewrite signal_main_eq. set (m := woken_main _). assert (Em : m = woken_main (main p)) by done.
  clearbody m. change (isServerExiting (set_main m _)) with (isServerExiting p). destruct (isServerExiting p) eqn:Ex.
  - rewrite (proj2 (Z.eqb_neq fd (-1))) by lia. split; cbn; try done; try lia.
    + by rewrite length_insert.
    + by rewrite <- app_assoc.
    + unfold being_served in *. cbn. rewrite (concat_insert_same _ _ _ WDone Ew) by done. rewrite po_once0. by rewrite <- !app_assoc.
    + congruence.
    + specialize (po_exiting0 eq_refl). subst m. by destruct (main p).
    + congruence.
  - split; cbn; try done; try lia.
    + by rewrite length_insert.
    + by rewrite <- app_assoc.
    + unfold being_served in *. cbn. rewrite (concat_insert_from_nil _ _ _ (WServe fd) Ew Hs). cbn. rewrite po_once0.
      rewrite <- (Permutation_middle (handled p)). by rewrite Permutation_app_comm.
    + intros _. destruct (po_running0 eq_refl) as (? & Hnd & Hmain). split_and!; [done| |].
      * intros j Hj. destruct (decide (j = i)) as [->|]; [by rewrite list_lookup_insert_eq in Hj|].
        rewrite list_lookup_insert_ne in Hj by done. by apply (Hnd j).
      * subst m. destruct (main p); try done. by destruct Hmain.
    + congruence.
    + intros _ _. exists i, (WServe fd). by rewrite list_lookup_insert_eq.
Qed.

Lemma pop_inv p fd p' :
  pool_ok nr max p -> pop p = (fd, p') ->
  (items (connection_requests p) = [] /\ fd = -1 /\ p' = p) \/
  (exists l, items (connection_requests p) = fd :: l /\ 0 <= fd /\ p' = add_taken fd (set_queue (Queue l (zlen l) max) p)).
Proof.
  intros [] H. unfold pop in H. destruct (items (connection_requests p)) as [|x l] eqn:Ei.
  - left. unfold popConnection in H. rewrite Ei in H. cbn in H. injection H as <- <-. by destruct p.
  - right. rewrite (pop_ok _ _ _ Ei) in H by (rewrite ?Ei in *; lia || done). apply Forall_cons in po_fds0 as [Hx _].
    rewrite (proj2 (Z.eqb_neq x (-1))) in H by lia. injection H as <- <-. exists l. by rewrite <- po_max0.
Qed.

Definition pushed (fd : Z) p : pool :=
  add_accepted fd (set_queue (Queue (items (connection_requests p) ++ [fd]) (zlen (items (connection_requests p) ++ [fd])) max) p).

Lemma pushed_ok p fd ws :
  pool_ok nr max p -> isServerExiting p = false -> 0 <= fd -> zlen (items (connection_requests p)) < max ->
  length ws = nr -> serving <$> ws = serving <$> workers p -> (forall i, ws !! i <> Some WDone) ->
  (exists i w, ws !! i = Some w /\ w <> WSleep) ->
  pool_ok nr max (set_main MIdle (set_workers ws (pushed fd p))).
Proof.
  intros [] Hex Hfd Hlt Hl Hs Hnd Haw. split; cbn; try done.
  - unfold zlen in *. rewrite length_app. cbn. lia.
  - apply Forall_app. split; [done|by constructor].
  - by rewrite po_fifo0, app_assoc.
  - unfold being_served. cbn. by rewrite Hs.
  - intros _. by destruct (po_running0 Hex) as (? & _ & _).
  - congruence.
Qed.

Lemma full_ok p fd m :
  pool_ok nr max p -> isServerExiting p = false -> 0 <= fd ->
  m = MWake fd \/ m = MSleep fd /\ zlen (items (connection_requests p)) = max -> pool_ok nr max (set_main m p).
Proof.
  intros [] Hex Hfd Hm. split; cbn; try done.
  - intros _. destruct (po_running0 Hex) as (? & ? & _). split_and!; [done|done|]. by destruct Hm as [-> |[-> ?]].
  - congruence.
Qed.

(** A connection is pushed, or the main thread waits because the queue is full. *)
Lemma push_inv p fd who p' :
  pool_ok nr max p -> isServerExiting p = false -> 0 <= fd -> push fd who p = Some p' ->
  pool_ok nr max p' /\
  (zlen (items (connection_requests p)) = max /\ p' = set_main (MSleep fd) p \/
   exists ws, zlen (items (connection_requests p)) < max /\ p' = set_main MIdle (set_workers ws (pushed fd p)) /\
     (ws = workers p \/ exists i, workers p !! i = Some WSleep /\ ws = <[i := WWake]> (workers p))).
Proof.
  intros Hok Hex Hfd H. pose proof Hok as []. destruct (po_running0 Hex) as (_ & Hnd & _). unfold push in H. rewrite (push_ok _ fd max) in H by done.
  destruct (Z.ltb_spec (zlen (items (connection_requests p))) max) as [Hlt|Hge].
  - cbn [items] in H. rewrite last_snoc, bool_decide_eq_true_2 in H by done. fold (pushed fd p) in H.
    destruct (signal_work who (pushed fd p)) as [p1|] eqn:E; [|done]. cbn in H. injection H as <-.
    apply signal_work_inv in E as [(-> & -> & Hall)|(i & -> & Ei & ->)].
    + assert (Hp : set_main MIdle (pushed fd p) = set_main MIdle (set_workers (workers p) (pushed fd p))) by done. rewrite Hp. split.
      * apply pushed_ok; try done. destruct (workers p) as [|w ws] eqn:Ew; [cbn in po_nr0; lia|].
        exists 0%nat, w. split; [done|]. change (workers (pushed fd p)) with (workers p) in Hall. rewrite Ew in Hall. by apply Forall_cons in Hall as [? _].
      * right. exists (workers p). split_and!; [done|done|by left].
    + change (workers (pushed fd p)) with (workers p) in Ei.
      assert (Hp : set_main MIdle (set_worker i WWake (pushed fd p)) = set_main MIdle (set_workers (<[i := WWake]> (workers p)) (pushed fd p))) by done.
      rewrite Hp. assert (Hi : <[i := WWake]> (workers p) !! i = Some WWake) by (apply list_lookup_insert_eq; by eapply lookup_lt_Some). split.
      * apply pushed_ok; try done.
        -- by rewrite length_insert.
        -- by apply (concat_insert_same _ _ WSleep).
        -- intros j Hj. destruct (decide (j = i)) as [->|]; [congruence|]. rewrite list_lookup_insert_ne in Hj by done. by apply (Hnd j).
        -- by exists i, WWake.
      * right. eexists. split_and!; [done|done|]. right. by exists i.
  - destruct who; [done|]. injection H as <-. assert (zlen (items (connection_requests p)) = max) by lia. split; [|by left].
    apply (full_ok p fd); [done|done|done|by right].
Qed.

Lemma exit_worker_ok p i w :
  pool_ok nr max p -> isServerExiting p = true -> workers p !! i = Some w -> serving w = [] ->
  pool_ok nr max (take_task i (-1) p).
Proof.
  intros Hok Hex Ew Hs. unfold take_task.
  assert (Esig : signal_main p = p). { unfold signal_main. pose proof (po_exiting _ _ _ Hok Hex). by destruct (main p). }
  rewrite Esig, Hex. cbn [Z.eqb]. by eapply set_worker_ok.
Qed.

Lemma served_ok p i fd :
  pool_ok nr max p -> workers p !! i = Some (WServe fd) -> pool_ok nr max (add_handled fd (set_worker i WTop p)).
Proof.
  intros [] Ew. assert (Hlt : (i < length (workers p))%nat) by (by eapply lookup_lt_Some). split; cbn; try done.
  - by rewrite length_insert.
  - unfold being_served in *. cbn. rewrite po_once0. rewrite (concat_insert_nil _ _ _ WTop Ew) by done. cbn. by rewrite <- app_assoc.
  - intros He. destruct (po_running0 He) as (? & Hnd & ?). split_and!; [done| |done].
    intros j Hj. destruct (decide (j = i)) as [->|]; [by rewrite list_lookup_insert_eq in Hj|].
    rewrite list_lookup_insert_ne in Hj by done. by apply (Hnd j).
  - intros _ _. exists i, WTop. by rewrite list_lookup_insert_eq.
Qed.

Lemma exit_ok p : pool_ok nr max p -> isServerExiting p = false -> pool_ok nr max (set_main (MJoin 0) (broadcast_work (set_exiting p))).
Proof.
  intros [] Hex. split; cbn; try done.
  - by rewrite length_fmap.
  - unfold being_served in *. cbn. by rewrite broadcast_serving.
Qed.

Lemma join_ok p m : pool_ok nr max p -> isServerExiting p = true ->
  match m with MIdle | MSleep _ | MWake _ => False | _ => True end -> pool_ok nr max (set_main m p).
Proof. intros [] Hex Hm. split; cbn; try done. by rewrite Hex. Qed.

Lemma main_exiting p : pool_ok nr max p -> isServerExiting p = match main p with MIdle | MSleep _ | MWake _ => false | _ => true end.
Proof.
  intros []. destruct (isServerExiting p); [specialize (po_exiting0 eq_refl)|specialize (po_running0 eq_refl) as (_ & _ & Hm)]; by destruct (main p).
Qed.

Lemma pool_step_ok p e p' : pool_ok nr max p -> step e p = Some p' -> pool_ok nr max p'.
Proof.
  intros Hok H. pose proof (main_exiting p Hok) as Hex. destruct e as [i|i|i|i| |fd who|who| |]; cbn [step] in H.
  - destruct (workers p !! i) as [[]|] eqn:Ew; try done. destruct (pop p) as [fd p1] eqn:Ep.
    destruct (pop_inv p fd p1 Hok Ep) as [(Ei & -> & ->)|(l & Ei & Hfd & ->)].
    + injection H as <-. by eapply set_worker_ok.
    + rewrite (proj2 (Z.eqb_neq fd (-1))) in H by lia. injection H as <-. by eapply take_ok.
  - destruct (workers p !! i) as [[]|] eqn:Ew; try done. destruct (pop p) as [fd p1] eqn:Ep.
    destruct (pop_inv p fd p1 Hok Ep) as [(Ei & -> & ->)|(l & Ei & Hfd & ->)].
    + destruct (isServerExiting p) eqn:Ex; injection H as <-; [by eapply exit_worker_ok|by eapply set_worker_ok].
    + rewrite (proj2 (Z.eqb_neq fd (-1))) in H by lia.
      assert (H' : take_task i fd (add_taken fd (set_queue (Queue l (zlen l) max) p)) = p') by (by destruct (isServerExiting _); simplify_eq).
      subst p'. by eapply take_ok.
  - destruct (workers p !! i) as [[]|] eqn:Ew; simplify_eq. by apply served_ok.
  - destruct (workers p !! i) as [[]|] eqn:Ew; simplify_eq. by eapply set_worker_ok.
  - destruct (main p) as [|fd|fd| | |] eqn:Em; simplify_eq. destruct (po_running _ _ _ Hok Hex) as (_ & _ & Hm). rewrite Em in Hm.
    apply (full_ok p fd); [done|done|by destruct Hm|by left].
  - destruct (main p) eqn:Em; try done. destruct (Z.leb_spec 0 fd); [|done]. by apply (push_inv p fd who).
  - destruct (main p) as [|fd|fd| | |] eqn:Em; try done. destruct (po_running _ _ _ Hok Hex) as (_ & _ & Hm). rewrite Em in Hm.
    by apply (push_inv p fd who).
  - destruct (main p) eqn:Em; simplify_eq. by apply exit_ok.
  - destruct (main p) as [| | |i| |] eqn:Em; try done. destruct (Z.of_nat i <? max_requests p); [|by simplify_eq; apply join_ok].
    destruct (workers p !! i) as [[]|] eqn:Ew; simplify_eq; by apply join_ok.
Qed.

Lemma reachable_ok p : reachable nr max p -> pool_ok nr max p.
Proof. induction 1; [apply init_ok|by eapply pool_step_ok]. Qed.

End invariant.
