(* ===== verification/WebPoolTheorems.v ===== *)
(** * Bounded queue, first in first out, and every connection served once *)
From S2P Require Import Prelude Bytes WebPool WebPoolSpec.

Implicit Types (p : pool) (w : worker).

(** C3: Whatever the order of the threads' steps, the queue never holds more
    than max_requests connections and its length field is right; the workers
    take the connections in the order in which the main thread put them in;
    and every connection that was taken is handled once, is being served by one
    worker, or, only after server_exit was called, was dropped. *)
Theorem pool_safe nr max p :
  (0 < nr)%nat -> 0 <= max < 2 ^ 31 -> reachable nr max p ->
  let q := connection_requests p in
  qlength q = zlen (items q) /\ zlen (items q) <= max /\
  accepted p = taken p ++ items q /\ taken p ≡ₚ handled p ++ being_served p ++ dropped p /\
  (isServerExiting p = false -> dropped p = [] /\ main p <> MCrashed).
Proof.
  intros Hnr Hm Hr. pose proof (reachable_ok nr max Hnr Hm p Hr) as []. cbv zeta. split_and!; try done.
  intros He. destruct (po_running He) as (? & _ & Hmain). split; [done|]. by destruct (main p).
Qed.

(** One worker; two connections, the second one waits for room in the queue. *)
Definition demo_events : list event := [Enter 0; Request 7 (Some 0%nat); Request 8 None; Woken 0; MainWoken None].
Definition demo_pool : pool :=
  Pool (Queue [8] 1 1) [WServe 7] MIdle false 1 [7; 8] [7] [] [].

Lemma reach_run nr max es p p' : reachable nr max p -> run es p = Some p' -> reachable nr max p'.
Proof.
  revert p. induction es as [|e es IH]; intros p Hr H; cbn [run] in H; [by injection H as <-|].
  destruct (step e p) as [p1|] eqn:E; [|done]. apply (IH p1); [by eapply reach_step|done].
Qed.

Lemma demo_reachable : reachable 1 1 demo_pool.
Proof. apply (reach_run _ _ demo_events (server_init 1 1)); [constructor|reflexivity]. Qed.

Lemma pool_safe_witness :
  qlength (connection_requests demo_pool) = 1 /\ zlen (items (connection_requests demo_pool)) <= 1 /\
  accepted demo_pool = [7] ++ [8] /\ taken demo_pool ≡ₚ [] ++ [7] ++ [] /\
  (isServerExiting demo_pool = false -> dropped demo_pool = [] /\ main demo_pool <> MCrashed).
Proof. apply (pool_safe 1 1 demo_pool); [lia|lia|exact demo_reachable]. Defined.

(** ** Progress *)

(** The steps of threads that have something to do: no new connection, no
    exit, no wakeup without a signal. *)
Definition is_work (e : event) : bool :=
  match e with Enter _ | Woken _ | Served _ | MainWoken _ => true | _ => false end.

Definition worker_weight w : nat := match w with WSleep | WDone => 0 | WWake | WTop => 1 | WServe _ => 2 end.
Definition main_weight (m : main_pc) : nat := match m with MSleep _ => 4 | MWake _ => 5 | _ => 0 end.
Definition workers_weight (ws : list worker) : nat := foldr (fun w n => worker_weight w + n)%nat 0%nat ws.
(** A bound on the steps to come. *)
Definition work_left p : nat := workers_weight (workers p) + 3 * length (items (connection_requests p)) + main_weight (main p).

(** The connection that the main thread is about to push. *)
Definition waiting (m : main_pc) : list Z := match m with MSleep fd | MWake fd => [fd] | _ => [] end.

Lemma weight_insert ws i w w' :
  ws !! i = Some w -> (workers_weight (<[i := w']> ws) + worker_weight w = workers_weight ws + worker_weight w')%nat.
Proof.
  revert i. induction ws as [|x ws IH]; intros [|i] E; simplify_eq/=; [lia|]. specialize (IH i E). unfold workers_weight in *. lia.
Qed.

Arguments workers_weight : simpl never.

Section progress.
Context (nr : nat) (max : Z) (Hnr : (0 < nr)%nat) (Hmax : 0 < max < 2 ^ 31).

Lemma take_weight p i w fd l :
  isServerExiting p = false -> items (connection_requests p) = fd :: l -> workers p !! i = Some w -> worker_weight w = 1%nat ->
  let p' := take_task i fd (add_taken fd (set_queue (Queue l (zlen l) max) p)) in
  (work_left p' < work_left p)%nat /\ isServerExiting p' = false /\ accepted p' ++ waiting (main p') = accepted p ++ waiting (main p).
Proof.
  intros Hex Ei Ew Hw. cbv zeta. unfold take_task. rewrite signal_main_eq. pose proof (weight_insert _ i w (WServe fd) Ew) as Hwi.
  change (isServerExiting (set_main _ _)) with (isServerExiting p). rewrite Hex. unfold work_left. rewrite Ei. cbn.
  cbn in Hwi. destruct (main p); cbn; (split_and!; [lia|done|done]).
Qed.

Lemma work_step p e p' :
  pool_ok nr max p -> isServerExiting p = false -> is_work e = true -> step e p = Some p' ->
  (work_left p' < work_left p)%nat /\ isServerExiting p' = false /\ accepted p' ++ waiting (main p') = accepted p ++ waiting (main p).
Proof.
  intros Hok Hex Hwk H. destruct e as [i|i|i|i| |fd who|who| |]; try done; cbn [step] in H.
  - destruct (workers p !! i) as [[]|] eqn:Ew; try done. destruct (pop p) as [fd p1] eqn:Ep.
    destruct (pop_inv nr max Hnr ltac:(lia) p fd p1 Hok Ep) as [(Ei & -> & ->)|(l & Ei & Hfd & ->)].
    + injection H as <-. pose proof (weight_insert _ i _ WSleep Ew). unfold work_left. cbn in *. split_and!; [lia|done|done].
    + rewrite (proj2 (Z.eqb_neq fd (-1))) in H by lia. injection H as <-. by eapply take_weight.
  - destruct (workers p !! i) as [[]|] eqn:Ew; try done. destruct (pop p) as [fd p1] eqn:Ep.
    destruct (pop_inv nr max Hnr ltac:(lia) p fd p1 Hok Ep) as [(Ei & -> & ->)|(l & Ei & Hfd & ->)].
    + rewrite Hex in H. injection H as <-. pose proof (weight_insert _ i _ WSleep Ew). unfold work_left. cbn in *. split_and!; [lia|done|done].
    + change (isServerExiting (add_taken _ _)) with (isServerExiting p) in H. rewrite Hex, (proj2 (Z.eqb_neq fd (-1))) in H by lia.
      injection H as <-. by eapply take_weight.
  - destruct (workers p !! i) as [[]|] eqn:Ew; simplify_eq. pose proof (weight_insert _ i _ WTop Ew).
    unfold work_left. cbn in *. split_and!; [lia|done|done].
  - destruct (main p) as [|fd|fd| | |] eqn:Em; try done. destruct (po_running _ _ _ Hok Hex) as (_ & _ & Hm). rewrite Em in Hm.
    destruct (push_inv nr max Hnr ltac:(lia) p fd who p' Hok Hex Hm H) as (_ & [(_ & ->)|(ws & _ & -> & Hws)]); unfold work_left; cbn; rewrite Em.
    + split_and!; [cbn; lia|done|done].
    + rewrite length_app. split_and!; [|done|by rewrite app_nil_r].
      assert (workers_weight ws <= workers_weight (workers p) + 1)%nat; [|cbn; lia].
      destruct Hws as [-> |(i & Ei & ->)]; [lia|]. pose proof (weight_insert _ i _ WWake Ei). cbn in *. lia.
Qed.

Lemma sleeper_dec (ws : list worker) : Forall (fun w => w <> WSleep) ws \/ exists i, ws !! i = Some WSleep.
Proof.
  induction ws as [|w ws [IH|[i IH]]]; [by left| |right; by exists (S i)].
  destruct (decide (w = WSleep)) as [->|]; [right; by exists 0%nat|left; by constructor].
Qed.

Lemma signal_possible p : exists who p', signal_work who p = Some p'.
Proof.
  destruct (sleeper_dec (workers p)) as [Hall|[i Ei]].
  - exists None. cbn. destruct (existsb is_sleeping (workers p)) eqn:E; [|by eexists].
    apply existsb_exists in E as (w & Hw%list_elem_of_In & Hs). rewrite Forall_forall in Hall. specialize (Hall w Hw). by destruct w.
  - exists (Some i). cbn. rewrite Ei. by eexists.
Qed.

(** When no thread has anything to do, all workers wait and nothing is pending. *)
Lemma idle_done p :
  pool_ok nr max p -> isServerExiting p = false -> (forall e, is_work e = true -> step e p = None) ->
  items (connection_requests p) = [] /\ main p = MIdle /\ being_served p = [].
Proof.
  intros Hok Hex Hidle.
  assert (Hws : forall i w, workers p !! i = Some w -> w = WSleep).
  { intros i w Ew. destruct w as [| | |fd|]; [| done| | |].
    - pose proof (Hidle (Enter i) eq_refl) as H. cbn in H. rewrite Ew in H. destruct (pop p) as [fd p1]. by destruct (fd =? -1).
    - pose proof (Hidle (Woken i) eq_refl) as H. cbn in H. rewrite Ew in H. destruct (pop p) as [fd p1]. destruct (isServerExiting p1), (fd =? -1); done.
    - pose proof (Hidle (Served i) eq_refl) as H. cbn in H. by rewrite Ew in H.
    - destruct (po_running _ _ _ Hok Hex) as (_ & Hnd & _). by destruct (Hnd i). }
  assert (Hit : items (connection_requests p) = []).
  { destruct (items (connection_requests p)) as [|x l] eqn:Ei; [done|].
    destruct (po_awake _ _ _ Hok Hex) as (i & w & Ew & Hne); [by rewrite Ei|]. by rewrite (Hws i w Ew) in Hne. }
  split_and!; [done| |].
  - destruct (po_running _ _ _ Hok Hex) as (_ & _ & Hm). destruct (main p) as [|fd|fd| | |] eqn:Em; try done.
    + rewrite Hit in Hm. destruct Hm as [_ Hm]. unfold zlen in Hm. cbn in Hm. lia.
    + exfalso. assert (Hp : exists who p', push fd who p = Some p').
      { unfold push. destruct (pushConnection _ _) as [[|] q']; [|by exists None; eexists].
        destruct (signal_possible (add_accepted fd (set_queue q' p))) as (who & p1 & E). exists who. case_bool_decide; [rewrite E|]; by eexists. }
      destruct Hp as (who & p' & Hp). pose proof (Hidle (MainWoken who) eq_refl) as H. cbn in H. rewrite Em in H. congruence.
  - unfold being_served. assert (Hall : Forall (fun w => w = WSleep) (workers p)).
    { apply Forall_lookup. intros i w. apply Hws. }
    clear -Hall. induction Hall as [|w ws -> _ IH]; [done|]. by csimpl.
Qed.

End progress.

(** C12: While the server runs, the threads' steps that are not new connections
    or idle wakeups come to an end, after at most [work_left] of them, in any
    order; and when none is possible any more, every connection that was
    accepted has been handled, the one the main thread was waiting to put in
    the queue included.  So no wakeup is lost. *)
Theorem pool_drains nr max p es p' :
  (0 < nr)%nat -> 0 < max < 2 ^ 31 -> reachable nr max p -> isServerExiting p = false ->
  Forall (fun e => is_work e = true) es -> run es p = Some p' ->
  (length es + work_left p' <= work_left p)%nat /\
  ((forall e, is_work e = true -> step e p' = None) ->
   handled p' ≡ₚ accepted p' /\ accepted p' = accepted p ++ waiting (main p) /\ items (connection_requests p') = [] /\ main p' = MIdle).
Proof.
  intros Hnr Hmax Hr Hex Hes Hrun.
  assert (Hgen : (length es + work_left p' <= work_left p)%nat /\ isServerExiting p' = false /\ pool_ok nr max p' /\
    accepted p' ++ waiting (main p') = accepted p ++ waiting (main p)).
  { apply reachable_ok in Hr; [|done|lia]. revert p Hr Hex Hrun. induction Hes as [|e es He Hes IH]; intros p Hok Hex Hrun; cbn [run] in Hrun.
    - injection Hrun as ->. cbn. split_and!; [lia|done..].
    - destruct (step e p) as [p1|] eqn:E; [|done]. destruct (work_step nr max Hnr Hmax p e p1 Hok Hex He E) as (Hw & Hex1 & Ha1).
      destruct (IH p1) as (Hw2 & ? & ? & Ha2); [by apply (pool_step_ok nr max Hnr ltac:(lia) p e)|done|exact Hrun|].
      cbn [length]. split_and!; [lia|done|done|congruence]. }
  destruct Hgen as (Hw & Hex' & Hok' & Ha). split; [done|]. intros Hidle.
  destruct (idle_done nr max Hnr Hmax p' Hok' Hex' Hidle) as (Hit & Hm & Hs). destruct Hok'. rewrite Hm, app_nil_r in Ha.
  split_and!; [|done|done|done]. rewrite po_fifo, Hit, app_nil_r, po_once, Hs. destruct (po_running Hex') as (-> & _). by rewrite app_nil_r.
Qed.

Definition drain_events : list event := [Served 0; Enter 0; Served 0; Enter 0].
Definition drained_pool : pool := Pool (Queue [] 0 1) [WSleep] MIdle false 1 [7; 8] [7; 8] [7; 8] [].

Lemma pool_drains_witness :
  (4 + work_left drained_pool <= work_left demo_pool)%nat /\
  ((forall e, is_work e = true -> step e drained_pool = None) ->
   handled drained_pool ≡ₚ accepted drained_pool /\ accepted drained_pool = [7; 8] ++ [] /\
   items (connection_requests drained_pool) = [] /\ main drained_pool = MIdle).
Proof.
  apply (pool_drains 1 1 demo_pool drain_events drained_pool).
  - lia.
  - lia.
  - exact demo_reachable.
  - reflexivity.
  - repeat constructor.
  - reflexivity.
Defined.

(** ** The exit of the server *)

Definition is_spurious (e : event) : bool := match e with Spurious _ | SpuriousMain => true | _ => false end.

(** server_exit can wait for ever: a worker that serves a connection when
    server_exit wakes the others comes back to an empty queue, does not look at
    isServerExiting before it waits on cv_work, and nobody signals it again,
    while the main thread joins it. *)
Theorem exit_can_hang :
  exists p, reachable 1 1 p /\ isServerExiting p = true /\ main p = MJoin 0 /\ workers p = [WSleep] /\
    forall e, is_spurious e = false -> step e p = None.
Proof.
  exists (Pool (Queue [] 0 1) [WSleep] (MJoin 0) true 1 [7] [7] [7] []). split_and!; try done.
  - apply (reach_run _ _ [Enter 0; Request 7 (Some 0%nat); Woken 0; Exit; Served 0; Enter 0] (server_init 1 1)); [constructor|reflexivity].
  - intros [[|i]|[|i]|[|i]|[|i]| |fd who|who| |] Hs; done.
Qed.

(** server_exit joins max_requests threads, not as many as there are: with
    fewer threads than that it joins what is not a thread, with more it returns
    while a worker still serves a connection.  And a worker that finds out about
    the exit when it has popped a connection drops it. *)
Theorem exit_joins_wrong :
  (exists p, reachable 1 2 p /\ main p = MCrashed) /\
  (exists p, reachable 2 1 p /\ main p = MExited /\ workers p !! 1%nat = Some (WServe 8)) /\
  (exists p, reachable 1 1 p /\ dropped p = [7] /\ handled p = []).
Proof.
  split_and!.
  - exists (Pool (Queue [] 0 2) [WDone] MCrashed true 2 [] [] [] []). split; [|done].
    apply (reach_run _ _ [Enter 0; Exit; Woken 0; Join; Join] (server_init 1 2)); [constructor|reflexivity].
  - exists (Pool (Queue [] 0 1) [WDone; WServe 8] MExited true 1 [8] [8] [] []). split_and!; [|done|done].
    apply (reach_run _ _ [Enter 0; Enter 1; Request 8 (Some 1%nat); Woken 1; Exit; Woken 0; Join; Join] (server_init 2 1)); [constructor|reflexivity].
  - exists (Pool (Queue [] 0 1) [WDone] (MJoin 0) true 1 [7] [7] [] [7]). split_and!; [|done|done].
    apply (reach_run _ _ [Enter 0; Request 7 (Some 0%nat); Exit; Woken 0] (server_init 1 1)); [constructor|reflexivity].
Qed.
