(* ===== verification/WebSystem.v ===== *)
(** * The whole server with worker threads (webserver/server_thread.c)

    The pool of WebPool.v and the workers of WebWorkers.v together: a worker
    that has taken a connection from the queue goes through do_server_request
    step by step, while the main thread and the other workers go on.  The pool
    sees the end of it as the event [Served]. *)
From S2P Require Import Prelude Bytes StateMonad WebRequest WebWorkers WebPool.

(** [phases] says where each worker is in do_server_request. *)
Record sys := Sys { s_pool : pool; s_srv : srv; s_phases : list phase }.

(** A step of the pool, or of the worker [i] in do_server_request. *)
Inductive sys_event := Ev (e : event) | Advance (i : nat).

Definition is_returned (ph : phase) : bool := match ph with PDone => true | _ => false end.

(** Has the worker returned from do_server_request? *)
Definition may_happen (e : event) (phs : list phase) : bool :=
  match e with Served i => match phs !! i with Some ph => is_returned ph | None => false end | _ => true end.

(** A worker that got a connection calls do_server_request. *)
Definition call_request (e : event) (p : pool) (phs : list phase) : list phase :=
  match e with
  | Enter i | Woken i => match workers p !! i with Some (WServe fd) => <[i := PStart fd]> phs | _ => phs end
  | _ => phs
  end.

Section system.
Context (files_at : list Z -> disk_file).

(** None when the event cannot happen. *)
Definition sys_step (e : sys_event) (y : sys) : option (res sys) :=
  match e with
  | Ev e =>
      if may_happen e (s_phases y) then
        p ← step e (s_pool y); Some (Ret (Sys p (s_srv y) (call_request e p (s_phases y))))
      else None
  | Advance i =>
      match workers (s_pool y) !! i, s_phases y !! i with
      | Some (WServe _), Some ph =>
          if is_returned ph then None
          else Some ('(ph, s) ← advance files_at ph (s_srv y); Ret (Sys (s_pool y) s (<[i := ph]> (s_phases y))))
      | _, _ => None
      end
  end.

Fixpoint sys_run (es : list sys_event) (y : sys) : option (res sys) :=
  match es with
  | [] => Some (Ret y)
  | e :: es => r ← sys_step e y; match r with Ret y => sys_run es y | Fail f => Some (Fail f) end
  end.

Definition sys_init (nr_threads : nat) (max_requests : Z) (s : srv) : sys :=
  Sys (server_init nr_threads max_requests) s (replicate nr_threads PDone).

End system.
