(* ===== verification/WebSystemTheorems.v ===== *)
(** * Every connection to the server is answered with its file *)
From S2P Require Import Prelude Bytes Text StateMonad Rio WebCache WebCacheSpec WebRequest WebRequestSpec WebServer WebServerSpec WebTheorems.
From S2P Require Import WebWorkers WebWorkersSpec WebWorkersTheorems WebPool WebPoolSpec WebPoolTheorems WebSystem.

(** The connections that the main thread is called with. *)
Definition requested_by (e : sys_event) : list Z := match e with Ev (Request fd _) => [fd] | _ => [] end.
Definition requested (es : list sys_event) : list Z := es ≫= requested_by.
Definition no_exit (e : sys_event) : Prop := match e with Ev Exit => False | _ => True end.

(** ** What a step of the pool does to the connections *)

Definition not_serving (ws : list worker) (i : nat) : Prop := forall fd, ws !! i <> Some (WServe fd).

Inductive pool_effect (p p' : pool) (e : event) : Prop :=
| EffTake i fd : e = Enter i \/ e = Woken i -> not_serving (workers p) i -> (i < length (workers p))%nat ->
    workers p' = <[i := WServe fd]> (workers p) -> taken p' = taken p ++ [fd] -> handled p' = handled p -> pool_effect p p' e
| EffServed i fd : e = Served i -> workers p !! i = Some (WServe fd) -> workers p' = <[i := WTop]> (workers p) ->
    taken p' = taken p -> handled p' = handled p ++ [fd] -> pool_effect p p' e
| EffQuiet : (forall k fd, workers p' !! k = Some (WServe fd) <-> workers p !! k = Some (WServe fd)) ->
    (forall i, e = Enter i \/ e = Woken i -> not_serving (workers p) i) -> (forall i, e <> Served i) ->
    taken p' = taken p -> handled p' = handled p -> pool_effect p p' e.

Lemma insert_quiet (ws : list worker) i w w' : ws !! i = Some w -> serving w = [] -> serving w' = [] ->
  forall k fd, <[i := w']> ws !! k = Some (WServe fd) <-> ws !! k = Some (WServe fd).
Proof.
  intros Ew Hw Hw' k fd. destruct (decide (k = i)) as [->|Hk]; [|by rewrite list_lookup_insert_ne].
  rewrite list_lookup_insert_eq, Ew by (by eapply lookup_lt_Some). split; intros [= ->]; done.
Qed.

Section pool.
Context (nr : nat) (max : Z) (Hnr : (0 < nr)%nat) (Hmax : 0 < max < 2 ^ 31).

(** Taking a connection, or finding none. *)
Lemma enter_effect p i w e p' fd p1 :
  pool_ok nr max p -> isServerExiting p = false -> e = Enter i \/ e = Woken i -> workers p !! i = Some w -> serving w = [] ->
  pop p = (fd, p1) -> (p' = if fd =? -1 then set_worker i WSleep p1 else take_task i fd p1) ->
  isServerExiting p' = false /\ accepted p' ++ waiting (main p') = accepted p ++ waiting (main p) /\ pool_effect p p' e.
Proof.
  intros Hok Hex He Ew Hw Ep ->. assert (Hns : not_serving (workers p) i) by (intros f E; rewrite Ew in E; by injection E as ->).
  destruct (pop_inv nr max Hnr ltac:(lia) p fd p1 Hok Ep) as [(Ei & -> & ->)|(l & Ei & Hfd & ->)].
  - cbn [Z.eqb]. split_and!; [done|done|]. apply EffQuiet; try done.
    + by apply (insert_quiet _ i w).
    + by intros j [-> | ->]; destruct He as [[= ->]|[= ->]].
    + intros j ->. by destruct He.
  - rewrite (proj2 (Z.eqb_neq fd (-1))) by lia. unfold take_task. rewrite signal_main_eq.
    change (isServerExiting (set_main _ _)) with (isServerExiting p). rewrite Hex. cbn.
    split_and!; [done|by destruct (main p)|]. apply (EffTake _ _ _ i fd); try done. by eapply lookup_lt_Some.
Qed.

Lemma push_effect p fd who p' e : pool_ok nr max p -> isServerExiting p = false -> 0 <= fd -> push fd who p = Some p' ->
  (forall i, e <> Enter i) -> (forall i, e <> Woken i) -> (forall i, e <> Served i) ->
  isServerExiting p' = false /\ accepted p' ++ waiting (main p') = accepted p ++ [fd] /\ pool_effect p p' e.
Proof.
  intros Hok Hex Hfd H He1 He2 He3. destruct (push_inv nr max Hnr ltac:(lia) p fd who p' Hok Hex Hfd H) as (_ & [(_ & ->)|(ws & _ & -> & Hws)]).
  - split_and!; [done|done|]. apply EffQuiet; try done. intros i [-> | ->]; naive_solver.
  - cbn. rewrite app_nil_r. split_and!; [done|done|]. apply EffQuiet; try done; cbn.
    + destruct Hws as [->|(i & Ei & ->)]; [done|]. by apply (insert_quiet _ i WSleep).
    + intros i [-> | ->]; naive_solver.
Qed.

Lemma step_effect p e p' :
  pool_ok nr max p -> isServerExiting p = false -> e <> Exit -> step e p = Some p' ->
  isServerExiting p' = false /\ accepted p' ++ waiting (main p') = (accepted p ++ waiting (main p)) ++ requested_by (Ev e) /\ pool_effect p p' e.
Proof.
  intros Hok Hex Hne H. destruct (po_running _ _ _ Hok Hex) as (_ & _ & Hm). destruct e as [i|i|i|i| |fd who|who| |]; cbn [step requested_by] in *; rewrite ?app_nil_r.
  - destruct (workers p !! i) as [[]|] eqn:Ew; try done. destruct (pop p) as [fd p1] eqn:Ep.
    apply (enter_effect p i WTop _ p' fd p1); try done; [by left|]. by destruct (fd =? -1); injection H.
  - destruct (workers p !! i) as [[]|] eqn:Ew; try done. destruct (pop p) as [fd p1] eqn:Ep.
    assert (Hex1 : isServerExiting p1 = false).
    { destruct (pop_inv nr max Hnr ltac:(lia) p fd p1 Hok Ep) as [(_ & _ & ->)|(l & _ & _ & ->)]; done. }
    rewrite Hex1 in H. apply (enter_effect p i WWake _ p' fd p1); try done; [by right|]. by destruct (fd =? -1); injection H.
  - destruct (workers p !! i) as [[]|] eqn:Ew; simplify_eq. split_and!; [done|done|]. by eapply EffServed.
  - destruct (workers p !! i) as [[]|] eqn:Ew; simplify_eq. split_and!; [done|done|]. apply EffQuiet; try done; [by apply (insert_quiet _ i WSleep)|naive_solver].
  - destruct (main p) eqn:Em; simplify_eq. split_and!; [done|done|]. apply EffQuiet; try done. naive_solver.
  - destruct (main p) eqn:Em; try done. destruct (Z.leb_spec 0 fd); [|done]. cbn [waiting]. rewrite app_nil_r.
    apply (push_effect p fd who); try done.
  - destruct (main p) eqn:Em; try done. cbn [waiting]. by apply (push_effect p connfd who).
  - done.
  - destruct (main p); done.
Qed.

End pool.

(** ** The invariant *)

(** No two workers serve the same connection. *)
Lemma serving_unique (ws : list worker) i i' fd :
  NoDup (concat (serving <$> ws)) -> ws !! i = Some (WServe fd) -> ws !! i' = Some (WServe fd) -> i = i'.
Proof.
  revert i i'. induction ws as [|w ws IH]; intros i i' Hnd E E'; [done|]. csimpl in Hnd. apply NoDup_app in Hnd as (_ & Hd & Hnd).
  assert (Hin : forall k, ws !! k = Some (WServe fd) -> fd ∈ concat (serving <$> ws)).
  { intros k Ek. apply elem_of_concat. exists k, [fd]. split; [by rewrite list_lookup_fmap, Ek|by left]. }
  destruct i as [|i], i' as [|i']; cbn in E, E'; [done| | |f_equal; by apply IH]; simplify_eq.
  - destruct (Hd fd); [by left|by eapply Hin].
  - destruct (Hd fd); [by left|by eapply Hin].
Qed.

Section invariant.
Context (disk : list Z -> disk_file) (jobs : list job) (s0 : srv) (room : Z) (nr : nat) (max : Z).
Context (Hnr : (0 < nr)%nat) (Hmax : 0 < max < 2 ^ 31) (Hjobs : NoDup jobs.*1).

(** Where the pool and the workers see a job. *)
Record job_at (y : sys) (j : job) (ph : phase) : Prop := JobAt {
  ja_served i : workers (s_pool y) !! i = Some (WServe j.1) -> s_phases y !! i = Some ph;
  ja_handled : j.1 ∈ handled (s_pool y) -> ph = PDone;
  ja_waiting : j.1 ∉ taken (s_pool y) -> ph = PStart j.1
}.

Record sys_ok (y : sys) (reqs : list Z) : Prop := SysOk {
  sk_pool : pool_ok nr max (s_pool y);
  sk_running : isServerExiting (s_pool y) = false;
  sk_phases : length (s_phases y) = nr;
  sk_reqs : accepted (s_pool y) ++ waiting (main (s_pool y)) = reqs;
  sk_jobs : exists jws, jws.*1 = jobs /\ workers_ok disk s0 room (s_srv y) jws /\ forall k j ph, jws !! k = Some (j, ph) -> job_at y j ph
}.

Lemma taken_nodup y reqs : sys_ok y reqs -> NoDup reqs ->
  NoDup (taken (s_pool y)) /\ NoDup (being_served (s_pool y)) /\
  (forall fd, fd ∈ handled (s_pool y) -> fd ∉ being_served (s_pool y)) /\ (forall fd, fd ∈ being_served (s_pool y) -> fd ∈ taken (s_pool y)) /\
  (forall fd, fd ∈ taken (s_pool y) -> fd ∈ reqs).
Proof.
  intros [Hp Hr _ <- _] Hnd. destruct (po_running _ _ _ Hp Hr) as (Hdr & _). pose proof (po_once _ _ _ Hp) as Honce. rewrite Hdr, app_nil_r in Honce.
  apply NoDup_app in Hnd as (Hnd & _ & _). rewrite (po_fifo _ _ _ Hp) in Hnd |- *. apply NoDup_app in Hnd as (Hnt & _ & _).
  split; [done|]. rewrite Honce in Hnt. apply NoDup_app in Hnt as (_ & Hd & Hns). split_and!; [done|done| |].
  - intros fd Hfd. rewrite Honce. apply elem_of_app. by right.
  - intros fd Hfd. rewrite !elem_of_app. tauto.
Qed.

Lemma served_in y i fd : workers (s_pool y) !! i = Some (WServe fd) -> fd ∈ being_served (s_pool y).
Proof. intros E. apply elem_of_concat. exists i, [fd]. split; [by rewrite list_lookup_fmap, E|by left]. Qed.

(** A step of the pool leaves the workers in do_server_request alone; a worker that got a connection enters it. *)
Lemma effect_jobs y p' e reqs :
  sys_ok y reqs -> NoDup reqs -> may_happen e (s_phases y) = true -> pool_ok nr max p' -> pool_effect (s_pool y) p' e ->
  (forall fd, fd ∈ taken p' -> fd ∈ accepted p') -> NoDup (taken p') ->
  forall j ph, job_at y j ph -> job_at (Sys p' (s_srv y) (call_request e p' (s_phases y))) j ph.
Proof.
  intros Hok Hnd Hmay Hp' Heff Hta Hnt' j ph [Hs Hh Hw]. pose proof (sk_pool _ _ Hok) as Hp. pose proof (sk_phases _ _ Hok) as Hlen.
  pose proof (po_nr _ _ _ Hp) as Hnw.
  destruct Heff as [i fd He Hns Hlt Ews Et Eh|i fd -> Ew Ews Et Eh|Hq He Hse Et Eh].
  - assert (Ecall : call_request e p' (s_phases y) = <[i := PStart fd]> (s_phases y)).
    { destruct He as [-> | ->]; cbn [call_request]; by rewrite Ews, list_lookup_insert_eq. }
    rewrite Ecall. split; cbn [s_pool s_phases].
    + intros k Ek. rewrite Ews in Ek. destruct (decide (k = i)) as [->|Hk].
      * rewrite list_lookup_insert_eq in Ek by done. injection Ek as E. subst fd. rewrite list_lookup_insert_eq by lia. f_equal. symmetry. apply Hw.
        rewrite Et in Hnt'. apply NoDup_app in Hnt' as (_ & Hd & _). intros Hin. apply (Hd _ Hin). by left.
      * rewrite list_lookup_insert_ne in Ek by done. rewrite list_lookup_insert_ne by done. by apply Hs.
    + rewrite Eh. exact Hh.
    + rewrite Et, not_elem_of_app. intros [? _]. by apply Hw.
  - cbn [call_request may_happen] in *. split; cbn [s_pool s_phases].
    + intros k Ek. rewrite Ews in Ek. destruct (decide (k = i)) as [->|Hk].
      * rewrite list_lookup_insert_eq in Ek by (by eapply lookup_lt_Some). done.
      * rewrite list_lookup_insert_ne in Ek by done. by apply Hs.
    + rewrite Eh. intros [Hin|E%list_elem_of_singleton]%elem_of_app; [by apply Hh|]. rewrite <- E in Ew. rewrite (Hs i Ew) in Hmay. by destruct ph.
    + by rewrite Et.
  - assert (Ecall : call_request e p' (s_phases y) = s_phases y).
    { destruct e as [i|i| | | | | | |]; try done; cbn [call_request]; destruct (workers p' !! i) as [[]|] eqn:Ew; try done;
        apply Hq in Ew; exfalso; (eapply He; [|exact Ew]); auto. }
    rewrite Ecall. split; cbn [s_pool s_phases].
    + intros k Ek%Hq. by apply Hs.
    + by rewrite Eh.
    + by rewrite Et.
Qed.

Lemma call_request_length e p phs : length (call_request e p phs) = length phs.
Proof. destruct e; cbn; try done; (destruct (workers p !! i) as [[]|]; try done; apply length_insert). Qed.

(** A step of the pool. *)
Lemma pool_ev_ok y reqs e r : sys_ok y reqs -> NoDup (reqs ++ requested_by (Ev e)) -> e <> Exit -> sys_step disk (Ev e) y = Some r ->
  exists p', step e (s_pool y) = Some p' /\ r = Ret (Sys p' (s_srv y) (call_request e p' (s_phases y))) /\
    sys_ok (Sys p' (s_srv y) (call_request e p' (s_phases y))) (reqs ++ requested_by (Ev e)).
Proof.
  intros Hok Hnd Hne H. cbn [sys_step] in H. destruct (may_happen e (s_phases y)) eqn:Hmay; [|done].
  destruct (step e (s_pool y)) as [p'|] eqn:Es; [|done]. cbn in H. injection H as <-. exists p'. split; [done|]. split; [done|].
  pose proof Hok as [Hp Hr Hl Hreq (jws & Ej & Hw & Hat)].
  destruct (step_effect nr max Hnr Hmax _ e p' Hp Hr Hne Es) as (Hr' & Ha & Heff). rewrite Hreq in Ha.
  pose proof (pool_step_ok nr max Hnr ltac:(lia) _ e p' Hp Es) as Hp'.
  assert (Hacc : NoDup (accepted p')) by (rewrite <- Ha in Hnd; by apply NoDup_app in Hnd as (? & _)).
  split; cbn [s_pool s_srv s_phases]; try done; [by rewrite call_request_length|]. exists jws. split_and!; [done|done|].
  intros k j ph Ek. apply (effect_jobs y p' e reqs); try done.
  - by apply NoDup_app in Hnd as (? & _).
  - intros fd Hfd. rewrite (po_fifo _ _ _ Hp'). apply elem_of_app. by left.
  - rewrite (po_fifo _ _ _ Hp') in Hacc. by apply NoDup_app in Hacc as (? & _).
  - by apply (Hat k).
Qed.

(** A step of a worker in do_server_request. *)
Lemma advance_ok y reqs i r : sys_ok y reqs -> NoDup reqs -> (forall fd, fd ∈ reqs -> fd ∈ jobs.*1) -> sys_step disk (Advance i) y = Some r ->
  exists s' ph ph', r = Ret (Sys (s_pool y) s' (<[i := ph']> (s_phases y))) /\ s_phases y !! i = Some ph /\ (steps_left ph' < steps_left ph)%nat /\
    sys_ok (Sys (s_pool y) s' (<[i := ph']> (s_phases y))) reqs.
Proof.
  intros Hok Hnd Hsub H. cbn [sys_step] in H. destruct (workers (s_pool y) !! i) as [[| | |fd|]|] eqn:Ew; try done.
  destruct (s_phases y !! i) as [ph|] eqn:Eph; [|done]. destruct (is_returned ph) eqn:Hret; [done|]. injection H as <-.
  destruct (taken_nodup y reqs Hok Hnd) as (_ & Hns & Hhs & Hst & Htr). pose proof Hok as [Hp Hr Hl Hreq (jws & Ej & Hw & Hat)].
  pose proof (served_in y i fd Ew) as Hin.
  assert (Hjob : exists k j, jws !! k = Some (j, ph) /\ j.1 = fd).
  { assert (Hf : fd ∈ jobs.*1) by (by apply Hsub, Htr, Hst). apply list_elem_of_fmap in Hf as (j & -> & Hj). rewrite <- Ej in Hj.
    apply list_elem_of_fmap in Hj as ([j' ph'] & -> & Hx). apply list_elem_of_lookup in Hx as (k & Ek). cbn [fst] in *.
    pose proof (ja_served _ _ _ (Hat k j' ph' Ek) i Ew) as E. rewrite Eph in E. injection E as ->. by exists k, j'. }
  destruct Hjob as (k & j & Ek & <-). destruct (worker_step _ _ _ _ _ _ _ Hw ph Ek) as (ph' & s' & E & Hw' & Hle).
  exists s', ph, ph'. rewrite E. cbn [mbind res_bind]. split; [done|]. split; [done|]. split; [destruct ph; cbn in Hret, Hle |- *; done || lia|].
  split; cbn [s_pool s_srv s_phases]; try done; [by rewrite length_insert|]. exists (<[k := (j, ph')]> jws). split; [|split; [done|]].
  { rewrite list_fmap_insert. cbn [fst]. rewrite <- Ej. apply list_insert_id. apply list_lookup_fmap_Some. by exists (j, ph). }
  intros k2 j2 ph2 Ek2. destruct (decide (k2 = k)) as [->|Hk].
  - rewrite list_lookup_insert_eq in Ek2 by (by eapply lookup_lt_Some). injection Ek2 as <- <-. split; cbn [s_pool s_phases].
    + intros i2 Ew2. rewrite (serving_unique _ i2 i j.1 Hns Ew2 Ew). apply list_lookup_insert_eq. by eapply lookup_lt_Some.
    + intros Hh. by destruct (Hhs _ Hh).
    + intros Hnt. by destruct Hnt; apply Hst.
  - rewrite list_lookup_insert_ne in Ek2 by done. destruct (Hat k2 j2 ph2 Ek2) as [Hs Hh Hwt]. split; cbn [s_pool s_phases]; try done.
    intros i2 Ew2. rewrite list_lookup_insert_ne; [by apply Hs|]. intros <-. rewrite Ew in Ew2. injection Ew2 as Efd.
    apply Hk, (NoDup_lookup _ k2 k j2.1 Hjobs); apply list_lookup_fmap_Some.
    + exists j2. split; [done|]. rewrite <- Ej. apply list_lookup_fmap_Some. by exists (j2, ph2).
    + exists j. split; [done|]. rewrite <- Ej. apply list_lookup_fmap_Some. by exists (j, ph).
Qed.

(** ** Progress *)

Definition phases_weight (phs : list phase) : nat := sum_list_with steps_left phs.
(** A bound on the steps to come. *)
Definition sys_left (y : sys) : nat := 9 * work_left (s_pool y) + phases_weight (s_phases y).

(** The steps of threads that have something to do. *)
Definition is_busy (e : sys_event) : bool := match e with Ev e => is_work e | Advance _ => true end.

Lemma phases_weight_insert phs i ph ph' : phs !! i = Some ph ->
  (phases_weight (<[i := ph']> phs) + steps_left ph = phases_weight phs + steps_left ph')%nat.
Proof.
  unfold phases_weight. revert i. induction phs as [|x phs IH]; intros [|i] E; simplify_eq/=; [lia|]. specialize (IH i E). lia.
Qed.

Lemma call_request_weight e p phs : length (workers p) = length phs -> (phases_weight (call_request e p phs) <= phases_weight phs + 8)%nat.
Proof.
  intros Hl. destruct e as [i|i|i|i| |fd who|who| |]; cbn [call_request]; try lia; (destruct (workers p !! i) as [[| | |fd|]|] eqn:Ew; try lia);
    apply lookup_lt_Some in Ew; rewrite Hl in Ew; apply lookup_lt_is_Some_2 in Ew as [ph Eph];
    pose proof (phases_weight_insert phs i ph (PStart fd) Eph) as H; cbn [steps_left] in H; lia.
Qed.

Lemma busy_step y reqs e r : sys_ok y reqs -> NoDup reqs -> (forall fd, fd ∈ reqs -> fd ∈ jobs.*1) -> is_busy e = true -> sys_step disk e y = Some r ->
  exists y', r = Ret y' /\ sys_ok y' reqs /\ (sys_left y' < sys_left y)%nat.
Proof.
  intros Hok Hnd Hsub Hb H. destruct e as [e|i].
  - assert (Hq : requested_by (Ev e) = []) by (by destruct e). assert (Hne : e <> Exit) by (by intros ->).
    destruct (pool_ev_ok y reqs e r Hok) as (p' & Es & -> & Hok'); [by rewrite Hq, app_nil_r|done|done|]. rewrite Hq, app_nil_r in Hok'.
    eexists. split; [done|]. split; [done|]. unfold sys_left. cbn [s_pool s_phases].
    destruct (work_step nr max Hnr Hmax _ e p' (sk_pool _ _ Hok) (sk_running _ _ Hok) Hb Es) as (Hlt & _).
    pose proof (call_request_weight e p' (s_phases y)) as Hc. pose proof (po_nr _ _ _ (sk_pool _ _ Hok')) as Hl. cbn [s_pool] in Hl.
    rewrite (sk_phases _ _ Hok) in Hc. specialize (Hc Hl). lia.
  - destruct (advance_ok y reqs i r Hok Hnd Hsub H) as (s' & ph & ph' & -> & Eph & Hlt & Hok'). eexists. split; [done|]. split; [done|].
    unfold sys_left. cbn [s_pool s_phases]. pose proof (phases_weight_insert _ i ph ph' Eph). lia.
Qed.

(** ** From the start *)

Lemma sys_init_ok c : srv_ok disk (the_web s0) -> fileCache (the_web s0) = Some c -> Forall (job_ok disk s0) jobs ->
  curr_size c + sum_over (fun j : job => zlen j.2.2) jobs <= WebCache.MAX_SIZE c -> room = WebCache.MAX_SIZE c -> sys_ok (sys_init nr max s0) [].
Proof.
  intros Hok Ec Hall Hroom H. split; cbn [sys_init s_pool s_srv s_phases].
  - apply init_ok; [done|lia].
  - done.
  - apply length_replicate.
  - done.
  - exists ((fun j : job => (j, PStart j.1)) <$> jobs). split; [rewrite <- list_fmap_compose; apply list_fmap_id|]. split.
    { rewrite H. by apply workers_start. }
    intros k j ph (j' & [= -> ->] & _)%list_lookup_fmap_Some. split; cbn [s_pool server_init workers handled taken].
    + by intros i [E _]%lookup_replicate_1.
    + by intros ?%elem_of_nil.
    + done.
Qed.

Lemma sys_run_ok es : forall y reqs r, sys_ok y reqs -> Forall no_exit es -> NoDup (reqs ++ requested es) ->
  (forall fd, fd ∈ reqs ++ requested es -> fd ∈ jobs.*1) -> sys_run disk es y = Some r -> exists y', r = Ret y' /\ sys_ok y' (reqs ++ requested es).
Proof.
  induction es as [|e es IH]; intros y reqs r Hok Hne Hnd Hsub H; cbn [sys_run] in H.
  { injection H as <-. exists y. by rewrite app_nil_r. }
  apply Forall_cons in Hne as [He Hne]. change (requested (e :: es)) with (requested_by e ++ requested es) in *. rewrite app_assoc in *.
  destruct (sys_step disk e y) as [r1|] eqn:E; [|done]. cbn in H.
  assert (Hnd1 : NoDup (reqs ++ requested_by e)) by (by apply NoDup_app in Hnd as (? & _)).
  assert (Hsub1 : forall fd, fd ∈ reqs ++ requested_by e -> fd ∈ jobs.*1) by (intros fd Hfd; apply Hsub, elem_of_app; by left).
  assert (H1 : exists y1, r1 = Ret y1 /\ sys_ok y1 (reqs ++ requested_by e)).
  { destruct e as [e|i].
    - destruct (pool_ev_ok y reqs e r1 Hok Hnd1) as (p' & _ & -> & Hok1); [by intros ->|done|]. by eexists.
    - cbn [requested_by] in *. rewrite app_nil_r in *. destruct (advance_ok y reqs i r1 Hok Hnd1 Hsub1 E) as (s' & ph & ph' & -> & _ & _ & Hok1). by eexists. }
  destruct H1 as (y1 & -> & Hok1). by apply (IH y1).
Qed.

Lemma busy_run_ok es : forall y reqs r, sys_ok y reqs -> NoDup reqs -> (forall fd, fd ∈ reqs -> fd ∈ jobs.*1) ->
  Forall (fun e => is_busy e = true) es -> sys_run disk es y = Some r ->
  exists y', r = Ret y' /\ sys_ok y' reqs /\ (length es + sys_left y' <= sys_left y)%nat.
Proof.
  induction es as [|e es IH]; intros y reqs r Hok Hnd Hsub Hb H; cbn [sys_run] in H.
  { injection H as <-. exists y. split_and!; [done|done|cbn [length]; lia]. }
  apply Forall_cons in Hb as [He Hb]. destruct (sys_step disk e y) as [r1|] eqn:E; [|done]. cbn in H.
  destruct (busy_step y reqs e r1 Hok Hnd Hsub He E) as (y1 & -> & Hok1 & Hlt). destruct (IH y1 reqs r Hok1 Hnd Hsub Hb H) as (y' & -> & Hok' & Hle).
  exists y'. split_and!; [done|done|cbn [length]; lia].
Qed.

(** The response to a connection. *)
Definition answered (y : sys) (fd : Z) : Prop :=
  forall uri body, (fd, (uri, body)) ∈ jobs -> exists c env_in env_out, conns s0 !! fd = Some c /\
    conns (s_srv y) !! fd = Some (Conn env_in env_out (c_sent c ++ response (request_parse_URI uri MAXLINE) body) false).

Lemma handled_answered y reqs fd : sys_ok y reqs -> fd ∈ handled (s_pool y) -> answered y fd.
Proof.
  intros [_ _ _ _ (jws & Ej & Hw & Hat)] Hfd uri body Hin. rewrite <- Ej in Hin. apply list_elem_of_fmap in Hin as ([j ph] & Ejx & Hx). cbn in Ejx. subst j.
  apply list_elem_of_lookup in Hx as (k & Ek). pose proof (ja_handled _ _ _ (Hat k _ _ Ek) Hfd) as ->.
  destruct (wo_phase _ _ _ _ _ Hw _ _ _ Ek) as (c & [ci co cs cop] & E0 & E1 & Ho & Hsent & _). cbn in *. subst. by exists c, ci, co.
Qed.

(** When nobody has anything to do, all is handled. *)
Lemma sys_idle y reqs : sys_ok y reqs -> (forall e, is_busy e = true -> sys_step disk e y = None) -> forall fd, fd ∈ reqs -> fd ∈ handled (s_pool y).
Proof.
  intros Hok Hidle. pose proof Hok as [Hp Hr Hl Hreq _]. destruct (idle_done nr max Hnr Hmax (s_pool y) Hp Hr) as (Hit & Hm & Hs).
  { intros e He. pose proof (Hidle (Ev e) He) as H. cbn [sys_step] in H. destruct (step e (s_pool y)) as [p'|] eqn:Es; [|done]. exfalso.
    destruct (may_happen e (s_phases y)) eqn:Hmay; [done|]. destruct e as [| |i| | | | | |]; try done. cbn [may_happen step] in Hmay, Es.
    destruct (workers (s_pool y) !! i) as [[| | |fd|]|] eqn:Ew; try done.
    destruct (lookup_lt_is_Some_2 (s_phases y) i) as [ph Eph]; [apply lookup_lt_Some in Ew; rewrite Hl, <- (po_nr _ _ _ Hp); done|].
    rewrite Eph in Hmay. pose proof (Hidle (Advance i) eq_refl) as Ha. cbn [sys_step] in Ha. by rewrite Ew, Eph, Hmay in Ha. }
  intros fd. rewrite <- Hreq, Hm. cbn [waiting]. rewrite app_nil_r, (po_fifo _ _ _ Hp), Hit, app_nil_r, (po_once _ _ _ Hp), Hs.
  destruct (po_running _ _ _ Hp Hr) as (-> & _). by rewrite !app_nil_r.
Qed.

End invariant.

(** C2: The whole server, with its bounded queue, its pool of workers and its
    cache: connections that ask for readable files come in, in any order of all
    the threads' steps, with room in the cache for the files.  No step fails,
    and a connection that a worker is done with has been answered with the
    header and the bytes of its file and closed.  If no more connections come,
    the threads' steps come to an end, and when none is possible any more every
    connection has been answered. *)
Theorem server_answers_all disk jobs s0 c nr max es r :
  (0 < nr)%nat -> 0 < max < 2 ^ 31 -> srv_ok disk (the_web s0) -> fileCache (the_web s0) = Some c ->
  NoDup jobs.*1 -> Forall (job_ok disk s0) jobs -> curr_size c + sum_over (fun j : job => zlen j.2.2) jobs <= WebCache.MAX_SIZE c ->
  Forall no_exit es -> NoDup (requested es) -> (forall fd, fd ∈ requested es -> fd ∈ jobs.*1) ->
  sys_run disk es (sys_init nr max s0) = Some r ->
  exists y, r = Ret y /\ Forall (answered jobs s0 y) (handled (s_pool y)) /\
    forall es' r', Forall (fun e => is_busy e = true) es' -> sys_run disk es' y = Some r' ->
      exists y', r' = Ret y' /\ (length es' + sys_left y' <= sys_left y)%nat /\
        ((forall e, is_busy e = true -> sys_step disk e y' = None) -> Forall (answered jobs s0 y') (requested es)).
Proof.
  intros Hnr Hmax Hok Ec Hjobs Hall Hroom Hne Hnd Hsub Hrun.
  pose proof (sys_init_ok disk jobs s0 (WebCache.MAX_SIZE c) nr max Hnr Hmax Hjobs c Hok Ec Hall Hroom eq_refl) as H0.
  destruct (sys_run_ok disk jobs s0 _ nr max Hnr Hmax Hjobs es _ [] r H0 Hne Hnd Hsub Hrun) as (y & -> & Hy). cbn [app] in Hy.
  exists y. split; [done|]. split; [apply Forall_forall; intros fd Hfd; by eapply handled_answered|].
  intros es' r' Hb Hrun'. destruct (busy_run_ok disk jobs s0 _ nr max Hnr Hmax Hjobs es' y _ r' Hy Hnd Hsub Hb Hrun') as (y' & -> & Hy' & Hle).
  exists y'. split_and!; [done|done|]. intros Hidle. apply Forall_forall. intros fd Hfd. eapply handled_answered; [done|done|]. by eapply sys_idle.
Qed.

(** Two workers, a queue for one connection, two connections for one file. *)
Definition demo_sys_events : list sys_event :=
  [Ev (Enter 0); Ev (Request 5 (Some 0%nat)); Ev (Woken 0); Advance 0; Ev (Enter 1); Advance 0; Ev (Request 6 (Some 1%nat)); Ev (Woken 1);
   Advance 1; Advance 1; Advance 0; Advance 1; Advance 1; Advance 0; Advance 0; Advance 0; Advance 0; Advance 0; Ev (Served 0)].
Definition demo_sys : sys := sys_init 2 1 (demo_srv (Some (init_cache 8192))).
Definition demo_sys_result : res sys := default (Fail Undef) (sys_run demo_disk demo_sys_events demo_sys).

Lemma demo_sys_runs : sys_run demo_disk demo_sys_events demo_sys = Some demo_sys_result.
Proof.
  assert (H : is_Some (sys_run demo_disk demo_sys_events demo_sys)); [|by unfold demo_sys_result; destruct H as [r ->]].
  assert (E : match sys_run demo_disk demo_sys_events demo_sys with Some _ => true | None => false end = true) by (vm_compute; reflexivity).
  destruct (sys_run demo_disk demo_sys_events demo_sys); [by eexists|done].
Qed.

Lemma server_answers_all_witness :
  exists y, demo_sys_result = Ret y /\ Forall (answered demo_jobs (demo_srv (Some (init_cache 8192))) y) (handled (s_pool y)) /\
    forall es' r', Forall (fun e => is_busy e = true) es' -> sys_run demo_disk es' y = Some r' ->
      exists y', r' = Ret y' /\ (length es' + sys_left y' <= sys_left y)%nat /\
        ((forall e, is_busy e = true -> sys_step demo_disk e y' = None) ->
         Forall (answered demo_jobs (demo_srv (Some (init_cache 8192))) y') [5; 6]).
Proof.
  apply (server_answers_all demo_disk demo_jobs (demo_srv (Some (init_cache 8192))) (init_cache 8192) 2 1 demo_sys_events demo_sys_result).
  - lia.
  - lia.
  - by apply demo_srv_ok.
  - reflexivity.
  - by apply (bool_decide_unpack _).
  - exact demo_jobs_ok.
  - vm_compute. discriminate.
  - repeat constructor.
  - by apply (bool_decide_unpack _).
  - intros fd Hfd. exact Hfd.
  - exact demo_sys_runs.
Defined.
